(** * Hair fibre subsystem, point distribution and geometry sets: a shallow embedding

    The definitions below transcribe, function by function, the C and C++
    sources of the hair kernel (blenkernel/intern/hair.c), of the point
    distribute node and of the geometry set container.  Machine integers
    are mathematical integers ([Z]); C arithmetic that leaves the range of
    [int] is undefined: the sums, differences and shifts of the sources go
    through [int_add], [int_sub] and [int_shl], which return [None] there.
    Single precision floats are IEEE-754
    binary32 values, computed with the executable specification of the
    standard library ([SpecFloat]) at precision 24.  Memory accesses that the
    C code performs outside an allocation are undefined behaviour; functions
    that can perform one return [None] there. *)

From Stdlib Require Import ZArith List Bool Lia SpecFloat.
From stdpp Require Import base option list gmap.

Local Open Scope Z_scope.

(** ** Single precision arithmetic *)

Module Float32.

Definition prec : Z := 24.
Definition emax : Z := 128.

Definition float : Type := spec_float.

Definition fadd : float -> float -> float := SFadd prec emax.
Definition fsub : float -> float -> float := SFsub prec emax.
Definition fmul : float -> float -> float := SFmul prec emax.
Definition fdiv : float -> float -> float := SFdiv prec emax.
Definition fsqrt : float -> float := SFsqrt prec emax.

(** C comparisons: every comparison with a NaN is false. *)
Definition flt : float -> float -> bool := SFltb.
Definition fle : float -> float -> bool := SFleb.
Definition feq : float -> float -> bool := SFeqb.
Definition fgt (a b : float) : bool := flt b a.
Definition fge (a b : float) : bool := fle b a.

(** [(float)n] for an integer [n]: round to nearest, ties to even. *)
Definition of_int (n : Z) : float := binary_normalize prec emax n 0 false.

(** [m * 2^e], rounded; used for the literals of the sources. *)
Definition of_scaled (m e : Z) : float := binary_normalize prec emax m e false.

Definition zero : float := S754_zero false.
Definition one : float := of_int 1.
Definition half : float := of_scaled 1 (-1).

Definition is_nan (f : float) : bool :=
  match f with S754_nan => true | _ => false end.

Definition is_finite (f : float) : bool :=
  match f with S754_zero _ | S754_finite _ _ _ => true | _ => false end.

(** The sign bit is clear (zero of either sign counts as non-negative
    only when its sign bit is clear; [-0.0] compares equal to [0.0] and is
    accepted by [nonneg]). *)
Definition nonneg (f : float) : bool := fle zero f.

(** The integer part towards zero of a finite float. *)
Definition trunc (f : float) : option Z :=
  match f with
  | S754_zero _ => Some 0
  | S754_finite s m e =>
      let a := Z.shiftl (Z.pos m) e in
      Some (if s then - a else a)
  | _ => None
  end.

(** The largest integer below or equal to a finite float. *)
Definition floor (f : float) : option Z :=
  match f with
  | S754_zero _ => Some 0
  | S754_finite s m e => Some (Z.shiftl (if s then Z.neg m else Z.pos m) e)
  | _ => None
  end.

Definition INT_MIN : Z := - 2 ^ 31.
Definition INT_MAX : Z := 2 ^ 31 - 1.

Definition in_int_range (z : Z) : bool := (INT_MIN <=? z) && (z <=? INT_MAX).

Definition check_int (z : Z) : option Z :=
  if in_int_range z then Some z else None.

(** The C cast [(int)f]: the value is truncated towards zero; the cast is
    undefined for NaN, infinities and values whose integer part is not an
    [int]. *)
Definition to_int (f : float) : option Z :=
  match trunc f with
  | Some z => check_int z
  | None => None
  end.

(** [floor(f)] as an [int], undefined where [to_int] is. *)
Definition floor_int (f : float) : option Z :=
  match floor f with
  | Some z => check_int z
  | None => None
  end.

(** [floorf]: the floor as a float.  A finite float with a non-negative
    exponent is an integer already. *)
Definition floorf (f : float) : float :=
  match f with
  | S754_finite s m e =>
      if 0 <=? e then f
      else match Z.shiftl (if s then Z.neg m else Z.pos m) e with
           | Z0 => S754_zero s
           | z => of_int z
           end
  | _ => f
  end.

(** Modelled from the spec: [fractf] of BLI_math_base (not under src/),
    the fractional part [a - floorf(a)]. *)
Definition fractf (a : float) : float := fsub a (floorf a).

End Float32.

Import Float32.

(** ** Vectors

    Modelled from the spec: the vector helpers of BLI_math (not under
    src/): component-wise sum, difference and scaling, and the zero
    vector. *)

Definition vec3 : Type := float * float * float.

Definition zero_v3 : vec3 := (zero, zero, zero).

Definition add_v3_v3v3 (a b : vec3) : vec3 :=
  let '(a0, a1, a2) := a in
  let '(b0, b1, b2) := b in
  (fadd a0 b0, fadd a1 b1, fadd a2 b2).

Definition sub_v3_v3v3 (a b : vec3) : vec3 :=
  let '(a0, a1, a2) := a in
  let '(b0, b1, b2) := b in
  (fsub a0 b0, fsub a1 b1, fsub a2 b2).

Definition mul_v3_fl (a : vec3) (f : float) : vec3 :=
  let '(a0, a1, a2) := a in
  (fmul a0 f, fmul a1 f, fmul a2 f).

Definition mat3 : Type := vec3 * vec3 * vec3.

(** ** Arrays of four slots ([unsigned int parent_index[4]],
    [float parent_weight[4]]) *)

Record Array4 (A : Type) : Type := mkArray4 { a0 : A; a1 : A; a2 : A; a3 : A }.
Arguments mkArray4 {A} _ _ _ _.
Arguments a0 {A} _.
Arguments a1 {A} _.
Arguments a2 {A} _.
Arguments a3 {A} _.

Definition get4 {A} (a : Array4 A) (k : nat) : A :=
  match k with
  | O => a0 a
  | 1%nat => a1 a
  | 2%nat => a2 a
  | _ => a3 a
  end.

Definition set4 {A} (a : Array4 A) (k : nat) (v : A) : Array4 A :=
  match k with
  | O => mkArray4 v (a1 a) (a2 a) (a3 a)
  | 1%nat => mkArray4 (a0 a) v (a2 a) (a3 a)
  | 2%nat => mkArray4 (a0 a) (a1 a) v (a3 a)
  | _ => mkArray4 (a0 a) (a1 a) (a2 a) v
  end.

Definition swap4 {A} (a : Array4 A) (i j : nat) : Array4 A :=
  set4 (set4 a i (get4 a j)) j (get4 a i).

Definition fill4 {A} (v : A) : Array4 A := mkArray4 v v v v.

Definition to_list4 {A} (a : Array4 A) : list A := [a0 a; a1 a; a2 a; a3 a].

(** ** Data model (DNA_hair_types.h, BKE_hair.h)

    The struct declarations are not under src/; the fields are those the
    functions of hair.c read and write.  An array and the integer that
    counts its elements ([curves]/[totcurves], [verts]/[totverts],
    [follicles]/[num_follicles]) are one list in the hair system, and the
    count is its length.  The export cache keeps its counters as separate
    fields, because they outlive the buffers they describe. *)

(** Modelled from the spec: [MeshSample], a face index and barycentric-like
    coordinates; hair.c only copies it and hands it to the sample
    evaluator. *)
Record MeshSample : Type := mkMeshSample {
  orig_poly : Z;
  orig_weights : vec3
}.

(** Modelled from the spec: the sentinel "no strand" index,
    [HAIR_STRAND_INDEX_NONE], the largest [unsigned int]. *)
Definition HAIR_STRAND_INDEX_NONE : Z := 4294967295.

(** Modelled from the spec: the flag of [HairSystem.flag] that marks the
    follicle binding dirty (a single bit). *)
Definition HAIR_SYSTEM_UPDATE_FOLLICLE_BINDING : Z := 256.

Record HairFollicle : Type := mkHairFollicle {
  follicle_sample : MeshSample;
  parent_index : Array4 Z;
  parent_weight : Array4 float
}.

Record HairFiberCurve : Type := mkHairFiberCurve {
  mesh_sample : MeshSample;
  numverts : Z;
  vertstart : Z;
  taper_length : float;
  taper_thickness : float
}.

Record HairFiberVertex : Type := mkHairFiberVertex {
  flag : Z;
  co : vec3
}.

Record HairPattern : Type := mkHairPattern {
  follicles : option (list HairFollicle)
}.

Definition num_follicles (p : HairPattern) : Z :=
  match follicles p with
  | Some l => Z.of_nat (length l)
  | None => 0
  end.

Record HairCurveData : Type := mkHairCurveData {
  curves : list HairFiberCurve;
  verts : list HairFiberVertex
}.

Definition totcurves (d : HairCurveData) : Z := Z.of_nat (length (curves d)).
Definition totverts (d : HairCurveData) : Z := Z.of_nat (length (verts d)).

Record HairSystem : Type := mkHairSystem {
  hsys_flag : Z;
  pattern : option HairPattern;
  curve_data : HairCurveData
}.

(** C truth value of [data & flag]. *)
Definition has_flag (data flag : Z) : bool := negb (Z.land data flag =? 0).

(** [data &= ~flag]. *)
Definition clear_flag (data flag : Z) : Z := Z.land data (Z.lnot flag).

(** Array accesses with an [int] index.  Outside the allocation the access
    is undefined. *)
Definition read_at {A} (l : list A) (i : Z) : option A :=
  if i <? 0 then None else l !! Z.to_nat i.

Definition write_at {A} (l : list A) (i : Z) (v : A) : option (list A) :=
  if (0 <=? i) && (i <? Z.of_nat (length l))
  then Some (<[Z.to_nat i := v]> l)
  else None.

(** [for (k = 0; k < n; ++k) body(k, state)], undefined as soon as one
    iteration is. *)
Fixpoint for_loop {S} (n : nat) (k : Z) (body : Z -> S -> option S) (s : S)
  : option S :=
  match n with
  | O => Some s
  | Datatypes.S n' =>
      match body k s with
      | Some s' => for_loop n' (k + 1) body s'
      | None => None
      end
  end.

Definition for_range {S} (from to : Z) (body : Z -> S -> option S) (s : S)
  : option S :=
  for_loop (Z.to_nat (to - from)) from body s.

(** Arithmetic on [int].  A sum or difference that leaves the range of
    [int] is undefined.  [a << n] is defined when [a] is not negative,
    [0 <= n < 32] and [a * 2^n] is an [int] (C99 6.5.7); it is undefined
    otherwise. *)
Definition int_add (a b : Z) : option Z := check_int (a + b).

Definition int_sub (a b : Z) : option Z := check_int (a - b).

Definition int_shl (a n : Z) : option Z :=
  if (0 <=? a) && (0 <=? n) && (n <? 32) then check_int (Z.shiftl a n)
  else None.

(** ** Collaborators of the hair kernel

    The surface-sample evaluator, the spatial index and the geometric
    helpers of BLI_math are services the kernel consumes; their code is not
    part of the kernel, and the kernel is modelled for every behaviour of
    theirs.  [BKE_mesh_sample_eval] returns its success flag together with
    the location, normal and tangent it wrote. *)

Record KDTreeNearest : Type := mkKDTreeNearest {
  nearest_index : Z;
  nearest_dist : float;
  nearest_co : vec3
}.

(** The tree as the list of the points inserted so far, with their index. *)
Definition KDTree : Type := list (Z * vec3).

Class HairServices : Type := {
  Mesh : Type;
  BKE_mesh_sample_eval : Mesh -> MeshSample -> bool * vec3 * vec3 * vec3;
  BLI_kdtree_find_nearest_n : KDTree -> vec3 -> Z -> list KDTreeNearest;
  closest_on_tri_to_point_v3 : vec3 -> vec3 -> vec3 -> vec3 -> vec3;
  interp_weights_tri_v3 : vec3 -> vec3 -> vec3 -> vec3 -> vec3;
  line_point_factor_v3 : vec3 -> vec3 -> vec3 -> float;
  normalize_v3 : vec3 -> vec3;
  cross_v3_v3v3 : vec3 -> vec3 -> vec3;
  rotation_between_vecs_to_mat3 : vec3 -> vec3 -> mat3;
  mul_v3_m3v3 : mat3 -> vec3 -> vec3
}.

(** ** Setters of the guide curves *)

(** What a setter can do: stop at its debug assertion, write outside the
    array it owns, or store the element. *)
Inductive SetterResult (A : Type) : Type :=
| AssertionFailed
| OutOfBounds
| Stored (a : A).
Arguments AssertionFailed {A}.
Arguments OutOfBounds {A}.
Arguments Stored {A} _.

Definition mark_binding_dirty (hsys : HairSystem) : HairSystem :=
  mkHairSystem (Z.lor (hsys_flag hsys) HAIR_SYSTEM_UPDATE_FOLLICLE_BINDING)
               (pattern hsys) (curve_data hsys).

(** [BKE_hair_set_fiber_curve]: [vertstart] of the element is left as it
    is. *)
Definition BKE_hair_set_fiber_curve (hsys : HairSystem) (index : Z)
    (sample : MeshSample) (nverts : Z) (tlength tthickness : float)
  : SetterResult HairSystem :=
  if index <=? totcurves (curve_data hsys) then
    match read_at (curves (curve_data hsys)) index with
    | Some curve =>
        let curve' := mkHairFiberCurve sample nverts (vertstart curve)
                                       tlength tthickness in
        match write_at (curves (curve_data hsys)) index curve' with
        | Some cs =>
            Stored (mark_binding_dirty
                      (mkHairSystem (hsys_flag hsys) (pattern hsys)
                         (mkHairCurveData cs (verts (curve_data hsys)))))
        | None => OutOfBounds
        end
    | None => OutOfBounds
    end
  else AssertionFailed.

(** [BKE_hair_set_fiber_vertex]. *)
Definition BKE_hair_set_fiber_vertex (hsys : HairSystem) (index : Z)
    (vflag : Z) (vco : vec3) : SetterResult HairSystem :=
  if index <=? totverts (curve_data hsys) then
    match write_at (verts (curve_data hsys)) index
                   (mkHairFiberVertex vflag vco) with
    | Some vs =>
        Stored (mkHairSystem (hsys_flag hsys) (pattern hsys)
                  (mkHairCurveData (curves (curve_data hsys)) vs))
    | None => OutOfBounds
    end
  else AssertionFailed.

(** ** Strand binder *)

(** The conditions [hair_fiber_verify_weights] asserts, with the tolerance
    as a parameter (the source uses [1.0e-2]). *)
Definition weights_nonneg (w : Array4 float) : bool :=
  fge (a0 w) zero && fge (a1 w) zero && fge (a2 w) zero && fge (a3 w) zero.

Definition weights_sum (w : Array4 float) : float :=
  fadd (fadd (fadd (a0 w) (a1 w)) (a2 w)) (a3 w).

Definition weights_sum_near_one (epsilon : float) (w : Array4 float) : bool :=
  fgt (weights_sum w) (fsub one epsilon) && flt (weights_sum w) (fadd one epsilon).

Definition weights_sorted (w : Array4 float) : bool :=
  fge (a0 w) (a1 w) && fge (a1 w) (a2 w) && fge (a2 w) (a3 w).

Definition hair_fiber_verify_weights (epsilon : float) (follicle : HairFollicle)
  : bool :=
  weights_nonneg (parent_weight follicle)
  && weights_sum_near_one epsilon (parent_weight follicle)
  && weights_sorted (parent_weight follicle).

(** [FIBERSWAP(a, b)]. *)
Definition FIBERSWAP (follicle : HairFollicle) (a b : nat) : HairFollicle :=
  mkHairFollicle (follicle_sample follicle)
                 (swap4 (parent_index follicle) a b)
                 (swap4 (parent_weight follicle) a b).

(** The inner loop of [hair_fiber_sort_weights]: the position of the first
    largest weight among the slots [k .. 3]. *)
Definition sort_find_max (w : Array4 float) (k : nat) : nat :=
  fst (fold_left
         (fun (acc : nat * float) (i : nat) =>
            if fgt (get4 w i) (snd acc) then (i, get4 w i) else acc)
         (seq (S k) (3 - k))
         (k, get4 w k)).

Definition sort_step (follicle : HairFollicle) (k : nat) : HairFollicle :=
  let maxi := sort_find_max (parent_weight follicle) k in
  if Nat.eqb maxi k then follicle else FIBERSWAP follicle k maxi.

Definition hair_fiber_sort_weights (follicle : HairFollicle) : HairFollicle :=
  fold_left sort_step (seq 0 3) follicle.

(** Modelled from the spec: the [CLAMP] macro of BLI_utildefines.h (not
    under src/), a floating-point clamp without renormalisation. *)
Definition CLAMP (a b c : float) : float :=
  if flt a b then b else if fgt a c then c else a.

Section Binder.
Context `{HairServices}.

Definition hair_fiber_find_closest_strand (follicle : HairFollicle)
    (loc : vec3) (tree : KDTree) (strandloc : list vec3)
  : option HairFollicle :=
  let nearest := take 3 (BLI_kdtree_find_nearest_n tree loc 3) in
  let found := length nearest in
  (* slots below [found] take the strands found, the others the sentinel *)
  sloc ← mapM (fun n => read_at strandloc (nearest_index n)) nearest;
  let idx k :=
    match nearest !! k with
    | Some n => nearest_index n mod 2 ^ 32
    | None => HAIR_STRAND_INDEX_NONE
    end in
  let old k :=
    match nearest !! k with
    | Some _ => get4 (parent_weight follicle) k
    | None => zero
    end in
  let index := mkArray4 (idx 0%nat) (idx 1%nat) (idx 2%nat) (idx 3%nat) in
  let weight := mkArray4 (old 0%nat) (old 1%nat) (old 2%nat) (old 3%nat) in
  let weight' :=
    match sloc with
    | [s0; s1; s2] =>
        let closest := closest_on_tri_to_point_v3 loc s0 s1 s2 in
        let '(w0, w1, w2) := interp_weights_tri_v3 s0 s1 s2 closest in
        mkArray4 (CLAMP w0 zero one) (CLAMP w1 zero one)
                 (CLAMP w2 zero one) (a3 weight)
    | [s0; s1] =>
        let w1 := line_point_factor_v3 loc s0 s1 in
        let w0 := fsub one w1 in
        mkArray4 (CLAMP w0 zero one) (CLAMP w1 zero one)
                 (a2 weight) (a3 weight)
    | [s0] => mkArray4 one (a1 weight) (a2 weight) (a3 weight)
    | _ => weight
    end in
  Some (hair_fiber_sort_weights
          (mkHairFollicle (follicle_sample follicle) index weight')).

Definition clear_binding (follicle : HairFollicle) : HairFollicle :=
  mkHairFollicle (follicle_sample follicle)
                 (fill4 HAIR_STRAND_INDEX_NONE) (fill4 zero).

Definition strand_location (scalp : Mesh) (curve : HairFiberCurve) : vec3 :=
  let '(ok, loc, _, _) := BKE_mesh_sample_eval scalp (mesh_sample curve) in
  if ok then loc else zero_v3.

Definition kdtree_of (strandloc : list vec3) : KDTree :=
  imap (fun c loc => (Z.of_nat c, loc)) strandloc.

Definition bind_follicle (scalp : Mesh) (tree : KDTree)
    (strandloc : list vec3) (follicle : HairFollicle) : option HairFollicle :=
  let '(ok, loc, _, _) := BKE_mesh_sample_eval scalp (follicle_sample follicle) in
  if ok then hair_fiber_find_closest_strand follicle loc tree strandloc
  else Some follicle.

(** [BKE_hair_bind_follicles]: the hair system afterwards and the value
    returned. *)
Definition BKE_hair_bind_follicles (hsys : HairSystem) (scalp : Mesh)
  : option (HairSystem * bool) :=
  if negb (has_flag (hsys_flag hsys) HAIR_SYSTEM_UPDATE_FOLLICLE_BINDING)
  then Some (hsys, true)
  else
    let flag' := clear_flag (hsys_flag hsys) HAIR_SYSTEM_UPDATE_FOLLICLE_BINDING in
    match pattern hsys with
    | None => Some (mkHairSystem flag' None (curve_data hsys), true)
    | Some pat =>
        let num_strands := totcurves (curve_data hsys) in
        if num_strands =? 0 then
          let pat' := mkHairPattern (fmap (M := option) (map clear_binding) (follicles pat)) in
          Some (mkHairSystem flag' (Some pat') (curve_data hsys), false)
        else
          let strandloc := map (strand_location scalp) (curves (curve_data hsys)) in
          let tree := kdtree_of strandloc in
          match follicles pat with
          | None =>
              Some (mkHairSystem flag' (Some pat) (curve_data hsys), true)
          | Some fs =>
              fs' ← mapM (bind_follicle scalp tree strandloc) fs;
              Some (mkHairSystem flag' (Some (mkHairPattern (Some fs')))
                                 (curve_data hsys), true)
          end
    end.

End Binder.

(** ** Curve subdivider *)

(** Returns number of vertices in a curve after subdivision. *)
Definition hair_get_strand_subdiv_length (orig_length subdiv : Z) : option Z :=
  a ← int_sub orig_length 1;
  b ← int_shl a subdiv;
  int_add b 1.

(** Returns total number of vertices after subdivision. *)
Definition hair_get_strand_subdiv_numverts (numstrands nverts subdiv : Z)
  : option Z :=
  a ← int_sub nverts numstrands;
  b ← int_shl a subdiv;
  int_add b numstrands.

(** [r_verts[i].co = v]: the flag of the vertex is not touched. *)
Definition set_co (r_verts : list HairFiberVertex) (i : Z) (v : vec3)
  : option (list HairFiberVertex) :=
  old ← read_at r_verts i;
  write_at r_verts i (mkHairFiberVertex (flag old) v).

(** First block of [hair_curve_subdivide]: the control points, moved by
    [offset], go to every [step]-th vertex ([dst] is [r_verts + i * step]). *)
Definition subdivide_spread (nverts : Z) (verts : list HairFiberVertex)
    (step : Z) (offset : vec3) (r_verts : list HairFiberVertex)
  : option (list HairFiberVertex) :=
  for_range 0 nverts
    (fun i r =>
       v ← read_at verts i;
       set_co r (i * step) (add_v3_v3v3 (co v) offset))
    r_verts.

(** "Calculate edge points" at level [d] ([index] is [k * step]). *)
Definition subdivide_edge_points (num_edges hstep step : Z)
    (r_verts : list HairFiberVertex) : option (list HairFiberVertex) :=
  for_range 0 num_edges
    (fun k r =>
       let index := k * step in
       a ← read_at r index;
       b ← read_at r (index + step);
       set_co r (index + hstep) (mul_v3_fl (add_v3_v3v3 (co a) (co b)) half))
    r_verts.

(** "Move original points" at level [d] ([index] starts at [step] with
    [k = 1]). *)
Definition subdivide_move_points (num_edges hstep step : Z)
    (r_verts : list HairFiberVertex) : option (list HairFiberVertex) :=
  for_range 1 num_edges
    (fun k r =>
       let index := k * step in
       a ← read_at r (index - hstep);
       b ← read_at r (index + hstep);
       set_co r index (mul_v3_fl (add_v3_v3v3 (co a) (co b)) half))
    r_verts.

Definition subdivide_level (nverts subdiv d : Z)
    (r_verts : list HairFiberVertex) : option (list HairFiberVertex) :=
  a ← int_sub nverts 1;
  num_edges ← int_shl a d;
  hstep ← int_shl 1 (subdiv - d - 1);
  step ← int_shl 1 (subdiv - d);
  r ← subdivide_edge_points num_edges hstep step r_verts;
  subdivide_move_points num_edges hstep step r.

(** [hair_curve_subdivide]: [verts] is the array from the first vertex of
    the curve on, [r_verts] the output array from the first output vertex
    on.  Returns the output array and the number of vertices.  The shifts
    and the sum are those of [int]: undefined for a negative operand, for a
    shift amount outside [0 .. 31] and for a result that is not an [int]. *)
Definition hair_curve_subdivide (curve : HairFiberCurve)
    (verts : list HairFiberVertex) (subdiv : Z) (rootpos : vec3)
    (r_verts : list HairFiberVertex)
  : option (list HairFiberVertex * Z) :=
  step ← int_shl 1 subdiv;
  v0 ← read_at verts 0;
  let offset := sub_v3_v3v3 rootpos (co v0) in
  r0 ← subdivide_spread (numverts curve) verts step offset r_verts;
  r ← for_range 0 subdiv (subdivide_level (numverts curve) subdiv) r0;
  a ← int_sub (numverts curve) 1;
  b ← int_shl a subdiv;
  num_verts ← int_add b 1;
  Some (r, num_verts).

(** ** Frame transport *)

Section FrameTransport.
Context `{HairServices}.

(** [hair_curve_transport_frame]: the tangent and normal of the segment;
    they also become the previous frame of the next call. *)
Definition hair_curve_transport_frame (co1 co2 prev_tang prev_nor : vec3)
  : vec3 * vec3 :=
  let r_tang := normalize_v3 (sub_v3_v3v3 co2 co1) in
  let rot := rotation_between_vecs_to_mat3 prev_tang r_tang in
  let r_nor := mul_v3_m3v3 rot prev_nor in
  (r_tang, r_nor).

(** One call of the transport between the vertices [i1] and [i2], stored
    at [out]; the state is the previous frame and the two output arrays. *)
Definition calc_vectors_step (vs : list HairFiberVertex) (i1 i2 out : Z)
    (st : vec3 * vec3 * list vec3 * list vec3)
  : option (vec3 * vec3 * list vec3 * list vec3) :=
  let '(prev_tang, prev_nor, tangents, normals) := st in
  v1 ← read_at vs i1;
  v2 ← read_at vs i2;
  let '(t, n) := hair_curve_transport_frame (co v1) (co v2) prev_tang prev_nor in
  tangents' ← write_at tangents out t;
  normals' ← write_at normals out n;
  Some (t, n, tangents', normals').

(** [hair_curve_calc_vectors] (release build: the assertion
    [numverts >= 2] is not checked). *)
Definition hair_curve_calc_vectors (vs : list HairFiberVertex) (nverts : Z)
    (rootmat : mat3) (r_tangents r_normals : list vec3)
  : option (list vec3 * list vec3) :=
  let '(rootmat0, _, rootmat2) := rootmat in
  st0 ← calc_vectors_step vs 0 1 0 (rootmat2, rootmat0, r_tangents, r_normals);
  st1 ← for_range 1 (nverts - 1)
          (fun i st => calc_vectors_step vs (i - 1) (i + 1) i st) st0;
  st2 ← calc_vectors_step vs (nverts - 2) (nverts - 1) (nverts - 1) st1;
  let '(_, _, tangents, normals) := st2 in
  Some (tangents, normals).

End FrameTransport.

(** ** Export cache *)

(** Modelled from the spec: the five category flags of
    [eHairExportCacheUpdateFlags] (BKE_hair.h, not under src/), five
    distinct single bits, and [HAIR_EXPORT_ALL], their union. *)
Definition HAIR_EXPORT_FIBER_ROOT_POSITIONS : Z := 1.
Definition HAIR_EXPORT_FIBER_VERTEX_COUNTS : Z := 2.
Definition HAIR_EXPORT_FOLLICLE_BINDING : Z := 4.
Definition HAIR_EXPORT_FIBER_CURVES : Z := 8.
Definition HAIR_EXPORT_FIBER_VERTICES : Z := 16.
Definition HAIR_EXPORT_ALL : Z :=
  Z.lor HAIR_EXPORT_FIBER_ROOT_POSITIONS
    (Z.lor HAIR_EXPORT_FIBER_VERTEX_COUNTS
       (Z.lor HAIR_EXPORT_FOLLICLE_BINDING
          (Z.lor HAIR_EXPORT_FIBER_CURVES HAIR_EXPORT_FIBER_VERTICES))).

(** A pointer to a buffer the cache owns: null, pointing to an allocation,
    or still pointing to an allocation that has been freed. *)
Inductive Buffer (A : Type) : Type :=
| Null
| Live (data : list A)
| Freed.
Arguments Null {A}.
Arguments Live {A} _.
Arguments Freed {A}.

(** C truth value of the pointer. *)
Definition non_null {A} (b : Buffer A) : bool :=
  match b with Null => false | _ => true end.

Definition contents {A} (b : Buffer A) : option (list A) :=
  match b with Live l => Some l | _ => None end.

(** [MEM_reallocN_id(b, n * sizeof(A))]: the new allocation of [n] elements.
    What a fresh allocation holds is indeterminate; the model writes [fresh].
    Reallocating a freed pointer is undefined. *)
Definition MEM_reallocN {A} (b : Buffer A) (n : Z) (fresh : A) : option (list A) :=
  match b with
  | Null => Some (replicate (Z.to_nat n) fresh)
  | Live l => Some (take (Z.to_nat n) l
                      ++ replicate (Z.to_nat n - length l) fresh)
  | Freed => None
  end.

(** [if (b) { MEM_freeN(b); b = NULL; }], undefined when [b] was freed
    before. *)
Definition free_and_clear {A} (b : Buffer A) : option (Buffer A) :=
  match b with
  | Null => Some Null
  | Live _ => Some Null
  | Freed => None
  end.

Record HairExportCache : Type := mkHairExportCache {
  fiber_curves : Buffer HairFiberCurve;
  cache_totcurves : Z;
  fiber_verts : Buffer HairFiberVertex;
  fiber_tangents : Buffer vec3;
  fiber_normals : Buffer vec3;
  cache_totverts : Z;
  (* borrowed from the pattern of the hair system *)
  cache_follicles : option (list HairFollicle);
  totfibercurves : Z;
  fiber_numverts : Buffer Z;
  fiber_root_position : Buffer vec3;
  totfiberverts : Z
}.

(** [BKE_hair_export_cache_new]: a zeroed allocation. *)
Definition BKE_hair_export_cache_new : HairExportCache :=
  mkHairExportCache Null 0 Null Null Null 0 None 0 Null Null 0.

Definition is_None {A} (o : option A) : bool :=
  match o with None => true | Some _ => false end.

Definition flag_if (b : bool) (f : Z) : Z := if b then f else 0.

(** Returns flags for missing data parts. *)
Definition hair_export_cache_get_required_updates (cache : HairExportCache) : Z :=
  let data := 0 in
  let data := Z.lor data (flag_if (negb (non_null (fiber_curves cache)))
                                  HAIR_EXPORT_FIBER_CURVES) in
  let data := Z.lor data (flag_if (negb (non_null (fiber_verts cache))
                                   || negb (non_null (fiber_normals cache))
                                   || negb (non_null (fiber_tangents cache)))
                                  HAIR_EXPORT_FIBER_VERTICES) in
  let data := Z.lor data (flag_if (is_None (cache_follicles cache))
                                  HAIR_EXPORT_FOLLICLE_BINDING) in
  let data := Z.lor data (flag_if (negb (non_null (fiber_root_position cache)))
                                  HAIR_EXPORT_FIBER_ROOT_POSITIONS) in
  let data := Z.lor data (flag_if (negb (non_null (fiber_numverts cache)))
                                  HAIR_EXPORT_FIBER_VERTEX_COUNTS) in
  data.

(** Include data dependencies of the given flags. *)
Definition hair_export_cache_get_dependencies (data : Z) : Z :=
  let data :=
    if has_flag data HAIR_EXPORT_FIBER_CURVES
    then Z.lor data (Z.lor HAIR_EXPORT_FIBER_VERTICES HAIR_EXPORT_FOLLICLE_BINDING)
    else data in
  let data :=
    if has_flag data HAIR_EXPORT_FOLLICLE_BINDING
    then Z.lor data (Z.lor HAIR_EXPORT_FIBER_ROOT_POSITIONS
                           HAIR_EXPORT_FIBER_VERTEX_COUNTS)
    else data in
  data.

(** The five data categories, to name the blocks of the update in the
    order in which it runs them. *)
Inductive Category : Type :=
| FiberCurves
| FiberVertices
| FollicleBinding
| FiberRootPositions
| FiberVertexCounts.

#[global] Instance Category_eq_dec : EqDecision Category.
Proof. solve_decision. Defined.

Definition category_flag (c : Category) : Z :=
  match c with
  | FiberCurves => HAIR_EXPORT_FIBER_CURVES
  | FiberVertices => HAIR_EXPORT_FIBER_VERTICES
  | FollicleBinding => HAIR_EXPORT_FOLLICLE_BINDING
  | FiberRootPositions => HAIR_EXPORT_FIBER_ROOT_POSITIONS
  | FiberVertexCounts => HAIR_EXPORT_FIBER_VERTEX_COUNTS
  end.

(** The loop of the "curves" block: every curve of the hair system is
    copied, with its subdivided length and its offset in the flat vertex
    array; returns the curves and the total number of vertices.  The total
    is accumulated in an [int]. *)
Fixpoint export_curves (subdiv : Z) (orig : list HairFiberCurve) (totverts : Z)
  : option (list HairFiberCurve * Z) :=
  match orig with
  | [] => Some ([], totverts)
  | curve_orig :: rest =>
      n ← hair_get_strand_subdiv_length (numverts curve_orig) subdiv;
      let curve := mkHairFiberCurve (mesh_sample curve_orig) n totverts
                     (taper_length curve_orig) (taper_thickness curve_orig) in
      totverts' ← int_add totverts n;
      '(out, tot) ← export_curves subdiv rest totverts';
      Some (curve :: out, tot)
  end.

(** [(int)u] for an [unsigned int] [u]. *)
Definition int_of_uint (u : Z) : Z :=
  if u <? 2 ^ 31 then u else u - 2 ^ 32.

(** The loop over the parent slots of one follicle: the weighted sum of the
    subdivided lengths of its parents, up to the first slot that is unused. *)
Fixpoint fiber_length (slots : list (Z * float))
    (cache_curves : list HairFiberCurve) (fiblen : float) : option float :=
  match slots with
  | [] => Some fiblen
  | (si, sw) :: rest =>
      if (si =? HAIR_STRAND_INDEX_NONE) || feq sw zero then Some fiblen
      else
        curve ← read_at cache_curves (int_of_uint si);
        fiber_length rest cache_curves
          (fadd fiblen (fmul (of_int (numverts curve)) sw))
  end.

Definition follicle_slots (follicle : HairFollicle) : list (Z * float) :=
  zip (to_list4 (parent_index follicle)) (to_list4 (parent_weight follicle)).

(** "Use rounded number of segments": [(int)(fiblen + 0.5f)]. *)
Definition fiber_numverts_of (follicle : HairFollicle)
    (cache_curves : list HairFiberCurve) : option Z :=
  fiblen ← fiber_length (follicle_slots follicle) cache_curves zero;
  to_int (fadd fiblen half).

Definition fresh_vertex : HairFiberVertex := mkHairFiberVertex 0 zero_v3.
Definition fresh_curve : HairFiberCurve :=
  mkHairFiberCurve (mkMeshSample 0 zero_v3) 0 0 zero zero.

(** [&array[i]]: the array from element [i] on. *)
Definition array_from {A} (l : list A) (i : Z) : option (list A) :=
  if (0 <=? i) && (i <=? Z.of_nat (length l))
  then Some (drop (Z.to_nat i) l)
  else None.

(** The part of the array before element [i]. *)
Definition array_before {A} (l : list A) (i : Z) : list A :=
  take (Z.to_nat i) l.

Definition buffer_list {A} (b : Buffer A) : list A :=
  match b with Live l => l | _ => [] end.

Definition pattern_list (pat : HairPattern) : list HairFollicle :=
  match follicles pat with Some l => l | None => [] end.

Section ExportCache.
Context `{HairServices}.

(** The block under [data & HAIR_EXPORT_FIBER_CURVES]. *)
Definition update_fiber_curves (hsys : HairSystem) (subdiv : Z)
    (cache : HairExportCache) : option HairExportCache :=
  let n := totcurves (curve_data hsys) in
  _ ← MEM_reallocN (fiber_curves cache) n fresh_curve;
  '(cs, tot) ← export_curves subdiv (curves (curve_data hsys)) 0;
  Some (mkHairExportCache (Live cs) n
          (fiber_verts cache) (fiber_tangents cache) (fiber_normals cache)
          tot
          (cache_follicles cache) (totfibercurves cache)
          (fiber_numverts cache) (fiber_root_position cache)
          (totfiberverts cache)).

(** One iteration of the loop of the "vertices" block. *)
Definition update_vertices_of_curve (hsys : HairSystem) (subdiv : Z)
    (scalp : Mesh) (cache_curves : list HairFiberCurve) (i : Z)
    (st : list HairFiberVertex * list vec3 * list vec3)
  : option (list HairFiberVertex * list vec3 * list vec3) :=
  let '(vs, tangents, normals) := st in
  curve_orig ← read_at (curves (curve_data hsys)) i;
  verts_orig ← array_from (verts (curve_data hsys)) (vertstart curve_orig);
  curve ← read_at cache_curves i;
  r_verts ← array_from vs (vertstart curve);
  r_tangents ← array_from tangents (vertstart curve);
  r_normals ← array_from normals (vertstart curve);
  let '(_, rootpos, nor, tang) := BKE_mesh_sample_eval scalp (mesh_sample curve) in
  let rootmat : mat3 := (tang, cross_v3_v3v3 nor tang, nor) in
  out ← hair_curve_subdivide curve_orig verts_orig subdiv rootpos r_verts;
  vecs ← hair_curve_calc_vectors (fst out) (numverts curve) rootmat
           r_tangents r_normals;
  Some (array_before vs (vertstart curve) ++ fst out,
        array_before tangents (vertstart curve) ++ fst vecs,
        array_before normals (vertstart curve) ++ snd vecs).

(** The block under [data & HAIR_EXPORT_FIBER_VERTICES]. *)
Definition update_fiber_vertices (hsys : HairSystem) (subdiv : Z)
    (scalp : Mesh) (cache : HairExportCache) : option HairExportCache :=
  let n := cache_totcurves cache in
  let tot := cache_totverts cache in
  vs ← MEM_reallocN (fiber_verts cache) tot fresh_vertex;
  ts ← MEM_reallocN (fiber_tangents cache) tot zero_v3;
  ns ← MEM_reallocN (fiber_normals cache) tot zero_v3;
  st ← for_range 0 n
         (update_vertices_of_curve hsys subdiv scalp
            (buffer_list (fiber_curves cache)))
         (vs, ts, ns);
  let '(vs', ts', ns') := st in
  Some (mkHairExportCache (fiber_curves cache) (cache_totcurves cache)
          (Live vs') (Live ts') (Live ns')
          (cache_totverts cache)
          (cache_follicles cache) (totfibercurves cache)
          (fiber_numverts cache) (fiber_root_position cache)
          (totfiberverts cache)).

(** The block under [data & HAIR_EXPORT_FOLLICLE_BINDING]. *)
Definition update_follicle_binding (pat : HairPattern)
    (cache : HairExportCache) : option HairExportCache :=
  Some (mkHairExportCache (fiber_curves cache) (cache_totcurves cache)
          (fiber_verts cache) (fiber_tangents cache) (fiber_normals cache)
          (cache_totverts cache)
          (follicles pat) (num_follicles pat)
          (fiber_numverts cache) (fiber_root_position cache)
          (totfiberverts cache)).

(** The block under [data & HAIR_EXPORT_FIBER_VERTEX_COUNTS]. *)
Definition update_fiber_vertex_counts (pat : HairPattern)
    (cache : HairExportCache) : option HairExportCache :=
  let n := totfibercurves cache in
  buf ← MEM_reallocN (fiber_numverts cache) n 0;
  st ← for_range 0 n
         (fun i (st : list Z * Z) =>
            follicle ← read_at (pattern_list pat) i;
            nv ← fiber_numverts_of follicle (buffer_list (fiber_curves cache));
            buf' ← write_at (fst st) i nv;
            tot ← int_add (snd st) nv;
            Some (buf', tot))
         (buf, 0);
  Some (mkHairExportCache (fiber_curves cache) (cache_totcurves cache)
          (fiber_verts cache) (fiber_tangents cache) (fiber_normals cache)
          (cache_totverts cache)
          (cache_follicles cache) (totfibercurves cache)
          (Live (fst st)) (fiber_root_position cache)
          (snd st)).

(** The block under [data & HAIR_EXPORT_FIBER_ROOT_POSITIONS]. *)
Definition update_fiber_root_positions (pat : HairPattern) (scalp : Mesh)
    (cache : HairExportCache) : option HairExportCache :=
  let n := totfibercurves cache in
  buf ← MEM_reallocN (fiber_root_position cache) n zero_v3;
  buf' ← for_range 0 n
           (fun i buf =>
              follicle ← read_at (pattern_list pat) i;
              let '(_, loc, _, _) :=
                BKE_mesh_sample_eval scalp (follicle_sample follicle) in
              write_at buf i loc)
           buf;
  Some (mkHairExportCache (fiber_curves cache) (cache_totcurves cache)
          (fiber_verts cache) (fiber_tangents cache) (fiber_normals cache)
          (cache_totverts cache)
          (cache_follicles cache) (totfibercurves cache)
          (fiber_numverts cache) (Live buf')
          (totfiberverts cache)).

(** The branch taken when the hair system has no pattern. *)
Definition update_without_pattern (cache : HairExportCache)
  : option HairExportCache :=
  nv ← free_and_clear (fiber_numverts cache);
  rp ← free_and_clear (fiber_root_position cache);
  Some (mkHairExportCache (fiber_curves cache) (cache_totcurves cache)
          (fiber_verts cache) (fiber_tangents cache) (fiber_normals cache)
          (cache_totverts cache)
          None 0 nv rp
          (totfiberverts cache)).

(** [if (data & flag) { block }]: the cache after the block, and the
    record of the blocks run so far. *)
Definition run_block (data : Z) (c : Category)
    (block : HairExportCache -> option HairExportCache)
    (st : HairExportCache * list Category)
  : option (HairExportCache * list Category) :=
  if has_flag data (category_flag c)
  then
    cache' ← block (fst st);
    Some (cache', snd st ++ [c])
  else Some st.

(** [BKE_hair_export_cache_update] (release build): the cache afterwards,
    the flags returned, and the categories recomputed, in the order in
    which their blocks ran. *)
Definition BKE_hair_export_cache_update (cache : HairExportCache)
    (hsys : HairSystem) (subdiv : Z) (scalp : Mesh) (requested_data : Z)
  : option (HairExportCache * Z * list Category) :=
  (* Include dependencies *)
  let data := hair_export_cache_get_dependencies requested_data in
  let uncached := hair_export_cache_get_required_updates cache in
  (* Only update invalidated parts *)
  let data := Z.land data uncached in
  st ← run_block data FiberCurves (update_fiber_curves hsys subdiv) (cache, []);
  st ← run_block data FiberVertices (update_fiber_vertices hsys subdiv scalp) st;
  st ← match pattern hsys with
       | Some pat =>
           st ← run_block data FollicleBinding (update_follicle_binding pat) st;
           st ← run_block data FiberVertexCounts (update_fiber_vertex_counts pat) st;
           run_block data FiberRootPositions (update_fiber_root_positions pat scalp) st
       | None =>
           cache' ← update_without_pattern (fst st);
           Some (cache', snd st)
       end;
  Some (fst st, data, snd st).

End ExportCache.

(** [if (b) { MEM_freeN(b); }] without resetting the pointer. *)
Definition free_only {A} (b : Buffer A) : option (Buffer A) :=
  match b with
  | Null => Some Null
  | Live _ => Some Freed
  | Freed => None
  end.

(** [BKE_hair_export_cache_invalidate]; undefined when it frees a buffer a
    second time. *)
Definition BKE_hair_export_cache_invalidate (cache : HairExportCache)
    (invalidate : Z) : option HairExportCache :=
  (* Include dependencies *)
  let data := hair_export_cache_get_dependencies invalidate in
  curves' ←
    (if has_flag data HAIR_EXPORT_FIBER_CURVES
     then free_and_clear (fiber_curves cache)
     else Some (fiber_curves cache));
  vtn ←
    (if has_flag data HAIR_EXPORT_FIBER_VERTICES
     then
       vs ← free_and_clear (fiber_verts cache);
       ts ← free_and_clear (fiber_tangents cache);
       (* the third buffer is freed, and fiber_tangents is the pointer reset *)
       ns ← free_only (fiber_normals cache);
       Some (vs, (if non_null (fiber_normals cache) then Null else ts), ns)
     else Some (fiber_verts cache, fiber_tangents cache, fiber_normals cache));
  let follicles' :=
    if has_flag data HAIR_EXPORT_FOLLICLE_BINDING
    then None else cache_follicles cache in
  root' ←
    (if has_flag data HAIR_EXPORT_FIBER_ROOT_POSITIONS
     then free_and_clear (fiber_root_position cache)
     else Some (fiber_root_position cache));
  numverts' ←
    (if has_flag data HAIR_EXPORT_FIBER_VERTEX_COUNTS
     then free_and_clear (fiber_numverts cache)
     else Some (fiber_numverts cache));
  Some (mkHairExportCache curves' (cache_totcurves cache)
          (fst (fst vtn)) (snd (fst vtn)) (snd vtn)
          (cache_totverts cache)
          follicles' (totfibercurves cache)
          numverts' root'
          (totfiberverts cache)).

(** Invalidate all data in a hair export cache. *)
Definition BKE_hair_export_cache_clear (cache : HairExportCache)
  : option HairExportCache :=
  BKE_hair_export_cache_invalidate cache HAIR_EXPORT_ALL.

(** [BKE_hair_export_cache_free]: every buffer that is not null is freed
    and the cache itself is released; undefined when a buffer was freed
    before. *)
Definition BKE_hair_export_cache_free (cache : HairExportCache) : option unit :=
  _ ← free_only (fiber_numverts cache);
  _ ← free_only (fiber_curves cache);
  _ ← free_only (fiber_verts cache);
  _ ← free_only (fiber_tangents cache);
  _ ← free_only (fiber_normals cache);
  _ ← free_only (fiber_root_position cache);
  Some tt.

(** ** Editing the guide curves *)

(** [BKE_hair_new]: a zeroed hair system with a zeroed pattern. *)
Definition BKE_hair_new : HairSystem :=
  mkHairSystem 0 (Some (mkHairPattern None)) (mkHairCurveData [] []).

(** [MEM_reallocN(array, sizeof(A) * n)] on an array of the hair system:
    the elements that fit are kept, and what the new ones hold is
    indeterminate; the model writes [fresh].  A negative count is not a
    size the allocator can serve. *)
Definition realloc_array {A} (l : list A) (n : Z) (fresh : A) : option (list A) :=
  if n <? 0 then None
  else Some (take (Z.to_nat n) l ++ replicate (Z.to_nat n - length l) fresh).

(** [BKE_hair_fiber_curves_begin]. *)
Definition BKE_hair_fiber_curves_begin (hsys : HairSystem) (ncurves : Z)
  : option HairSystem :=
  if negb (ncurves =? totcurves (curve_data hsys)) then
    cs ← realloc_array (curves (curve_data hsys)) ncurves fresh_curve;
    Some (mark_binding_dirty
            (mkHairSystem (hsys_flag hsys) (pattern hsys)
               (mkHairCurveData cs (verts (curve_data hsys)))))
  else Some hsys.

(** The loop of [hair_curve_calc_vertstart], from the curve it has
    reached and the offset accumulated so far: the curves with their start
    indices, and the total.  The offset is accumulated in an [int]. *)
Fixpoint calc_vertstart_loop (cs : list HairFiberCurve) (vstart : Z)
  : option (list HairFiberCurve * Z) :=
  match cs with
  | [] => Some ([], vstart)
  | curve :: rest =>
      let curve' := mkHairFiberCurve (mesh_sample curve) (numverts curve) vstart
                      (taper_length curve) (taper_thickness curve) in
      vstart' ← int_add vstart (numverts curve);
      '(out, tot) ← calc_vertstart_loop rest vstart';
      Some (curve' :: out, tot)
  end.

(** [hair_curve_calc_vertstart]: calculates the vertex start indices of all
    curves; returns the hair system and the total number of vertices. *)
Definition hair_curve_calc_vertstart (hsys : HairSystem)
  : option (HairSystem * Z) :=
  '(cs, tot) ← calc_vertstart_loop (curves (curve_data hsys)) 0;
  Some (mkHairSystem (hsys_flag hsys) (pattern hsys)
          (mkHairCurveData cs (verts (curve_data hsys))),
        tot).

(** [BKE_hair_fiber_curves_end]. *)
Definition BKE_hair_fiber_curves_end (hsys : HairSystem) : option HairSystem :=
  '(hsys, nverts) ← hair_curve_calc_vertstart hsys;
  if negb (nverts =? totverts (curve_data hsys)) then
    vs ← realloc_array (verts (curve_data hsys)) nverts fresh_vertex;
    Some (mkHairSystem (hsys_flag hsys) (pattern hsys)
            (mkHairCurveData (curves (curve_data hsys)) vs))
  else Some hsys.

(** [BKE_hair_clear_fiber_curves]: both arrays are released, and the
    binding flag is cleared. *)
Definition BKE_hair_clear_fiber_curves (hsys : HairSystem) : HairSystem :=
  mkHairSystem (clear_flag (hsys_flag hsys) HAIR_SYSTEM_UPDATE_FOLLICLE_BINDING)
               (pattern hsys) (mkHairCurveData [] []).

(** ** Point distribute node (node_geo_point_distribute.cc) *)

Module Nodes.

(** The mesh as [scatter_points_from_mesh] reads it: the vertex of every
    loop, the position of every vertex and the corner loops of every
    triangle. *)
Record Mesh : Type := mkMesh {
  mloop : list Z;
  mvert : list vec3;
  looptris : list (Z * Z * Z)
}.

(** Collaborators: the triangle area and the interpolation of BLI_math,
    the integer hash of BLI_hash.h and the random number generator of
    BLI_rand.hh.  A generator is a state; drawing returns the value and
    the next state. *)
Class PointServices : Type := {
  area_tri_v3 : vec3 -> vec3 -> vec3 -> float;
  interp_v3_v3v3v3 : vec3 -> vec3 -> vec3 -> vec3 -> vec3;
  BLI_hash_int : Z -> Z;
  RandomNumberGenerator : Type;
  rng_of_seed : Z -> RandomNumberGenerator;
  get_float : RandomNumberGenerator -> float * RandomNumberGenerator;
  get_barycentric_coordinates :
    RandomNumberGenerator -> vec3 * RandomNumberGenerator
}.

Section Scatter.
Context `{PointServices}.

(** [for (int i = 0; i < point_amount; i++)]: the points appended. *)
Fixpoint emit_points (point_amount : nat) (rng : RandomNumberGenerator)
    (v0_pos v1_pos v2_pos : vec3) : list vec3 :=
  match point_amount with
  | O => []
  | S n =>
      let '(bary_coords, rng') := get_barycentric_coordinates rng in
      interp_v3_v3v3v3 v0_pos v1_pos v2_pos bary_coords
        :: emit_points n rng' v0_pos v1_pos v2_pos
  end.

(** The body of the loop over the triangles: the points of one triangle.
    [BLI_hash_int] returns an [unsigned int], which is stored in an [int]
    and passed to the generator as a [uint32_t]: the generator receives the
    hash.  The first float of the generator decides on the extra point, and
    the barycentric coordinates are drawn from the same generator after
    it. *)
Definition scatter_looptri (mesh : Mesh) (density : float)
    (looptri_index : Z) (looptri : Z * Z * Z) : option (list vec3) :=
  let '(l0, l1, l2) := looptri in
  v0_index ← read_at (mloop mesh) l0;
  v1_index ← read_at (mloop mesh) l1;
  v2_index ← read_at (mloop mesh) l2;
  v0_pos ← read_at (mvert mesh) v0_index;
  v1_pos ← read_at (mvert mesh) v1_index;
  v2_pos ← read_at (mvert mesh) v2_index;
  let area := area_tri_v3 v0_pos v1_pos v2_pos in
  let looptri_seed := BLI_hash_int looptri_index in
  let looptri_rng := rng_of_seed looptri_seed in
  let points_amount_fl := fmul area density in
  let add_point_probability := fractf points_amount_fl in
  let '(draw, looptri_rng) := get_float looptri_rng in
  let add_point := fgt add_point_probability draw in
  n ← to_int points_amount_fl;
  point_amount ← int_add n (if add_point then 1 else 0);
  Some (emit_points (Z.to_nat point_amount) looptri_rng v0_pos v1_pos v2_pos).

Definition scatter_points_from_mesh (mesh : Mesh) (density : float)
    (minimum_radius : float) : option (list vec3) :=
  per_tri ← mapM (fun it => scatter_looptri mesh density (Z.of_nat (fst it)) (snd it))
                 (imap pair (looptris mesh));
  Some (concat per_tri).

End Scatter.

End Nodes.

(** ** Geometry set (geometry_set.cc) *)

Module Bke.

Inductive GeometryComponentType : Type :=
| MeshType
| PointCloudType.

#[global] Instance GeometryComponentType_eq_dec : EqDecision GeometryComponentType.
Proof. solve_decision. Defined.

#[global] Instance GeometryComponentType_countable : Countable GeometryComponentType.
Proof.
  refine (inj_countable'
            (fun t => match t with MeshType => false | PointCloudType => true end)
            (fun b => if b then PointCloudType else MeshType) _).
  intros []; reflexivity.
Defined.

Section GeometrySet.
(** What a mesh or a point cloud holds; a copy holds the same. *)
Variable Data : Type.

(** [MeshComponent] and [PointCloudComponent]: the user count, the
    geometry ([mesh_] or [pointcloud_], possibly null) and [owned_]. *)
Record GeometryComponent : Type := mkGeometryComponent {
  component_type : GeometryComponentType;
  component_users : Z;
  geometry_ : option Data;
  owned_ : bool
}.

Record GeometrySet : Type := mkGeometrySet {
  set_users : Z;
  components_ : gmap GeometryComponentType nat
}.

(** The objects allocated, by address. *)
Record Heap : Type := mkHeap {
  components : gmap nat GeometryComponent;
  sets : gmap nat GeometrySet
}.

(** [GeometryComponent::is_mutable]. *)
Definition component_is_mutable (c : GeometryComponent) : bool :=
  component_users c <=? 1.

(** [GeometrySet::is_mutable]. *)
Definition set_is_mutable (s : GeometrySet) : bool :=
  set_users s <=? 1.

(** [GeometryComponent::create]: a component without geometry and with
    one user. *)
Definition create (t : GeometryComponentType) : GeometryComponent :=
  mkGeometryComponent t 1 None false.

(** [MeshComponent::copy], [PointCloudComponent::copy]. *)
Definition copy (c : GeometryComponent) : GeometryComponent :=
  match geometry_ c with
  | Some d => mkGeometryComponent (component_type c) 1 (Some d) true
  | None => mkGeometryComponent (component_type c) 1 None false
  end.

Definition new_address {V} (m : gmap nat V) : nat := fresh (dom m).

(** Modelled from the spec: a [GeometryComponentPtr] is a
    shared-ownership handle (BLI_user_counter.hh, not under src/);
    dropping a handle calls [user_remove], which deletes the component
    when the count reaches zero. *)
Definition component_user_remove (h : Heap) (a : nat) : Heap :=
  match components h !! a with
  | Some c =>
      let new_users := component_users c - 1 in
      if new_users =? 0
      then mkHeap (delete a (components h)) (sets h)
      else mkHeap (<[a := mkGeometryComponent (component_type c) new_users
                             (geometry_ c) (owned_ c)]> (components h))
                  (sets h)
  | None => h
  end.

Definition component_user_add (h : Heap) (a : nat) : Heap :=
  match components h !! a with
  | Some c =>
      mkHeap (<[a := mkGeometryComponent (component_type c)
                       (component_users c + 1)
                       (geometry_ c) (owned_ c)]> (components h))
             (sets h)
  | None => h
  end.

(** [GeometrySet::get_component_for_write] (release build): the heap
    afterwards and the address of the component returned.  Undefined
    when the set or a component it refers to is not allocated. *)
Definition get_component_for_write (h : Heap) (set_addr : nat)
    (t : GeometryComponentType) : option (Heap * nat) :=
  s ← sets h !! set_addr;
  match components_ s !! t with
  | None =>
      (* If the component did not exist before, create a new one. *)
      let a := new_address (components h) in
      Some (mkHeap (<[a := create t]> (components h))
                   (<[set_addr := mkGeometrySet (set_users s)
                                    (<[t := a]> (components_ s))]> (sets h)),
            a)
  | Some a =>
      c ← components h !! a;
      if component_is_mutable c then
        (* If the referenced component is already mutable, return it directly. *)
        Some (h, a)
      else
        (* If the referenced component is shared, make a copy. *)
        let b := new_address (components h) in
        let h1 := mkHeap (<[b := copy c]> (components h)) (sets h) in
        let h2 := component_user_remove h1 a in
        Some (mkHeap (components h2)
                     (<[set_addr := mkGeometrySet (set_users s)
                                      (<[t := b]> (components_ s))]> (sets h2)),
              b)
  end.

(** [MeshComponent::replace], [PointCloudComponent::replace] on the
    component at [a] (release build). *)
Definition replace (h : Heap) (a : nat) (d : option Data)
    (transfer_ownership : bool) : option Heap :=
  c ← components h !! a;
  Some (mkHeap (<[a := mkGeometryComponent (component_type c)
                         (component_users c) d transfer_ownership]>
                  (components h))
               (sets h)).

(** [GeometrySet::replace_mesh]. *)
Definition replace_mesh (h : Heap) (set_addr : nat) (mesh : option Data)
    (transfer_ownership : bool) : option Heap :=
  r ← get_component_for_write h set_addr MeshType;
  replace (fst r) (snd r) mesh transfer_ownership.

(** [GeometrySet::replace_pointcloud]. *)
Definition replace_pointcloud (h : Heap) (set_addr : nat)
    (pointcloud : option Data) (transfer_ownership : bool) : option Heap :=
  r ← get_component_for_write h set_addr PointCloudType;
  replace (fst r) (snd r) pointcloud transfer_ownership.

(** [GeometrySet::get_mesh_for_write], [get_pointcloud_for_write]: the
    heap afterwards, the component whose geometry the caller may
    modify, and that geometry. *)
Definition get_geometry_for_write (h : Heap) (set_addr : nat)
    (t : GeometryComponentType) : option (Heap * nat * option Data) :=
  r ← get_component_for_write h set_addr t;
  c ← components (fst r) !! snd r;
  Some (fst r, snd r, geometry_ c).

(** The copy constructor of [GeometrySet]: the components are shared
    with the original, each gains a user. *)
Definition copy_set (h : Heap) (s : GeometrySet) : Heap * GeometrySet :=
  (map_fold (fun _ a h' => component_user_add h' a) h (components_ s),
   mkGeometrySet 1 (components_ s)).

(** [make_geometry_set_mutable]: the heap afterwards and the pointer
    the caller holds afterwards. *)
Definition make_geometry_set_mutable (h : Heap) (geometry_set : option nat)
  : option (Heap * nat) :=
  match geometry_set with
  | None =>
      (* If the pointer is null, create a new instance. *)
      let a := new_address (sets h) in
      Some (mkHeap (components h) (<[a := mkGeometrySet 1 ∅]> (sets h)), a)
  | Some a =>
      s ← sets h !! a;
      if set_is_mutable s then
        (* If the instance is mutable already, do nothing. *)
        Some (h, a)
      else
        (* This geometry is shared, make a copy that is independent of
           the other users. *)
        let '(h1, new_set) := copy_set h s in
        let b := new_address (sets h1) in
        let shared := mkGeometrySet (set_users s - 1) (components_ s) in
        Some (mkHeap (components h1)
                     (<[b := new_set]> (<[a := shared]> (sets h1))),
              b)
  end.

(** [GeometrySet::user_add]. *)
Definition set_user_add (h : Heap) (a : nat) : Heap :=
  match sets h !! a with
  | Some s =>
      mkHeap (components h)
             (<[a := mkGeometrySet (set_users s + 1) (components_ s)]> (sets h))
  | None => h
  end.

(** [GeometrySet::get_component_for_read]: the component of the given
    type; might return null if the component does not exist yet. *)
Definition get_component_for_read (h : Heap) (set_addr : nat)
    (t : GeometryComponentType) : option (option nat) :=
  s ← sets h !! set_addr;
  Some (components_ s !! t).

(** [MeshComponent::get_for_read], [PointCloudComponent::get_for_read]. *)
Definition get_for_read (h : Heap) (a : nat) : option (option Data) :=
  c ← components h !! a;
  Some (geometry_ c).

(** [MeshComponent::has_mesh], [PointCloudComponent::has_pointcloud]. *)
Definition component_has_geometry (h : Heap) (a : nat) : option bool :=
  c ← components h !! a;
  Some (match geometry_ c with Some _ => true | None => false end).

(** [GeometrySet::get_mesh_for_read], [get_pointcloud_for_read]: a
    read-only geometry or null. *)
Definition get_geometry_for_read (h : Heap) (set_addr : nat)
    (t : GeometryComponentType) : option (option Data) :=
  component ← get_component_for_read h set_addr t;
  match component with
  | None => Some None
  | Some a => get_for_read h a
  end.

(** [GeometrySet::has_mesh], [has_pointcloud]: true when the set has a
    component of the type and the component has a geometry. *)
Definition has_geometry (h : Heap) (set_addr : nat)
    (t : GeometryComponentType) : option bool :=
  component ← get_component_for_read h set_addr t;
  match component with
  | None => Some false
  | Some a => component_has_geometry h a
  end.

(** [GeometrySet::create_with_mesh]: the heap afterwards and the new set. *)
Definition create_with_mesh (h : Heap) (mesh : option Data)
    (transfer_ownership : bool) : option (Heap * nat) :=
  let geometry_set := new_address (sets h) in
  let h := mkHeap (components h)
                  (<[geometry_set := mkGeometrySet 1 ∅]> (sets h)) in
  r ← get_component_for_write h geometry_set MeshType;
  h ← replace (fst r) (snd r) mesh transfer_ownership;
  Some (h, geometry_set).

(** [MeshComponent::release], [PointCloudComponent::release] (release
    build): the geometry is handed to the caller and the component is left
    without one. *)
Definition release (h : Heap) (a : nat) : option (Heap * option Data) :=
  c ← components h !! a;
  Some (mkHeap (<[a := mkGeometryComponent (component_type c)
                         (component_users c) None (owned_ c)]>
                  (components h))
               (sets h),
        geometry_ c).

End GeometrySet.

End Bke.

(** ** Point distribute node: execution *)

(** What the components of a geometry set hold in the node: a mesh, or a
    point cloud with the position and the radius of every point. *)
Inductive Geometry : Type :=
| MeshGeometry (mesh : Nodes.Mesh)
| PointCloudGeometry (co : list vec3) (radius : list float).

(** The literal [0.05f]. *)
Definition point_radius : float := of_scaled 13421773 (-28).

(** [BKE_pointcloud_new_nomain(points.size())] filled by the loop of the
    node: the positions are the points, every radius is [0.05f]. *)
Definition pointcloud_of_points (points : list vec3) : Geometry :=
  PointCloudGeometry points (replicate (length points) point_radius).

Section PointDistribute.
Context `{Nodes.PointServices}.

(** [geo_point_distribute_exec]: the heap afterwards and the geometry set
    put on the output socket.  [replace_mesh] and [replace_pointcloud] are
    called with their default [transfer_ownership = true]
    (BKE_geometry_set.hh, not under src/).  The component of type mesh
    holds a mesh. *)
Definition geo_point_distribute_exec (h : Bke.Heap Geometry)
    (geometry_set : option nat) (density minimum_radius : float)
  : option (Bke.Heap Geometry * option nat) :=
  match geometry_set with
  | None => Some (h, None)
  | Some set_addr =>
      has_mesh ← Bke.has_geometry Geometry h set_addr Bke.MeshType;
      if negb has_mesh then Some (h, Some set_addr)
      else if fle density zero then
        h ← Bke.replace_mesh Geometry h set_addr None true;
        h ← Bke.replace_pointcloud Geometry h set_addr None true;
        Some (h, Some set_addr)
      else
        mesh_in ← Bke.get_geometry_for_read Geometry h set_addr Bke.MeshType;
        match mesh_in with
        | Some (MeshGeometry mesh) =>
            points ← Nodes.scatter_points_from_mesh mesh density minimum_radius;
            let pointcloud := pointcloud_of_points points in
            r ← Bke.make_geometry_set_mutable Geometry h (Some set_addr);
            h ← Bke.replace_mesh Geometry (fst r) (snd r) None true;
            h ← Bke.replace_pointcloud Geometry h (snd r) (Some pointcloud) true;
            Some (h, Some (snd r))
        | _ => None
        end
  end.

End PointDistribute.

(** ** Executable collaborators for concrete evaluations

    A small stand-in for the services, used where the kernel is evaluated
    on a concrete input.  The sample evaluator places a sample at its
    coordinates and fails on a negative face index; the spatial index
    returns the inserted points by increasing squared distance; the line
    factor is the projection factor of BLI_math.  The triangle helpers and
    the rotation are not exercised with fewer than three strands; the
    stand-ins return a corner of the triangle and do not rotate. *)

Module Example.

Definition dot_v3v3 (a b : vec3) : float :=
  let '(a0, a1, a2) := a in
  let '(b0, b1, b2) := b in
  fadd (fadd (fmul a0 b0) (fmul a1 b1)) (fmul a2 b2).

Definition len_squared_v3 (a : vec3) : float := dot_v3v3 a a.

Definition sample_eval (scalp : unit) (sample : MeshSample)
  : bool * vec3 * vec3 * vec3 :=
  if orig_poly sample <? 0
  then (false, zero_v3, zero_v3, zero_v3)
  else (true, orig_weights sample, (zero, zero, one), (one, zero, zero)).

Fixpoint insert_nearest (n : KDTreeNearest) (l : list KDTreeNearest)
  : list KDTreeNearest :=
  match l with
  | [] => [n]
  | m :: rest =>
      if flt (nearest_dist n) (nearest_dist m) then n :: m :: rest
      else m :: insert_nearest n rest
  end.

Definition find_nearest_n (tree : KDTree) (loc : vec3) (n : Z)
  : list KDTreeNearest :=
  take (Z.to_nat n)
    (fold_right
       (fun (p : Z * vec3) acc =>
          insert_nearest
            (mkKDTreeNearest (fst p)
               (len_squared_v3 (sub_v3_v3v3 (snd p) loc)) (snd p))
            acc)
       [] tree).

Definition line_point_factor (p l1 l2 : vec3) : float :=
  let u := sub_v3_v3v3 l2 l1 in
  let h := sub_v3_v3v3 p l1 in
  let dot := len_squared_v3 u in
  if fgt dot zero then fdiv (dot_v3v3 u h) dot else zero.

Definition cross (a b : vec3) : vec3 :=
  let '(a0, a1, a2) := a in
  let '(b0, b1, b2) := b in
  (fsub (fmul a1 b2) (fmul a2 b1),
   fsub (fmul a2 b0) (fmul a0 b2),
   fsub (fmul a0 b1) (fmul a1 b0)).

Definition unit_m3 : mat3 :=
  ((one, zero, zero), (zero, one, zero), (zero, zero, one)).

Definition mul_m3_v3 (m : mat3) (v : vec3) : vec3 :=
  let '(r0, r1, r2) := m in
  let '(x, y, z) := v in
  add_v3_v3v3 (add_v3_v3v3 (mul_v3_fl r0 x) (mul_v3_fl r1 y)) (mul_v3_fl r2 z).

Definition services : HairServices := {|
  Mesh := unit;
  BKE_mesh_sample_eval := sample_eval;
  BLI_kdtree_find_nearest_n := find_nearest_n;
  closest_on_tri_to_point_v3 := fun p a b c => a;
  interp_weights_tri_v3 := fun a b c p => (one, zero, zero);
  line_point_factor_v3 := line_point_factor;
  normalize_v3 := fun v => v;
  cross_v3_v3v3 := cross;
  rotation_between_vecs_to_mat3 := fun a b => unit_m3;
  mul_v3_m3v3 := mul_m3_v3
|}.

Definition sample_at (x y z : Z) : MeshSample :=
  mkMeshSample 0 (of_int x, of_int y, of_int z).

(** A sample the evaluator rejects. *)
Definition bad_sample : MeshSample := mkMeshSample (-1) zero_v3.

Definition vertex_at (x y z : Z) : HairFiberVertex :=
  mkHairFiberVertex 0 (of_int x, of_int y, of_int z).

Definition curve_at (x y z : Z) (nverts start : Z) : HairFiberCurve :=
  mkHairFiberCurve (sample_at x y z) nverts start one one.

Definition unbound_follicle (s : MeshSample) : HairFollicle :=
  mkHairFollicle s (fill4 0) (fill4 zero).

(** A follicle bound to strand 0 with weight 1. *)
Definition bound_follicle (s : MeshSample) : HairFollicle :=
  mkHairFollicle s
    (mkArray4 0 HAIR_STRAND_INDEX_NONE HAIR_STRAND_INDEX_NONE HAIR_STRAND_INDEX_NONE)
    (mkArray4 one zero zero zero).

(** Two guide strands of two vertices each, rooted at the origin and at
    (1, 0, 0). *)
Definition two_strands : HairCurveData :=
  mkHairCurveData
    [curve_at 0 0 0 2 0; curve_at 1 0 0 2 2]
    [vertex_at 0 0 0; vertex_at 0 0 1; vertex_at 1 0 0; vertex_at 1 0 1].

Definition one_strand : HairCurveData :=
  mkHairCurveData [curve_at 0 0 0 2 0] [vertex_at 0 0 0; vertex_at 0 0 1].

Definition no_strands : HairCurveData := mkHairCurveData [] [].

Definition hair_system (dirty : bool) (fs : list HairFollicle)
    (cd : HairCurveData) : HairSystem :=
  mkHairSystem (if dirty then HAIR_SYSTEM_UPDATE_FOLLICLE_BINDING else 0)
               (Some (mkHairPattern (Some fs))) cd.

(** A guide curve with a corner: (0,0,0), (1,0,0), (1,1,0). *)
Definition corner_curve : HairFiberCurve := curve_at 0 0 0 3 0.
Definition corner_verts : list HairFiberVertex :=
  [vertex_at 0 0 0; vertex_at 1 0 0; vertex_at 1 1 0].

(** Stand-ins for the collaborators of the point distribute node: the
    area of a triangle as half the length of a cross product, the weighted
    sum of the corners, a multiplicative hash, and a 48-bit linear
    congruential generator whose floats lie in [0, 1). *)
Definition area_tri (v1 v2 v3 : vec3) : float :=
  fmul (fsqrt (len_squared_v3 (cross (sub_v3_v3v3 v2 v1) (sub_v3_v3v3 v3 v1))))
       half.

Definition interp_tri (v1 v2 v3 w : vec3) : vec3 :=
  let '(w0, w1, w2) := w in
  add_v3_v3v3 (add_v3_v3v3 (mul_v3_fl v1 w0) (mul_v3_fl v2 w1)) (mul_v3_fl v3 w2).

Definition hash_int (k : Z) : Z := (k * 2654435761) mod 2 ^ 32.

Definition rng_seed (seed : Z) : Z :=
  Z.lor (Z.shiftl (seed mod 2 ^ 32) 16) 13070.

Definition rng_step (x : Z) : Z := (25214903917 * x + 11) mod 2 ^ 48.

Definition rng_get_float (x : Z) : float * Z :=
  let x' := rng_step x in
  (fdiv (of_int (Z.shiftr x' 17)) (of_int (2 ^ 31)), x').

Definition rng_get_barycentric (x : Z) : vec3 * Z :=
  let '(u, x1) := rng_get_float x in
  let '(v, x2) := rng_get_float x1 in
  let '(u', v') :=
    if fgt (fadd u v) one then (fsub one u, fsub one v) else (u, v) in
  ((u', v', fsub (fsub one u') v'), x2).

Definition point_services : Nodes.PointServices := {|
  Nodes.area_tri_v3 := area_tri;
  Nodes.interp_v3_v3v3v3 := interp_tri;
  Nodes.BLI_hash_int := hash_int;
  Nodes.RandomNumberGenerator := Z;
  Nodes.rng_of_seed := rng_seed;
  Nodes.get_float := rng_get_float;
  Nodes.get_barycentric_coordinates := rng_get_barycentric
|}.

(** A single triangle of area 1: (0,0,0), (2,0,0), (0,1,0). *)
Definition unit_triangle : Nodes.Mesh :=
  Nodes.mkMesh [0; 1; 2]
    [(zero, zero, zero); (of_int 2, zero, zero); (zero, one, zero)]
    [(0, 1, 2)].

(** A heap with one mesh component that has two users, and a set, itself
    not shared, that is one of them. *)
Definition shared_component : Bke.GeometryComponent Z :=
  Bke.mkGeometryComponent Z Bke.MeshType 2 (Some 7) true.

Definition mesh_set : Bke.GeometrySet :=
  Bke.mkGeometrySet 1 {[ Bke.MeshType := 0%nat ]}.

Definition shared_heap : Bke.Heap Z :=
  Bke.mkHeap Z {[ 0%nat := shared_component ]} {[ 0%nat := mesh_set ]}.

(** A pattern of one follicle bound to strand 0, and a cache that holds
    the curves of [two_strands] subdivided at level 1 and nothing else. *)
Definition bound_pattern : HairPattern :=
  mkHairPattern (Some [bound_follicle (sample_at 0 0 0)]).

Definition curves_only_cache : HairExportCache :=
  mkHairExportCache
    (Live (from_option fst [] (export_curves 1 (curves two_strands) 0))) 2
                    Null Null Null 6
                    (Some [bound_follicle (sample_at 0 0 0)]) 1
                    Null Null 0.

(** A cache in which every category is present, for a hair system without
    guide curves and without follicles. *)
Definition complete_cache : HairExportCache :=
  mkHairExportCache (Live []) 0 (Live []) (Live []) (Live []) 0
                    (Some []) 0 (Live []) (Live []) 0.

(** A heap with a set that has two users and whose mesh component has
    one user, the set. *)
Definition shared_set_heap : Bke.Heap Z :=
  Bke.mkHeap Z
    {[ 0%nat := Bke.mkGeometryComponent Z Bke.MeshType 1 (Some 7) true ]}
    {[ 0%nat := Bke.mkGeometrySet 2 {[ Bke.MeshType := 0%nat ]} ]}.

(** A heap with a set that has two users and whose mesh component, with
    one user, holds the triangle of area 1. *)
Definition triangle_heap : Bke.Heap Geometry :=
  Bke.mkHeap Geometry
    {[ 0%nat := Bke.mkGeometryComponent Geometry Bke.MeshType 1
                  (Some (MeshGeometry unit_triangle)) true ]}
    {[ 0%nat := Bke.mkGeometrySet 2 {[ Bke.MeshType := 0%nat ]} ]}.

End Example.

(** * Properties *)

(** ** Flags *)

Lemma land_pow2 (d k : Z) :
  0 <= k -> Z.land d (2 ^ k) = if Z.testbit d k then 2 ^ k else 0.
Proof.
  intros Hk. apply Z.bits_inj'. intros n Hn.
  rewrite Z.land_spec, Z.pow2_bits_eqb by lia.
  destruct (Z.eqb_spec k n) as [->|Hne].
  - destruct (Z.testbit d n) eqn:E; simpl.
    + now rewrite Z.pow2_bits_eqb, Z.eqb_refl by lia.
    + now rewrite Z.bits_0.
  - rewrite andb_false_r.
    destruct (Z.testbit d k).
    + rewrite Z.pow2_bits_eqb by lia. symmetry. now apply Z.eqb_neq.
    + now rewrite Z.bits_0.
Qed.

Lemma has_flag_pow2 (d k : Z) :
  0 <= k -> has_flag d (2 ^ k) = Z.testbit d k.
Proof.
  intros Hk. unfold has_flag. rewrite land_pow2 by lia.
  destruct (Z.testbit d k); simpl; [|reflexivity].
  assert (0 < 2 ^ k) by (apply Z.pow_pos_nonneg; lia).
  destruct (Z.eqb_spec (2 ^ k) 0); [lia|reflexivity].
Qed.

(** The bit of a category. *)
Definition category_bit (c : Category) : Z :=
  match c with
  | FiberRootPositions => 0
  | FiberVertexCounts => 1
  | FollicleBinding => 2
  | FiberCurves => 3
  | FiberVertices => 4
  end.

Lemma category_flag_bit (c : Category) : category_flag c = 2 ^ category_bit c.
Proof. destruct c; reflexivity. Qed.

(** Membership of a category in a set of flags. *)
Definition in_flags (c : Category) (data : Z) : bool :=
  has_flag data (category_flag c).

Lemma in_flags_testbit (c : Category) (data : Z) :
  in_flags c data = Z.testbit data (category_bit c).
Proof.
  unfold in_flags. rewrite category_flag_bit.
  apply has_flag_pow2. destruct c; simpl; lia.
Qed.

Lemma in_flags_lor (c : Category) (a b : Z) :
  in_flags c (Z.lor a b) = in_flags c a || in_flags c b.
Proof. rewrite !in_flags_testbit. apply Z.lor_spec. Qed.

Lemma in_flags_land (c : Category) (a b : Z) :
  in_flags c (Z.land a b) = in_flags c a && in_flags c b.
Proof. rewrite !in_flags_testbit. apply Z.land_spec. Qed.

Lemma in_flags_flag (c c' : Category) :
  in_flags c (category_flag c') = bool_decide (c = c').
Proof. destruct c, c'; reflexivity. Qed.

Lemma in_flags_0 (c : Category) : in_flags c 0 = false.
Proof. destruct c; reflexivity. Qed.

Lemma in_flags_flag_if (c c' : Category) (b : bool) :
  in_flags c (flag_if b (category_flag c')) = b && bool_decide (c = c').
Proof.
  destruct b; simpl; [apply in_flags_flag | apply in_flags_0].
Qed.

(** ** Arithmetic on [int] *)

Lemma check_int_Some (z r : Z) :
  check_int z = Some r <-> r = z /\ INT_MIN <= z <= INT_MAX.
Proof.
  unfold check_int, in_int_range.
  destruct (Z.leb_spec INT_MIN z), (Z.leb_spec z INT_MAX); simpl;
    split; try discriminate; try (intros [_ ?]; lia).
  - intros [= <-]. split; [reflexivity|lia].
  - now intros [-> _].
Qed.

Lemma int_add_Some (a b r : Z) :
  int_add a b = Some r <-> r = a + b /\ INT_MIN <= a + b <= INT_MAX.
Proof. apply check_int_Some. Qed.

Lemma int_sub_Some (a b r : Z) :
  int_sub a b = Some r <-> r = a - b /\ INT_MIN <= a - b <= INT_MAX.
Proof. apply check_int_Some. Qed.

Lemma int_shl_Some (a n r : Z) :
  int_shl a n = Some r <->
  0 <= a /\ 0 <= n < 32 /\ r = a * 2 ^ n /\ a * 2 ^ n <= INT_MAX.
Proof.
  unfold int_shl.
  destruct (Z.leb_spec 0 a), (Z.leb_spec 0 n), (Z.ltb_spec n 32); simpl;
    try (split; [discriminate|intros (? & ? & _); lia]).
  rewrite Z.shiftl_mul_pow2, check_int_Some by lia.
  assert (0 < 2 ^ n) by (apply Z.pow_pos_nonneg; lia).
  unfold INT_MIN. split.
  - intros [-> ?]. repeat split; lia.
  - intros (_ & _ & -> & ?). split; [reflexivity|nia].
Qed.

Lemma int_add_in_range (a b : Z) :
  INT_MIN <= a + b <= INT_MAX -> int_add a b = Some (a + b).
Proof. intros Hr. now apply int_add_Some. Qed.

Lemma int_sub_in_range (a b : Z) :
  INT_MIN <= a - b <= INT_MAX -> int_sub a b = Some (a - b).
Proof. intros Hr. now apply int_sub_Some. Qed.

Lemma int_shl_in_range (a n : Z) :
  0 <= a -> 0 <= n < 32 -> a * 2 ^ n <= INT_MAX ->
  int_shl a n = Some (a * 2 ^ n).
Proof. intros Ha Hn Hr. now apply int_shl_Some. Qed.

(** The subdivided length of a curve is defined exactly for a curve with
    at least one vertex whose subdivided length is an [int]. *)
Lemma subdiv_length_Some (nv subdiv r : Z) :
  hair_get_strand_subdiv_length nv subdiv = Some r <->
  1 <= nv /\ 0 <= subdiv < 32 /\ r = (nv - 1) * 2 ^ subdiv + 1 /\ r <= INT_MAX.
Proof.
  unfold hair_get_strand_subdiv_length. split.
  - destruct (int_sub nv 1) as [a|] eqn:Ea; [|discriminate].
    apply int_sub_Some in Ea as [-> Ha]. simpl.
    destruct (int_shl (nv - 1) subdiv) as [b|] eqn:Eb; [|discriminate].
    apply int_shl_Some in Eb as (H0 & Hs & -> & Hb). simpl.
    intros [-> Hr]%int_add_Some. repeat split; lia.
  - intros (Hn & Hs & -> & Hr).
    assert (0 < 2 ^ subdiv) by (apply Z.pow_pos_nonneg; lia).
    assert (Hb : (nv - 1) * 2 ^ subdiv <= INT_MAX) by lia.
    rewrite int_sub_in_range by (unfold INT_MIN, INT_MAX in *; nia). simpl.
    rewrite int_shl_in_range by (assumption || lia). simpl.
    apply int_add_in_range. unfold INT_MIN, INT_MAX in *. nia.
Qed.

Lemma pow2_le_int_max (n : Z) : 0 <= n < 31 -> 1 <= 2 ^ n <= INT_MAX.
Proof.
  intros Hn. assert (0 < 2 ^ n) by (apply Z.pow_pos_nonneg; lia).
  assert (2 ^ n <= 2 ^ 30) by (apply Z.pow_le_mono_r; lia).
  unfold INT_MAX. change (2 ^ 30) with 1073741824 in *.
  change (2 ^ 31) with 2147483648. lia.
Qed.

(** ** Array accesses *)

Lemma read_at_Some {A} (l : list A) (i : Z) (x : A) :
  read_at l i = Some x <-> 0 <= i /\ l !! Z.to_nat i = Some x.
Proof.
  unfold read_at. destruct (Z.ltb_spec i 0); split.
  - discriminate.
  - intros [? _]. lia.
  - auto.
  - now intros [_ ?].
Qed.

Lemma read_at_lt {A} (l : list A) (i : Z) (x : A) :
  read_at l i = Some x -> 0 <= i < Z.of_nat (length l).
Proof.
  intros [H0 H]%read_at_Some. apply lookup_lt_Some in H. lia.
Qed.

Lemma read_at_is_Some {A} (l : list A) (i : Z) :
  0 <= i < Z.of_nat (length l) -> exists x, read_at l i = Some x.
Proof.
  intros Hi. destruct (lookup_lt_is_Some_2 l (Z.to_nat i)) as [x Hx]; [lia|].
  exists x. apply read_at_Some. split; [lia|assumption].
Qed.

Lemma read_at_past_end {A} (l : list A) :
  read_at l (Z.of_nat (length l)) = None.
Proof.
  unfold read_at. destruct (Z.ltb_spec (Z.of_nat (length l)) 0); [reflexivity|].
  apply lookup_ge_None. lia.
Qed.

Lemma write_at_Some {A} (l l' : list A) (i : Z) (v : A) :
  write_at l i v = Some l' <->
  0 <= i < Z.of_nat (length l) /\ l' = <[Z.to_nat i := v]> l.
Proof.
  unfold write_at.
  destruct (Z.leb_spec 0 i), (Z.ltb_spec i (Z.of_nat (length l))); simpl;
    split; try discriminate; try (intros [? _]; lia).
  - intros [= <-]. split; [lia|reflexivity].
  - intros [_ ->]. reflexivity.
Qed.

Lemma write_at_past_end {A} (l : list A) (v : A) :
  write_at l (Z.of_nat (length l)) v = None.
Proof.
  unfold write_at.
  destruct (Z.ltb_spec (Z.of_nat (length l)) (Z.of_nat (length l))); [lia|].
  now rewrite andb_false_r.
Qed.

Lemma write_at_in_range {A} (l : list A) (i : Z) (v : A) :
  0 <= i < Z.of_nat (length l) -> write_at l i v = Some (<[Z.to_nat i := v]> l).
Proof. intros Hi. apply write_at_Some. split; [lia|reflexivity]. Qed.

(** ** Setters of the guide curves *)

(** Inside the array both setters store the element. *)
Lemma set_fiber_vertex_in_range (hsys : HairSystem) (index vflag : Z) (vco : vec3) :
  0 <= index < totverts (curve_data hsys) ->
  exists hsys', BKE_hair_set_fiber_vertex hsys index vflag vco = Stored hsys'.
Proof.
  intros Hi. unfold BKE_hair_set_fiber_vertex.
  destruct (Z.leb_spec index (totverts (curve_data hsys))); [|lia].
  unfold totverts in Hi. rewrite write_at_in_range by lia. eauto.
Qed.

(** C10 (code as written): the assertion of each setter, [index <= tot],
    accepts the index one past the end, and the write at that index falls
    outside the array of [tot] elements.  The index admitted by the
    assertions of [BKE_hair_set_fiber_vertex] and [BKE_hair_set_fiber_curve]
    that is equal to [totverts], respectively [totcurves], is not stopped
    and is out of bounds. *)
Theorem setters_admit_index_past_the_end
    (hsys : HairSystem) (vflag : Z) (vco : vec3)
    (sample : MeshSample) (nverts : Z) (tlength tthickness : float) :
  BKE_hair_set_fiber_vertex hsys (totverts (curve_data hsys)) vflag vco
    = OutOfBounds
  /\ BKE_hair_set_fiber_curve hsys (totcurves (curve_data hsys))
       sample nverts tlength tthickness = OutOfBounds.
Proof.
  split.
  - unfold BKE_hair_set_fiber_vertex.
    rewrite Z.leb_refl. unfold totverts. now rewrite write_at_past_end.
  - unfold BKE_hair_set_fiber_curve.
    rewrite Z.leb_refl. unfold totcurves. now rewrite read_at_past_end.
Qed.

(** The same on a hair system with two guide strands and four vertices:
    index 4 passes the assertion of the vertex setter and index 2 that of
    the curve setter. *)
Example setters_past_the_end_example :
  let hsys := Example.hair_system true [] Example.two_strands in
  BKE_hair_set_fiber_vertex hsys 4 0 zero_v3 = OutOfBounds
  /\ BKE_hair_set_fiber_curve hsys 2 (Example.sample_at 0 0 0) 2 one one
     = OutOfBounds.
Proof. split; reflexivity. Qed.

(** ** Export cache: dependencies and missing parts *)

(** What [hair_export_cache_get_dependencies] adds to a category: the
    categories whose request or invalidation pulls it in. *)
Definition pulled_in_by (c : Category) (data : Z) : bool :=
  match c with
  | FiberCurves => false
  | FiberVertices | FollicleBinding => in_flags FiberCurves data
  | FiberRootPositions | FiberVertexCounts =>
      in_flags FiberCurves data || in_flags FollicleBinding data
  end.

Lemma in_dependencies (c : Category) (data : Z) :
  in_flags c (hair_export_cache_get_dependencies data)
  = in_flags c data || pulled_in_by c data.
Proof.
  unfold hair_export_cache_get_dependencies.
  change (has_flag data HAIR_EXPORT_FIBER_CURVES) with (in_flags FiberCurves data).
  destruct (in_flags FiberCurves data) eqn:Ec.
  - change (has_flag ?d HAIR_EXPORT_FOLLICLE_BINDING) with (in_flags FollicleBinding d).
    rewrite in_flags_lor, (in_flags_lor _ HAIR_EXPORT_FIBER_VERTICES).
    change HAIR_EXPORT_FIBER_VERTICES with (category_flag FiberVertices).
    change HAIR_EXPORT_FOLLICLE_BINDING with (category_flag FollicleBinding).
    rewrite !in_flags_flag. simpl. rewrite orb_true_r.
    rewrite !in_flags_lor.
    change HAIR_EXPORT_FIBER_ROOT_POSITIONS with (category_flag FiberRootPositions).
    change HAIR_EXPORT_FIBER_VERTEX_COUNTS with (category_flag FiberVertexCounts).
    rewrite !in_flags_flag.
    destruct c; simpl; rewrite ?Ec; simpl;
      rewrite ?orb_false_r, ?orb_true_r; reflexivity.
  - change (has_flag ?d HAIR_EXPORT_FOLLICLE_BINDING) with (in_flags FollicleBinding d).
    destruct (in_flags FollicleBinding data) eqn:Eb.
    + rewrite !in_flags_lor.
      change HAIR_EXPORT_FIBER_ROOT_POSITIONS with (category_flag FiberRootPositions).
      change HAIR_EXPORT_FIBER_VERTEX_COUNTS with (category_flag FiberVertexCounts).
      rewrite !in_flags_flag.
      destruct c; simpl; rewrite ?Ec, ?Eb; simpl;
        rewrite ?orb_false_r, ?orb_true_r; reflexivity.
    + destruct c; simpl; rewrite ?Ec, ?Eb; simpl;
        rewrite ?orb_false_r; reflexivity.
Qed.

(** The dependencies contain the request, and a set that contains its
    dependencies gains nothing: the function computes a closure. *)
Lemma dependencies_extensive (c : Category) (data : Z) :
  in_flags c data = true ->
  in_flags c (hair_export_cache_get_dependencies data) = true.
Proof. intros Hc. rewrite in_dependencies, Hc. reflexivity. Qed.

Lemma dependencies_idempotent (c : Category) (data : Z) :
  in_flags c (hair_export_cache_get_dependencies
                (hair_export_cache_get_dependencies data))
  = in_flags c (hair_export_cache_get_dependencies data).
Proof.
  rewrite (in_dependencies c (hair_export_cache_get_dependencies data)).
  destruct c; simpl; rewrite !in_dependencies; simpl;
    destruct (in_flags FiberCurves data), (in_flags FollicleBinding data),
      (in_flags FiberVertices data), (in_flags FiberRootPositions data),
      (in_flags FiberVertexCounts data); reflexivity.
Qed.

(** A category is absent from the cache when (one of) its buffers is
    null. *)
Definition category_absent (cache : HairExportCache) (c : Category) : bool :=
  match c with
  | FiberCurves => negb (non_null (fiber_curves cache))
  | FiberVertices =>
      negb (non_null (fiber_verts cache))
      || negb (non_null (fiber_normals cache))
      || negb (non_null (fiber_tangents cache))
  | FollicleBinding => is_None (cache_follicles cache)
  | FiberRootPositions => negb (non_null (fiber_root_position cache))
  | FiberVertexCounts => negb (non_null (fiber_numverts cache))
  end.

Lemma in_required_updates (c : Category) (cache : HairExportCache) :
  in_flags c (hair_export_cache_get_required_updates cache)
  = category_absent cache c.
Proof.
  unfold hair_export_cache_get_required_updates.
  rewrite !in_flags_lor, in_flags_0.
  change HAIR_EXPORT_FIBER_CURVES with (category_flag FiberCurves).
  change HAIR_EXPORT_FIBER_VERTICES with (category_flag FiberVertices).
  change HAIR_EXPORT_FOLLICLE_BINDING with (category_flag FollicleBinding).
  change HAIR_EXPORT_FIBER_ROOT_POSITIONS with (category_flag FiberRootPositions).
  change HAIR_EXPORT_FIBER_VERTEX_COUNTS with (category_flag FiberVertexCounts).
  rewrite !in_flags_flag_if.
  destruct c; simpl; rewrite ?andb_false_r, ?andb_true_r, ?orb_false_r;
    reflexivity.
Qed.

(** The set an update works on: the closure of the request, restricted to
    what the cache lacks. *)
Definition update_set (cache : HairExportCache) (requested_data : Z) : Z :=
  Z.land (hair_export_cache_get_dependencies requested_data)
         (hair_export_cache_get_required_updates cache).

Lemma in_update_set (c : Category) (cache : HairExportCache) (requested : Z) :
  in_flags c (update_set cache requested)
  = (in_flags c requested || pulled_in_by c requested) && category_absent cache c.
Proof.
  unfold update_set.
  now rewrite in_flags_land, in_dependencies, in_required_updates.
Qed.

(** The blocks of the update in the order of the source text. *)
Definition blocks_with_pattern : list Category :=
  [FiberCurves; FiberVertices; FollicleBinding; FiberVertexCounts;
   FiberRootPositions].

Definition blocks_without_pattern : list Category :=
  [FiberCurves; FiberVertices].

Definition blocks_of (hsys : HairSystem) : list Category :=
  match pattern hsys with
  | Some _ => blocks_with_pattern
  | None => blocks_without_pattern
  end.

(** The order of recomputation the specification states: vertex counts
    and root positions, then the follicle binding, then the vertices, then
    the curves. *)
Definition stated_rank (c : Category) : nat :=
  match c with
  | FiberVertexCounts | FiberRootPositions => 0
  | FollicleBinding => 1
  | FiberVertices => 2
  | FiberCurves => 3
  end.

Fixpoint in_stated_order (log : list Category) : bool :=
  match log with
  | [] => true
  | c :: rest =>
      forallb (fun c' => Nat.leb (stated_rank c) (stated_rank c')) rest
      && in_stated_order rest
  end.

Section ExportCacheProperties.
Context `{HairServices}.

Lemma run_block_log (data : Z) (c : Category)
    (block : HairExportCache -> option HairExportCache)
    (st st' : HairExportCache * list Category) :
  run_block data c block st = Some st' ->
  snd st' = snd st ++ filter (fun c' => in_flags c' data = true) [c].
Proof.
  unfold run_block. fold (in_flags c data).
  rewrite filter_cons, filter_nil.
  destruct (in_flags c data) eqn:E.
  - destruct (block (fst st)); simpl; [|discriminate].
    intros [= <-]. reflexivity.
  - intros [= <-]. simpl. now rewrite app_nil_r.
Qed.

(** Whenever the update returns, it returns the closure of the request
    restricted to the absent categories, and the blocks it ran are those
    of that set, in the order of the source: curves, vertices, follicle
    binding, vertex counts, root positions (the last three only for a hair
    system with a pattern). *)
Lemma update_returns_update_set (cache cache' : HairExportCache)
    (hsys : HairSystem) (subdiv : Z) (scalp : Mesh) (requested ret : Z)
    (log : list Category) :
  BKE_hair_export_cache_update cache hsys subdiv scalp requested
    = Some (cache', ret, log) ->
  ret = update_set cache requested
  /\ log = filter (fun c => in_flags c ret = true) (blocks_of hsys).
Proof.
  unfold BKE_hair_export_cache_update. fold (update_set cache requested).
  set (data := update_set cache requested).
  destruct (run_block data FiberCurves _ _) as [st1|] eqn:E1; simpl; [|discriminate].
  destruct (run_block data FiberVertices _ _) as [st2|] eqn:E2; simpl; [|discriminate].
  apply run_block_log in E1, E2. simpl in E1.
  unfold blocks_of.
  destruct (pattern hsys) as [pat|]; simpl.
  - destruct (run_block data FollicleBinding _ _) as [st3|] eqn:E3; simpl; [|discriminate].
    destruct (run_block data FiberVertexCounts _ _) as [st4|] eqn:E4; simpl; [|discriminate].
    destruct (run_block data FiberRootPositions _ _) as [st5|] eqn:E5; simpl; [|discriminate].
    apply run_block_log in E3, E4, E5.
    intros [= <- <- <-]. split; [reflexivity|].
    rewrite E5, E4, E3, E2, E1.
    unfold blocks_with_pattern.
    rewrite <- !app_assoc, <- !filter_app. reflexivity.
  - destruct (update_without_pattern (fst st2)); simpl; [|discriminate].
    intros [= <- <- <-]. split; [reflexivity|].
    rewrite E2, E1. unfold blocks_without_pattern.
    rewrite <- filter_app. reflexivity.
Qed.

End ExportCacheProperties.

(** ** Loops *)

Lemma for_loop_inv {S} (I : Z -> S -> Prop) (body : Z -> S -> option S)
    (n : nat) (k : Z) (s : S) :
  I k s ->
  (forall j t, k <= j < k + Z.of_nat n -> I j t ->
               exists t', body j t = Some t' /\ I (j + 1) t') ->
  exists s', for_loop n k body s = Some s' /\ I (k + Z.of_nat n) s'.
Proof.
  revert k s. induction n as [|n IH]; intros k s Hk Hstep.
  - exists s. split; [reflexivity|]. now replace (k + Z.of_nat 0) with k by lia.
  - destruct (Hstep k s) as (t & Ht & HI); [lia|assumption|].
    simpl. rewrite Ht.
    destruct (IH (k + 1) t HI) as (s' & Hs' & HI').
    + intros j u Hj. apply Hstep. lia.
    + exists s'. split; [assumption|].
      now replace (k + Z.of_nat (Datatypes.S n)) with (k + 1 + Z.of_nat n) by lia.
Qed.

Lemma for_range_inv {S} (I : Z -> S -> Prop) (body : Z -> S -> option S)
    (from to : Z) (s : S) :
  from <= to ->
  I from s ->
  (forall j t, from <= j < to -> I j t ->
               exists t', body j t = Some t' /\ I (j + 1) t') ->
  exists s', for_range from to body s = Some s' /\ I to s'.
Proof.
  intros Hle Hs Hstep. unfold for_range.
  destruct (for_loop_inv I body (Z.to_nat (to - from)) from s Hs) as (s' & E & HI).
  - intros j t Hj. apply Hstep. lia.
  - exists s'. split; [assumption|].
    now replace (from + Z.of_nat (Z.to_nat (to - from))) with to in HI by lia.
Qed.

Lemma for_range_empty {S} (body : Z -> S -> option S) (from to : Z) (s : S) :
  to <= from -> for_range from to body s = Some s.
Proof.
  intros Hle. unfold for_range.
  now replace (Z.to_nat (to - from)) with 0%nat by lia.
Qed.

Lemma for_loop_S {S} (body : Z -> S -> option S) (n : nat) (k : Z) (s : S) :
  for_loop (Datatypes.S n) k body s
  = match body k s with
    | Some s' => for_loop n (k + 1) body s'
    | None => None
    end.
Proof. reflexivity. Qed.

Lemma for_loop_snoc {S} (body : Z -> S -> option S) (n : nat) (k : Z) (s : S) :
  for_loop (Datatypes.S n) k body s
  = (t ← for_loop n k body s; body (k + Z.of_nat n) t).
Proof.
  revert k s. induction n as [|n IH]; intros k s.
  - cbn [for_loop mbind option_bind]. change (Z.of_nat 0) with 0.
    rewrite Z.add_0_r. now destruct (body k s).
  - rewrite (for_loop_S body (Datatypes.S n)), (for_loop_S body n).
    destruct (body k s) as [s'|]; [|reflexivity].
    rewrite IH.
    now replace (k + 1 + Z.of_nat n) with (k + Z.of_nat (Datatypes.S n)) by lia.
Qed.

(** The last iteration of a loop. *)
Lemma for_range_last {S} (body : Z -> S -> option S) (from to : Z) (s : S) :
  from < to ->
  for_range from to body s
  = (t ← for_range from (to - 1) body s; body (to - 1) t).
Proof.
  intros Hlt. unfold for_range.
  replace (Z.to_nat (to - from)) with (Datatypes.S (Z.to_nat (to - 1 - from))) by lia.
  rewrite for_loop_snoc.
  replace (from + Z.of_nat (Z.to_nat (to - 1 - from))) with (to - 1) by lia.
  reflexivity.
Qed.

(** ** Curve subdivider *)

(** The position stored at an index. *)
Definition co_at (r : list HairFiberVertex) (i : Z) : option vec3 :=
  co <$> read_at r i.

Lemma co_at_read (r : list HairFiberVertex) (i : Z) (v : HairFiberVertex) :
  read_at r i = Some v -> co_at r i = Some (co v).
Proof. unfold co_at. now intros ->. Qed.

Lemma read_at_insert_eq {A} (l : list A) (i : Z) (v : A) :
  0 <= i < Z.of_nat (length l) ->
  read_at (<[Z.to_nat i := v]> l) i = Some v.
Proof.
  intros Hi. apply read_at_Some. split; [lia|].
  apply list_lookup_insert_eq. lia.
Qed.

Lemma read_at_insert_ne {A} (l : list A) (i j : Z) (v : A) :
  0 <= i -> i <> j ->
  read_at (<[Z.to_nat i := v]> l) j = read_at l j.
Proof.
  intros Hi Hne. unfold read_at. destruct (Z.ltb_spec j 0); [reflexivity|].
  apply list_lookup_insert_ne. lia.
Qed.

Lemma set_co_in_range (r : list HairFiberVertex) (i : Z) (v : vec3) :
  0 <= i < Z.of_nat (length r) ->
  exists r', set_co r i v = Some r'
             /\ length r' = length r
             /\ co_at r' i = Some v
             /\ (forall j, j <> i -> read_at r' j = read_at r j).
Proof.
  intros Hi. unfold set_co.
  destruct (read_at_is_Some r i Hi) as [old Hold]. rewrite Hold. simpl.
  rewrite write_at_in_range by assumption.
  eexists. split; [reflexivity|]. split; [apply length_insert|]. split.
  - unfold co_at. now rewrite read_at_insert_eq.
  - intros j Hj. apply read_at_insert_ne; [lia|congruence].
Qed.

Lemma co_at_ext (r r' : list HairFiberVertex) (i : Z) :
  read_at r' i = read_at r i -> co_at r' i = co_at r i.
Proof. unfold co_at. now intros ->. Qed.

(** After the first block, every [step]-th vertex holds a control point
    moved by the offset. *)
Definition spread_at (verts : list HairFiberVertex) (offset : vec3)
    (r : list HairFiberVertex) (step j : Z) : Prop :=
  exists v, read_at verts j = Some v
            /\ co_at r (j * step) = Some (add_v3_v3v3 (co v) offset).

Lemma subdivide_spread_defined (nv : Z) (verts : list HairFiberVertex)
    (step : Z) (offset : vec3) (r_verts : list HairFiberVertex) :
  1 <= nv -> 1 <= step ->
  nv <= Z.of_nat (length verts) ->
  (nv - 1) * step + 1 <= Z.of_nat (length r_verts) ->
  exists r, subdivide_spread nv verts step offset r_verts = Some r
            /\ length r = length r_verts
            /\ forall j, 0 <= j < nv -> spread_at verts offset r step j.
Proof.
  intros Hn Hstep Hverts Hlen. unfold subdivide_spread.
  apply (for_range_inv
           (fun i r => length r = length r_verts
                       /\ forall j, 0 <= j < i -> spread_at verts offset r step j)).
  - lia.
  - split; [reflexivity|]. intros j Hj. lia.
  - intros j r Hj [Hlr Hprev].
    destruct (read_at_is_Some verts j) as [v Hv]; [lia|]. rewrite Hv. simpl.
    destruct (set_co_in_range r (j * step) (add_v3_v3v3 (co v) offset))
      as (r' & Hset & Hlen' & Hco & Hother); [rewrite Hlr; nia|].
    exists r'. split; [assumption|]. split; [congruence|].
    intros j' Hj'. destruct (Z.eq_dec j' j) as [->|Hne].
    + exists v. auto.
    + destruct (Hprev j') as (v' & Hv' & Hco'); [lia|].
      exists v'. split; [assumption|].
      rewrite <- Hco'. apply co_at_ext, Hother. nia.
Qed.

(** A loop that reads inside [0 .. E] and writes strictly between the two
    ends leaves the two end vertices as they are. *)
Lemma interior_loop_keeps_ends (from to : Z) (rd1 rd2 wr : Z -> Z)
    (f : HairFiberVertex -> HairFiberVertex -> vec3)
    (r : list HairFiberVertex) (E : Z) (c0 cE : vec3) :
  (forall k, from <= k < to ->
             0 <= rd1 k <= E /\ 0 <= rd2 k <= E /\ 0 < wr k < E) ->
  E < Z.of_nat (length r) ->
  co_at r 0 = Some c0 -> co_at r E = Some cE ->
  exists r',
    for_range from to
      (fun k r => a ← read_at r (rd1 k); b ← read_at r (rd2 k);
                  set_co r (wr k) (f a b)) r = Some r'
    /\ length r' = length r /\ co_at r' 0 = Some c0 /\ co_at r' E = Some cE.
Proof.
  intros Hidx HE H0 HEnd.
  destruct (Z.le_gt_cases from to) as [Hle|Hgt].
  - apply (for_range_inv
             (fun (_ : Z) t => length t = length r
                               /\ co_at t 0 = Some c0 /\ co_at t E = Some cE));
      [assumption|auto|].
    intros k t Hk (Hlt & Ht0 & HtE).
    destruct (Hidx k Hk) as (Hr1 & Hr2 & Hw).
    destruct (read_at_is_Some t (rd1 k)) as [a Ha]; [lia|].
    destruct (read_at_is_Some t (rd2 k)) as [b Hb]; [lia|].
    rewrite Ha, Hb. simpl.
    destruct (set_co_in_range t (wr k) (f a b))
      as (t' & Hset & Hlen' & _ & Hother); [lia|].
    exists t'. split; [assumption|]. split; [congruence|]. split.
    + rewrite <- Ht0. apply co_at_ext, Hother. lia.
    + rewrite <- HtE. apply co_at_ext, Hother. lia.
  - exists r. split; [apply for_range_empty; lia|auto].
Qed.

(** Where the shifts of a level are defined, the level runs the two loops
    with [num_edges = (nverts - 1) * 2^d], [hstep = 2^(subdiv - d - 1)] and
    [step = 2 * hstep]. *)
Lemma subdivide_level_unfold (nv subdiv d : Z) (r : list HairFiberVertex) :
  1 <= nv -> 0 <= d < subdiv -> subdiv < 31 ->
  (nv - 1) * 2 ^ subdiv <= INT_MAX ->
  subdivide_level nv subdiv d r
  = (r1 ← subdivide_edge_points ((nv - 1) * 2 ^ d) (2 ^ (subdiv - d - 1))
            (2 * 2 ^ (subdiv - d - 1)) r;
     subdivide_move_points ((nv - 1) * 2 ^ d) (2 ^ (subdiv - d - 1))
       (2 * 2 ^ (subdiv - d - 1)) r1).
Proof.
  intros Hn Hd Hs Hmax. unfold subdivide_level.
  assert (Hpd : 0 < 2 ^ d) by (apply Z.pow_pos_nonneg; lia).
  assert (Hps : 2 ^ d <= 2 ^ subdiv) by (apply Z.pow_le_mono_r; lia).
  pose proof (pow2_le_int_max (subdiv - d - 1) ltac:(lia)) as Hh.
  pose proof (pow2_le_int_max (subdiv - d) ltac:(lia)) as Hst.
  rewrite int_sub_in_range by (unfold INT_MIN, INT_MAX in *; nia).
  cbn [mbind option_bind].
  rewrite (int_shl_in_range (nv - 1) d) by (lia || nia).
  rewrite (int_shl_in_range 1 (subdiv - d - 1)) by lia.
  rewrite (int_shl_in_range 1 (subdiv - d)) by lia.
  cbn [mbind option_bind]. rewrite !Z.mul_1_l.
  replace (2 ^ (subdiv - d)) with (2 * 2 ^ (subdiv - d - 1)).
  - reflexivity.
  - rewrite <- Z.pow_succ_r by lia. f_equal. lia.
Qed.

Lemma subdivide_level_keeps_ends (nv subdiv d : Z)
    (r : list HairFiberVertex) (c0 cE : vec3) :
  1 <= nv -> 0 <= d < subdiv -> subdiv < 31 ->
  (nv - 1) * 2 ^ subdiv <= INT_MAX ->
  (nv - 1) * 2 ^ subdiv < Z.of_nat (length r) ->
  co_at r 0 = Some c0 -> co_at r ((nv - 1) * 2 ^ subdiv) = Some cE ->
  exists r', subdivide_level nv subdiv d r = Some r'
             /\ length r' = length r
             /\ co_at r' 0 = Some c0
             /\ co_at r' ((nv - 1) * 2 ^ subdiv) = Some cE.
Proof.
  intros Hn Hd Hs Hmax HE H0 HEnd.
  rewrite subdivide_level_unfold by assumption.
  set (E := (nv - 1) * 2 ^ subdiv) in *.
  set (hstep := 2 ^ (subdiv - d - 1)).
  set (num_edges := (nv - 1) * 2 ^ d).
  assert (Hh : 1 <= hstep).
  { unfold hstep. assert (0 < 2 ^ (subdiv - d - 1)) by (apply Z.pow_pos_nonneg; lia). lia. }
  assert (HEq : E = num_edges * (2 * hstep)).
  { unfold E, num_edges, hstep.
    replace (2 * 2 ^ (subdiv - d - 1)) with (2 ^ (subdiv - d)).
    - rewrite <- Z.mul_assoc, <- Z.pow_add_r by lia. do 2 f_equal. lia.
    - rewrite <- Z.pow_succ_r by lia. f_equal. lia. }
  assert (Hne : 0 <= num_edges).
  { unfold num_edges. assert (0 < 2 ^ d) by (apply Z.pow_pos_nonneg; lia). nia. }
  destruct (interior_loop_keeps_ends 0 num_edges
              (fun k => k * (2 * hstep)) (fun k => k * (2 * hstep) + 2 * hstep)
              (fun k => k * (2 * hstep) + hstep)
              (fun a b => mul_v3_fl (add_v3_v3v3 (co a) (co b)) half)
              r E c0 cE)
    as (r1 & Hr1 & Hl1 & H01 & HE1); [|assumption..|].
  { intros k Hk. rewrite HEq. nia. }
  unfold subdivide_edge_points. cbv zeta. rewrite Hr1. simpl.
  destruct (interior_loop_keeps_ends 1 num_edges
              (fun k => k * (2 * hstep) - hstep) (fun k => k * (2 * hstep) + hstep)
              (fun k => k * (2 * hstep))
              (fun a b => mul_v3_fl (add_v3_v3v3 (co a) (co b)) half)
              r1 E c0 cE)
    as (r2 & Hr2 & Hl2 & H02 & HE2); [|rewrite Hl1; assumption|assumption..|].
  { intros k Hk. rewrite HEq. nia. }
  unfold subdivide_move_points. cbv zeta. rewrite Hr2.
  exists r2. split; [reflexivity|]. split; [congruence|auto].
Qed.

(** The first [n] levels of a subdivision into [subdiv] levels. *)
Lemma subdivide_levels_keep_ends (nv subdiv n : Z)
    (r : list HairFiberVertex) (c0 cE : vec3) :
  1 <= nv -> 0 <= n <= subdiv -> subdiv < 31 ->
  (nv - 1) * 2 ^ subdiv <= INT_MAX ->
  (nv - 1) * 2 ^ subdiv < Z.of_nat (length r) ->
  co_at r 0 = Some c0 -> co_at r ((nv - 1) * 2 ^ subdiv) = Some cE ->
  exists r', for_range 0 n (subdivide_level nv subdiv) r = Some r'
             /\ length r' = length r
             /\ co_at r' 0 = Some c0
             /\ co_at r' ((nv - 1) * 2 ^ subdiv) = Some cE.
Proof.
  intros Hn Hs Hs31 Hmax HE H0 HEnd.
  apply (for_range_inv
           (fun (_ : Z) t => length t = length r /\ co_at t 0 = Some c0
                             /\ co_at t ((nv - 1) * 2 ^ subdiv) = Some cE));
    [lia|auto|].
  intros d t Hd (Hlt & Ht0 & HtE).
  destruct (subdivide_level_keeps_ends nv subdiv d t c0 cE)
    as (t' & Ht' & Hl' & H0' & HE'); [lia|lia|lia|lia|lia|assumption..|].
  exists t'. split; [assumption|]. split; [congruence|auto].
Qed.

(** "Move original points" at the last level ([hstep = 1], [step = 2]):
    every vertex with an even index strictly inside the curve becomes the
    mean of the two vertices next to it, which the loop does not touch. *)
Lemma move_points_means (num_edges : Z) (r : list HairFiberVertex) :
  2 * num_edges < Z.of_nat (length r) ->
  exists r',
    subdivide_move_points num_edges 1 2 r = Some r'
    /\ length r' = length r
    /\ (forall i, (forall k, 1 <= k < num_edges -> i <> k * 2) ->
                  read_at r' i = read_at r i)
    /\ forall k, 1 <= k < num_edges ->
         exists a b, read_at r (k * 2 - 1) = Some a
                     /\ read_at r (k * 2 + 1) = Some b
                     /\ co_at r' (k * 2)
                        = Some (mul_v3_fl (add_v3_v3v3 (co a) (co b)) half).
Proof.
  intros Hlen. unfold subdivide_move_points.
  destruct (Z.le_gt_cases 1 num_edges) as [Hle|Hgt].
  - apply (for_range_inv
             (fun n t =>
                length t = length r
                /\ (forall i, (forall k, 1 <= k < n -> i <> k * 2) ->
                              read_at t i = read_at r i)
                /\ forall k, 1 <= k < n ->
                     exists a b, read_at r (k * 2 - 1) = Some a
                                 /\ read_at r (k * 2 + 1) = Some b
                                 /\ co_at t (k * 2)
                                    = Some (mul_v3_fl (add_v3_v3v3 (co a) (co b))
                                              half))); [assumption| |].
    + split; [reflexivity|]. split; [reflexivity|]. intros k Hk. lia.
    + intros n t Hn (Hlt & Hframe & Hmean). cbv zeta.
      destruct (read_at_is_Some r (n * 2 - 1)) as [a Ha]; [lia|].
      destruct (read_at_is_Some r (n * 2 + 1)) as [b Hb]; [lia|].
      rewrite (Hframe (n * 2 - 1)), Ha by (intros k Hk; lia).
      rewrite (Hframe (n * 2 + 1)), Hb by (intros k Hk; lia).
      cbn [mbind option_bind].
      destruct (set_co_in_range t (n * 2)
                  (mul_v3_fl (add_v3_v3v3 (co a) (co b)) half))
        as (t' & Hset & Hlen' & Hco & Hother); [lia|].
      exists t'. split; [assumption|]. split; [congruence|]. split.
      * intros i Hi. rewrite Hother by (apply Hi; lia).
        apply Hframe. intros k Hk. apply Hi. lia.
      * intros k Hk. destruct (Z.eq_dec k n) as [->|Hne].
        -- exists a, b. auto.
        -- destruct (Hmean k) as (a' & b' & Ha' & Hb' & Hco'); [lia|].
           exists a', b'. split; [assumption|]. split; [assumption|].
           rewrite <- Hco'. apply co_at_ext, Hother. lia.
  - exists r. split; [apply for_range_empty; lia|]. split; [reflexivity|].
    split; [reflexivity|]. intros k Hk. lia.
Qed.

(** The loop of the edge points keeps the length of the array. *)
Lemma edge_points_defined (num_edges hstep : Z) (r : list HairFiberVertex) :
  0 <= num_edges -> 1 <= hstep ->
  num_edges * (2 * hstep) < Z.of_nat (length r) ->
  exists r', subdivide_edge_points num_edges hstep (2 * hstep) r = Some r'
             /\ length r' = length r.
Proof.
  intros Hne Hh Hlen. unfold subdivide_edge_points.
  apply (for_range_inv (fun (_ : Z) t => length t = length r));
    [assumption|reflexivity|].
  intros k t Hk Hlt. cbv zeta.
  destruct (read_at_is_Some t (k * (2 * hstep))) as [a Ha]; [nia|].
  destruct (read_at_is_Some t (k * (2 * hstep) + 2 * hstep)) as [b Hb]; [nia|].
  rewrite Ha, Hb. cbn [mbind option_bind].
  destruct (set_co_in_range t (k * (2 * hstep) + hstep)
              (mul_v3_fl (add_v3_v3v3 (co a) (co b)) half))
    as (t' & Hset & Hlen' & _); [nia|].
  exists t'. split; [assumption|congruence].
Qed.

(** The subdivider is defined on a curve with at least one control point
    whose subdivided length is an [int] and whose output array is long
    enough; it returns [((numverts - 1) << subdiv) + 1], keeps the length of
    the output array, and its first and last output vertices are the first
    and last control points moved by the root offset.  At level 0 every
    control point is moved so; at a higher level every output vertex with
    an even index strictly inside the curve is the mean of the two output
    vertices next to it. *)
Lemma hair_curve_subdivide_ends (curve : HairFiberCurve)
    (verts : list HairFiberVertex) (subdiv : Z) (rootpos : vec3)
    (r_verts : list HairFiberVertex) :
  1 <= numverts curve -> 0 <= subdiv < 31 ->
  numverts curve <= Z.of_nat (length verts) ->
  (numverts curve - 1) * 2 ^ subdiv + 1 <= INT_MAX ->
  (numverts curve - 1) * 2 ^ subdiv + 1 <= Z.of_nat (length r_verts) ->
  exists r v0 vlast,
    read_at verts 0 = Some v0
    /\ read_at verts (numverts curve - 1) = Some vlast
    /\ hair_curve_subdivide curve verts subdiv rootpos r_verts
       = Some (r, (numverts curve - 1) * 2 ^ subdiv + 1)
    /\ length r = length r_verts
    /\ co_at r 0
       = Some (add_v3_v3v3 (co v0) (sub_v3_v3v3 rootpos (co v0)))
    /\ co_at r ((numverts curve - 1) * 2 ^ subdiv)
       = Some (add_v3_v3v3 (co vlast) (sub_v3_v3v3 rootpos (co v0)))
    /\ (subdiv = 0 ->
        forall j, 0 <= j < numverts curve ->
                  exists v, read_at verts j = Some v
                            /\ co_at r j
                               = Some (add_v3_v3v3 (co v)
                                         (sub_v3_v3v3 rootpos (co v0))))
    /\ (1 <= subdiv ->
        forall k, 1 <= k < (numverts curve - 1) * 2 ^ (subdiv - 1) ->
                  exists a b, co_at r (k * 2 - 1) = Some a
                              /\ co_at r (k * 2 + 1) = Some b
                              /\ co_at r (k * 2)
                                 = Some (mul_v3_fl (add_v3_v3v3 a b) half)).
Proof.
  intros Hn Hs Hverts Hmax Hlen.
  set (nv := numverts curve) in *.
  pose proof (pow2_le_int_max subdiv Hs) as Hpow.
  destruct (read_at_is_Some verts 0) as [v0 Hv0]; [lia|].
  destruct (read_at_is_Some verts (nv - 1)) as [vlast Hvlast]; [lia|].
  set (offset := sub_v3_v3v3 rootpos (co v0)).
  destruct (subdivide_spread_defined nv verts (2 ^ subdiv) offset r_verts)
    as (r0 & Hr0 & Hl0 & Hspread); [lia..|].
  assert (H0 : co_at r0 0 = Some (add_v3_v3v3 (co v0) offset)).
  { destruct (Hspread 0) as (v & Hv & Hco); [lia|].
    rewrite Hv0 in Hv. injection Hv as <-. exact Hco. }
  assert (HE : co_at r0 ((nv - 1) * 2 ^ subdiv)
               = Some (add_v3_v3v3 (co vlast) offset)).
  { destruct (Hspread (nv - 1)) as (v & Hv & Hco); [lia|].
    rewrite Hvlast in Hv. injection Hv as <-. exact Hco. }
  destruct (subdivide_levels_keep_ends nv subdiv subdiv r0
              (add_v3_v3v3 (co v0) offset) (add_v3_v3v3 (co vlast) offset))
    as (r & Hr & Hl & Hr0' & HrE); [lia|lia|lia|lia|lia|assumption..|].
  exists r, v0, vlast.
  split; [assumption|]. split; [assumption|]. split.
  { unfold hair_curve_subdivide. fold nv.
    rewrite (int_shl_in_range 1 subdiv) by lia. rewrite Z.mul_1_l.
    cbn [mbind option_bind]. rewrite Hv0. cbn [mbind option_bind]. fold offset.
    rewrite Hr0. cbn [mbind option_bind]. rewrite Hr. cbn [mbind option_bind].
    rewrite int_sub_in_range by (unfold INT_MIN, INT_MAX in *; nia).
    cbn [mbind option_bind].
    rewrite (int_shl_in_range (nv - 1) subdiv) by (lia || nia).
    cbn [mbind option_bind].
    rewrite int_add_in_range by (unfold INT_MIN, INT_MAX in *; nia).
    reflexivity. }
  split; [congruence|]. split; [assumption|]. split; [assumption|]. split.
  - intros -> j Hj.
    rewrite for_range_empty in Hr by lia. injection Hr as <-.
    destruct (Hspread j Hj) as (v & Hv & Hco).
    exists v. split; [assumption|].
    now replace (j * 2 ^ 0) with j in Hco by (simpl; lia).
  - intros Hs1 k Hk.
    (* the last level *)
    rewrite for_range_last in Hr by lia.
    destruct (subdivide_levels_keep_ends nv subdiv (subdiv - 1) r0
                (add_v3_v3v3 (co v0) offset) (add_v3_v3v3 (co vlast) offset))
      as (t & Ht & Hlt & _); [lia|lia|lia|lia|lia|assumption..|].
    rewrite Ht in Hr. cbn [mbind option_bind] in Hr.
    rewrite subdivide_level_unfold in Hr by lia.
    replace (subdiv - (subdiv - 1) - 1) with 0 in Hr by lia.
    change (2 ^ 0) with 1 in Hr. change (2 * 1) with 2 in Hr.
    set (num_edges := (nv - 1) * 2 ^ (subdiv - 1)) in *.
    assert (Hsplit : (nv - 1) * 2 ^ subdiv = num_edges * 2).
    { unfold num_edges. rewrite <- Z.mul_assoc. f_equal.
      rewrite Z.mul_comm, <- Z.pow_succ_r by lia. f_equal. lia. }
    destruct (edge_points_defined num_edges 1 t) as (r1 & Hr1 & Hl1);
      [lia|lia|lia|].
    change (2 * 1) with 2 in Hr1. rewrite Hr1 in Hr.
    cbn [mbind option_bind] in Hr.
    destruct (move_points_means num_edges r1) as (r2 & Hr2 & Hl2 & Hframe & Hmean);
      [lia|].
    rewrite Hr2 in Hr. injection Hr as <-.
    destruct (Hmean k Hk) as (a & b & Ha & Hb & Hco).
    exists (co a), (co b). split; [|split; [|exact Hco]].
    + unfold co_at. rewrite Hframe, Ha by (intros k' Hk'; lia). reflexivity.
    + unfold co_at. rewrite Hframe, Hb by (intros k' Hk'; lia). reflexivity.
Qed.




(** ** Export cache: invalidation *)

(** C2 (code as written): invalidating the vertices of a cache whose
    buffers are all allocated resets [fiber_verts] and [fiber_tangents] to
    null, but frees [fiber_normals] without resetting it: the pointer stays
    non-null and dangling, so the category is neither present nor cleared
    to the absent state.  The cache still reports the vertices as missing,
    and the update that recomputes them is undefined, because it
    reallocates the freed buffer. *)
Theorem invalidate_leaves_normals_dangling
    (cs : list HairFiberCurve) (n : Z) (vs : list HairFiberVertex)
    (ts ns : list vec3) (tot : Z) (fo : option (list HairFollicle))
    (tfc : Z) (nv : Buffer Z) (rp : Buffer vec3) (tfv : Z) :
  let cache :=
    mkHairExportCache (Live cs) n (Live vs) (Live ts) (Live ns) tot fo tfc
                      nv rp tfv in
  let cache' :=
    mkHairExportCache (Live cs) n Null Null Freed tot fo tfc nv rp tfv in
  BKE_hair_export_cache_invalidate cache HAIR_EXPORT_FIBER_VERTICES
    = Some cache'
  /\ non_null (fiber_normals cache') = true
  /\ in_flags FiberVertices (hair_export_cache_get_required_updates cache')
     = true
  /\ forall (X : HairServices) (hsys : HairSystem) (subdiv : Z)
            (scalp : @Mesh X),
       BKE_hair_export_cache_update cache' hsys subdiv scalp
         HAIR_EXPORT_FIBER_VERTICES = None.
Proof.
  intros cache cache'. split; [reflexivity|]. split; [reflexivity|].
  split; [now rewrite in_required_updates|].
  intros X hsys subdiv scalp.
  unfold BKE_hair_export_cache_update, run_block.
  fold (update_set cache' HAIR_EXPORT_FIBER_VERTICES).
  fold (in_flags FiberCurves (update_set cache' HAIR_EXPORT_FIBER_VERTICES)).
  fold (in_flags FiberVertices (update_set cache' HAIR_EXPORT_FIBER_VERTICES)).
  rewrite !in_update_set. reflexivity.
Qed.

(** The sibling branches do reset their pointer: invalidating any set of
    categories leaves [fiber_verts], [fiber_tangents], [fiber_curves],
    [fiber_root_position] and [fiber_numverts] either untouched or null. *)
Lemma invalidate_resets_other_buffers (cache cache' : HairExportCache)
    (invalidate : Z) :
  BKE_hair_export_cache_invalidate cache invalidate = Some cache' ->
  (fiber_curves cache' = fiber_curves cache \/ fiber_curves cache' = Null)
  /\ (fiber_verts cache' = fiber_verts cache \/ fiber_verts cache' = Null)
  /\ (fiber_tangents cache' = fiber_tangents cache \/ fiber_tangents cache' = Null)
  /\ (fiber_root_position cache' = fiber_root_position cache
      \/ fiber_root_position cache' = Null)
  /\ (fiber_numverts cache' = fiber_numverts cache \/ fiber_numverts cache' = Null).
Proof.
  unfold BKE_hair_export_cache_invalidate.
  destruct (has_flag _ HAIR_EXPORT_FIBER_CURVES),
    (has_flag _ HAIR_EXPORT_FIBER_VERTICES),
    (has_flag _ HAIR_EXPORT_FIBER_ROOT_POSITIONS),
    (has_flag _ HAIR_EXPORT_FIBER_VERTEX_COUNTS);
    destruct (fiber_curves cache), (fiber_verts cache), (fiber_tangents cache),
      (fiber_normals cache), (fiber_root_position cache), (fiber_numverts cache);
    simpl; intros [= <-]; simpl; auto 10.
Qed.

(** ** The order of floats

    On floats that are not NaN the comparisons of the C code are those of
    a total preorder.  The three keys below order every such float
    lexicographically, as [SFcompare] does. *)

Definition key_class (f : float) : Z :=
  match f with
  | S754_infinity true => -2
  | S754_finite true _ _ => -1
  | S754_zero _ => 0
  | S754_nan => 0
  | S754_finite false _ _ => 1
  | S754_infinity false => 2
  end.

Definition key_exponent (f : float) : Z :=
  match f with
  | S754_finite true _ e => - e
  | S754_finite false _ e => e
  | _ => 0
  end.

Definition key_mantissa (f : float) : Z :=
  match f with
  | S754_finite true m _ => Z.neg m
  | S754_finite false m _ => Z.pos m
  | _ => 0
  end.

Definition key_lt (a b : float) : Prop :=
  key_class a < key_class b
  \/ (key_class a = key_class b
      /\ (key_exponent a < key_exponent b
          \/ (key_exponent a = key_exponent b /\ key_mantissa a < key_mantissa b))).

Definition key_le (a b : float) : Prop :=
  key_class a < key_class b
  \/ (key_class a = key_class b
      /\ (key_exponent a < key_exponent b
          \/ (key_exponent a = key_exponent b /\ key_mantissa a <= key_mantissa b))).

Lemma pos_compare_cont_Eq (m1 m2 : positive) :
  Pos.compare_cont Eq m1 m2 = (Z.pos m1 ?= Z.pos m2).
Proof. reflexivity. Qed.

Lemma flt_key (a b : float) :
  is_nan a = false -> is_nan b = false ->
  (flt a b = true <-> key_lt a b).
Proof.
  unfold flt, SFltb, key_lt.
  destruct a as [sa|sa| |sa ma ea], b as [sb|sb| |sb mb eb];
    try discriminate; intros _ _;
    try destruct sa; try destruct sb; simpl;
    try (split; [discriminate | lia]);
    try (split; [lia | reflexivity]);
    try (split; [intros _; lia | reflexivity]).
  - destruct (Z.compare_spec ea eb); simpl.
    + subst. rewrite pos_compare_cont_Eq.
      destruct (Z.compare_spec (Z.pos ma) (Z.pos mb)); simpl;
        (split; [try discriminate; lia | try reflexivity; lia]).
    + split; [discriminate | lia].
    + split; [lia | reflexivity].
  - destruct (Z.compare_spec ea eb); simpl.
    + subst. rewrite pos_compare_cont_Eq.
      destruct (Z.compare_spec (Z.pos ma) (Z.pos mb)); simpl;
        (split; [try discriminate; lia | try reflexivity; lia]).
    + split; [lia | reflexivity].
    + split; [discriminate | lia].
Qed.

Lemma fle_key (a b : float) :
  is_nan a = false -> is_nan b = false ->
  (fle a b = true <-> key_le a b).
Proof.
  unfold fle, SFleb, key_le.
  destruct a as [sa|sa| |sa ma ea], b as [sb|sb| |sb mb eb];
    try discriminate; intros _ _;
    try destruct sa; try destruct sb; simpl;
    try (split; [discriminate | lia]);
    try (split; [lia | reflexivity]);
    try (split; [intros _; lia | reflexivity]).
  - destruct (Z.compare_spec ea eb); simpl.
    + subst. rewrite pos_compare_cont_Eq.
      destruct (Z.compare_spec (Z.pos ma) (Z.pos mb)); simpl;
        (split; [try discriminate; lia | try reflexivity; lia]).
    + split; [discriminate | lia].
    + split; [lia | reflexivity].
  - destruct (Z.compare_spec ea eb); simpl.
    + subst. rewrite pos_compare_cont_Eq.
      destruct (Z.compare_spec (Z.pos ma) (Z.pos mb)); simpl;
        (split; [try discriminate; lia | try reflexivity; lia]).
    + split; [lia | reflexivity].
    + split; [discriminate | lia].
Qed.

(** Without NaN, [a > b] is false exactly when [b >= a]. *)
Lemma fgt_false_fge (a b : float) :
  is_nan a = false -> is_nan b = false ->
  fgt a b = false -> fge b a = true.
Proof.
  intros Ha Hb Hgt. unfold fgt, fge in *.
  apply fle_key; [assumption..|].
  destruct (flt b a) eqn:E; [discriminate|].
  assert (Hn : ~ key_lt b a) by (rewrite <- flt_key by assumption; congruence).
  unfold key_lt, key_le in *. lia.
Qed.

Lemma fgt_true_fge (a b : float) :
  is_nan a = false -> is_nan b = false ->
  fgt a b = true -> fge a b = true.
Proof.
  intros Ha Hb Hgt. unfold fgt, fge in *.
  apply fle_key; [assumption..|].
  apply flt_key in Hgt; [|assumption..].
  unfold key_lt, key_le in *. lia.
Qed.

Lemma fge_trans (a b c : float) :
  is_nan a = false -> is_nan b = false -> is_nan c = false ->
  fge a b = true -> fge b c = true -> fge a c = true.
Proof.
  intros Ha Hb Hc Hab Hbc. unfold fge in *.
  apply fle_key in Hab, Hbc; try assumption.
  apply fle_key; [assumption..|].
  unfold key_le in *. lia.
Qed.

Lemma fge_refl (a : float) : is_nan a = false -> fge a a = true.
Proof.
  intros Ha. unfold fge. apply fle_key; [assumption..|].
  unfold key_le. lia.
Qed.

(** ** Rounding of binary32 values

    What the binder and the point distributor need of the rounding of
    [SpecFloat]: the mantissa of a rounded value has at most 24 bits, and
    rounding a multiple of the least subnormal gives a canonical value that
    is off by at most one unit in the last place.  The value of a finite
    float is counted in units of the least subnormal, [2^-149]. *)

Definition emin32 : Z := emin prec emax.

Lemma fexp_eq (e : Z) : fexp prec emax e = Z.max (e - 24) (-149).
Proof. reflexivity. Qed.

Lemma digits2_pos_bounds (p : positive) :
  2 ^ (Z.pos (digits2_pos p) - 1) <= Z.pos p < 2 ^ Z.pos (digits2_pos p).
Proof.
  induction p as [p IH|p IH|]; cbn [digits2_pos].
  - rewrite Pos2Z.inj_succ, Z.pow_succ_r by lia.
    replace (Z.succ (Z.pos (digits2_pos p)) - 1)
      with (Z.succ (Z.pos (digits2_pos p) - 1)) by lia.
    rewrite Z.pow_succ_r by lia. lia.
  - rewrite Pos2Z.inj_succ, Z.pow_succ_r by lia.
    replace (Z.succ (Z.pos (digits2_pos p)) - 1)
      with (Z.succ (Z.pos (digits2_pos p) - 1)) by lia.
    rewrite Z.pow_succ_r by lia. lia.
  - simpl. lia.
Qed.

Lemma Zdigits2_bounds (m : Z) :
  0 < m -> 2 ^ (Zdigits2 m - 1) <= m < 2 ^ Zdigits2 m.
Proof.
  destruct m as [|p|p]; try lia. intros _. apply digits2_pos_bounds.
Qed.

Lemma Zdigits2_nonneg (m : Z) : 0 <= m -> 0 <= Zdigits2 m.
Proof. destruct m; simpl; lia. Qed.

(** The number of digits is the only [d] with [2^(d-1) <= m < 2^d]. *)
Lemma Zdigits2_unique (m d : Z) :
  2 ^ (d - 1) <= m < 2 ^ d -> 1 <= d -> Zdigits2 m = d.
Proof.
  intros Hm Hd.
  assert (Hpos : 0 < m).
  { assert (0 < 2 ^ (d - 1)) by (apply Z.pow_pos_nonneg; lia). lia. }
  pose proof (Zdigits2_bounds m Hpos) as Hb.
  assert (H0 : 0 < Zdigits2 m) by (destruct m; simpl; lia).
  destruct (Z.lt_trichotomy (Zdigits2 m) d) as [Hlt|[Heq|Hgt]]; [|exact Heq|].
  - assert (2 ^ Zdigits2 m <= 2 ^ (d - 1)) by (apply Z.pow_le_mono_r; lia). lia.
  - assert (2 ^ d <= 2 ^ (Zdigits2 m - 1)) by (apply Z.pow_le_mono_r; lia). lia.
Qed.

Lemma Zdigits2_le (m k : Z) : 0 <= m < 2 ^ k -> 0 <= k -> Zdigits2 m <= k.
Proof.
  intros Hm Hk. destruct (Z.eq_dec m 0) as [->|Hne]; [simpl; lia|].
  pose proof (Zdigits2_bounds m ltac:(lia)) as Hb.
  destruct (Z.le_gt_cases (Zdigits2 m) k) as [|Hgt]; [assumption|].
  assert (2 ^ k <= 2 ^ (Zdigits2 m - 1)) by (apply Z.pow_le_mono_r; lia). lia.
Qed.

(** Shifting to the right. *)
Lemma shr_1_m (r : shr_record) : 0 <= shr_m r -> shr_m (shr_1 r) = shr_m r / 2.
Proof.
  destruct r as [m rb sb]. cbn [shr_m]. intros Hm.
  destruct m as [|[p|p|]|p]; cbn [shr_1 shr_m]; try lia.
  - reflexivity.
  - apply Z.div_unique with 1; lia.
  - apply Z.div_unique with 0; lia.
  - reflexivity.
Qed.

Lemma iter_pos_shr_1_m (p : positive) (r : shr_record) :
  0 <= shr_m r ->
  shr_m (SpecFloat.iter_pos shr_1 p r) = shr_m r / 2 ^ Z.pos p.
Proof.
  revert r. induction p as [p IH|p IH|]; intros r Hr; cbn [SpecFloat.iter_pos].
  - assert (H1 : 0 <= shr_m (shr_1 r)).
    { rewrite shr_1_m by assumption. apply Z.div_pos; lia. }
    assert (Hp : 0 < 2 ^ Z.pos p) by (apply Z.pow_pos_nonneg; lia).
    assert (H2 : 0 <= shr_m (SpecFloat.iter_pos shr_1 p (shr_1 r))).
    { rewrite IH by assumption. apply Z.div_pos; lia. }
    assert (Hpow : 2 ^ Z.pos p~1 = 2 * (2 ^ Z.pos p * 2 ^ Z.pos p)).
    { rewrite Pos2Z.inj_xI, <- Z.pow_add_r, <- Z.pow_succ_r by lia.
      f_equal. lia. }
    rewrite IH, IH, shr_1_m by assumption.
    rewrite !Z.div_div by lia. now rewrite Hpow.
  - assert (Hp : 0 < 2 ^ Z.pos p) by (apply Z.pow_pos_nonneg; lia).
    assert (H2 : 0 <= shr_m (SpecFloat.iter_pos shr_1 p r)).
    { rewrite IH by assumption. apply Z.div_pos; lia. }
    assert (Hpow : 2 ^ Z.pos p~0 = 2 ^ Z.pos p * 2 ^ Z.pos p).
    { rewrite Pos2Z.inj_xO, <- Z.pow_add_r by lia. f_equal. lia. }
    rewrite IH, IH by assumption.
    rewrite Z.div_div by lia. now rewrite Hpow.
  - rewrite shr_1_m by assumption. reflexivity.
Qed.

Lemma shr_record_of_loc_m (m : Z) (l : location) :
  shr_m (shr_record_of_loc m l) = m.
Proof. destruct l as [|[]]; reflexivity. Qed.

(** [shr_fexp] shifts by the difference [n] between the exponent of the
    format and the exponent given, when that is positive. *)
Lemma shr_fexp_spec (m e : Z) (l : location) :
  0 <= m ->
  let n := fexp prec emax (Zdigits2 m + e) - e in
  shr_m (fst (shr_fexp prec emax m e l)) = (if 0 <? n then m / 2 ^ n else m)
  /\ snd (shr_fexp prec emax m e l) = (if 0 <? n then e + n else e).
Proof.
  intros Hm n. unfold shr_fexp. fold n. unfold shr.
  destruct n as [|p|p]; cbn [fst snd].
  - split; [apply shr_record_of_loc_m|reflexivity].
  - rewrite iter_pos_shr_1_m by (rewrite shr_record_of_loc_m; assumption).
    rewrite shr_record_of_loc_m. split; reflexivity.
  - split; [apply shr_record_of_loc_m|reflexivity].
Qed.

Lemma round_nearest_even_range (m : Z) (l : location) :
  m <= round_nearest_even m l <= m + 1.
Proof.
  unfold round_nearest_even. destruct l as [|[]]; try lia.
  destruct (Z.even m); lia.
Qed.

Lemma shr_fexp_noshift (m e : Z) (l : location) :
  fexp prec emax (Zdigits2 m + e) - e <= 0 ->
  shr_fexp prec emax m e l = (shr_record_of_loc m l, e).
Proof.
  intros Hn. unfold shr_fexp, shr.
  destruct (fexp prec emax (Zdigits2 m + e) - e); try reflexivity. lia.
Qed.

(** The mantissa of a rounded value has at most 24 bits. *)
Lemma binary_round_aux_mantissa (s s' : bool) (m e : Z) (l : location)
    (m' : positive) (e' : Z) :
  0 <= m ->
  binary_round_aux prec emax s m e l = S754_finite s' m' e' ->
  Z.pos m' < 2 ^ 24.
Proof.
  intros Hm. unfold binary_round_aux.
  pose proof (shr_fexp_spec m e l Hm) as [Hm1 _].
  destruct (shr_fexp prec emax m e l) as [mrs1 e1]. cbn [fst snd] in Hm1.
  set (m2 := round_nearest_even (shr_m mrs1) (loc_of_shr_record mrs1)).
  assert (Hm2 : 0 <= m2).
  { pose proof (round_nearest_even_range (shr_m mrs1) (loc_of_shr_record mrs1)).
    assert (0 <= shr_m mrs1); [|unfold m2; lia].
    rewrite Hm1.
    match goal with
    | |- context [0 <? ?n] => destruct (Z.ltb_spec 0 n)
    end; [|assumption].
    apply Z.div_pos; [assumption|]. apply Z.pow_pos_nonneg; lia. }
  pose proof (shr_fexp_spec m2 e1 loc_Exact Hm2) as [Hm3 _].
  destruct (shr_fexp prec emax m2 e1 loc_Exact) as [mrs2 e2].
  cbn [fst snd] in Hm3.
  assert (Hlt : shr_m mrs2 < 2 ^ 24).
  { rewrite Hm3. rewrite fexp_eq.
    destruct (Z.eq_dec m2 0) as [->|Hne].
    { match goal with
      | |- (if 0 <? ?n then _ else _) < _ => destruct (Z.ltb_spec 0 n)
      end; [rewrite Z.div_0_l by (apply Z.pow_nonzero; lia)|]; reflexivity. }
    pose proof (Zdigits2_bounds m2 ltac:(lia)) as Hb.
    assert (Hd : 0 < Zdigits2 m2) by (destruct m2; simpl; lia).
    destruct (Z.ltb_spec 0 (Z.max (Zdigits2 m2 + e1 - 24) (-149) - e1)) as [Hn|Hn].
    - set (n := Z.max (Zdigits2 m2 + e1 - 24) (-149) - e1) in *.
      assert (Hpn : 0 < 2 ^ n) by (apply Z.pow_pos_nonneg; lia).
      apply Z.div_lt_upper_bound; [assumption|].
      rewrite <- Z.pow_add_r by lia.
      assert (2 ^ Zdigits2 m2 <= 2 ^ (n + 24)) by (apply Z.pow_le_mono_r; lia).
      lia.
    - assert (2 ^ Zdigits2 m2 <= 2 ^ 24) by (apply Z.pow_le_mono_r; lia). lia. }
  destruct (shr_m mrs2) as [|p|p]; try discriminate.
  destruct (e2 <=? emax - prec); [|discriminate].
  intros [= _ <- _]. exact Hlt.
Qed.

(** Rounding a value that is canonical already gives that value, or an
    infinity when its exponent is too large. *)
Lemma binary_round_aux_exact (s : bool) (mz : positive) (ez : Z) :
  fexp prec emax (Z.pos (digits2_pos mz) + ez) = ez ->
  binary_round_aux prec emax s (Z.pos mz) ez loc_Exact
  = if ez <=? emax - prec then S754_finite s mz ez else S754_infinity s.
Proof.
  intros Hc. unfold binary_round_aux.
  rewrite shr_fexp_noshift by (cbn [Zdigits2]; lia).
  cbn [shr_record_of_loc loc_of_shr_record shr_m round_nearest_even].
  rewrite shr_fexp_noshift by (cbn [Zdigits2]; lia).
  reflexivity.
Qed.

Lemma pos_iter_xO (m d : positive) :
  Z.pos (Pos.iter xO m d) = Z.pos m * 2 ^ Z.pos d
  /\ Z.pos (digits2_pos (Pos.iter xO m d)) = Z.pos (digits2_pos m) + Z.pos d.
Proof.
  induction d as [|d IH] using Pos.peano_ind.
  - simpl. split; lia.
  - rewrite Pos.iter_succ. destruct IH as [IHv IHd].
    cbn [digits2_pos]. rewrite Pos2Z.inj_xO, IHv, !Pos2Z.inj_succ, IHd.
    rewrite Z.pow_succ_r by lia. split; lia.
Qed.

Lemma shl_align_le (m : positive) (e e' : Z) :
  e <= e' -> shl_align m e e' = (m, e).
Proof.
  intros He. unfold shl_align. destruct (e' - e) eqn:E; try reflexivity. lia.
Qed.

Lemma shl_align_gt (m : positive) (e e' : Z) :
  e' < e ->
  exists mz, shl_align m e e' = (mz, e')
             /\ Z.pos mz = Z.pos m * 2 ^ (e - e')
             /\ Z.pos (digits2_pos mz) = Z.pos (digits2_pos m) + (e - e').
Proof.
  intros He. unfold shl_align. destruct (e' - e) as [|d|d] eqn:E; try lia.
  exists (Pos.iter xO m d). split; [reflexivity|].
  replace (e - e') with (Z.pos d) by lia. apply pos_iter_xO.
Qed.

Lemma bounded_canonical (m : positive) (e : Z) :
  bounded prec emax m e = true <->
  Z.max (Z.pos (digits2_pos m) + e - 24) (-149) = e /\ e <= 104.
Proof.
  unfold bounded, canonical_mantissa. rewrite fexp_eq.
  change (emax - prec) with 104.
  destruct (Z.eqb_spec (Z.max (Z.pos (digits2_pos m) + e - 24) (-149)) e),
    (Z.leb_spec e 104); simpl; split; try discriminate; try tauto; lia.
Qed.

(** [binary_round] on a multiple of the least subnormal: the result is an
    infinity or a canonical value which is off by at most one unit in its
    last place. *)
Lemma binary_round_spec (s : bool) (m : positive) (e : Z) :
  -149 <= e ->
  (binary_round prec emax s m e = S754_infinity s
   /\ 2 ^ 276 <= Z.pos m * 2 ^ (e + 149))
  \/ exists m' e',
       binary_round prec emax s m e = S754_finite s m' e'
       /\ bounded prec emax m' e' = true
       /\ Z.abs (Z.pos m' * 2 ^ (e' + 149) - Z.pos m * 2 ^ (e + 149))
          <= 2 ^ (e' + 149).
Proof.
  intros He. unfold binary_round. rewrite fexp_eq.
  set (d := Z.pos (digits2_pos m)).
  set (ex' := Z.max (d + e - 24) (-149)).
  pose proof (digits2_pos_bounds m) as Hdm. fold d in Hdm.
  assert (Hd : 1 <= d) by (unfold d; lia).
  assert (Hbig : 104 <= d + e - 24 -> 2 ^ 276 <= Z.pos m * 2 ^ (e + 149)).
  { intros Hover.
    assert (0 < 2 ^ (e + 149)) by (apply Z.pow_pos_nonneg; lia).
    assert (2 ^ 276 <= 2 ^ (d - 1 + (e + 149))) by (apply Z.pow_le_mono_r; lia).
    rewrite Z.pow_add_r in * by lia. nia. }
  destruct (Z.lt_ge_cases ex' e) as [Hlt|Hge].
  - (* fewer than 24 bits: the mantissa is shifted to the left *)
    destruct (shl_align_gt m e ex' Hlt) as (mz & -> & Hv & Hdz).
    rewrite binary_round_aux_exact by (rewrite fexp_eq, Hdz; fold d; lia).
    change (emax - prec) with 104.
    destruct (Z.leb_spec ex' 104) as [Hmax|Hmax]; [right|left; split; [reflexivity|apply Hbig; lia]].
    exists mz, ex'. split; [reflexivity|]. split.
    + apply bounded_canonical. rewrite Hdz. fold d. lia.
    + rewrite Hv, <- Z.mul_assoc, <- Z.pow_add_r by lia.
      replace (e - ex' + (ex' + 149)) with (e + 149) by lia.
      rewrite Z.sub_diag. simpl Z.abs.
      apply Z.lt_le_incl, Z.pow_pos_nonneg; lia.
  - rewrite shl_align_le by assumption.
    destruct (Z.eq_dec ex' e) as [Heq|Hne].
    + (* exactly canonical *)
      rewrite binary_round_aux_exact by (rewrite fexp_eq; fold d; lia).
      change (emax - prec) with 104.
      destruct (Z.leb_spec e 104) as [Hmax|Hmax]; [right|left; split; [reflexivity|apply Hbig; lia]].
      exists m, e. split; [reflexivity|]. split.
      * apply bounded_canonical. fold d. lia.
      * rewrite Z.sub_diag. simpl Z.abs.
        apply Z.lt_le_incl, Z.pow_pos_nonneg; lia.
    + (* more than 24 bits: the mantissa is shifted to the right *)
      assert (Hex : ex' = d + e - 24) by (unfold ex' in *; lia).
      set (n := d - 24).
      assert (Hn : 0 < n) by (unfold n; lia).
      assert (Hpn : 0 < 2 ^ n) by (apply Z.pow_pos_nonneg; lia).
      set (q := Z.pos m / 2 ^ n).
      assert (Hq : 2 ^ n * q <= Z.pos m < 2 ^ n * (q + 1)).
      { unfold q. split; [apply Z.mul_div_le; assumption|].
        apply Z.mul_succ_div_gt. assumption. }
      assert (Hd23 : 2 ^ (d - 1) = 2 ^ n * 2 ^ 23).
      { rewrite <- Z.pow_add_r by lia. f_equal. unfold n. lia. }
      assert (Hd24 : 2 ^ d = 2 ^ n * 2 ^ 24).
      { rewrite <- Z.pow_add_r by lia. f_equal. unfold n. lia. }
      assert (Hq23 : 2 ^ 23 <= q < 2 ^ 24) by nia.
      unfold binary_round_aux.
      pose proof (shr_fexp_spec (Z.pos m) e loc_Exact ltac:(lia)) as [Hm1 He1].
      rewrite fexp_eq in Hm1, He1. cbn [Zdigits2] in Hm1, He1.
      fold d in Hm1, He1. fold ex' in Hm1, He1.
      replace (ex' - e) with n in Hm1, He1 by (unfold n; lia).
      destruct (Z.ltb_spec 0 n) as [_|]; [|lia].
      destruct (shr_fexp prec emax (Z.pos m) e loc_Exact) as [mrs1 e1].
      cbn [fst snd] in Hm1, He1. fold q in Hm1. subst e1.
      pose proof (round_nearest_even_range (shr_m mrs1) (loc_of_shr_record mrs1))
        as Hround.
      set (m2 := round_nearest_even (shr_m mrs1) (loc_of_shr_record mrs1)) in *.
      rewrite Hm1 in Hround.
      assert (Herr : Z.abs (m2 * 2 ^ n - Z.pos m) <= 2 ^ n) by nia.
      assert (He1 : e + n = ex') by (unfold n; lia). rewrite He1.
      assert (Hscale : 2 ^ (ex' + 149) = 2 ^ n * 2 ^ (e + 149)).
      { rewrite <- Z.pow_add_r by lia. f_equal. lia. }
      assert (Hpe : 0 < 2 ^ (e + 149)) by (apply Z.pow_pos_nonneg; lia).
      destruct (Z.eq_dec m2 (2 ^ 24)) as [Hm2|Hm2].
      * (* the rounded mantissa has one bit more: one more shift *)
        pose proof (shr_fexp_spec m2 ex' loc_Exact ltac:(lia)) as [Hm3 He3].
        rewrite fexp_eq in Hm3, He3.
        assert (Hd2 : Zdigits2 m2 = 25).
        { apply Zdigits2_unique; [|lia]. rewrite Hm2. simpl. lia. }
        rewrite Hd2 in Hm3, He3.
        replace (Z.max (25 + ex' - 24) (-149) - ex') with 1 in Hm3, He3 by lia.
        cbn [Z.ltb Z.compare] in Hm3, He3.
        destruct (shr_fexp prec emax m2 ex' loc_Exact) as [mrs2 e2].
        cbn [fst snd] in Hm3, He3. rewrite Hm3, Hm2. subst e2.
        change (2 ^ 24 / 2 ^ 1) with (Z.pos 8388608).
        cbv iota beta. change (emax - prec) with 104.
        destruct (Z.leb_spec (ex' + 1) 104) as [Hmax|Hmax]; [right|left; split; [reflexivity|apply Hbig; lia]].
        exists 8388608%positive, (ex' + 1). split; [reflexivity|]. split.
        -- apply bounded_canonical. simpl digits2_pos. lia.
        -- replace (ex' + 1 + 149) with (Z.succ (ex' + 149)) by lia.
           rewrite Z.pow_succ_r by lia. rewrite Hscale.
           rewrite Hm2 in Herr. change (2 ^ 24) with 16777216 in Herr.
           nia.
      * pose proof (shr_fexp_noshift m2 ex' loc_Exact) as Hno.
        assert (Hd2 : Zdigits2 m2 = 24).
        { apply Zdigits2_unique; [|lia]. lia. }
        rewrite Hd2, fexp_eq in Hno. rewrite Hno by lia.
        assert (Hm2pos : exists p2, m2 = Z.pos p2).
        { destruct m2 as [|p2|p2]; try lia. eauto. }
        destruct Hm2pos as [p2 Hp2].
        rewrite Hp2. cbn [shr_record_of_loc shr_m]. cbv iota beta.
        change (emax - prec) with 104.
        destruct (Z.leb_spec ex' 104) as [Hmax|Hmax]; [right|left; split; [reflexivity|apply Hbig; lia]].
        exists p2, ex'. split; [reflexivity|]. split.
        -- apply bounded_canonical.
           change (Z.pos (digits2_pos p2)) with (Zdigits2 (Z.pos p2)).
           rewrite <- Hp2, Hd2. lia.
        -- rewrite <- Hp2, Hscale. nia.
Qed.

(** The value of a finite float in units of [2^-149] (0 for what is not
    a finite number), and the unit in its last place. *)
Definition fval (f : float) : Z :=
  match f with
  | S754_finite s m e => (if s then -1 else 1) * (Z.pos m * 2 ^ (e + 149))
  | _ => 0
  end.

Definition ulp (f : float) : Z :=
  match f with
  | S754_finite _ _ e => 2 ^ (e + 149)
  | _ => 0
  end.

(** A binary32 number: not NaN, and canonical when it is finite. *)
Definition is_number (f : float) : bool :=
  negb (is_nan f) && valid_binary prec emax f.

(** A number that is not negative and not infinite: a zero or a positive
    canonical value. *)
Definition nonneg_number (f : float) : Prop :=
  match f with
  | S754_zero _ => True
  | S754_finite false m e => bounded prec emax m e = true
  | _ => False
  end.

(** A number between 0.0 and 1.0. *)
Definition unit_number (f : float) : Prop :=
  nonneg_number f /\ fval f <= 2 ^ 149.

Lemma nonneg_number_fval (f : float) : nonneg_number f -> 0 <= fval f.
Proof.
  destruct f as [s|s| |[] m e]; simpl; try lia; try contradiction.
Qed.

Lemma nonneg_number_not_nan (f : float) : nonneg_number f -> is_nan f = false.
Proof. destruct f as [s|s| |[] m e]; simpl; try contradiction; reflexivity. Qed.

(** One unit in the last place of a canonical value is at most
    [2^-23] times the value, or the least subnormal. *)
Lemma ulp_bound (f : float) :
  nonneg_number f -> 2 ^ 23 * ulp f <= fval f + 2 ^ 23.
Proof.
  destruct f as [s|s| |[] m e]; simpl; try lia; try contradiction.
  intros [Hc He]%bounded_canonical.
  pose proof (digits2_pos_bounds m) as Hd.
  destruct (Z.eq_dec e (-149)) as [->|Hne].
  - change (2 ^ (-149 + 149)) with 1. lia.
  - assert (Hd24 : Z.pos (digits2_pos m) = 24) by lia.
    rewrite Hd24 in Hd. change (2 ^ (24 - 1)) with 8388608 in Hd.
    assert (0 < 2 ^ (e + 149)) by (apply Z.pow_pos_nonneg; lia).
    change (2 ^ 23) with 8388608. nia.
Qed.

(** On numbers that are not negative the order of the floats is the order
    of their values. *)
Lemma canonical_order (ma mb : positive) (ea eb : Z) :
  bounded prec emax ma ea = true -> bounded prec emax mb eb = true ->
  ea < eb \/ (ea = eb /\ Z.pos ma < Z.pos mb) ->
  Z.pos ma * 2 ^ (ea + 149) < Z.pos mb * 2 ^ (eb + 149).
Proof.
  intros [Ha Ha']%bounded_canonical [Hb Hb']%bounded_canonical Hlt.
  pose proof (digits2_pos_bounds ma) as Hda.
  pose proof (digits2_pos_bounds mb) as Hdb.
  assert (HA : 0 < 2 ^ (ea + 149)) by (apply Z.pow_pos_nonneg; lia).
  destruct Hlt as [Hlt|[-> Hlt]]; [|nia].
  assert (Hdb24 : Z.pos (digits2_pos mb) = 24) by lia.
  rewrite Hdb24 in Hdb. change (2 ^ (24 - 1)) with 8388608 in Hdb.
  assert (Hma : Z.pos ma < 16777216).
  { assert (2 ^ Z.pos (digits2_pos ma) <= 2 ^ 24)
      by (apply Z.pow_le_mono_r; lia).
    change (2 ^ 24) with 16777216 in *. lia. }
  assert (HB : 2 * 2 ^ (ea + 149) <= 2 ^ (eb + 149)).
  { rewrite <- Z.pow_succ_r by lia. apply Z.pow_le_mono_r; lia. }
  nia.
Qed.

Lemma flt_fval (a b : float) :
  nonneg_number a -> nonneg_number b ->
  (flt a b = true <-> fval a < fval b).
Proof.
  intros Ha Hb.
  pose proof (nonneg_number_not_nan a Ha) as Na.
  pose proof (nonneg_number_not_nan b Hb) as Nb.
  rewrite (flt_key a b Na Nb). unfold key_lt.
  destruct a as [sa|sa| |[] ma ea]; try contradiction;
    destruct b as [sb|sb| |[] mb eb]; try contradiction;
    cbn [key_class key_exponent key_mantissa fval nonneg_number] in *.
  - lia.
  - assert (0 < 2 ^ (eb + 149)) by (apply Z.pow_pos_nonneg;
      apply bounded_canonical in Hb; lia). split; [nia|lia].
  - assert (0 < 2 ^ (ea + 149)) by (apply Z.pow_pos_nonneg;
      apply bounded_canonical in Ha; lia). split; [lia|nia].
  - rewrite !Z.mul_1_l. split.
    + intros [Hc|[_ Hlt]]; [lia|]. now apply canonical_order.
    + intros Hlt. right. split; [reflexivity|].
      destruct (Z.lt_trichotomy ea eb) as [H|[H|H]]; [lia| |].
      * subst eb. right. split; [reflexivity|].
        assert (0 < 2 ^ (ea + 149)) by (apply Z.pow_pos_nonneg;
          apply bounded_canonical in Ha; lia). nia.
      * pose proof (canonical_order mb ma eb ea Hb Ha (or_introl H)). lia.
Qed.

Lemma one_eq : one = S754_finite false 8388608 (-23).
Proof. reflexivity. Qed.

Lemma fval_one : fval one = 2 ^ 149.
Proof. reflexivity. Qed.

Lemma unit_number_zero : unit_number zero.
Proof. split; [exact I|simpl; lia]. Qed.

Lemma unit_number_one : unit_number one.
Proof. split; [reflexivity|rewrite fval_one; lia]. Qed.

Lemma shl_align_value (m : positive) (e e' : Z) :
  e' <= e -> Z.pos (fst (shl_align m e e')) = Z.pos m * 2 ^ (e - e').
Proof.
  intros He. destruct (Z.eq_dec e' e) as [->|Hne].
  - rewrite shl_align_le by lia. rewrite Z.sub_diag. simpl. lia.
  - destruct (shl_align_gt m e e') as (mz & -> & Hv & _); [lia|]. exact Hv.
Qed.

(** The sum, as an integer count of least subnormals, which [SFadd] and
    [SFsub] round. *)
Lemma aligned_value (m : positive) (e ez : Z) :
  -149 <= ez <= e ->
  Z.pos (fst (shl_align m e ez)) * 2 ^ (ez + 149) = Z.pos m * 2 ^ (e + 149).
Proof.
  intros He. rewrite shl_align_value by lia.
  rewrite <- Z.mul_assoc, <- Z.pow_add_r by lia. do 2 f_equal. lia.
Qed.

(** Rounding a positive multiple of the least subnormal that is below the
    overflow threshold. *)
Lemma binary_round_nonneg (m : positive) (e : Z) :
  -149 <= e -> Z.pos m * 2 ^ (e + 149) < 2 ^ 276 ->
  let r := binary_round prec emax false m e in
  nonneg_number r
  /\ Z.abs (fval r - Z.pos m * 2 ^ (e + 149)) <= ulp r.
Proof.
  intros He Hsmall r. unfold r.
  destruct (binary_round_spec false m e He) as [[_ Hbig]|(m' & e' & -> & Hb & Herr)];
    [lia|].
  cbn [nonneg_number fval ulp]. rewrite Z.mul_1_l. auto.
Qed.

(** The sum of two numbers that are not negative. *)
Lemma fadd_nonneg (a b : float) :
  nonneg_number a -> nonneg_number b -> fval a + fval b < 2 ^ 276 ->
  nonneg_number (fadd a b)
  /\ Z.abs (fval (fadd a b) - (fval a + fval b)) <= ulp (fadd a b).
Proof.
  intros Ha Hb Hsmall.
  destruct a as [sa|sa| |[] ma ea]; try contradiction;
    destruct b as [sb|sb| |[] mb eb]; try contradiction.
  - destruct sa, sb; simpl; split; (exact I || lia).
  - cbn [fadd SFadd]. unfold fadd, SFadd. cbn [nonneg_number] in *.
    split; [assumption|]. cbn [fval ulp].
    assert (0 < 2 ^ (eb + 149)) by (apply Z.pow_pos_nonneg;
      apply bounded_canonical in Hb; lia). lia.
  - unfold fadd, SFadd. cbn [nonneg_number] in *.
    split; [assumption|]. cbn [fval ulp].
    assert (0 < 2 ^ (ea + 149)) by (apply Z.pow_pos_nonneg;
      apply bounded_canonical in Ha; lia). lia.
  - cbn [nonneg_number] in Ha, Hb.
    pose proof (proj1 (bounded_canonical _ _) Ha) as [Hca _].
    pose proof (proj1 (bounded_canonical _ _) Hb) as [Hcb _].
    unfold fadd, SFadd. cbn [cond_Zopp Z.add binary_normalize].
    set (ez := Z.min ea eb).
    pose proof (aligned_value ma ea ez ltac:(unfold ez; lia)) as Hva.
    pose proof (aligned_value mb eb ez ltac:(unfold ez; lia)) as Hvb.
    cbn [fval] in Hsmall |- *. rewrite !Z.mul_1_l in *.
    rewrite <- Hva, <- Hvb, <- Z.mul_add_distr_r in *.
    rewrite <- Pos2Z.inj_add in *.
    apply binary_round_nonneg; [unfold ez; lia|assumption].
Qed.

(** [1.0f - f] for a number [f]: when [f] is between 0.0 and 1.0 the
    difference is rounded to a number between 0.0 and 1.0 (or just above
    1.0 by rounding); when [f] is above 1.0 the difference is negative;
    when [f] is negative it is a positive number or the infinity. *)
Lemma fsub_one_unit (f : float) :
  unit_number f ->
  nonneg_number (fsub one f)
  /\ Z.abs (fval (fsub one f) - (2 ^ 149 - fval f)) <= ulp (fsub one f).
Proof.
  intros [Hf Hle].
  destruct f as [s|s| |[] m e]; try contradiction.
  - change (fsub one (S754_zero s)) with one.
    split; [reflexivity|]. rewrite fval_one. simpl. lia.
  - cbn [nonneg_number] in Hf.
    pose proof (proj1 (bounded_canonical _ _) Hf) as [Hc _].
    rewrite one_eq. unfold fsub, SFsub. cbn [cond_Zopp].
    set (ez := Z.min (-23) e).
    pose proof (aligned_value 8388608 (-23) ez ltac:(unfold ez; lia)) as Hv1.
    pose proof (aligned_value m e ez ltac:(unfold ez; lia)) as Hvf.
    change (Z.pos 8388608 * 2 ^ (-23 + 149)) with (2 ^ 149) in Hv1.
    cbn [fval] in Hle |- *. rewrite Z.mul_1_l in *.
    rewrite <- Hv1, <- Hvf in *. rewrite <- Z.mul_sub_distr_r.
    assert (Hpe : 0 < 2 ^ (ez + 149)) by (apply Z.pow_pos_nonneg; unfold ez; lia).
    destruct (Z.pos (fst (shl_align 8388608 (-23) ez))
              - Z.pos (fst (shl_align m e ez))) as [|p|p] eqn:E.
    + cbn [binary_normalize nonneg_number fval ulp]. split; [exact I|lia].
    + cbn [binary_normalize]. apply binary_round_nonneg; [unfold ez; lia|].
      assert (Z.pos p * 2 ^ (ez + 149) <= 2 ^ 149);
        [|assert (2 ^ 149 < 2 ^ 276) by reflexivity; lia].
      rewrite <- Hv1. nia.
    + exfalso. nia.
Qed.

(** The sign of [1.0f - f] for a positive number above 1.0. *)
Lemma fsub_one_above (m : positive) (e : Z) :
  bounded prec emax m e = true ->
  2 ^ 149 < Z.pos m * 2 ^ (e + 149) ->
  flt (fsub one (S754_finite false m e)) zero = true.
Proof.
  intros Hb Hgt.
  pose proof (proj1 (bounded_canonical _ _) Hb) as [Hc _].
  rewrite one_eq. unfold fsub, SFsub. cbn [cond_Zopp].
  set (ez := Z.min (-23) e).
  pose proof (aligned_value 8388608 (-23) ez ltac:(unfold ez; lia)) as Hv1.
  pose proof (aligned_value m e ez ltac:(unfold ez; lia)) as Hvf.
  change (Z.pos 8388608 * 2 ^ (-23 + 149)) with (2 ^ 149) in Hv1.
  rewrite <- Hv1, <- Hvf in Hgt.
  assert (Hpe : 0 < 2 ^ (ez + 149)) by (apply Z.pow_pos_nonneg; unfold ez; lia).
  destruct (Z.pos (fst (shl_align 8388608 (-23) ez))
            - Z.pos (fst (shl_align m e ez))) as [|p|p] eqn:E; try (exfalso; nia).
  cbn [binary_normalize].
  destruct (binary_round_spec true p ez ltac:(unfold ez; lia))
    as [[-> _]|(m' & e' & -> & _)]; reflexivity.
Qed.

(** [1.0f - f] for a negative number. *)
Lemma fsub_one_negative (m : positive) (e : Z) :
  bounded prec emax m e = true ->
  let r := fsub one (S754_finite true m e) in
  r = S754_infinity false
  \/ (nonneg_number r /\ 2 ^ 149 - ulp r <= fval r).
Proof.
  intros Hb r. unfold r.
  pose proof (proj1 (bounded_canonical _ _) Hb) as [Hc _].
  rewrite one_eq. unfold fsub, SFsub. cbn [cond_Zopp].
  set (ez := Z.min (-23) e).
  pose proof (aligned_value 8388608 (-23) ez ltac:(unfold ez; lia)) as Hv1.
  change (Z.pos 8388608 * 2 ^ (-23 + 149)) with (2 ^ 149) in Hv1.
  assert (Hpe : 0 < 2 ^ (ez + 149)) by (apply Z.pow_pos_nonneg; unfold ez; lia).
  replace (Z.pos (fst (shl_align 8388608 (-23) ez))
           - - Z.pos (fst (shl_align m e ez)))
    with (Z.pos (fst (shl_align 8388608 (-23) ez) + fst (shl_align m e ez)))
    by lia.
  cbn [binary_normalize].
  destruct (binary_round_spec false
              (fst (shl_align 8388608 (-23) ez) + fst (shl_align m e ez)) ez
              ltac:(unfold ez; lia))
    as [[-> _]|(m' & e' & -> & Hb' & Herr)]; [now left|right].
  cbn [nonneg_number fval ulp]. split; [assumption|].
  rewrite Z.mul_1_l. rewrite Pos2Z.inj_add, Z.mul_add_distr_r, Hv1 in Herr.
  lia.
Qed.

(** A clamped number lies between 0.0 and 1.0. *)
Lemma is_number_cases (f : float) :
  is_number f = true ->
  match f with
  | S754_finite _ m e => bounded prec emax m e = true
  | S754_nan => False
  | _ => True
  end.
Proof.
  unfold is_number. destruct f as [s|s| |s m e]; simpl; try discriminate; auto.
Qed.

Lemma CLAMP_unit (x : float) :
  is_number x = true -> unit_number (CLAMP x zero one).
Proof.
  intros Hx%is_number_cases. unfold CLAMP.
  destruct (flt x zero) eqn:E0; [apply unit_number_zero|].
  destruct (fgt x one) eqn:E1; [apply unit_number_one|].
  destruct x as [s|[]| |[] m e]; try contradiction; try discriminate.
  - split; [exact I|simpl; lia].
  - assert (Hn : nonneg_number (S754_finite false m e)) by exact Hx.
    split; [exact Hn|].
    unfold fgt in E1.
    pose proof (flt_fval one (S754_finite false m e) (proj1 unit_number_one) Hn)
      as Hlt.
    rewrite E1, fval_one in Hlt.
    destruct (Z.le_gt_cases (fval (S754_finite false m e)) (2 ^ 149)) as [|Hgt];
      [assumption|]. apply Hlt in Hgt. discriminate.
Qed.

Lemma CLAMP_id (x : float) :
  unit_number x -> CLAMP x zero one = x.
Proof.
  intros [Hn Hle]. unfold CLAMP.
  assert (E0 : flt x zero = false).
  { destruct (flt x zero) eqn:E; [|reflexivity].
    apply (flt_fval x zero Hn I) in E.
    pose proof (nonneg_number_fval x Hn). simpl in E. lia. }
  assert (E1 : fgt x one = false).
  { unfold fgt. destruct (flt one x) eqn:E; [|reflexivity].
    apply (flt_fval one x (proj1 unit_number_one) Hn) in E.
    rewrite fval_one in E. lia. }
  now rewrite E0, E1.
Qed.

(** The two weights the binder computes from a line factor that is a
    number: both lie between 0.0 and 1.0 and their values add up to 1.0 but
    for one rounding. *)
Lemma line_weights_unit (f : float) :
  is_number f = true ->
  let w1 := CLAMP f zero one in
  let w0 := CLAMP (fsub one f) zero one in
  unit_number w0 /\ unit_number w1
  /\ Z.abs (fval w0 + fval w1 - 2 ^ 149) <= 2 ^ 127.
Proof.
  intros Hf w1 w0.
  assert (Hw1 : unit_number w1) by now apply CLAMP_unit.
  pose proof (is_number_cases f Hf) as Hc.
  assert (H127 : (2 ^ 23 - 1) * 2 ^ 127 > 2 ^ 149 + 2 ^ 23) by reflexivity.
  destruct f as [s|[]| |[] m e]; try contradiction.
  - (* zero *)
    assert (E0 : w0 = one) by (destruct s; reflexivity).
    assert (E1 : w1 = S754_zero s) by (destruct s; reflexivity).
    rewrite E0, E1. split; [apply unit_number_one|].
    split; [split; [exact I|simpl; lia]|]. rewrite fval_one. simpl. lia.
  - (* -inf *)
    assert (E0 : w0 = one) by reflexivity.
    assert (E1 : w1 = zero) by reflexivity.
    rewrite E0, E1. split; [apply unit_number_one|].
    split; [apply unit_number_zero|]. rewrite fval_one. simpl. lia.
  - (* +inf *)
    assert (E0 : w0 = zero) by reflexivity.
    assert (E1 : w1 = one) by reflexivity.
    rewrite E0, E1. split; [apply unit_number_zero|].
    split; [apply unit_number_one|]. rewrite fval_one. simpl. lia.
  - (* negative *)
    assert (E1 : w1 = zero) by reflexivity.
    destruct (fsub_one_negative m e Hc) as [Hinf|[Hn Hlow]].
    + assert (E0 : w0 = one) by (unfold w0; rewrite Hinf; reflexivity).
      rewrite E0, E1. split; [apply unit_number_one|].
      split; [apply unit_number_zero|]. rewrite fval_one. simpl. lia.
    + set (r := fsub one (S754_finite true m e)) in *.
      assert (Hw0 : unit_number w0).
      { unfold w0. fold r. apply CLAMP_unit. unfold is_number.
        rewrite (nonneg_number_not_nan r Hn). simpl.
        destruct r as [?|?| |[] ? ?]; try contradiction; auto. }
      split; [assumption|]. split; [assumption|]. rewrite E1. simpl fval.
      pose proof (ulp_bound r Hn) as Hu.
      pose proof (nonneg_number_fval r Hn) as Hr0.
      unfold w0 in *. fold r in Hw0 |- *. unfold CLAMP in *.
      destruct (flt r zero) eqn:F0.
      { apply (flt_fval r zero Hn I) in F0. simpl in F0. lia. }
      destruct (fgt r one) eqn:F1; [rewrite fval_one; lia|].
      destruct Hw0 as [_ Hle].
      change (2 ^ 23) with 8388608 in *. lia.
  - (* positive *)
    assert (Hn : nonneg_number (S754_finite false m e)) by exact Hc.
    destruct (Z.le_gt_cases (fval (S754_finite false m e)) (2 ^ 149)) as [Hle|Hgt].
    + assert (E1 : w1 = S754_finite false m e)
        by (apply CLAMP_id; split; assumption).
      destruct (fsub_one_unit (S754_finite false m e)) as [Hr Herr];
        [split; assumption|].
      set (r := fsub one (S754_finite false m e)) in *.
      assert (Hw0 : unit_number w0).
      { unfold w0. fold r. apply CLAMP_unit. unfold is_number.
        rewrite (nonneg_number_not_nan r Hr). simpl.
        destruct r as [?|?| |[] ? ?]; try contradiction; auto. }
      split; [assumption|]. split; [rewrite E1; split; assumption|].
      rewrite E1.
      pose proof (ulp_bound r Hr) as Hu.
      pose proof (nonneg_number_fval r Hr) as Hr0.
      pose proof (nonneg_number_fval _ Hn) as Hf0.
      unfold w0 in *. fold r in Hw0 |- *. unfold CLAMP in *.
      destruct (flt r zero) eqn:F0.
      { apply (flt_fval r zero Hr I) in F0. simpl in F0. lia. }
      destruct (fgt r one) eqn:F1.
      * unfold fgt in F1.
        apply (flt_fval one r (proj1 unit_number_one) Hr) in F1.
        rewrite fval_one in *. change (2 ^ 23) with 8388608 in *. lia.
      * destruct Hw0 as [_ Hle0]. change (2 ^ 23) with 8388608 in *. lia.
    + assert (E1 : w1 = one).
      { unfold w1, CLAMP.
        assert (F0 : flt (S754_finite false m e) zero = false) by reflexivity.
        rewrite F0. unfold fgt.
        assert (F1 : flt one (S754_finite false m e) = true).
        { apply (flt_fval one _ (proj1 unit_number_one) Hn).
          now rewrite fval_one. }
        now rewrite F1. }
      assert (E0 : w0 = zero).
      { unfold w0, CLAMP. rewrite fsub_one_above; [reflexivity|assumption|].
        cbn [fval] in Hgt. lia. }
      rewrite E0, E1. split; [apply unit_number_zero|].
      split; [apply unit_number_one|]. rewrite fval_one. simpl. lia.
Qed.

(** The sum of four numbers between 0.0 and 1.0, added from slot 0 to
    slot 3 as [hair_fiber_verify_weights] adds them, is off their exact sum
    by three roundings at most. *)
Lemma weights_sum_value (w : Array4 float) :
  unit_number (a0 w) -> unit_number (a1 w) ->
  unit_number (a2 w) -> unit_number (a3 w) ->
  nonneg_number (weights_sum w)
  /\ Z.abs (fval (weights_sum w)
            - (fval (a0 w) + fval (a1 w) + fval (a2 w) + fval (a3 w)))
     <= 2 ^ 130.
Proof.
  intros [N0 L0] [N1 L1] [N2 L2] [N3 L3]. unfold weights_sum.
  pose proof (nonneg_number_fval _ N0) as P0.
  pose proof (nonneg_number_fval _ N1) as P1.
  pose proof (nonneg_number_fval _ N2) as P2.
  pose proof (nonneg_number_fval _ N3) as P3.
  assert (H276 : 2 ^ 276 > 8 * 2 ^ 149) by reflexivity.
  destruct (fadd_nonneg (a0 w) (a1 w) N0 N1) as [S1 E1]; [lia|].
  set (s1 := fadd (a0 w) (a1 w)) in *.
  pose proof (ulp_bound s1 S1) as U1.
  destruct (fadd_nonneg s1 (a2 w) S1 N2) as [S2 E2];
    [change (2 ^ 23) with 8388608 in *; lia|].
  set (s2 := fadd s1 (a2 w)) in *.
  pose proof (ulp_bound s2 S2) as U2.
  destruct (fadd_nonneg s2 (a3 w) S2 N3) as [S3 E3];
    [change (2 ^ 23) with 8388608 in *; lia|].
  set (s3 := fadd s2 (a3 w)) in *.
  pose proof (ulp_bound s3 S3) as U3.
  split; [assumption|].
  change (2 ^ 23) with 8388608 in *. lia.
Qed.

Fixpoint sum_fval (l : list float) : Z :=
  match l with
  | [] => 0
  | x :: rest => fval x + sum_fval rest
  end.

Lemma sum_fval_perm (l l' : list float) :
  Permutation l l' -> sum_fval l = sum_fval l'.
Proof. induction 1; simpl; lia. Qed.

(** The cast to [int] of a product and one more are an [int]: a rounded
    value has at most 24 bits, so that its integer part, when it is an
    [int], is at most [2^31 - 128]. *)
Lemma to_int_fmul_below (a b : float) (n : Z) :
  to_int (fmul a b) = Some n -> INT_MIN <= n <= INT_MAX - 1.
Proof.
  unfold to_int. destruct (trunc (fmul a b)) as [z|] eqn:Ez; [|discriminate].
  intros [-> Hr]%check_int_Some. split; [lia|].
  destruct (fmul a b) as [s|s| |s m e] eqn:Ef; cbn [trunc] in Ez;
    try discriminate.
  - injection Ez as <-. unfold INT_MAX. simpl. lia.
  - assert (Hm : Z.pos m < 2 ^ 24).
    { destruct a as [sa|sa| |sa ma ea], b as [sb|sb| |sb mb eb];
        try discriminate.
      unfold fmul, SFmul in Ef.
      eapply binary_round_aux_mantissa; [|exact Ef]. lia. }
    injection Ez as <-.
    destruct s.
    { pose proof (proj2 (Z.shiftl_nonneg (Z.pos m) e) ltac:(lia)).
      unfold INT_MAX. change (2 ^ 31) with 2147483648. lia. }
    unfold INT_MAX in *. change (2 ^ 24) with 16777216 in Hm.
    change (2 ^ 31) with 2147483648 in *.
    destruct (Z.le_gt_cases 7 e) as [He|He].
    + rewrite Z.shiftl_mul_pow2 in * by lia.
      replace e with (e - 7 + 7) in * by lia.
      rewrite Z.pow_add_r in * by lia. change (2 ^ 7) with 128 in *.
      assert (0 < 2 ^ (e - 7)) by (apply Z.pow_pos_nonneg; lia).
      nia.
    + destruct (Z.le_gt_cases 0 e) as [He0|He0].
      * rewrite Z.shiftl_mul_pow2 by lia.
        assert (2 ^ e <= 2 ^ 6) by (apply Z.pow_le_mono_r; lia).
        change (2 ^ 6) with 64 in *.
        assert (0 < 2 ^ e) by (apply Z.pow_pos_nonneg; lia). nia.
      * rewrite Z.shiftl_div_pow2 by lia.
        assert (0 < 2 ^ (- e)) by (apply Z.pow_pos_nonneg; lia).
        assert (Z.pos m / 2 ^ (- e) <= Z.pos m)
          by (apply Z.div_le_upper_bound; nia).
        lia.
Qed.

(** ** Sorting of the parent weights *)

Definition no_nan4 (w : Array4 float) : Prop :=
  is_nan (a0 w) = false /\ is_nan (a1 w) = false
  /\ is_nan (a2 w) = false /\ is_nan (a3 w) = false.

Ltac float_facts :=
  repeat match goal with
         | H : fgt ?a ?b = true |- _ =>
             apply flt_key in H; [|assumption..]; unfold key_lt in H
         | H : fgt ?a ?b = false |- _ =>
             apply fgt_false_fge in H; [|assumption..]
         | H : fge ?a ?b = true |- _ =>
             apply fle_key in H; [|assumption..]; unfold key_le in H
         end.

Ltac float_order :=
  float_facts; apply fle_key; [assumption..|]; unfold key_le; lia.

Ltac split_fgt :=
  repeat (match goal with
          | |- context [fgt ?a ?b] =>
              is_var a; is_var b; destruct (fgt a b) eqn:?
          end; cbn [fst snd]).

Lemma get4_swap4 {A} (a : Array4 A) (i j k : nat) :
  (i <= 3)%nat -> (j <= 3)%nat -> (k <= 3)%nat ->
  get4 (swap4 a i j) k
  = if Nat.eqb k j then get4 a i
    else if Nat.eqb k i then get4 a j else get4 a k.
Proof.
  intros Hi Hj Hk.
  destruct i as [|[|[|[|i]]]]; try lia;
    destruct j as [|[|[|[|j]]]]; try lia;
    destruct k as [|[|[|[|k]]]]; try lia; reflexivity.
Qed.

Lemma sort_find_max_range (w : Array4 float) (k : nat) :
  (k <= 3)%nat ->
  (k <= sort_find_max w k <= 3)%nat.
Proof.
  intros Hk. destruct w as [w0 w1 w2 w3]. unfold sort_find_max.
  destruct k as [|[|[|[|k]]]]; try lia;
    cbn [seq Nat.sub fold_left get4 a0 a1 a2 a3 fst snd];
    split_fgt; lia.
Qed.

Lemma sort_find_max_ge (w : Array4 float) (k j : nat) :
  no_nan4 w -> (k <= j <= 3)%nat ->
  fge (get4 w (sort_find_max w k)) (get4 w j) = true.
Proof.
  destruct w as [w0 w1 w2 w3]. intros (N0 & N1 & N2 & N3) Hj.
  cbn [a0 a1 a2 a3] in *. unfold sort_find_max.
  destruct k as [|[|[|[|k]]]]; try lia;
    destruct j as [|[|[|[|j]]]]; try lia;
    cbn [seq Nat.sub fold_left get4 a0 a1 a2 a3 fst snd];
    split_fgt; cbn [get4 a0 a1 a2 a3]; unfold fge; float_order.
Qed.

(** A step of the sort exchanges slot [k] and the slot of the largest
    weight, in both arrays. *)
Definition exchanged (k m j : nat) : nat :=
  if Nat.eqb j m then k else if Nat.eqb j k then m else j.

Lemma sort_step_slots (follicle : HairFollicle) (k j : nat) :
  (k <= 3)%nat -> (j <= 3)%nat ->
  get4 (parent_index (sort_step follicle k)) j
  = get4 (parent_index follicle)
         (exchanged k (sort_find_max (parent_weight follicle) k) j)
  /\ get4 (parent_weight (sort_step follicle k)) j
     = get4 (parent_weight follicle)
            (exchanged k (sort_find_max (parent_weight follicle) k) j).
Proof.
  intros Hk Hj.
  pose proof (sort_find_max_range (parent_weight follicle) k Hk) as Hm.
  unfold sort_step, exchanged.
  destruct (Nat.eqb_spec (sort_find_max (parent_weight follicle) k) k) as [E|Hne].
  - rewrite E. destruct (Nat.eqb_spec j k) as [->|]; auto.
  - unfold FIBERSWAP. cbn [parent_index parent_weight].
    rewrite !get4_swap4 by lia.
    destruct (Nat.eqb_spec j (sort_find_max (parent_weight follicle) k));
      [auto|]. destruct (Nat.eqb_spec j k); auto.
Qed.

Lemma exchanged_range (k m j : nat) :
  (k <= m <= 3)%nat -> (k <= j <= 3)%nat -> (k <= exchanged k m j <= 3)%nat.
Proof.
  intros Hm Hj. unfold exchanged.
  destruct (Nat.eqb_spec j m); [lia|]. destruct (Nat.eqb_spec j k); lia.
Qed.

Lemma exchanged_below (k m j : nat) :
  (k <= m)%nat -> (j < k)%nat -> exchanged k m j = j.
Proof.
  intros Hm Hj. unfold exchanged.
  destruct (Nat.eqb_spec j m); [lia|]. destruct (Nat.eqb_spec j k); lia.
Qed.

(** What holds of the pair (index, weight) of every slot from [l] on, for
    [l <= k], still holds of every such slot after step [k]. *)
Lemma sort_step_transfer (P : Z -> float -> Prop) (follicle : HairFollicle)
    (l k : nat) :
  (l <= k <= 3)%nat ->
  (forall j, (l <= j <= 3)%nat ->
             P (get4 (parent_index follicle) j) (get4 (parent_weight follicle) j)) ->
  forall j, (l <= j <= 3)%nat ->
            P (get4 (parent_index (sort_step follicle k)) j)
              (get4 (parent_weight (sort_step follicle k)) j).
Proof.
  intros Hk HP j Hj.
  destruct (sort_step_slots follicle k j) as [-> ->]; [lia..|].
  apply HP.
  pose proof (sort_find_max_range (parent_weight follicle) k (proj2 Hk)) as Hm.
  unfold exchanged.
  destruct (Nat.eqb_spec j (sort_find_max (parent_weight follicle) k)); [lia|].
  destruct (Nat.eqb_spec j k); lia.
Qed.

Lemma sort_step_below (follicle : HairFollicle) (k j : nat) :
  (k <= 3)%nat -> (j < k)%nat ->
  get4 (parent_weight (sort_step follicle k)) j
  = get4 (parent_weight follicle) j.
Proof.
  intros Hk Hj.
  destruct (sort_step_slots follicle k j) as [_ ->]; [lia..|].
  rewrite exchanged_below; [reflexivity| |assumption].
  apply sort_find_max_range. lia.
Qed.

Lemma no_nan4_get (w : Array4 float) :
  no_nan4 w <-> forall j, (0 <= j <= 3)%nat -> is_nan (get4 w j) = false.
Proof.
  split.
  - intros (N0 & N1 & N2 & N3) j Hj.
    destruct j as [|[|[|[|j]]]]; try lia; assumption.
  - intros Hall. repeat split.
    + apply (Hall 0%nat). lia.
    + apply (Hall 1%nat). lia.
    + apply (Hall 2%nat). lia.
    + apply (Hall 3%nat). lia.
Qed.

Lemma sort_step_no_nan (follicle : HairFollicle) (k : nat) :
  (k <= 3)%nat ->
  no_nan4 (parent_weight follicle) ->
  no_nan4 (parent_weight (sort_step follicle k)).
Proof.
  intros Hk Hn. apply no_nan4_get. intros j Hj.
  destruct (sort_step_slots follicle k j) as [_ ->]; [lia..|].
  apply no_nan4_get; [assumption|].
  pose proof (sort_find_max_range (parent_weight follicle) k Hk).
  unfold exchanged.
  destruct (Nat.eqb_spec j (sort_find_max (parent_weight follicle) k)); [lia|].
  destruct (Nat.eqb_spec j k); lia.
Qed.

(** After the step, slot [k] holds a weight that is at least every weight
    behind it. *)
Lemma sort_step_max (follicle : HairFollicle) (k j : nat) :
  no_nan4 (parent_weight follicle) ->
  (k <= j <= 3)%nat ->
  fge (get4 (parent_weight (sort_step follicle k)) k)
      (get4 (parent_weight (sort_step follicle k)) j) = true.
Proof.
  intros Hn Hj.
  assert (Hk : (k <= 3)%nat) by lia.
  pose proof (sort_find_max_range (parent_weight follicle) k Hk) as Hm.
  destruct (sort_step_slots follicle k k) as [_ ->]; [lia..|].
  destruct (sort_step_slots follicle k j) as [_ ->]; [lia..|].
  replace (exchanged k (sort_find_max (parent_weight follicle) k) k)
    with (sort_find_max (parent_weight follicle) k).
  - apply sort_find_max_ge; [assumption|].
    apply exchanged_range; lia.
  - unfold exchanged.
    destruct (Nat.eqb_spec k (sort_find_max (parent_weight follicle) k)); [lia|].
    now rewrite Nat.eqb_refl.
Qed.

Lemma sort_weights_sorted (follicle : HairFollicle) :
  no_nan4 (parent_weight follicle) ->
  weights_sorted (parent_weight (hair_fiber_sort_weights follicle)) = true.
Proof.
  intros Hn. unfold hair_fiber_sort_weights. cbn [seq fold_left].
  set (f1 := sort_step follicle 0).
  set (f2 := sort_step f1 1).
  set (f3 := sort_step f2 2).
  assert (Hn1 : no_nan4 (parent_weight f1)) by (apply sort_step_no_nan; [lia|assumption]).
  assert (Hn2 : no_nan4 (parent_weight f2)) by (apply sort_step_no_nan; [lia|assumption]).
  (* slot 0 dominates the slots behind it after the first step, and the
     later steps only exchange those *)
  assert (H0 : forall j, (1 <= j <= 3)%nat ->
                         fge (get4 (parent_weight f1) 0) (get4 (parent_weight f3) j) = true).
  { apply (sort_step_transfer (fun _ x => fge (get4 (parent_weight f1) 0) x = true) f2 1 2);
      [lia|].
    apply (sort_step_transfer (fun _ x => fge (get4 (parent_weight f1) 0) x = true) f1 1 1);
      [lia|].
    intros j Hj. apply sort_step_max; [assumption|lia]. }
  assert (H1 : forall j, (2 <= j <= 3)%nat ->
                         fge (get4 (parent_weight f2) 1) (get4 (parent_weight f3) j) = true).
  { apply (sort_step_transfer (fun _ x => fge (get4 (parent_weight f2) 1) x = true) f2 2 2);
      [lia|].
    intros j Hj. apply sort_step_max; [assumption|lia]. }
  assert (H2 : fge (get4 (parent_weight f3) 2) (get4 (parent_weight f3) 3) = true).
  { apply sort_step_max; [assumption|lia]. }
  assert (E0 : get4 (parent_weight f3) 0 = get4 (parent_weight f1) 0).
  { unfold f3. rewrite sort_step_below by lia.
    unfold f2. now rewrite sort_step_below by lia. }
  assert (E1 : get4 (parent_weight f3) 1 = get4 (parent_weight f2) 1).
  { unfold f3. now rewrite sort_step_below by lia. }
  unfold weights_sorted.
  change (a0 (parent_weight f3)) with (get4 (parent_weight f3) 0).
  change (a1 (parent_weight f3)) with (get4 (parent_weight f3) 1).
  change (a2 (parent_weight f3)) with (get4 (parent_weight f3) 2).
  change (a3 (parent_weight f3)) with (get4 (parent_weight f3) 3).
  rewrite E0 at 1. rewrite (H0 1%nat) by lia.
  rewrite E1 at 1. rewrite (H1 2%nat) by lia.
  now rewrite H2.
Qed.

(** The sort keeps, slot by slot, what holds of every (index, weight)
    pair. *)
Lemma sort_weights_transfer (P : Z -> float -> Prop) (follicle : HairFollicle) :
  (forall j, (0 <= j <= 3)%nat ->
             P (get4 (parent_index follicle) j) (get4 (parent_weight follicle) j)) ->
  forall j, (0 <= j <= 3)%nat ->
            P (get4 (parent_index (hair_fiber_sort_weights follicle)) j)
              (get4 (parent_weight (hair_fiber_sort_weights follicle)) j).
Proof.
  intros HP. unfold hair_fiber_sort_weights. cbn [seq fold_left].
  apply (sort_step_transfer P _ 0 2); [lia|].
  apply (sort_step_transfer P _ 0 1); [lia|].
  apply (sort_step_transfer P _ 0 0); [lia|].
  exact HP.
Qed.

Lemma sort_weights_sample (follicle : HairFollicle) :
  follicle_sample (hair_fiber_sort_weights follicle) = follicle_sample follicle.
Proof.
  unfold hair_fiber_sort_weights. cbn [seq fold_left].
  unfold sort_step, FIBERSWAP.
  repeat match goal with
         | |- context [if ?c then _ else _] => destruct c
         end; reflexivity.
Qed.

(** ** Strand binder *)

(** The tolerance of [hair_fiber_verify_weights], [1.0e-2], and the one the
    specification states, 0.02. *)
Definition verify_epsilon : float := fdiv one (of_int 100).
Definition stated_tolerance : float := fdiv (of_int 2) (of_int 100).

(** What the binder needs of the spatial index: a query returns points
    that were inserted. *)
Definition kdtree_sound `{HairServices} : Prop :=
  forall (tree : KDTree) (loc : vec3) (n : Z) (r : KDTreeNearest),
    r ∈ BLI_kdtree_find_nearest_n tree loc n ->
    exists co, (nearest_index r, co) ∈ tree.

(** A slot either is unused (sentinel index, weight 0.0) or holds a
    strand. *)
Definition slot_consistent (index : Z) (weight : float) : Prop :=
  (index = HAIR_STRAND_INDEX_NONE /\ weight = zero)
  \/ index <> HAIR_STRAND_INDEX_NONE.

(** A weight as the binder writes it: 0.0, 1.0 or a clamped value. *)
Definition binder_weight (weight : float) : Prop :=
  weight = zero \/ weight = one \/ exists x, weight = CLAMP x zero one.

Lemma CLAMP_range (x : float) :
  is_nan (CLAMP x zero one) = false ->
  fle zero (CLAMP x zero one) = true /\ fle (CLAMP x zero one) one = true.
Proof.
  unfold CLAMP.
  destruct (flt x zero) eqn:E0; [intros _; split; reflexivity|].
  destruct (fgt x one) eqn:E1; [intros _; split; reflexivity|].
  intros Hn.
  assert (N0 : is_nan zero = false) by reflexivity.
  assert (N1 : is_nan one = false) by reflexivity.
  split.
  - change (fge x zero = true). apply fgt_false_fge; assumption.
  - change (fge one x = true). apply fgt_false_fge; assumption.
Qed.

Lemma binder_weight_range (w : float) :
  binder_weight w -> is_nan w = false ->
  fle zero w = true /\ fle w one = true.
Proof.
  intros [->|[->|[x ->]]] Hn.
  - split; reflexivity.
  - split; reflexivity.
  - now apply CLAMP_range.
Qed.

Lemma kdtree_of_lookup (strandloc : list vec3) (index : Z) (co : vec3) :
  (index, co) ∈ kdtree_of strandloc -> read_at strandloc index = Some co.
Proof.
  unfold kdtree_of. intros [i Hi]%list_elem_of_lookup.
  rewrite list_lookup_imap in Hi.
  destruct (strandloc !! i) as [loc|] eqn:E; [|discriminate].
  simpl in Hi. injection Hi as <- <-.
  apply read_at_Some. split; [lia|]. now rewrite Nat2Z.id.
Qed.

Lemma strand_index_not_sentinel (strandloc : list vec3) (index : Z) (co : vec3) :
  Z.of_nat (length strandloc) <= INT_MAX ->
  read_at strandloc index = Some co ->
  index mod 2 ^ 32 <> HAIR_STRAND_INDEX_NONE.
Proof.
  intros Hlen Hr. apply read_at_lt in Hr.
  unfold INT_MAX, HAIR_STRAND_INDEX_NONE in *.
  rewrite Z.mod_small by lia. lia.
Qed.

Section BinderProperties.
Context `{HairServices}.

Lemma find_closest_strand_defined (follicle : HairFollicle) (loc : vec3)
    (strandloc : list vec3) :
  kdtree_sound ->
  is_Some (hair_fiber_find_closest_strand follicle loc
             (kdtree_of strandloc) strandloc).
Proof.
  intros Hsound. unfold hair_fiber_find_closest_strand.
  set (nearest := take 3 (BLI_kdtree_find_nearest_n (kdtree_of strandloc) loc 3)).
  assert (Hm : is_Some (mapM (fun n => read_at strandloc (nearest_index n)) nearest)).
  { apply mapM_is_Some, Forall_forall. intros r Hr.
    apply subseteq_take in Hr.
    destruct (Hsound _ _ _ _ Hr) as [co Hco].
    simpl. rewrite (kdtree_of_lookup _ _ _ Hco). eauto. }
  destruct Hm as [sloc ->]. simpl. eauto.
Qed.

(** The follicle before the sort: every slot is consistent, every weight is
    one the binder writes, and with a single strand found the weights are
    (1, 0, 0, 0). *)
Lemma find_closest_strand_slots (follicle f' : HairFollicle) (loc : vec3)
    (tree : KDTree) (strandloc : list vec3) :
  hair_fiber_find_closest_strand follicle loc tree strandloc = Some f' ->
  exists g,
    f' = hair_fiber_sort_weights g
    /\ follicle_sample g = follicle_sample follicle
    /\ (Z.of_nat (length strandloc) <= INT_MAX ->
        forall j, (0 <= j <= 3)%nat ->
                  slot_consistent (get4 (parent_index g) j)
                                  (get4 (parent_weight g) j))
    /\ (forall j, (0 <= j <= 3)%nat -> binder_weight (get4 (parent_weight g) j))
    /\ (length (take 3 (BLI_kdtree_find_nearest_n tree loc 3)) = 1%nat ->
        parent_weight g = mkArray4 one zero zero zero).
Proof.
  unfold hair_fiber_find_closest_strand.
  set (nearest := take 3 (BLI_kdtree_find_nearest_n tree loc 3)).
  assert (Hlen : (length nearest <= 3)%nat).
  { unfold nearest. rewrite length_take. lia. }
  destruct nearest as [|n0 [|n1 [|n2 [|n3 rest]]]]; simpl in Hlen; try lia;
    cbn [mapM mbind option_bind mret option_ret lookup list_lookup];
    intros Hf.
  - injection Hf as <-. eexists. split; [reflexivity|].
    split; [reflexivity|]. cbn [parent_index parent_weight].
    split; [|split].
    + intros _ j Hj. left.
      destruct j as [|[|[|[|j]]]]; try lia; split; reflexivity.
    + intros j Hj. left. destruct j as [|[|[|[|j]]]]; try lia; reflexivity.
    + discriminate.
  - destruct (read_at strandloc (nearest_index n0)) as [s0|] eqn:E0;
      [|discriminate].
    simpl in Hf. injection Hf as <-. eexists. split; [reflexivity|].
    split; [reflexivity|]. cbn [parent_index parent_weight].
    split; [|split].
    + intros Hmax j Hj.
      destruct j as [|[|[|[|j]]]]; try lia; cbn [get4 a0 a1 a2 a3];
        first [ right; eapply strand_index_not_sentinel; eassumption
              | left; split; reflexivity ].
    + intros j Hj.
      destruct j as [|[|[|[|j]]]]; try lia; cbn [get4 a0 a1 a2 a3];
        first [ left; reflexivity | right; left; reflexivity ].
    + reflexivity.
  - destruct (read_at strandloc (nearest_index n0)) as [s0|] eqn:E0;
      [|discriminate].
    destruct (read_at strandloc (nearest_index n1)) as [s1|] eqn:E1;
      [|discriminate].
    simpl in Hf. injection Hf as <-. eexists. split; [reflexivity|].
    split; [reflexivity|]. cbn [parent_index parent_weight].
    split; [|split].
    + intros Hmax j Hj.
      destruct j as [|[|[|[|j]]]]; try lia; cbn [get4 a0 a1 a2 a3];
        first [ right; eapply strand_index_not_sentinel; eassumption
              | left; split; reflexivity ].
    + intros j Hj.
      destruct j as [|[|[|[|j]]]]; try lia; cbn [get4 a0 a1 a2 a3];
        first [ left; reflexivity | right; right; eexists; reflexivity ].
    + discriminate.
  - destruct (read_at strandloc (nearest_index n0)) as [s0|] eqn:E0;
      [|discriminate].
    destruct (read_at strandloc (nearest_index n1)) as [s1|] eqn:E1;
      [|discriminate].
    destruct (read_at strandloc (nearest_index n2)) as [s2|] eqn:E2;
      [|discriminate].
    simpl in Hf.
    destruct (interp_weights_tri_v3 s0 s1 s2 _) as [[w0 w1] w2].
    injection Hf as <-. eexists. split; [reflexivity|].
    split; [reflexivity|]. cbn [parent_index parent_weight].
    split; [|split].
    + intros Hmax j Hj.
      destruct j as [|[|[|[|j]]]]; try lia; cbn [get4 a0 a1 a2 a3];
        first [ right; eapply strand_index_not_sentinel; eassumption
              | left; split; reflexivity ].
    + intros j Hj.
      destruct j as [|[|[|[|j]]]]; try lia; cbn [get4 a0 a1 a2 a3];
        first [ left; reflexivity | right; right; eexists; reflexivity ].
    + discriminate.
Qed.

End BinderProperties.

Section BindProperties.
Context `{HairServices}.

Lemma bind_follicle_defined (scalp : Mesh) (strandloc : list vec3)
    (follicle : HairFollicle) :
  kdtree_sound ->
  is_Some (bind_follicle scalp (kdtree_of strandloc) strandloc follicle).
Proof.
  intros Hsound. unfold bind_follicle.
  destruct (BKE_mesh_sample_eval scalp (follicle_sample follicle))
    as [[[ok loc] nor] tang].
  destruct ok; [now apply find_closest_strand_defined | eauto].
Qed.

(** With at least one strand the binder is defined, returns true, and
    binds the follicles one by one. *)
Lemma bind_with_strands (hsys : HairSystem) (scalp : Mesh)
    (pat : HairPattern) (fs : list HairFollicle) :
  kdtree_sound ->
  has_flag (hsys_flag hsys) HAIR_SYSTEM_UPDATE_FOLLICLE_BINDING = true ->
  pattern hsys = Some pat -> follicles pat = Some fs ->
  totcurves (curve_data hsys) <> 0 ->
  exists fs',
    BKE_hair_bind_follicles hsys scalp
    = Some (mkHairSystem
              (clear_flag (hsys_flag hsys) HAIR_SYSTEM_UPDATE_FOLLICLE_BINDING)
              (Some (mkHairPattern (Some fs'))) (curve_data hsys), true)
    /\ Forall2
         (fun f f' =>
            bind_follicle scalp
              (kdtree_of (map (strand_location scalp) (curves (curve_data hsys))))
              (map (strand_location scalp) (curves (curve_data hsys))) f
            = Some f')
         fs fs'.
Proof.
  intros Hsound Hdirty Hpat Hfs Hn.
  unfold BKE_hair_bind_follicles. rewrite Hdirty, Hpat. simpl.
  destruct (Z.eqb_spec (totcurves (curve_data hsys)) 0); [contradiction|].
  rewrite Hfs.
  set (strandloc := map (strand_location scalp) (curves (curve_data hsys))).
  destruct (mapM_is_Some_2 (bind_follicle scalp (kdtree_of strandloc) strandloc) fs)
    as [fs' Hfs'].
  { apply Forall_forall. intros f _. now apply bind_follicle_defined. }
  exists fs'. rewrite Hfs'. simpl. split; [reflexivity|].
  now apply mapM_Some_1.
Qed.

(** A binder call on a hair system whose binding is not flagged, or that
    has no pattern, changes no follicle and returns true. *)
Lemma bind_not_dirty (hsys : HairSystem) (scalp : Mesh) :
  has_flag (hsys_flag hsys) HAIR_SYSTEM_UPDATE_FOLLICLE_BINDING = false ->
  BKE_hair_bind_follicles hsys scalp = Some (hsys, true).
Proof. intros Hclean. unfold BKE_hair_bind_follicles. now rewrite Hclean. Qed.

(** C5 (as amended): for every hair system whose binding is flagged for
    update, that has a pattern, and whose curve data contains zero guide
    strands, the binder returns false and sets the four parent slots of
    every follicle to the sentinel index with weight 0.0. *)
Theorem bind_without_strands (hsys : HairSystem) (scalp : Mesh)
    (pat : HairPattern) :
  has_flag (hsys_flag hsys) HAIR_SYSTEM_UPDATE_FOLLICLE_BINDING = true ->
  pattern hsys = Some pat ->
  totcurves (curve_data hsys) = 0 ->
  exists hsys' pat',
    BKE_hair_bind_follicles hsys scalp = Some (hsys', false)
    /\ curve_data hsys' = curve_data hsys
    /\ pattern hsys' = Some pat'
    /\ num_follicles pat' = num_follicles pat
    /\ forall f', f' ∈ pattern_list pat' ->
                  parent_index f' = fill4 HAIR_STRAND_INDEX_NONE
                  /\ parent_weight f' = fill4 zero.
Proof.
  intros Hdirty Hpat Hzero.
  unfold BKE_hair_bind_follicles. rewrite Hdirty, Hpat, Hzero. simpl.
  eexists _, _. split; [reflexivity|]. split; [reflexivity|].
  split; [reflexivity|]. split.
  - unfold num_follicles. simpl. destruct (follicles pat); simpl; [|reflexivity].
    now rewrite length_map.
  - unfold pattern_list. simpl. destruct (follicles pat) as [fs|]; simpl.
    + intros f' Hf'. apply list_elem_of_fmap in Hf' as (f & -> & _).
      split; reflexivity.
    + intros f' Hf'. inversion Hf'.
Qed.

End BindProperties.

(** The stand-in spatial index returns inserted points. *)
Lemma example_insert_nearest_elem (n r : KDTreeNearest) (l : list KDTreeNearest) :
  r ∈ Example.insert_nearest n l -> r = n \/ r ∈ l.
Proof.
  induction l as [|m l IH]; simpl.
  - intros Hr. apply list_elem_of_singleton in Hr. now left.
  - destruct (flt (nearest_dist n) (nearest_dist m)).
    + intros Hr. apply elem_of_cons in Hr as [->|Hr]; [now left|now right].
    + intros Hr. apply elem_of_cons in Hr as [->|Hr].
      * right. apply elem_of_cons. now left.
      * destruct (IH Hr) as [->|Hl]; [now left|].
        right. apply elem_of_cons. now right.
Qed.

Lemma example_kdtree_sound : @kdtree_sound Example.services.
Proof.
  intros tree loc n r Hr. simpl in Hr. unfold Example.find_nearest_n in Hr.
  apply subseteq_take in Hr.
  induction tree as [|[i co] tree IH]; simpl in Hr.
  - inversion Hr.
  - apply example_insert_nearest_elem in Hr as [->|Hr].
    + exists co. simpl. apply elem_of_cons. now left.
    + destruct (IH Hr) as [co' Hco']. exists co'. apply elem_of_cons. now right.
Qed.

(** The statement applies to a flagged hair system with one bound follicle
    and no strands. *)
Lemma bind_without_strands_witness :
  exists hsys' pat',
    @BKE_hair_bind_follicles Example.services
      (Example.hair_system true
         [Example.bound_follicle (Example.sample_at 0 0 0)] Example.no_strands)
      tt = Some (hsys', false)
    /\ curve_data hsys' = Example.no_strands
    /\ pattern hsys' = Some pat'
    /\ num_follicles pat' = 1
    /\ forall f', f' ∈ pattern_list pat' ->
                  parent_index f' = fill4 HAIR_STRAND_INDEX_NONE
                  /\ parent_weight f' = fill4 zero.
Proof.
  apply (@bind_without_strands Example.services
           (Example.hair_system true
              [Example.bound_follicle (Example.sample_at 0 0 0)]
              Example.no_strands)
           tt
           (mkHairPattern (Some [Example.bound_follicle (Example.sample_at 0 0 0)]))).
  - reflexivity.
  - reflexivity.
  - reflexivity.
Defined.

(** C5 (as stated) fails: a hair system with zero guide strands whose
    binding is not flagged for update (the state [BKE_hair_clear_fiber_curves]
    leaves) comes back from the binder with the value true, and its follicle
    still names strand 0 with weight 1.0. *)
Lemma bind_clean_system_returns_true :
  totcurves Example.no_strands = 0
  /\ exists f,
       @BKE_hair_bind_follicles Example.services
         (Example.hair_system false [f] Example.no_strands) tt
       = Some (Example.hair_system false [f] Example.no_strands, true)
       /\ get4 (parent_index f) 0 = 0
       /\ get4 (parent_index f) 0 <> HAIR_STRAND_INDEX_NONE
       /\ get4 (parent_weight f) 0 = one
       /\ get4 (parent_weight f) 0 <> zero.
Proof.
  split; [reflexivity|].
  exists (Example.bound_follicle (Example.sample_at 0 0 0)).
  split; [reflexivity|]. split; [reflexivity|].
  split; [discriminate|]. split; [reflexivity|]. discriminate.
Qed.

Lemma exchanged_involutive (k m j : nat) :
  exchanged k m (exchanged k m j) = j.
Proof.
  unfold exchanged.
  destruct (Nat.eqb_spec j m) as [->|Hjm].
  - destruct (Nat.eqb_spec k m) as [->|Hkm]; [reflexivity|].
    now rewrite Nat.eqb_refl.
  - destruct (Nat.eqb_spec j k) as [->|Hjk].
    + now rewrite Nat.eqb_refl.
    + destruct (Nat.eqb_spec j m); [contradiction|].
      destruct (Nat.eqb_spec j k); [contradiction|reflexivity].
Qed.

(** What holds of every weight after a step held of every weight before
    it. *)
Lemma sort_step_weights_back (P : float -> Prop) (follicle : HairFollicle)
    (k : nat) :
  (k <= 3)%nat ->
  (forall j, (0 <= j <= 3)%nat ->
             P (get4 (parent_weight (sort_step follicle k)) j)) ->
  forall j, (0 <= j <= 3)%nat -> P (get4 (parent_weight follicle) j).
Proof.
  intros Hk HP j Hj.
  pose proof (sort_find_max_range (parent_weight follicle) k Hk) as Hm.
  set (m := sort_find_max (parent_weight follicle) k) in *.
  assert (He : (0 <= exchanged k m j <= 3)%nat).
  { unfold exchanged. destruct (Nat.eqb_spec j m); [lia|].
    destruct (Nat.eqb_spec j k); lia. }
  specialize (HP (exchanged k m j) He).
  destruct (sort_step_slots follicle k (exchanged k m j)) as [_ E]; [lia..|].
  fold m in E. rewrite E, exchanged_involutive in HP. exact HP.
Qed.

Lemma sort_weights_no_nan_back (follicle : HairFollicle) :
  no_nan4 (parent_weight (hair_fiber_sort_weights follicle)) ->
  no_nan4 (parent_weight follicle).
Proof.
  intros Hn. apply no_nan4_get.
  apply (sort_step_weights_back (fun x => is_nan x = false) follicle 0); [lia|].
  apply (sort_step_weights_back (fun x => is_nan x = false) _ 1); [lia|].
  apply (sort_step_weights_back (fun x => is_nan x = false) _ 2); [lia|].
  apply no_nan4_get. exact Hn.
Qed.

Lemma sort_single_strand (follicle : HairFollicle) :
  parent_weight follicle = mkArray4 one zero zero zero ->
  parent_weight (hair_fiber_sort_weights follicle) = mkArray4 one zero zero zero.
Proof.
  destruct follicle as [s [i0 i1 i2 i3] w]. simpl. intros ->. reflexivity.
Qed.

(** ** The sum of the parent weights *)

Lemma FIBERSWAP_permutes (follicle : HairFollicle) (a b : nat) :
  (a <= 3)%nat -> (b <= 3)%nat ->
  Permutation (follicle_slots (FIBERSWAP follicle a b)) (follicle_slots follicle).
Proof.
  intros Ha Hb. destruct follicle as [s [i0 i1 i2 i3] [w0 w1 w2 w3]].
  unfold follicle_slots, FIBERSWAP, to_list4. cbn.
  assert (Hcases : forall n, (n <= 3)%nat ->
                     n = 0%nat \/ n = 1%nat \/ n = 2%nat \/ n = 3%nat) by lia.
  destruct (Hcases a Ha) as [-> | [-> | [-> | ->]]];
    destruct (Hcases b Hb) as [-> | [-> | [-> | ->]]]; cbn;
    solve_Permutation.
Qed.

Lemma sort_step_permutes (follicle : HairFollicle) (k : nat) :
  (k <= 3)%nat ->
  Permutation (follicle_slots (sort_step follicle k)) (follicle_slots follicle).
Proof.
  intros Hk. unfold sort_step.
  pose proof (sort_find_max_range (parent_weight follicle) k Hk) as Hm.
  destruct (Nat.eqb _ k); [reflexivity|].
  apply FIBERSWAP_permutes; lia.
Qed.

Lemma sort_weights_permutes (follicle : HairFollicle) :
  Permutation (follicle_slots (hair_fiber_sort_weights follicle))
              (follicle_slots follicle).
Proof.
  unfold hair_fiber_sort_weights. cbn [seq fold_left].
  etransitivity; [apply sort_step_permutes; lia|].
  etransitivity; [apply sort_step_permutes; lia|].
  apply sort_step_permutes; lia.
Qed.

(** The exact sum of four weights, in units of the least subnormal. *)
Definition weights_value (w : Array4 float) : Z :=
  fval (a0 w) + fval (a1 w) + fval (a2 w) + fval (a3 w).

Lemma sort_weights_value (follicle : HairFollicle) :
  weights_value (parent_weight (hair_fiber_sort_weights follicle))
  = weights_value (parent_weight follicle).
Proof.
  pose proof (sort_weights_permutes follicle) as Hp.
  apply (fmap_Permutation snd), sum_fval_perm in Hp.
  destruct (hair_fiber_sort_weights follicle) as [s' [j0 j1 j2 j3] [x0 x1 x2 x3]].
  destruct follicle as [s [i0 i1 i2 i3] [w0 w1 w2 w3]].
  unfold weights_value. cbn in *. lia.
Qed.

Lemma unit_number_range (x : float) :
  unit_number x -> fle zero x = true /\ fle x one = true.
Proof.
  intros [Hn Hle].
  pose proof (nonneg_number_not_nan x Hn) as Nx.
  pose proof (nonneg_number_fval x Hn) as H0.
  split.
  - apply (fgt_false_fge zero x eq_refl Nx). unfold fgt.
    destruct (flt x zero) eqn:E; [|reflexivity].
    apply (flt_fval x zero Hn I) in E. simpl in E. lia.
  - apply (fgt_false_fge x one Nx eq_refl). unfold fgt.
    destruct (flt one x) eqn:E; [|reflexivity].
    apply (flt_fval one x (proj1 unit_number_one) Hn) in E.
    rewrite fval_one in E. lia.
Qed.

(** Four weights between 0.0 and 1.0 whose exact sum is within 0.01 of 1.0
    (two units in the last place of 0.5 allowed on top) add up, in the
    order and with the roundings of [hair_fiber_verify_weights], to a value
    within 0.02 of 1.0. *)
Lemma near_one_intro (w : Array4 float) :
  unit_number (a0 w) -> unit_number (a1 w) ->
  unit_number (a2 w) -> unit_number (a3 w) ->
  100 * Z.abs (weights_value w - 2 ^ 149) <= 2 ^ 149 + 100 * 2 ^ 127 ->
  weights_sum_near_one stated_tolerance w = true.
Proof.
  intros U0 U1 U2 U3 Hsum.
  destruct (weights_sum_value w U0 U1 U2 U3) as [Hn Herr].
  fold (weights_value w) in Herr.
  unfold weights_sum_near_one, fgt.
  assert (Elo : fsub one stated_tolerance = S754_finite false 16441672 (-24))
    by (vm_compute; reflexivity).
  assert (Ehi : fadd one stated_tolerance = S754_finite false 8556380 (-23))
    by (vm_compute; reflexivity).
  rewrite Elo, Ehi.
  assert (Nlo : nonneg_number (S754_finite false 16441672 (-24))) by reflexivity.
  assert (Nhi : nonneg_number (S754_finite false 8556380 (-23))) by reflexivity.
  apply andb_true_intro. split.
  - apply (flt_fval _ _ Nlo Hn).
    change (fval (S754_finite false 16441672 (-24)))
      with 699351383037215018556098663565236914098274304.
    change (2 ^ 149) with 713623846352979940529142984724747568191373312 in *.
    change (2 ^ 127) with 170141183460469231731687303715884105728 in *.
    change (2 ^ 130) with 1361129467683753853853498429727072845824 in *.
    lia.
  - apply (flt_fval _ _ Hn Nhi).
    change (fval (S754_finite false 8556380 (-23)))
      with 727896309668744862502187305884258222284472320.
    change (2 ^ 149) with 713623846352979940529142984724747568191373312 in *.
    change (2 ^ 127) with 170141183460469231731687303715884105728 in *.
    change (2 ^ 130) with 1361129467683753853853498429727072845824 in *.
    lia.
Qed.

Section BinderSum.
Context `{HairServices}.

(** The root locations of the strands the spatial query finds around a
    location, nearest first, at most three. *)
Definition strands_found (tree : KDTree) (strandloc : list vec3) (loc : vec3)
  : option (list vec3) :=
  mapM (fun n => read_at strandloc (nearest_index n))
       (take 3 (BLI_kdtree_find_nearest_n tree loc 3)).

(** What the sum of the weights needs of the interpolation helpers: with
    two strands the line factor is a number (not NaN); with three the
    barycentric weights are numbers whose clamped values add up exactly to
    1.0 within 0.01.  At least one strand is found. *)
Definition interpolation_defined (loc : vec3) (sloc : list vec3) : Prop :=
  match sloc with
  | [s0] => True
  | [s0; s1] => is_number (line_point_factor_v3 loc s0 s1) = true
  | [s0; s1; s2] =>
      let '(w0, w1, w2) :=
        interp_weights_tri_v3 s0 s1 s2
          (closest_on_tri_to_point_v3 loc s0 s1 s2) in
      is_number w0 = true /\ is_number w1 = true /\ is_number w2 = true
      /\ 100 * Z.abs (fval (CLAMP w0 zero one) + fval (CLAMP w1 zero one)
                      + fval (CLAMP w2 zero one) - 2 ^ 149) <= 2 ^ 149
  | _ => False
  end.

Lemma find_closest_strand_weights (follicle f' : HairFollicle) (loc : vec3)
    (tree : KDTree) (strandloc sloc : list vec3) :
  hair_fiber_find_closest_strand follicle loc tree strandloc = Some f' ->
  strands_found tree strandloc loc = Some sloc ->
  interpolation_defined loc sloc ->
  (forall j, (0 <= j <= 3)%nat -> unit_number (get4 (parent_weight f') j))
  /\ 100 * Z.abs (weights_value (parent_weight f') - 2 ^ 149)
     <= 2 ^ 149 + 100 * 2 ^ 127.
Proof.
  unfold hair_fiber_find_closest_strand, strands_found.
  set (nearest := take 3 (BLI_kdtree_find_nearest_n tree loc 3)).
  intros Hf Hs Hdef. rewrite Hs in Hf. cbn [mbind option_bind] in Hf.
  assert (Hlen : length sloc = length nearest).
  { symmetry. eapply length_mapM, Hs. }
  assert (Hgoal : forall g,
            f' = hair_fiber_sort_weights g ->
            (forall j, (0 <= j <= 3)%nat -> unit_number (get4 (parent_weight g) j)) ->
            100 * Z.abs (weights_value (parent_weight g) - 2 ^ 149)
            <= 2 ^ 149 + 100 * 2 ^ 127 ->
            (forall j, (0 <= j <= 3)%nat -> unit_number (get4 (parent_weight f') j))
            /\ 100 * Z.abs (weights_value (parent_weight f') - 2 ^ 149)
               <= 2 ^ 149 + 100 * 2 ^ 127).
  { intros g -> Hu Hv. split.
    - intros j Hj.
      apply (sort_weights_transfer (fun _ x => unit_number x) g); auto.
    - now rewrite sort_weights_value. }
  assert (H127 : 0 <= 2 ^ 127) by (apply Z.pow_nonneg; lia).
  assert (H149 : 0 <= 2 ^ 149) by (apply Z.pow_nonneg; lia).
  destruct sloc as [|s0 [|s1 [|s2 [|s3 rest]]]]; try contradiction;
    destruct nearest as [|n0 [|n1 [|n2 [|n3 rest']]]]; try discriminate;
    cbn [lookup list_lookup] in Hf.
  - apply (inj Some) in Hf. symmetry in Hf. apply (Hgoal _ Hf).
    + intros j Hj. cbn [parent_weight].
      destruct j as [|[|[|[|j]]]]; try lia; cbn [get4 a0 a1 a2 a3];
        first [apply unit_number_one | apply unit_number_zero].
    + cbv [weights_value parent_weight a0 a1 a2 a3].
      rewrite fval_one. simpl (fval zero). lia.
  - apply (inj Some) in Hf. symmetry in Hf. apply (Hgoal _ Hf).
    + destruct (line_weights_unit _ Hdef) as (U0 & U1 & _).
      intros j Hj. cbn [parent_weight].
      destruct j as [|[|[|[|j]]]]; try lia; cbn [get4 a0 a1 a2 a3];
        first [exact U0 | exact U1 | apply unit_number_zero].
    + destruct (line_weights_unit _ Hdef) as (_ & _ & Hsum).
      cbv [weights_value parent_weight a0 a1 a2 a3].
      simpl (fval zero). lia.
  - cbn [interpolation_defined] in Hdef.
    destruct (interp_weights_tri_v3 s0 s1 s2 _) as [[w0 w1] w2].
    destruct Hdef as (N0 & N1 & N2 & Hsum).
    apply (inj Some) in Hf. symmetry in Hf. apply (Hgoal _ Hf).
    + intros j Hj. cbn [parent_weight].
      destruct j as [|[|[|[|j]]]]; try lia; cbn [get4 a0 a1 a2 a3];
        first [now apply CLAMP_unit | apply unit_number_zero].
    + cbv [weights_value parent_weight a0 a1 a2 a3].
      simpl (fval zero). lia.
Qed.

End BinderSum.

(** The success flag and the location of the sample evaluator. *)
Definition sample_evaluates `{HairServices} (scalp : Mesh) (sample : MeshSample)
  : bool :=
  fst (fst (fst (BKE_mesh_sample_eval scalp sample))).

Definition sample_location `{HairServices} (scalp : Mesh) (sample : MeshSample)
  : vec3 :=
  snd (fst (fst (BKE_mesh_sample_eval scalp sample))).

(** All four weights lie between 0.0 and 1.0. *)
Definition weights_in_unit_range (w : Array4 float) : Prop :=
  forall j, (0 <= j <= 3)%nat ->
            fle zero (get4 w j) = true /\ fle (get4 w j) one = true.

Section BindWeights.
Context `{HairServices}.

Lemma bind_follicle_evaluated (scalp : Mesh) (tree : KDTree)
    (strandloc : list vec3) (f f' : HairFollicle) :
  bind_follicle scalp tree strandloc f = Some f' ->
  if sample_evaluates scalp (follicle_sample f)
  then hair_fiber_find_closest_strand f
         (sample_location scalp (follicle_sample f)) tree strandloc = Some f'
  else f' = f.
Proof.
  unfold bind_follicle, sample_evaluates, sample_location.
  destruct (BKE_mesh_sample_eval scalp (follicle_sample f))
    as [[[ok loc] nor] tang]. simpl.
  destruct ok; [auto|]. now intros [= <-].
Qed.

(** C6 (as amended): in a bind with at least one guide strand, which
    returns true, every follicle whose surface sample evaluates gets
    weights that are non-increasing from slot 0 to slot 3, lie in [0, 1]
    and sum to 1.0 within 0.02 whenever the interpolation is defined: the
    spatial query finds one strand, or two and the line factor is not NaN,
    or three and the barycentric weights are numbers whose clamped values
    add up to 1.0 within 0.01 (the binder clamps them and does not
    renormalise).  Whatever the helpers return, the weights are sorted and
    in [0, 1] when none of them is NaN, and with a single strand found they
    are exactly (1, 0, 0, 0).  A follicle whose sample does not evaluate is
    left as it was. *)
Theorem bind_weights_ordered (hsys : HairSystem) (scalp : Mesh)
    (pat : HairPattern) (fs : list HairFollicle) :
  kdtree_sound ->
  has_flag (hsys_flag hsys) HAIR_SYSTEM_UPDATE_FOLLICLE_BINDING = true ->
  pattern hsys = Some pat -> follicles pat = Some fs ->
  1 <= totcurves (curve_data hsys) ->
  exists fs',
    BKE_hair_bind_follicles hsys scalp
    = Some (mkHairSystem
              (clear_flag (hsys_flag hsys) HAIR_SYSTEM_UPDATE_FOLLICLE_BINDING)
              (Some (mkHairPattern (Some fs'))) (curve_data hsys), true)
    /\ length fs' = length fs
    /\ forall (i : nat) (f f' : HairFollicle),
         fs !! i = Some f -> fs' !! i = Some f' ->
         if sample_evaluates scalp (follicle_sample f)
         then
           (forall sloc,
              strands_found
                (kdtree_of (map (strand_location scalp)
                                (curves (curve_data hsys))))
                (map (strand_location scalp) (curves (curve_data hsys)))
                (sample_location scalp (follicle_sample f)) = Some sloc ->
              interpolation_defined
                (sample_location scalp (follicle_sample f)) sloc ->
              weights_sorted (parent_weight f') = true
              /\ weights_in_unit_range (parent_weight f')
              /\ weights_sum_near_one stated_tolerance (parent_weight f') = true)
           /\ (no_nan4 (parent_weight f') ->
               weights_sorted (parent_weight f') = true
               /\ weights_in_unit_range (parent_weight f'))
           /\ (length
                 (take 3
                    (BLI_kdtree_find_nearest_n
                       (kdtree_of (map (strand_location scalp)
                                       (curves (curve_data hsys))))
                       (sample_location scalp (follicle_sample f)) 3))
               = 1%nat ->
               parent_weight f' = mkArray4 one zero zero zero
               /\ weights_sum (parent_weight f') = one)
         else f' = f.
Proof.
  intros Hsound Hdirty Hpat Hfs Hn.
  destruct (bind_with_strands hsys scalp pat fs Hsound Hdirty Hpat Hfs)
    as (fs' & Hbind & Hall); [lia|].
  exists fs'. split; [exact Hbind|]. split.
  { symmetry. eapply Forall2_length, Hall. }
  intros i f f' Hf Hf'.
  pose proof (Forall2_lookup_lr _ _ _ _ _ _ Hall Hf Hf') as Hb.
  apply bind_follicle_evaluated in Hb.
  destruct (sample_evaluates scalp (follicle_sample f)); [|exact Hb].
  pose proof Hb as Hw.
  apply find_closest_strand_slots in Hb
    as (g & -> & _ & _ & Hweights & Hsingle).
  assert (Hsorted : no_nan4 (parent_weight (hair_fiber_sort_weights g)) ->
                    weights_sorted (parent_weight (hair_fiber_sort_weights g))
                    = true).
  { intros Hnan. apply sort_weights_sorted, sort_weights_no_nan_back, Hnan. }
  split; [|split].
  - intros sloc Hs Hdef.
    destruct (find_closest_strand_weights _ _ _ _ _ _ Hw Hs Hdef)
      as [Hunit Hsum].
    split; [|split].
    + apply Hsorted. apply no_nan4_get. intros j Hj.
      apply nonneg_number_not_nan, (Hunit j Hj).
    + intros j Hj. apply unit_number_range, Hunit, Hj.
    + apply near_one_intro; [..|exact Hsum].
      * apply (Hunit 0%nat); lia.
      * apply (Hunit 1%nat); lia.
      * apply (Hunit 2%nat); lia.
      * apply (Hunit 3%nat); lia.
  - intros Hnan. split; [exact (Hsorted Hnan)|].
    intros j Hj.
    apply binder_weight_range.
    + apply (sort_weights_transfer (fun _ x => binder_weight x) g); auto.
    + now apply no_nan4_get.
  - intros Hone. specialize (Hsingle Hone).
    rewrite (sort_single_strand g Hsingle). split; reflexivity.
Qed.

(** C7 (as amended): in a bind with at least one guide strand, every
    follicle whose surface sample evaluates ends with weight 0.0 in each
    slot that holds the sentinel "no strand" index.  (The converse fails: a
    slot that holds a strand can have the clamped weight 0.0.) *)
Theorem bind_sentinel_slots_have_zero_weight (hsys : HairSystem) (scalp : Mesh)
    (pat : HairPattern) (fs : list HairFollicle) :
  kdtree_sound ->
  has_flag (hsys_flag hsys) HAIR_SYSTEM_UPDATE_FOLLICLE_BINDING = true ->
  pattern hsys = Some pat -> follicles pat = Some fs ->
  1 <= totcurves (curve_data hsys) <= INT_MAX ->
  exists fs',
    BKE_hair_bind_follicles hsys scalp
    = Some (mkHairSystem
              (clear_flag (hsys_flag hsys) HAIR_SYSTEM_UPDATE_FOLLICLE_BINDING)
              (Some (mkHairPattern (Some fs'))) (curve_data hsys), true)
    /\ forall (i : nat) (f f' : HairFollicle),
         fs !! i = Some f -> fs' !! i = Some f' ->
         sample_evaluates scalp (follicle_sample f) = true ->
         forall j, (0 <= j <= 3)%nat ->
                   get4 (parent_index f') j = HAIR_STRAND_INDEX_NONE ->
                   get4 (parent_weight f') j = zero.
Proof.
  intros Hsound Hdirty Hpat Hfs Hn.
  destruct (bind_with_strands hsys scalp pat fs Hsound Hdirty Hpat Hfs)
    as (fs' & Hbind & Hall); [lia|].
  exists fs'. split; [exact Hbind|].
  intros i f f' Hf Hf' Hok j Hj Hidx.
  pose proof (Forall2_lookup_lr _ _ _ _ _ _ Hall Hf Hf') as Hb.
  apply bind_follicle_evaluated in Hb. rewrite Hok in Hb.
  apply find_closest_strand_slots in Hb as (g & -> & _ & Hslots & _ & _).
  assert (Hlen : Z.of_nat (length (map (strand_location scalp)
                                       (curves (curve_data hsys)))) <= INT_MAX).
  { rewrite length_map. unfold totcurves in Hn. lia. }
  destruct (sort_weights_transfer slot_consistent g (Hslots Hlen) j Hj)
    as [[_ Hw]|Hne]; [exact Hw|contradiction].
Qed.

End BindWeights.

(** The two statements apply to a flagged hair system with two guide
    strands, rooted at (0,0,0) and (1,0,0), and two follicles, one at the
    origin and one whose sample the evaluator rejects: the first is bound
    with weights that sum to 1.0 within 0.02. *)
Lemma bind_weights_ordered_witness :
  @kdtree_sound Example.services
  /\ 1 <= totcurves Example.two_strands
  /\ exists fs',
       @BKE_hair_bind_follicles Example.services
         (Example.hair_system true
            [Example.unbound_follicle (Example.sample_at 0 0 0);
             Example.unbound_follicle Example.bad_sample]
            Example.two_strands) tt
       = Some (mkHairSystem 0 (Some (mkHairPattern (Some fs')))
                            Example.two_strands, true)
       /\ length fs' = 2%nat
       /\ forall f', fs' !! 0%nat = Some f' ->
                     weights_sorted (parent_weight f') = true
                     /\ weights_in_unit_range (parent_weight f')
                     /\ weights_sum_near_one stated_tolerance (parent_weight f')
                        = true.
Proof.
  split; [exact example_kdtree_sound|]. split; [vm_compute; discriminate|].
  destruct (@bind_weights_ordered Example.services
              (Example.hair_system true
                 [Example.unbound_follicle (Example.sample_at 0 0 0);
                  Example.unbound_follicle Example.bad_sample]
                 Example.two_strands)
              tt
              (mkHairPattern
                 (Some [Example.unbound_follicle (Example.sample_at 0 0 0);
                        Example.unbound_follicle Example.bad_sample]))
              [Example.unbound_follicle (Example.sample_at 0 0 0);
               Example.unbound_follicle Example.bad_sample]
              example_kdtree_sound eq_refl eq_refl eq_refl)
    as (fs' & Hbind & Hlen & Hall).
  - vm_compute. discriminate.
  - exists fs'. split; [exact Hbind|]. split; [exact Hlen|].
    intros f' Hf'.
    specialize (Hall 0%nat (Example.unbound_follicle (Example.sample_at 0 0 0))
                     f' eq_refl Hf').
    change (@sample_evaluates Example.services tt
              (follicle_sample
                 (Example.unbound_follicle (Example.sample_at 0 0 0))))
      with true in Hall.
    cbv iota in Hall. destruct Hall as [Hsum _].
    apply (Hsum [(zero, zero, zero); (one, zero, zero)]).
    + vm_compute. reflexivity.
    + vm_compute. reflexivity.
Defined.

Lemma bind_sentinel_slots_have_zero_weight_witness :
  @kdtree_sound Example.services
  /\ 1 <= totcurves Example.two_strands <= INT_MAX
  /\ exists fs',
       @BKE_hair_bind_follicles Example.services
         (Example.hair_system true
            [Example.unbound_follicle (Example.sample_at 0 0 0)]
            Example.two_strands) tt
       = Some (mkHairSystem 0 (Some (mkHairPattern (Some fs')))
                            Example.two_strands, true)
       /\ forall (i : nat) (f f' : HairFollicle),
            [Example.unbound_follicle (Example.sample_at 0 0 0)] !! i = Some f ->
            fs' !! i = Some f' ->
            @sample_evaluates Example.services tt (follicle_sample f) = true ->
            forall j, (0 <= j <= 3)%nat ->
                      get4 (parent_index f') j = HAIR_STRAND_INDEX_NONE ->
                      get4 (parent_weight f') j = zero.
Proof.
  split; [exact example_kdtree_sound|].
  split; [split; vm_compute; discriminate|].
  apply (@bind_sentinel_slots_have_zero_weight Example.services
           (Example.hair_system true
              [Example.unbound_follicle (Example.sample_at 0 0 0)]
              Example.two_strands)
           tt
           (mkHairPattern
              (Some [Example.unbound_follicle (Example.sample_at 0 0 0)]))
           [Example.unbound_follicle (Example.sample_at 0 0 0)]
           example_kdtree_sound eq_refl eq_refl eq_refl).
  split; vm_compute; discriminate.
Defined.

(** C6 (as stated) fails: with one guide strand and a follicle whose
    surface sample does not evaluate, the bind returns true and the follicle
    keeps the weights it had, here (0, 0, 0, 0): they sum to 0.0, which is
    not within 0.02 of 1.0.  And with two guide strands and a follicle whose
    sample evaluates to a location with a NaN coordinate, the line factor is
    NaN, the clamp lets it through, and both weights and their sum are
    NaN. *)
Lemma bind_skips_follicle_without_sample :
  (1 <= totcurves Example.one_strand
   /\ exists hsys' f',
        @BKE_hair_bind_follicles Example.services
          (Example.hair_system true
             [Example.unbound_follicle Example.bad_sample] Example.one_strand)
          tt = Some (hsys', true)
        /\ pattern hsys' = Some (mkHairPattern (Some [f']))
        /\ parent_weight f' = fill4 zero
        /\ weights_sum (parent_weight f') = zero
        /\ weights_sum_near_one stated_tolerance (parent_weight f') = false)
  /\ (1 <= totcurves Example.two_strands
      /\ @sample_evaluates Example.services tt
           (mkMeshSample 0 (S754_nan, zero, zero)) = true
      /\ exists hsys' f',
           @BKE_hair_bind_follicles Example.services
             (Example.hair_system true
                [Example.unbound_follicle
                   (mkMeshSample 0 (S754_nan, zero, zero))]
                Example.two_strands)
             tt = Some (hsys', true)
           /\ pattern hsys' = Some (mkHairPattern (Some [f']))
           /\ parent_weight f' = mkArray4 S754_nan S754_nan zero zero
           /\ weights_sum (parent_weight f') = S754_nan
           /\ weights_sum_near_one stated_tolerance (parent_weight f') = false).
Proof.
  split.
  - split; [vm_compute; discriminate|].
    eexists _, _. split; [vm_compute; reflexivity|].
    split; [reflexivity|]. split; [reflexivity|].
    split; vm_compute; reflexivity.
  - split; [vm_compute; discriminate|]. split; [reflexivity|].
    eexists _, _. split; [vm_compute; reflexivity|].
    split; [reflexivity|]. split; [reflexivity|].
    split; vm_compute; reflexivity.
Qed.

(** C7 (as stated) fails: with two guide strands, rooted at (0,0,0) and
    (1,0,0), a follicle at (0,0,0) is bound to both; the line factor is 0.0,
    so slot 1 holds strand 1, not the sentinel, with weight 0.0. *)
Lemma bind_zero_weight_on_strand_slot :
  exists hsys' f',
    @BKE_hair_bind_follicles Example.services
      (Example.hair_system true
         [Example.unbound_follicle (Example.sample_at 0 0 0)]
         Example.two_strands)
      tt = Some (hsys', true)
    /\ pattern hsys' = Some (mkHairPattern (Some [f']))
    /\ parent_index f'
       = mkArray4 0 1 HAIR_STRAND_INDEX_NONE HAIR_STRAND_INDEX_NONE
    /\ parent_weight f' = mkArray4 one zero zero zero
    /\ get4 (parent_weight f') 1 = zero
    /\ get4 (parent_index f') 1 <> HAIR_STRAND_INDEX_NONE.
Proof.
  eexists _, _. split; [vm_compute; reflexivity|].
  split; [reflexivity|]. split; [reflexivity|]. split; [reflexivity|].
  split; [reflexivity|]. vm_compute. discriminate.
Qed.

(** ** Rounding to an integer *)

(** The sign bit of a float that is not a negative number ([-0.0] and NaN
    included). *)
Definition not_negative (f : float) : bool :=
  match f with
  | S754_finite true _ _ | S754_infinity true => false
  | _ => true
  end.

(** On a float that is not negative the C cast gives the floor. *)
Lemma to_int_floor (f : float) :
  not_negative f = true -> to_int f = floor_int f.
Proof.
  unfold to_int, floor_int, trunc, floor.
  destruct f as [s|s| |[] m e]; try reflexivity. discriminate.
Qed.






(** [w >= 0.0f] holds of no negative number. *)
Lemma fge_zero_not_negative (w : float) :
  fge w zero = true -> not_negative w = true.
Proof. destruct w as [[]|[]| |[] m e]; try reflexivity; discriminate. Qed.


(** ** Export cache: fibre vertex counts *)




Definition sum_counts (counts : list Z) : Z := fold_right Z.add 0 counts.








Lemma MEM_reallocN_length {A} (b : Buffer A) (n : Z) (fresh : A) (l : list A) :
  MEM_reallocN b n fresh = Some l -> length l = Z.to_nat n.
Proof.
  destruct b as [|old|]; simpl; [| |discriminate]; intros [= <-].
  - apply length_replicate.
  - rewrite length_app, length_take, length_replicate. lia.
Qed.

Lemma MEM_reallocN_defined {A} (b : Buffer A) (n : Z) (fresh : A) :
  b <> Freed -> is_Some (MEM_reallocN b n fresh).
Proof. destruct b; simpl; eauto. contradiction. Qed.

Lemma sum_counts_snoc (l : list Z) (x : Z) :
  sum_counts (l ++ [x]) = sum_counts l + x.
Proof. induction l as [|y l IH]; simpl; lia. Qed.


(** The counts of the first [n] follicles of the pattern, one by one. *)
Definition fiber_counts (pat : HairPattern) (n : Z)
    (cache_curves : list HairFiberCurve) : option (list Z) :=
  mapM (fun f => fiber_numverts_of f cache_curves)
       (take (Z.to_nat n) (pattern_list pat)).

(** Every running total of the counts, as the block accumulates them, is
    an [int]. *)
Definition running_totals_are_int (counts : list Z) : Prop :=
  forall i : nat, INT_MIN <= sum_counts (take i counts) <= INT_MAX.

(** The cache with new vertex counts. *)
Definition with_vertex_counts (cache : HairExportCache) (counts : list Z)
  : HairExportCache :=
  mkHairExportCache (fiber_curves cache) (cache_totcurves cache)
    (fiber_verts cache) (fiber_tangents cache) (fiber_normals cache)
    (cache_totverts cache) (cache_follicles cache) (totfibercurves cache)
    (Live counts) (fiber_root_position cache) (sum_counts counts).

Lemma sum_counts_take_S (l : list Z) (i : nat) (x : Z) :
  l !! i = Some x ->
  sum_counts (take (S i) l) = sum_counts (take i l) + x.
Proof. intros Hx. now rewrite (take_S_r _ _ x), sum_counts_snoc. Qed.

Lemma sum_counts_prefix_le (l : list Z) (i : nat) :
  Forall (fun x => 0 <= x) l ->
  0 <= sum_counts (take i l) <= sum_counts l.
Proof.
  intros Hl. revert i. induction Hl as [|x l Hx Hl IH]; intros i.
  - rewrite take_nil. simpl. lia.
  - destruct i as [|i]; simpl.
    + specialize (IH 0%nat). rewrite take_0 in IH. simpl in IH. lia.
    + specialize (IH i). lia.
Qed.

(** The "vertex counts" block is defined when the buffer it reallocates
    has not been freed, the pattern holds the follicles it reads, the count
    of each of them is defined and every running total is an [int]; it
    stores the count of every follicle and their sum. *)
Lemma update_fiber_vertex_counts_defined (pat : HairPattern)
    (cache : HairExportCache) (counts : list Z) :
  fiber_numverts cache <> Freed ->
  totfibercurves cache <= Z.of_nat (length (pattern_list pat)) ->
  fiber_counts pat (totfibercurves cache) (buffer_list (fiber_curves cache))
    = Some counts ->
  running_totals_are_int counts ->
  update_fiber_vertex_counts pat cache = Some (with_vertex_counts cache counts)
  /\ length counts = Z.to_nat (totfibercurves cache).
Proof.
  intros Hbuf Hpat Hcounts Hint.
  unfold update_fiber_vertex_counts, fiber_counts in *.
  set (cc := buffer_list (fiber_curves cache)) in *.
  set (n := totfibercurves cache) in *.
  assert (Hall : Forall2 (fun f c => fiber_numverts_of f cc = Some c)
                   (take (Z.to_nat n) (pattern_list pat)) counts)
    by now apply mapM_Some_1.
  assert (Hlen : length counts = Z.to_nat n).
  { rewrite <- (Forall2_length _ _ _ Hall), length_take. lia. }
  split; [|exact Hlen].
  destruct (MEM_reallocN_defined (fiber_numverts cache) n 0 Hbuf) as [buf Hre].
  rewrite Hre. cbn [mbind option_bind].
  apply MEM_reallocN_length in Hre.
  set (body := fun (i : Z) (st : list Z * Z) =>
                 follicle ← read_at (pattern_list pat) i;
                 nv ← fiber_numverts_of follicle cc;
                 buf' ← write_at (fst st) i nv;
                 tot ← int_add (snd st) nv;
                 Some (buf', tot)).
  assert (Hloop : exists st,
             for_range 0 n body (buf, 0) = Some st
             /\ fst st = counts /\ snd st = sum_counts counts).
  { destruct (Z.le_gt_cases 0 n) as [Hn|Hn].
    - destruct (for_range_inv
                  (fun i st =>
                     length (fst st) = Z.to_nat n
                     /\ take (Z.to_nat i) (fst st) = take (Z.to_nat i) counts
                     /\ snd st = sum_counts (take (Z.to_nat i) counts))
                  body 0 n (buf, 0)) as (st & Hrun & Hl & Htake & Htot);
        [assumption| | |].
      + cbn [fst snd]. split; [assumption|]. split; reflexivity.
      + intros i [b t] Hi (Hlb & Htake & Htot). cbn [fst snd] in *.
        destruct (lookup_lt_is_Some_2 counts (Z.to_nat i)) as [nv Hnv]; [lia|].
        destruct (Forall2_lookup_r _ _ _ _ _ Hall Hnv) as (f & Hf & Hfnv).
        apply lookup_take_Some in Hf as [Hf _].
        assert (Hread : read_at (pattern_list pat) i = Some f)
          by (apply read_at_Some; split; [lia|assumption]).
        unfold body. rewrite Hread. cbn [mbind option_bind fst snd].
        rewrite Hfnv. cbn [mbind option_bind].
        rewrite write_at_in_range by lia. cbn [mbind option_bind].
        assert (Hnext : sum_counts (take (S (Z.to_nat i)) counts) = t + nv).
        { rewrite (sum_counts_take_S _ _ nv Hnv). lia. }
        rewrite int_add_in_range by (rewrite <- Hnext; apply Hint).
        eexists. split; [reflexivity|]. cbn [fst snd].
        replace (Z.to_nat (i + 1)) with (S (Z.to_nat i)) by lia.
        split; [now rewrite length_insert|]. split; [|lia].
        rewrite (take_S_r _ _ nv) by (apply list_lookup_insert_eq; lia).
        rewrite (take_S_r counts _ nv) by assumption.
        rewrite take_insert_ge by lia. now rewrite Htake.
      + exists st. split; [assumption|].
        rewrite !take_ge in Htake by lia. rewrite take_ge in Htot by lia.
        auto.
    - exists (buf, 0). split; [apply for_range_empty; lia|]. cbn [fst snd].
      destruct counts; [|simpl in Hlen; lia].
      destruct buf; [|simpl in Hre; lia]. auto. }
  destruct Hloop as ([counts' tot] & Hrun & Hc & Ht). cbn [fst snd] in *.
  subst counts' tot. fold body. rewrite Hrun. reflexivity.
Qed.



(** ** Point distribution *)

Lemma floor_not_negative (p : float) (n : Z) :
  not_negative p = true -> floor p = Some n -> 0 <= n.
Proof.
  destruct p as [s|s| |[] m e]; simpl; try discriminate.
  - now intros _ [= <-].
  - intros _ [= <-]. apply Z.shiftl_nonneg. lia.
Qed.

Lemma floor_int_Some (p : float) (n : Z) :
  floor_int p = Some n -> floor p = Some n.
Proof.
  unfold floor_int. destruct (floor p) as [z|]; [|discriminate].
  unfold check_int. destruct (in_int_range z); [auto|discriminate].
Qed.

Section ScatterProperties.
Context `{Nodes.PointServices}.

Lemma length_emit_points (n : nat) (rng : Nodes.RandomNumberGenerator)
    (v0 v1 v2 : vec3) :
  length (Nodes.emit_points n rng v0 v1 v2) = n.
Proof.
  revert rng. induction n as [|n IH]; intros rng; simpl; [reflexivity|].
  destruct (Nodes.get_barycentric_coordinates rng) as [bary rng'].
  simpl. now rewrite IH.
Qed.

(** C8 (as amended): for a triangle of the mesh whose expected point count
    [area * density] is not negative (so not NaN) and whose integer part
    fits an [int], the distributor emits [floor(area * density)] points from
    that triangle, plus one exactly when the fractional part of
    [area * density] exceeds the first float drawn from the generator
    seeded with the hash of the triangle index; the points are drawn from
    the same generator after that float.  In particular a triangle of area
    1.0 at density 10.0 yields 10 or 11 points. *)
Theorem scatter_looptri_point_count (mesh : Nodes.Mesh) (density : float)
    (looptri_index l0 l1 l2 v0_index v1_index v2_index : Z)
    (v0_pos v1_pos v2_pos : vec3) :
  read_at (Nodes.mloop mesh) l0 = Some v0_index ->
  read_at (Nodes.mloop mesh) l1 = Some v1_index ->
  read_at (Nodes.mloop mesh) l2 = Some v2_index ->
  read_at (Nodes.mvert mesh) v0_index = Some v0_pos ->
  read_at (Nodes.mvert mesh) v1_index = Some v1_pos ->
  read_at (Nodes.mvert mesh) v2_index = Some v2_pos ->
  let expected := fmul (Nodes.area_tri_v3 v0_pos v1_pos v2_pos) density in
  let looptri_rng := Nodes.rng_of_seed (Nodes.BLI_hash_int looptri_index) in
  let extra :=
    if fgt (fractf expected) (fst (Nodes.get_float looptri_rng))
    then 1 else 0 in
  fle zero expected = true ->
  is_Some (to_int expected) ->
  exists points count,
    Nodes.scatter_looptri mesh density looptri_index (l0, l1, l2) = Some points
    /\ floor_int expected = Some count
    /\ 0 <= count
    /\ points = Nodes.emit_points (Z.to_nat (count + extra))
                  (snd (Nodes.get_float looptri_rng)) v0_pos v1_pos v2_pos
    /\ Z.of_nat (length points) = count + extra
    /\ (Nodes.area_tri_v3 v0_pos v1_pos v2_pos = one ->
        density = of_int 10 ->
        length points = 10%nat \/ length points = 11%nat).
Proof.
  intros H0 H1 H2 Hv0 Hv1 Hv2 expected looptri_rng extra Hpos [n Hn].
  assert (Hnn : not_negative expected = true)
    by now apply fge_zero_not_negative.
  assert (Hfloor : floor_int expected = Some n)
    by now rewrite <- to_int_floor.
  assert (Hn0 : 0 <= n)
    by (eapply floor_not_negative; [exact Hnn|now apply floor_int_Some]).
  pose proof (to_int_fmul_below _ _ _ Hn) as Hmax.
  assert (Hextra : 0 <= extra <= 1) by (unfold extra; destruct (fgt _ _); lia).
  unfold Nodes.scatter_looptri.
  rewrite H0, H1, H2. cbn [mbind option_bind]. rewrite Hv0, Hv1, Hv2.
  cbn [mbind option_bind]. fold expected. fold looptri_rng.
  unfold extra in *.
  destruct (Nodes.get_float looptri_rng) as [draw rng'] eqn:Edraw.
  cbn [fst snd] in *. rewrite Hn. cbn [mbind option_bind].
  rewrite int_add_in_range by lia.
  cbn [mbind option_bind].
  eexists _, n. split; [reflexivity|]. split; [assumption|].
  split; [assumption|]. split; [reflexivity|].
  rewrite length_emit_points. split; [lia|].
  intros Harea Hdensity. unfold expected in Hn.
  rewrite Harea, Hdensity in Hn. vm_compute in Hn. injection Hn as <-.
  destruct (fgt _ _); [right|left]; reflexivity.
Qed.

End ScatterProperties.

(** The statement applies to the triangle (0,0,0), (2,0,0), (0,1,0), of
    area 1.0, at density 10.0. *)
Lemma scatter_looptri_point_count_witness :
  exists points count,
    @Nodes.scatter_looptri Example.point_services Example.unit_triangle
      (of_int 10) 0 (0, 1, 2) = Some points
    /\ floor_int (fmul (Example.area_tri (zero, zero, zero)
                          (of_int 2, zero, zero) (zero, one, zero))
                       (of_int 10)) = Some count
    /\ 0 <= count
    /\ points
       = @Nodes.emit_points Example.point_services
           (Z.to_nat
              (count
               + (if fgt (fractf (fmul (Example.area_tri (zero, zero, zero)
                                          (of_int 2, zero, zero)
                                          (zero, one, zero))
                                       (of_int 10)))
                         (fst (Example.rng_get_float
                                 (Example.rng_seed (Example.hash_int 0))))
                  then 1 else 0)))
           (snd (Example.rng_get_float (Example.rng_seed (Example.hash_int 0))))
           (zero, zero, zero) (of_int 2, zero, zero) (zero, one, zero)
    /\ Z.of_nat (length points)
       = count + (if fgt (fractf (fmul (Example.area_tri (zero, zero, zero)
                                          (of_int 2, zero, zero)
                                          (zero, one, zero))
                                       (of_int 10)))
                         (fst (Example.rng_get_float
                                 (Example.rng_seed (Example.hash_int 0))))
                  then 1 else 0)
    /\ (Example.area_tri (zero, zero, zero) (of_int 2, zero, zero)
          (zero, one, zero) = one ->
        of_int 10 = of_int 10 ->
        length points = 10%nat \/ length points = 11%nat).
Proof.
  apply (@scatter_looptri_point_count Example.point_services
           Example.unit_triangle (of_int 10) 0 0 1 2 0 1 2
           (zero, zero, zero) (of_int 2, zero, zero) (zero, one, zero));
    try reflexivity.
  vm_compute. eauto.
Defined.

(** C8 (as stated) fails for some density values.  On the triangle of area
    1.0: a NaN density passes the guard [density <= 0.0f] of the caller and
    makes the expected count NaN, whose cast to [int] is undefined; so does
    the density 2^31, whose expected count is not an [int]; and at the
    density -0.5, which the caller rejects, the cast truncates to 0 where
    the floor is -1, the fractional part 0.5 exceeds the draw, and one point
    is emitted: neither -1 nor 0 points. *)
Lemma scatter_density_not_covered :
  (fle S754_nan zero = false
   /\ to_int (fmul (Example.area_tri (zero, zero, zero) (of_int 2, zero, zero)
                                    (zero, one, zero)) S754_nan) = None
   /\ @Nodes.scatter_points_from_mesh Example.point_services
        Example.unit_triangle S754_nan zero = None)
  /\ (fle (of_int (2 ^ 31)) zero = false
      /\ to_int (fmul (Example.area_tri (zero, zero, zero)
                         (of_int 2, zero, zero) (zero, one, zero))
                      (of_int (2 ^ 31))) = None
      /\ @Nodes.scatter_points_from_mesh Example.point_services
           Example.unit_triangle (of_int (2 ^ 31)) zero = None)
  /\ (floor_int (fmul (Example.area_tri (zero, zero, zero)
                         (of_int 2, zero, zero) (zero, one, zero))
                      (fdiv (of_int (-1)) (of_int 2))) = Some (-1)
      /\ exists points,
           @Nodes.scatter_points_from_mesh Example.point_services
             Example.unit_triangle (fdiv (of_int (-1)) (of_int 2)) zero
           = Some points
           /\ length points = 1%nat).
Proof.
  split; [|split].
  - split; [reflexivity|]. split; vm_compute; reflexivity.
  - split; [reflexivity|]. split; vm_compute; reflexivity.
  - split; [vm_compute; reflexivity|].
    eexists. split; [vm_compute; reflexivity|reflexivity].
Qed.

(** ** Geometry sets: copy on write *)

Section GeometrySetProperties.
Variable Data : Type.

(** A write access to the geometry of a set: [replace_mesh] or
    [replace_pointcloud], by the type of the component. *)
Definition replace_geometry (h : Bke.Heap Data) (set_addr : nat)
    (t : Bke.GeometryComponentType) (d : option Data) (own : bool)
  : option (Bke.Heap Data) :=
  match t with
  | Bke.MeshType => Bke.replace_mesh Data h set_addr d own
  | Bke.PointCloudType => Bke.replace_pointcloud Data h set_addr d own
  end.

(** The component [c] after one of its users has dropped it. *)
Definition dropped_once (c : Bke.GeometryComponent Data)
  : Bke.GeometryComponent Data :=
  Bke.mkGeometryComponent Data (Bke.component_type Data c)
    (Bke.component_users Data c - 1) (Bke.geometry_ Data c) (Bke.owned_ Data c).

Lemma new_address_fresh {V} (m : gmap nat V) : m !! Bke.new_address m = None.
Proof. unfold Bke.new_address. apply not_elem_of_dom, is_fresh. Qed.

Lemma replace_geometry_unfold (h : Bke.Heap Data) (set_addr : nat)
    (t : Bke.GeometryComponentType) (d : option Data) (own : bool) :
  replace_geometry h set_addr t d own
  = r ← Bke.get_component_for_write Data h set_addr t;
    Bke.replace Data (fst r) (snd r) d own.
Proof. destruct t; reflexivity. Qed.

(** A write access to a shared component works on a private copy. *)
Lemma get_component_for_write_shared (h : Bke.Heap Data) (set_addr a : nat)
    (t : Bke.GeometryComponentType) (s : Bke.GeometrySet)
    (c : Bke.GeometryComponent Data) :
  Bke.sets Data h !! set_addr = Some s ->
  Bke.components_ s !! t = Some a ->
  Bke.components Data h !! a = Some c ->
  1 < Bke.component_users Data c ->
  let b := Bke.new_address (Bke.components Data h) in
  exists h',
    Bke.get_component_for_write Data h set_addr t = Some (h', b)
    /\ b <> a
    /\ Bke.components Data h' !! b = Some (Bke.copy Data c)
    /\ Bke.components Data h' !! a = Some (dropped_once c)
    /\ Bke.sets Data h' !! set_addr
       = Some (Bke.mkGeometrySet (Bke.set_users s) (<[t := b]> (Bke.components_ s))).
Proof.
  intros Hs Ht Hc Hshared b.
  assert (Hfresh : Bke.components Data h !! b = None) by apply new_address_fresh.
  assert (Hne : b <> a) by congruence.
  unfold Bke.get_component_for_write. rewrite Hs. simpl. rewrite Ht, Hc. simpl.
  unfold Bke.component_is_mutable.
  destruct (Z.leb_spec (Bke.component_users Data c) 1); [lia|].
  fold b. unfold Bke.component_user_remove. simpl.
  rewrite lookup_insert_ne by assumption. rewrite Hc.
  destruct (Z.eqb_spec (Bke.component_users Data c - 1) 0); [lia|].
  eexists. split; [reflexivity|]. simpl.
  split; [assumption|]. split.
  - rewrite lookup_insert_ne by congruence. apply lookup_insert_eq.
  - split; [apply lookup_insert_eq|apply lookup_insert_eq].
Qed.

(** C9: a geometry component and a geometry set are mutable exactly while
    their user count is at most 1; a write access to a component of a set
    that is shared (user count greater than 1) puts a private copy, which is
    mutable and holds the same geometry, in the place of the component and
    mutates the copy: the shared original keeps its geometry and its
    ownership flag, and only loses the user that the set was. *)
Theorem write_access_copies_shared_component (h : Bke.Heap Data)
    (set_addr a : nat) (t : Bke.GeometryComponentType) (s : Bke.GeometrySet)
    (c : Bke.GeometryComponent Data) (d : option Data) (own : bool) :
  (forall c' : Bke.GeometryComponent Data,
      Bke.component_is_mutable Data c' = true <-> Bke.component_users Data c' <= 1)
  /\ (forall s' : Bke.GeometrySet,
         Bke.set_is_mutable s' = true <-> Bke.set_users s' <= 1)
  /\ (Bke.sets Data h !! set_addr = Some s ->
      Bke.components_ s !! t = Some a ->
      Bke.components Data h !! a = Some c ->
      1 < Bke.component_users Data c ->
      exists h' h'' b,
        Bke.get_component_for_write Data h set_addr t = Some (h', b)
        /\ b <> a
        /\ Bke.components Data h !! b = None
        /\ Bke.components Data h' !! b = Some (Bke.copy Data c)
        /\ Bke.component_is_mutable Data (Bke.copy Data c) = true
        /\ Bke.geometry_ Data (Bke.copy Data c) = Bke.geometry_ Data c
        /\ replace_geometry h set_addr t d own = Some h''
        /\ Bke.components Data h'' !! b
           = Some (Bke.mkGeometryComponent Data (Bke.component_type Data c) 1 d own)
        /\ Bke.components Data h'' !! a = Some (dropped_once c)
        /\ Bke.geometry_ Data (dropped_once c) = Bke.geometry_ Data c
        /\ Bke.owned_ Data (dropped_once c) = Bke.owned_ Data c).
Proof.
  split; [|split].
  - intros c'. unfold Bke.component_is_mutable. apply Z.leb_le.
  - intros s'. unfold Bke.set_is_mutable. apply Z.leb_le.
  - intros Hs Ht Hc Hshared.
    destruct (get_component_for_write_shared h set_addr a t s c Hs Ht Hc Hshared)
      as (h' & Hget & Hne & Hb & Ha & _).
    set (b := Bke.new_address (Bke.components Data h)) in *.
    assert (Hcopy_type : Bke.component_type Data (Bke.copy Data c)
                         = Bke.component_type Data c)
      by (unfold Bke.copy; destruct (Bke.geometry_ Data c); reflexivity).
    assert (Hcopy_users : Bke.component_users Data (Bke.copy Data c) = 1)
      by (unfold Bke.copy; destruct (Bke.geometry_ Data c); reflexivity).
    exists h'. eexists. exists b.
    split; [exact Hget|]. split; [exact Hne|].
    split; [apply new_address_fresh|]. split; [exact Hb|].
    split; [unfold Bke.component_is_mutable; now rewrite Hcopy_users|].
    split; [unfold Bke.copy; destruct (Bke.geometry_ Data c); reflexivity|].
    split.
    { rewrite replace_geometry_unfold, Hget. simpl.
      unfold Bke.replace. rewrite Hb. simpl. reflexivity. }
    simpl. split.
    + rewrite lookup_insert_eq, Hcopy_type, Hcopy_users. reflexivity.
    + split; [|split; reflexivity].
      rewrite lookup_insert_ne by assumption. exact Ha.
Qed.

(** A component that is not shared is written in place. *)
Lemma get_component_for_write_unshared (h : Bke.Heap Data) (set_addr a : nat)
    (t : Bke.GeometryComponentType) (s : Bke.GeometrySet)
    (c : Bke.GeometryComponent Data) :
  Bke.sets Data h !! set_addr = Some s ->
  Bke.components_ s !! t = Some a ->
  Bke.components Data h !! a = Some c ->
  Bke.component_users Data c <= 1 ->
  Bke.get_component_for_write Data h set_addr t = Some (h, a).
Proof.
  intros Hs Ht Hc Hu.
  unfold Bke.get_component_for_write. rewrite Hs. simpl. rewrite Ht, Hc. simpl.
  unfold Bke.component_is_mutable.
  now destruct (Z.leb_spec (Bke.component_users Data c) 1); [|lia].
Qed.

End GeometrySetProperties.

(** The statement applies to a mesh component with two users, in a set
    that replaces its mesh. *)
Lemma write_access_copies_shared_component_witness :
  exists h' h'' b,
    Bke.get_component_for_write Z Example.shared_heap 0 Bke.MeshType
      = Some (h', b)
    /\ b <> 0%nat
    /\ Bke.components Z Example.shared_heap !! b = None
    /\ Bke.components Z h' !! b = Some (Bke.copy Z Example.shared_component)
    /\ Bke.component_is_mutable Z (Bke.copy Z Example.shared_component) = true
    /\ Bke.geometry_ Z (Bke.copy Z Example.shared_component)
       = Bke.geometry_ Z Example.shared_component
    /\ replace_geometry Z Example.shared_heap 0 Bke.MeshType (Some 9) true
       = Some h''
    /\ Bke.components Z h'' !! b
       = Some (Bke.mkGeometryComponent Z Bke.MeshType 1 (Some 9) true)
    /\ Bke.components Z h'' !! 0%nat
       = Some (dropped_once Z Example.shared_component)
    /\ Bke.geometry_ Z (dropped_once Z Example.shared_component) = Some 7
    /\ Bke.owned_ Z (dropped_once Z Example.shared_component) = true.
Proof.
  apply (proj2 (proj2 (write_access_copies_shared_component Z
                         Example.shared_heap 0 0 Bke.MeshType Example.mesh_set
                         Example.shared_component (Some 9) true))).
  - reflexivity.
  - reflexivity.
  - reflexivity.
  - simpl. lia.
Defined.

(** ** Export cache: when the update is defined *)

Lemma subdiv_length_ge (nv subdiv r : Z) :
  hair_get_strand_subdiv_length nv subdiv = Some r -> nv <= r.
Proof.
  intros (Hn & Hs & -> & _)%subdiv_length_Some.
  assert (0 < 2 ^ subdiv) by (apply Z.pow_pos_nonneg; lia). nia.
Qed.

Lemma export_curves_total_ge (subdiv : Z) (orig : list HairFiberCurve) (t0 : Z)
    (cs : list HairFiberCurve) (tot : Z) :
  export_curves subdiv orig t0 = Some (cs, tot) -> t0 <= tot.
Proof.
  revert t0 cs. induction orig as [|o orig IH]; intros t0 cs; simpl.
  - intros [= <- <-]. lia.
  - destruct (hair_get_strand_subdiv_length (numverts o) subdiv) as [n|] eqn:En;
      [|discriminate]. cbn [mbind option_bind].
    destruct (int_add t0 n) as [t1|] eqn:Et; [|discriminate].
    cbn [mbind option_bind].
    destruct (export_curves subdiv orig t1) as [[out t]|] eqn:E; [|discriminate].
    cbn [mbind option_bind]. intros [= <- <-].
    apply int_add_Some in Et as [-> _]. specialize (IH _ _ E).
    apply subdiv_length_Some in En as (Hn & Hs & -> & _).
    assert (0 < 2 ^ subdiv) by (apply Z.pow_pos_nonneg; lia). nia.
Qed.

(** The layout the "curves" block computes: curve [i] of the cache has the
    subdivided length of guide curve [i], and its vertices lie inside the
    flat array, from [vertstart] on. *)
Lemma export_curves_layout (subdiv : Z) (orig : list HairFiberCurve) (t0 : Z)
    (cs : list HairFiberCurve) (tot : Z) (i : nat) (c : HairFiberCurve) :
  export_curves subdiv orig t0 = Some (cs, tot) ->
  cs !! i = Some c ->
  exists o, orig !! i = Some o
            /\ hair_get_strand_subdiv_length (numverts o) subdiv
               = Some (numverts c)
            /\ mesh_sample c = mesh_sample o
            /\ t0 <= vertstart c
            /\ vertstart c + numverts c <= tot.
Proof.
  revert t0 cs i. induction orig as [|o orig IH]; intros t0 cs i; simpl.
  - intros [= <- <-]. discriminate.
  - destruct (hair_get_strand_subdiv_length (numverts o) subdiv) as [n|] eqn:En;
      [|discriminate]. cbn [mbind option_bind].
    destruct (int_add t0 n) as [t1|] eqn:Et; [|discriminate].
    cbn [mbind option_bind].
    destruct (export_curves subdiv orig t1) as [[out t]|] eqn:E; [|discriminate].
    cbn [mbind option_bind]. intros [= <- <-].
    apply int_add_Some in Et as [-> _].
    pose proof (export_curves_total_ge _ _ _ _ _ E) as Hge.
    pose proof (subdiv_length_ge _ _ _ En) as Hn.
    destruct i as [|i]; simpl.
    + intros [= <-]. exists o. simpl. repeat split; try assumption; lia.
    + intros Hc. destruct (IH _ _ i E Hc) as (o' & Ho' & Hnv & Hms & Hvs & Hend).
      exists o'. repeat split; try assumption.
      apply subdiv_length_Some in En as (? & ? & -> & _).
      assert (0 < 2 ^ subdiv) by (apply Z.pow_pos_nonneg; lia). nia.
Qed.

Lemma export_curves_length (subdiv : Z) (orig : list HairFiberCurve) (t0 : Z)
    (cs : list HairFiberCurve) (tot : Z) :
  export_curves subdiv orig t0 = Some (cs, tot) -> length cs = length orig.
Proof.
  revert t0 cs. induction orig as [|o orig IH]; intros t0 cs; simpl.
  - now intros [= <- <-].
  - destruct (hair_get_strand_subdiv_length (numverts o) subdiv) as [n|];
      [|discriminate]. cbn [mbind option_bind].
    destruct (int_add t0 n) as [t1|]; [|discriminate]. cbn [mbind option_bind].
    destruct (export_curves subdiv orig t1) as [[out t]|] eqn:E; [|discriminate].
    cbn [mbind option_bind]. intros [= <- <-]. simpl. now rewrite (IH _ _ E).
Qed.

(** The number of vertices of all guide curves after subdivision. *)
Definition subdivided_total (subdiv : Z) (orig : list HairFiberCurve) : Z :=
  sum_counts (map (fun o => (numverts o - 1) * 2 ^ subdiv + 1) orig).

Lemma subdivided_total_nonneg (subdiv : Z) (orig : list HairFiberCurve) :
  0 <= subdiv -> Forall (fun o => 1 <= numverts o) orig ->
  0 <= subdivided_total subdiv orig.
Proof.
  intros Hs Ho. unfold subdivided_total.
  assert (0 < 2 ^ subdiv) by (apply Z.pow_pos_nonneg; lia).
  induction Ho as [|o orig Hn Ho IH]; simpl in *; [lia|nia].
Qed.

(** The "curves" loop is defined when every guide curve has a vertex and
    the subdivided curves have an [int] number of vertices in all; it
    returns that number. *)
Lemma export_curves_defined (subdiv : Z) (orig : list HairFiberCurve) (t0 : Z) :
  0 <= subdiv < 32 ->
  Forall (fun o => 1 <= numverts o) orig ->
  0 <= t0 -> t0 + subdivided_total subdiv orig <= INT_MAX ->
  exists cs,
    export_curves subdiv orig t0 = Some (cs, t0 + subdivided_total subdiv orig).
Proof.
  intros Hs Ho. revert t0. induction Ho as [|o orig Hn Ho IH]; intros t0 H0 Hmax.
  - exists []. unfold subdivided_total. simpl. now rewrite Z.add_0_r.
  - pose proof (subdivided_total_nonneg subdiv orig (proj1 Hs) Ho) as Hrest.
    unfold subdivided_total in *. cbn [map sum_counts fold_right] in *.
    fold (sum_counts (map (fun o => (numverts o - 1) * 2 ^ subdiv + 1) orig))
      in *.
    set (n := (numverts o - 1) * 2 ^ subdiv + 1) in *.
    assert (Hpos : 0 < 2 ^ subdiv) by (apply Z.pow_pos_nonneg; lia).
    assert (Hn1 : 1 <= n) by (unfold n; nia).
    assert (En : hair_get_strand_subdiv_length (numverts o) subdiv = Some n).
    { apply subdiv_length_Some. repeat split; try lia. }
    cbn [export_curves]. rewrite En. cbn [mbind option_bind].
    rewrite int_add_in_range by (unfold INT_MIN; lia). cbn [mbind option_bind].
    destruct (IH (t0 + n)) as [cs Hcs]; [lia|lia|].
    rewrite Hcs. cbn [mbind option_bind]. eexists. f_equal. f_equal. lia.
Qed.

Lemma array_from_defined {A} (l : list A) (i : Z) :
  0 <= i <= Z.of_nat (length l) ->
  array_from l i = Some (drop (Z.to_nat i) l).
Proof.
  intros Hi. unfold array_from.
  destruct (Z.leb_spec 0 i); [|lia].
  destruct (Z.leb_spec i (Z.of_nat (length l))); [reflexivity|lia].
Qed.

Lemma length_array_before_app {A} (l r : list A) (i : Z) :
  0 <= i <= Z.of_nat (length l) ->
  length r = length (drop (Z.to_nat i) l) ->
  length (array_before l i ++ r) = length l.
Proof.
  intros Hi Hr. unfold array_before.
  rewrite length_app, length_take, Hr, length_drop. lia.
Qed.

Section UpdateDefined.
Context `{HairServices}.

Lemma calc_vectors_step_defined (vs : list HairFiberVertex) (i1 i2 out : Z)
    (st : vec3 * vec3 * list vec3 * list vec3) :
  0 <= i1 < Z.of_nat (length vs) ->
  0 <= i2 < Z.of_nat (length vs) ->
  0 <= out < Z.of_nat (length (snd (fst st))) ->
  out < Z.of_nat (length (snd st)) ->
  exists st', calc_vectors_step vs i1 i2 out st = Some st'
              /\ length (snd (fst st')) = length (snd (fst st))
              /\ length (snd st') = length (snd st).
Proof.
  destruct st as [[[pt pn] ts] ns]. simpl. intros H1 H2 Ht Hn.
  unfold calc_vectors_step.
  destruct (read_at_is_Some vs i1 H1) as [v1 ->].
  destruct (read_at_is_Some vs i2 H2) as [v2 ->]. simpl.
  destruct (hair_curve_transport_frame (co v1) (co v2) pt pn) as [t n].
  rewrite !write_at_in_range by lia. simpl.
  eexists. split; [reflexivity|]. simpl. now rewrite !length_insert.
Qed.

(** The frame transport is defined on a curve of at least two vertices
    whose output arrays are long enough, and keeps their lengths. *)
Lemma hair_curve_calc_vectors_defined (vs : list HairFiberVertex) (nv : Z)
    (rootmat : mat3) (r_tangents r_normals : list vec3) :
  2 <= nv -> nv <= Z.of_nat (length vs) ->
  nv <= Z.of_nat (length r_tangents) -> nv <= Z.of_nat (length r_normals) ->
  exists vecs,
    hair_curve_calc_vectors vs nv rootmat r_tangents r_normals = Some vecs
    /\ length (fst vecs) = length r_tangents
    /\ length (snd vecs) = length r_normals.
Proof.
  intros Hnv Hvs Ht Hn. destruct rootmat as [[m0 m1] m2].
  unfold hair_curve_calc_vectors.
  destruct (calc_vectors_step_defined vs 0 1 0 (m2, m0, r_tangents, r_normals))
    as (st0 & -> & Ht0 & Hn0); simpl; try lia.
  simpl in Ht0, Hn0.
  destruct (for_range_inv
              (fun (_ : Z) st => length (snd (fst st)) = length r_tangents
                                 /\ length (snd st) = length r_normals)
              (fun i st => calc_vectors_step vs (i - 1) (i + 1) i st)
              1 (nv - 1) st0) as (st1 & -> & Ht1 & Hn1); [lia|auto| |].
  { intros i st Hi [Hti Hni].
    destruct (calc_vectors_step_defined vs (i - 1) (i + 1) i st)
      as (st' & Hst' & Ht' & Hn'); try lia.
    exists st'. split; [assumption|]. split; congruence. }
  simpl.
  destruct (calc_vectors_step_defined vs (nv - 2) (nv - 1) (nv - 1) st1)
    as (st2 & -> & Ht2 & Hn2); try lia.
  simpl. destruct st2 as [[[pt pn] ts] ns]. simpl in *.
  eexists. split; [reflexivity|]. simpl. split; congruence.
Qed.

(** A guide curve the "vertices" block can subdivide: at least two
    vertices, which lie inside the vertex array of the hair system. *)
Definition guide_in_bounds (nverts_total : Z) (guide : HairFiberCurve) : Prop :=
  2 <= numverts guide /\ 0 <= vertstart guide
  /\ vertstart guide + numverts guide <= nverts_total.

Lemma update_vertices_of_curve_defined (hsys : HairSystem) (subdiv : Z)
    (scalp : Mesh) (cs : list HairFiberCurve) (tot i : Z)
    (st : list HairFiberVertex * list vec3 * list vec3)
    (o c : HairFiberCurve) :
  0 <= subdiv < 31 ->
  read_at (curves (curve_data hsys)) i = Some o ->
  guide_in_bounds (totverts (curve_data hsys)) o ->
  read_at cs i = Some c ->
  hair_get_strand_subdiv_length (numverts o) subdiv = Some (numverts c) ->
  0 <= vertstart c -> vertstart c + numverts c <= tot ->
  Z.of_nat (length (fst (fst st))) = tot ->
  Z.of_nat (length (snd (fst st))) = tot ->
  Z.of_nat (length (snd st)) = tot ->
  exists st',
    update_vertices_of_curve hsys subdiv scalp cs i st = Some st'
    /\ length (fst (fst st')) = length (fst (fst st))
    /\ length (snd (fst st')) = length (snd (fst st))
    /\ length (snd st') = length (snd st).
Proof.
  destruct st as [[vs ts] ns]. cbn [fst snd].
  intros Hs Ho (Hnv & Hv0 & Hv1) Hc Hlen Hc0 Hc1 Lv Lt Ln.
  unfold totverts in Hv1.
  pose proof (subdiv_length_ge _ _ _ Hlen) as Hge.
  apply subdiv_length_Some in Hlen as (_ & _ & Hlen & Hmax).
  unfold update_vertices_of_curve. rewrite Ho. cbn [mbind option_bind].
  rewrite array_from_defined by lia. cbn [mbind option_bind]. rewrite Hc.
  cbn [mbind option_bind].
  rewrite !array_from_defined by lia. cbn [mbind option_bind].
  destruct (BKE_mesh_sample_eval scalp (mesh_sample c)) as [[[ok rootpos] nor] tang].
  destruct (hair_curve_subdivide_ends o
              (drop (Z.to_nat (vertstart o)) (verts (curve_data hsys)))
              subdiv rootpos (drop (Z.to_nat (vertstart c)) vs))
    as (r & v0 & vlast & _ & _ & Hsub & Hr & _);
    [lia|assumption|rewrite length_drop; lia|lia|rewrite length_drop; lia|].
  rewrite Hsub. cbn [mbind option_bind fst snd].
  destruct (hair_curve_calc_vectors_defined r (numverts c)
              (tang, cross_v3_v3v3 nor tang, nor)
              (drop (Z.to_nat (vertstart c)) ts)
              (drop (Z.to_nat (vertstart c)) ns))
    as (vecs & Hvecs & Hvt & Hvn);
    [lia|rewrite Hr, length_drop; lia|rewrite length_drop; lia
    |rewrite length_drop; lia|].
  rewrite Hvecs. cbn [mbind option_bind fst snd].
  eexists. split; [reflexivity|]. cbn [fst snd].
  rewrite !length_array_before_app by (assumption || lia). auto.
Qed.

End UpdateDefined.

(** Every guide curve of the hair system lies inside its vertex array. *)
Definition guides_in_bounds (hsys : HairSystem) : Prop :=
  Forall (guide_in_bounds (totverts (curve_data hsys)))
         (curves (curve_data hsys)).

(** No buffer of the cache is a dangling pointer. *)
Definition no_dangling_buffer (cache : HairExportCache) : Prop :=
  fiber_verts cache <> Freed /\ fiber_tangents cache <> Freed
  /\ fiber_normals cache <> Freed /\ fiber_numverts cache <> Freed
  /\ fiber_root_position cache <> Freed.

(** The rounded length of every follicle of the pattern is an [int], and
    so is every running total of these lengths, for the guide curves of the
    hair system subdivided at level [subdiv]. *)
Definition fibers_defined (hsys : HairSystem) (subdiv : Z) : Prop :=
  forall pat cs tot,
    pattern hsys = Some pat ->
    export_curves subdiv (curves (curve_data hsys)) 0 = Some (cs, tot) ->
    exists counts,
      fiber_counts pat (num_follicles pat) cs = Some counts
      /\ running_totals_are_int counts.

Lemma guides_at_least_one (hsys : HairSystem) :
  guides_in_bounds hsys ->
  Forall (fun o => 1 <= numverts o) (curves (curve_data hsys)).
Proof.
  unfold guides_in_bounds. intros Hg.
  eapply Forall_impl; [exact Hg|]. intros o (Hn & _). simpl. lia.
Qed.

Section UpdateTotal.
Context `{HairServices}.

Lemma update_fiber_vertices_defined (hsys : HairSystem) (subdiv : Z)
    (scalp : Mesh) (cache : HairExportCache) (cs : list HairFiberCurve)
    (tot : Z) :
  0 <= subdiv < 31 ->
  guides_in_bounds hsys ->
  export_curves subdiv (curves (curve_data hsys)) 0 = Some (cs, tot) ->
  fiber_curves cache = Live cs ->
  cache_totcurves cache = totcurves (curve_data hsys) ->
  cache_totverts cache = tot ->
  fiber_verts cache <> Freed -> fiber_tangents cache <> Freed ->
  fiber_normals cache <> Freed ->
  exists vs ts ns,
    update_fiber_vertices hsys subdiv scalp cache
    = Some (mkHairExportCache (fiber_curves cache) (cache_totcurves cache)
              (Live vs) (Live ts) (Live ns)
              (cache_totverts cache)
              (cache_follicles cache) (totfibercurves cache)
              (fiber_numverts cache) (fiber_root_position cache)
              (totfiberverts cache)).
Proof.
  intros Hs Hg Hexp Hcs Hn Htot Hv Ht Hnn.
  pose proof (export_curves_total_ge _ _ _ _ _ Hexp) as Htot0.
  unfold update_fiber_vertices. rewrite Hcs, Hn, Htot. cbn [buffer_list].
  set (orig := curves (curve_data hsys)) in *.
  destruct (MEM_reallocN_defined (fiber_verts cache) tot fresh_vertex Hv) as [vs Hvs].
  destruct (MEM_reallocN_defined (fiber_tangents cache) tot zero_v3 Ht) as [ts Hts].
  destruct (MEM_reallocN_defined (fiber_normals cache) tot zero_v3 Hnn) as [ns Hns].
  rewrite Hvs, Hts, Hns. cbn [mbind option_bind].
  apply MEM_reallocN_length in Hvs, Hts, Hns.
  destruct (for_range_inv
              (fun (_ : Z) st =>
                 Z.of_nat (length (fst (fst st))) = tot
                 /\ Z.of_nat (length (snd (fst st))) = tot
                 /\ Z.of_nat (length (snd st)) = tot)
              (update_vertices_of_curve hsys subdiv scalp cs)
              0 (totcurves (curve_data hsys)) (vs, ts, ns))
    as ([[vs' ts'] ns'] & Hrun & _).
  - unfold totcurves. lia.
  - cbn [fst snd]. lia.
  - intros i st Hi (Lv & Lt & Ln). unfold totcurves in Hi. fold orig in Hi.
    destruct (read_at_is_Some orig i) as [o Ho]; [lia|].
    destruct (read_at_is_Some cs i) as [c Hc].
    { rewrite (export_curves_length _ _ _ _ _ Hexp). lia. }
    pose proof Hc as Hc'. apply read_at_Some in Hc' as [_ Hc'].
    destruct (export_curves_layout subdiv orig 0 cs tot _ c Hexp Hc')
      as (o' & Ho' & Hnv & _ & Hv0 & Hv1).
    apply read_at_Some in Ho as [Hi0 Ho]. rewrite Ho in Ho'. injection Ho' as <-.
    assert (Hb : guide_in_bounds (totverts (curve_data hsys)) o).
    { eapply (proj1 (Forall_forall _ _) Hg), list_elem_of_lookup_2, Ho. }
    destruct (update_vertices_of_curve_defined hsys subdiv scalp cs tot i st o c)
      as (st' & Hst' & L1 & L2 & L3); try assumption.
    { apply read_at_Some. split; assumption. }
    exists st'. split; [assumption|]. lia.
  - rewrite Hrun. cbn [mbind option_bind]. eauto.
Qed.

Lemma update_fiber_root_positions_defined (pat : HairPattern) (scalp : Mesh)
    (cache : HairExportCache) :
  fiber_root_position cache <> Freed ->
  totfibercurves cache <= Z.of_nat (length (pattern_list pat)) ->
  exists buf,
    update_fiber_root_positions pat scalp cache
    = Some (mkHairExportCache (fiber_curves cache) (cache_totcurves cache)
              (fiber_verts cache) (fiber_tangents cache) (fiber_normals cache)
              (cache_totverts cache)
              (cache_follicles cache) (totfibercurves cache)
              (fiber_numverts cache) (Live buf)
              (totfiberverts cache)).
Proof.
  intros Hbuf Hn. unfold update_fiber_root_positions.
  destruct (MEM_reallocN_defined (fiber_root_position cache)
              (totfibercurves cache) zero_v3 Hbuf) as [buf Hre].
  rewrite Hre. cbn [mbind option_bind].
  apply MEM_reallocN_length in Hre.
  destruct (Z.le_gt_cases 0 (totfibercurves cache)) as [H0|H0].
  - match goal with
    | |- context [for_range 0 _ ?body buf] =>
        destruct (for_range_inv
                    (fun (_ : Z) b => length b = length buf) body
                    0 (totfibercurves cache) buf) as (buf' & Hrun & _)
    end; [assumption|reflexivity| |].
    + intros i b Hi Hlen.
      destruct (read_at_is_Some (pattern_list pat) i) as [f Hf]; [lia|].
      rewrite Hf. cbn [mbind option_bind].
      destruct (BKE_mesh_sample_eval scalp (follicle_sample f))
        as [[[ok loc] nor] tang].
      rewrite write_at_in_range by lia.
      eexists. split; [reflexivity|]. now rewrite length_insert.
    + rewrite Hrun. cbn [mbind option_bind]. eauto.
  - rewrite for_range_empty by lia. cbn [mbind option_bind]. eauto.
Qed.

Lemma run_block_skipped (data : Z) (c : Category)
    (block : HairExportCache -> option HairExportCache)
    (st : HairExportCache * list Category) :
  in_flags c data = false -> run_block data c block st = Some st.
Proof. intros Hc. unfold run_block. fold (in_flags c data). now rewrite Hc. Qed.

Lemma run_block_run (data : Z) (c : Category)
    (block : HairExportCache -> option HairExportCache)
    (st : HairExportCache * list Category) (cache' : HairExportCache) :
  in_flags c data = true -> block (fst st) = Some cache' ->
  run_block data c block st = Some (cache', snd st ++ [c]).
Proof.
  intros Hc Hb. unfold run_block. fold (in_flags c data).
  now rewrite Hc, Hb.
Qed.

End UpdateTotal.

Section UpdateRuns.
Context `{HairServices}.

Lemma vertices_block_defined (data : Z) (hsys : HairSystem) (subdiv : Z)
    (scalp : Mesh) (st : HairExportCache * list Category)
    (cs : list HairFiberCurve) (tot : Z) :
  0 <= subdiv < 31 ->
  guides_in_bounds hsys ->
  export_curves subdiv (curves (curve_data hsys)) 0 = Some (cs, tot) ->
  fiber_curves (fst st) = Live cs ->
  cache_totcurves (fst st) = totcurves (curve_data hsys) ->
  cache_totverts (fst st) = tot ->
  fiber_verts (fst st) <> Freed -> fiber_tangents (fst st) <> Freed ->
  fiber_normals (fst st) <> Freed ->
  exists st',
    run_block data FiberVertices (update_fiber_vertices hsys subdiv scalp) st
    = Some st'
    /\ fiber_curves (fst st') = fiber_curves (fst st)
    /\ fiber_numverts (fst st') = fiber_numverts (fst st)
    /\ fiber_root_position (fst st') = fiber_root_position (fst st).
Proof.
  intros Hs Hg Hexp Hcs Hn Htot Hv Ht Hnn.
  destruct (in_flags FiberVertices data) eqn:E.
  - destruct (update_fiber_vertices_defined hsys subdiv scalp (fst st) cs tot)
      as (vs & ts & ns & Hrun); try assumption.
    eexists. split; [apply run_block_run; [exact E|exact Hrun]|].
    cbn [fst fiber_curves fiber_numverts fiber_root_position]. auto.
  - exists st. split; [now apply run_block_skipped|auto].
Qed.

Lemma follicle_blocks_defined (data : Z) (pat : HairPattern) (scalp : Mesh)
    (st : HairExportCache * list Category) (cs : list HairFiberCurve)
    (counts : list Z) :
  fiber_numverts (fst st) <> Freed ->
  fiber_root_position (fst st) <> Freed ->
  fiber_curves (fst st) = Live cs ->
  fiber_counts pat (num_follicles pat) cs = Some counts ->
  running_totals_are_int counts ->
  in_flags FollicleBinding data = true ->
  is_Some
    (st1 ← run_block data FollicleBinding (update_follicle_binding pat) st;
     st2 ← run_block data FiberVertexCounts (update_fiber_vertex_counts pat) st1;
     run_block data FiberRootPositions
       (update_fiber_root_positions pat scalp) st2).
Proof.
  intros Hnv Hrp Hcs Hcounts Hint Hbind.
  set (c3 := mkHairExportCache (fiber_curves (fst st)) (cache_totcurves (fst st))
               (fiber_verts (fst st)) (fiber_tangents (fst st))
               (fiber_normals (fst st)) (cache_totverts (fst st))
               (follicles pat) (num_follicles pat)
               (fiber_numverts (fst st)) (fiber_root_position (fst st))
               (totfiberverts (fst st))).
  rewrite (run_block_run data FollicleBinding (update_follicle_binding pat)
             st c3 Hbind eq_refl).
  cbn [mbind option_bind].
  assert (Hlen : num_follicles pat = Z.of_nat (length (pattern_list pat))).
  { unfold num_follicles, pattern_list. now destruct (follicles pat). }
  assert (Hcounts' : exists st2,
             run_block data FiberVertexCounts (update_fiber_vertex_counts pat)
               (c3, snd st ++ [FollicleBinding]) = Some st2
             /\ fiber_root_position (fst st2) = fiber_root_position (fst st)
             /\ totfibercurves (fst st2) = num_follicles pat).
  { destruct (in_flags FiberVertexCounts data) eqn:E.
    - destruct (update_fiber_vertex_counts_defined pat c3 counts)
        as [Hrun _]; [exact Hnv|cbn [c3 totfibercurves]; lia| |exact Hint|].
      + cbn [c3 totfibercurves fiber_curves]. rewrite Hcs. exact Hcounts.
      + eexists. split; [apply run_block_run; [exact E|exact Hrun]|].
        split; reflexivity.
    - eexists. split; [now apply run_block_skipped|]. split; reflexivity. }
  destruct Hcounts' as (st2 & -> & Hrp2 & Hn2). cbn [mbind option_bind].
  destruct (in_flags FiberRootPositions data) eqn:E.
  - destruct (update_fiber_root_positions_defined pat scalp (fst st2))
      as (buf & Hrun); [congruence|lia|].
    rewrite (run_block_run data FiberRootPositions _ st2 _ E Hrun). eauto.
  - rewrite run_block_skipped by assumption. eauto.
Qed.

(** On a cache that lacks the curves and the follicle binding and has no
    dangling buffer, an update that requests the curves of a hair system
    whose guide curves lie inside its vertex array, whose subdivided curves
    have an [int] number of vertices and whose fibre lengths and their
    running totals are [int]s is defined. *)
Lemma update_defined (cache : HairExportCache) (hsys : HairSystem)
    (subdiv : Z) (scalp : Mesh) (requested : Z) :
  0 <= subdiv < 31 ->
  guides_in_bounds hsys ->
  subdivided_total subdiv (curves (curve_data hsys)) <= INT_MAX ->
  fibers_defined hsys subdiv ->
  in_flags FiberCurves requested = true ->
  fiber_curves cache = Null ->
  cache_follicles cache = None ->
  no_dangling_buffer cache ->
  is_Some (BKE_hair_export_cache_update cache hsys subdiv scalp requested).
Proof.
  intros Hs Hg Hmax Hfib Hreq Hcurves Hfol (Hv & Ht & Hn & Hnv & Hrp).
  unfold BKE_hair_export_cache_update. fold (update_set cache requested).
  set (data := update_set cache requested).
  assert (Dc : in_flags FiberCurves data = true).
  { unfold data. rewrite in_update_set, Hreq. simpl. now rewrite Hcurves. }
  assert (Db : in_flags FollicleBinding data = true).
  { unfold data. rewrite in_update_set. simpl. rewrite Hreq, Hfol.
    now rewrite orb_true_r. }
  destruct (export_curves_defined subdiv (curves (curve_data hsys)) 0)
    as [cs Hexp]; [lia|now apply guides_at_least_one|lia|lia|].
  rewrite Z.add_0_l in Hexp.
  set (tot := subdivided_total subdiv (curves (curve_data hsys))) in *.
  assert (Hc1 : update_fiber_curves hsys subdiv cache
                = Some (mkHairExportCache
                          (Live cs) (totcurves (curve_data hsys))
                          (fiber_verts cache) (fiber_tangents cache)
                          (fiber_normals cache) tot
                          (cache_follicles cache) (totfibercurves cache)
                          (fiber_numverts cache) (fiber_root_position cache)
                          (totfiberverts cache))).
  { unfold update_fiber_curves. rewrite Hcurves.
    cbn [MEM_reallocN mbind option_bind]. now rewrite Hexp. }
  rewrite (run_block_run data FiberCurves _ (cache, []) _ Dc Hc1).
  cbn [mbind option_bind].
  match goal with
  | |- context [run_block data FiberVertices _ ?st] =>
      destruct (vertices_block_defined data hsys subdiv scalp st cs tot)
        as (st2 & -> & Hcs2 & Hnv2 & Hrp2);
      [assumption|assumption|assumption|reflexivity|reflexivity|reflexivity
      |assumption|assumption|assumption|]
  end.
  cbn [mbind option_bind]. cbn [fst fiber_curves fiber_numverts
                                fiber_root_position] in Hcs2, Hnv2, Hrp2.
  destruct (pattern hsys) as [pat|] eqn:Hpat.
  - destruct (Hfib pat cs tot Hpat Hexp) as (counts & Hcounts & Hint).
    destruct (follicle_blocks_defined data pat scalp st2 cs counts)
      as [st5 ->]; [congruence|congruence|assumption|assumption|assumption
                   |assumption|].
    cbn [mbind option_bind]. eauto.
  - unfold update_without_pattern. rewrite Hnv2, Hrp2.
    destruct (fiber_numverts cache); [| |contradiction];
      destruct (fiber_root_position cache); try contradiction;
      cbn [free_and_clear mbind option_bind]; eauto.
Qed.

End UpdateRuns.

Section UpdateClaim.
Context `{HairServices}.

(** C1 (code as written): for a hair system without pattern the update
    returns flags of data it has not recomputed.  Whenever the update
    returns on such a hair system, it has run no block of the follicle
    binding, the vertex counts or the root positions, and it leaves each of
    these three categories absent from the cache; yet it returns the flag of
    each of them that lies in the dependency closure of the request and was
    absent before the call.  (The function is documented to return the
    flags of the data that has been updated.) *)
Theorem update_returns_flags_not_recomputed (cache cache' : HairExportCache)
    (hsys : HairSystem) (subdiv : Z) (scalp : Mesh) (requested ret : Z)
    (log : list Category) :
  pattern hsys = None ->
  BKE_hair_export_cache_update cache hsys subdiv scalp requested
    = Some (cache', ret, log) ->
  forall c,
    c = FollicleBinding \/ c = FiberVertexCounts \/ c = FiberRootPositions ->
    c ∉ log
    /\ category_absent cache' c = true
    /\ in_flags c ret
       = (in_flags c requested || pulled_in_by c requested)
         && category_absent cache c
    /\ ((in_flags c requested || pulled_in_by c requested) = true ->
        category_absent cache c = true ->
        in_flags c ret = true).
Proof.
  intros Hpat Hrun c Hc.
  destruct (update_returns_update_set _ _ _ _ _ _ _ _ Hrun) as [Hret Hlog].
  assert (Hin : in_flags c ret
                = (in_flags c requested || pulled_in_by c requested)
                  && category_absent cache c).
  { rewrite Hret. apply in_update_set. }
  split; [|split; [|split; [exact Hin|]]].
  - rewrite Hlog. unfold blocks_of. rewrite Hpat. unfold blocks_without_pattern.
    intros [_ Hel]%list_elem_of_filter.
    destruct Hc as [-> | [-> | ->]]; set_solver.
  - revert Hrun. unfold BKE_hair_export_cache_update. rewrite Hpat.
    destruct (run_block _ FiberCurves _ _) as [st1|]; [|discriminate].
    cbn [mbind option_bind].
    destruct (run_block _ FiberVertices _ _) as [st2|]; [|discriminate].
    cbn [mbind option_bind]. unfold update_without_pattern.
    destruct (free_and_clear (fiber_numverts (fst st2))) as [nv|] eqn:Env;
      [|discriminate]. cbn [mbind option_bind].
    destruct (free_and_clear (fiber_root_position (fst st2))) as [rp|] eqn:Erp;
      [|discriminate]. cbn [mbind option_bind fst snd].
    intros [= <- _ _].
    assert (nv = Null) as ->
      by (destruct (fiber_numverts (fst st2)); simpl in Env; congruence).
    assert (rp = Null) as ->
      by (destruct (fiber_root_position (fst st2)); simpl in Erp; congruence).
    destruct Hc as [-> | [-> | ->]]; reflexivity.
  - intros Hreq Habs. now rewrite Hin, Hreq, Habs.
Qed.

(** X25.  The set an update works on is the closure of the request under
    the dependency rule, restricted to the categories absent from the
    cache.  Whenever the update returns, it returns exactly that set and has
    run the blocks of exactly the categories in it that the hair system
    allows, in the order of the source: curves, vertices, follicle binding,
    vertex counts, root positions; with a pattern these are all the
    categories of the set.  And the update does return on a cache that lacks
    the curves and the follicle binding and has no dangling buffer, when the
    curves are requested, the level is below 31, the guide curves lie inside
    the vertex array of the hair system, the subdivided curves have an [int]
    number of vertices, and the fibre lengths and their running totals are
    [int]s. *)
Theorem export_cache_update_recomputes (cache : HairExportCache)
    (hsys : HairSystem) (subdiv : Z) (scalp : Mesh) (requested : Z) :
  (forall c, in_flags c (update_set cache requested)
             = (in_flags c requested || pulled_in_by c requested)
               && category_absent cache c)
  /\ (forall cache' ret log,
        BKE_hair_export_cache_update cache hsys subdiv scalp requested
          = Some (cache', ret, log) ->
        ret = update_set cache requested
        /\ log = filter (fun c => in_flags c ret = true) (blocks_of hsys)
        /\ (is_Some (pattern hsys) ->
            forall c, c ∈ log <-> in_flags c ret = true))
  /\ (0 <= subdiv < 31 ->
      guides_in_bounds hsys ->
      subdivided_total subdiv (curves (curve_data hsys)) <= INT_MAX ->
      fibers_defined hsys subdiv ->
      in_flags FiberCurves requested = true ->
      fiber_curves cache = Null ->
      cache_follicles cache = None ->
      no_dangling_buffer cache ->
      exists cache',
        BKE_hair_export_cache_update cache hsys subdiv scalp requested
        = Some (cache', update_set cache requested,
                filter (fun c => in_flags c (update_set cache requested) = true)
                       (blocks_of hsys))).
Proof.
  split; [|split].
  - intros c. apply in_update_set.
  - intros cache' ret log Hrun.
    destruct (update_returns_update_set _ _ _ _ _ _ _ _ Hrun) as [Hret Hlog].
    split; [assumption|]. split; [assumption|].
    intros [pat Hpat] c. rewrite Hlog. unfold blocks_of. rewrite Hpat.
    rewrite list_elem_of_filter. split; [tauto|].
    intros Hc. split; [assumption|].
    unfold blocks_with_pattern. destruct c; set_solver.
  - intros Hs Hg Hmax Hfib Hreq Hcurves Hfol Hbuf.
    destruct (update_defined cache hsys subdiv scalp requested)
      as [[[cache' ret] log] Hrun]; try assumption.
    destruct (update_returns_update_set _ _ _ _ _ _ _ _ Hrun) as [-> ->].
    exists cache'. exact Hrun.
Qed.

End UpdateClaim.

(** The statement applies to a new cache and the hair system with two
    guide strands and no pattern, at level 1, when everything is requested:
    the update recomputes the curves and the vertices, leaves the follicle
    binding absent, and returns its flag. *)
Lemma update_returns_flags_not_recomputed_witness :
  exists cache',
    @BKE_hair_export_cache_update Example.services BKE_hair_export_cache_new
      (mkHairSystem 0 None Example.two_strands) 1 tt HAIR_EXPORT_ALL
    = Some (cache', HAIR_EXPORT_ALL, [FiberCurves; FiberVertices])
    /\ FollicleBinding ∉ [FiberCurves; FiberVertices]
    /\ category_absent cache' FollicleBinding = true
    /\ in_flags FollicleBinding HAIR_EXPORT_ALL = true.
Proof.
  eexists. split; [vm_compute; reflexivity|].
  match goal with
  | |- ?a ∉ ?l /\ category_absent ?c _ = true /\ _ =>
      destruct (@update_returns_flags_not_recomputed Example.services
                  BKE_hair_export_cache_new c
                  (mkHairSystem 0 None Example.two_strands) 1 tt
                  HAIR_EXPORT_ALL HAIR_EXPORT_ALL l eq_refl
                  ltac:(vm_compute; reflexivity)
                  FollicleBinding (or_introl eq_refl))
        as (Hlog & Habs & _ & Hret)
  end.
  split; [exact Hlog|]. split; [exact Habs|].
  apply Hret; reflexivity.
Defined.

(** The statement applies to a new cache and the hair system with two
    guide strands and one bound follicle, at level 1, when the curves are
    requested. *)
Lemma export_cache_update_recomputes_witness :
  exists cache',
    @BKE_hair_export_cache_update Example.services BKE_hair_export_cache_new
      (Example.hair_system true
         [Example.bound_follicle (Example.sample_at 0 0 0)] Example.two_strands)
      1 tt HAIR_EXPORT_FIBER_CURVES
    = Some (cache',
            update_set BKE_hair_export_cache_new HAIR_EXPORT_FIBER_CURVES,
            filter (fun c => in_flags c (update_set BKE_hair_export_cache_new
                                           HAIR_EXPORT_FIBER_CURVES) = true)
                   (blocks_of
                      (Example.hair_system true
                         [Example.bound_follicle (Example.sample_at 0 0 0)]
                         Example.two_strands))).
Proof.
  apply (proj2 (proj2 (@export_cache_update_recomputes Example.services
                         BKE_hair_export_cache_new
                         (Example.hair_system true
                            [Example.bound_follicle (Example.sample_at 0 0 0)]
                            Example.two_strands)
                         1 tt HAIR_EXPORT_FIBER_CURVES))).
  - lia.
  - unfold guides_in_bounds, guide_in_bounds, totverts. simpl.
    constructor; [cbn; lia|]. constructor; [cbn; lia|]. constructor.
  - vm_compute. discriminate.
  - intros pat cs tot [= <-] Hexp.
    assert (E : export_curves 1 (curves Example.two_strands) 0
                = Some (from_option fst []
                          (export_curves 1 (curves Example.two_strands) 0), 6))
      by (vm_compute; reflexivity).
    change (curves (curve_data
                      (Example.hair_system true
                         [Example.bound_follicle (Example.sample_at 0 0 0)]
                         Example.two_strands)))
      with (curves Example.two_strands) in Hexp.
    rewrite E in Hexp. injection Hexp as <- <-.
    exists [3]. split; [vm_compute; reflexivity|].
    intros [|[|i]]; cbn; unfold INT_MIN, INT_MAX; lia.
  - reflexivity.
  - reflexivity.
  - reflexivity.
  - repeat split; discriminate.
Defined.

(** X26.  On a new cache, an update that requests the curves of a hair
    system with a pattern recomputes the curves first and the vertex counts
    and root positions last: the vertices block reads the curves, the vertex
    counts read the binding and the curves.  This is the reverse of the
    order vertex counts and root positions, follicle binding, vertices,
    curves. *)
Lemma update_runs_blocks_in_source_order :
  exists cache',
    @BKE_hair_export_cache_update Example.services BKE_hair_export_cache_new
      (Example.hair_system true
         [Example.bound_follicle (Example.sample_at 0 0 0)]
         Example.two_strands)
      1 tt HAIR_EXPORT_FIBER_CURVES
    = Some (cache', HAIR_EXPORT_ALL,
            [FiberCurves; FiberVertices; FollicleBinding; FiberVertexCounts;
             FiberRootPositions])
    /\ in_stated_order
         [FiberCurves; FiberVertices; FollicleBinding; FiberVertexCounts;
          FiberRootPositions] = false.
Proof.
  eexists. split; [vm_compute; reflexivity|reflexivity].
Qed.

(** * Further properties of the export cache *)

(** ** The dependency rule as a closure on flag words *)

Lemma dependencies_testbit (data n : Z) :
  0 <= n ->
  Z.testbit (hair_export_cache_get_dependencies data) n
  = Z.testbit data n
    || ((n =? 4) || (n =? 2)) && Z.testbit data 3
    || ((n =? 0) || (n =? 1)) && (Z.testbit data 3 || Z.testbit data 2).
Proof.
  intros Hn. unfold hair_export_cache_get_dependencies.
  change HAIR_EXPORT_FIBER_CURVES with (2 ^ 3).
  change HAIR_EXPORT_FOLLICLE_BINDING with (2 ^ 2).
  change HAIR_EXPORT_FIBER_VERTICES with (2 ^ 4).
  change HAIR_EXPORT_FIBER_ROOT_POSITIONS with (2 ^ 0).
  change HAIR_EXPORT_FIBER_VERTEX_COUNTS with (2 ^ 1).
  rewrite !has_flag_pow2 by lia.
  destruct (Z.testbit data 3) eqn:E3.
  - rewrite Z.lor_spec, (Z.lor_spec (2 ^ 4)), !Z.pow2_bits_eqb by lia.
    simpl. rewrite orb_true_r.
    rewrite !Z.lor_spec, !Z.pow2_bits_eqb by lia.
    rewrite (Z.eqb_sym 4 n), (Z.eqb_sym 2 n), (Z.eqb_sym 0 n), (Z.eqb_sym 1 n).
    destruct (Z.testbit data n), (n =? 4), (n =? 2), (n =? 0), (n =? 1);
      reflexivity.
  - destruct (Z.testbit data 2) eqn:E2.
    + rewrite !Z.lor_spec, !Z.pow2_bits_eqb by lia.
      rewrite (Z.eqb_sym 0 n), (Z.eqb_sym 1 n).
      destruct (Z.testbit data n), (n =? 4), (n =? 2), (n =? 0), (n =? 1);
        reflexivity.
    + destruct (Z.testbit data n), (n =? 4), (n =? 2), (n =? 0), (n =? 1);
        reflexivity.
Qed.

(** X1.  [hair_export_cache_get_dependencies] is a closure on flag words:
    applying it twice is applying it once, its result contains the flags it
    was given, and the dependencies of a union are the union of the
    dependencies; this holds for every [int], whatever other bits it
    carries. *)
Theorem dependencies_is_closure (a b : Z) :
  hair_export_cache_get_dependencies (hair_export_cache_get_dependencies a)
  = hair_export_cache_get_dependencies a
  /\ Z.lor a (hair_export_cache_get_dependencies a)
     = hair_export_cache_get_dependencies a
  /\ hair_export_cache_get_dependencies (Z.lor a b)
     = Z.lor (hair_export_cache_get_dependencies a)
             (hair_export_cache_get_dependencies b).
Proof.
  split; [|split]; apply Z.bits_inj'; intros n Hn;
    rewrite ?Z.lor_spec, !dependencies_testbit by lia;
    rewrite ?Z.lor_spec; cbn [Z.eqb Pos.eqb];
    destruct (Z.testbit a n), (Z.testbit a 3), (Z.testbit a 2),
      (Z.testbit b n), (Z.testbit b 3), (Z.testbit b 2),
      (n =? 4), (n =? 2), (n =? 0), (n =? 1); reflexivity.
Qed.

(** ** Invalidation *)

Lemma free_and_clear_null {A} (b b' : Buffer A) :
  free_and_clear b = Some b' -> b' = Null.
Proof. destruct b; simpl; congruence. Qed.

Lemma invalidate_absent (cache cache' : HairExportCache) (invalidate : Z)
    (c : Category) :
  BKE_hair_export_cache_invalidate cache invalidate = Some cache' ->
  category_absent cache' c
  = category_absent cache c
    || in_flags c (hair_export_cache_get_dependencies invalidate).
Proof.
  unfold BKE_hair_export_cache_invalidate.
  set (data := hair_export_cache_get_dependencies invalidate).
  change (has_flag data HAIR_EXPORT_FIBER_CURVES) with (in_flags FiberCurves data).
  change (has_flag data HAIR_EXPORT_FIBER_VERTICES) with (in_flags FiberVertices data).
  change (has_flag data HAIR_EXPORT_FOLLICLE_BINDING)
    with (in_flags FollicleBinding data).
  change (has_flag data HAIR_EXPORT_FIBER_ROOT_POSITIONS)
    with (in_flags FiberRootPositions data).
  change (has_flag data HAIR_EXPORT_FIBER_VERTEX_COUNTS)
    with (in_flags FiberVertexCounts data).
  destruct cache as [cu ncu ve ta no nve fo nfo nu ro nfv]. simpl.
  destruct c;
    (destruct (in_flags FiberCurves data);
       [destruct cu; simpl; try discriminate|simpl]);
    (destruct (in_flags FiberVertices data);
       [destruct ve; simpl; try discriminate;
        destruct ta; simpl; try discriminate;
        destruct no; simpl; try discriminate|simpl]);
    destruct (in_flags FollicleBinding data);
    (destruct (in_flags FiberRootPositions data);
       [destruct ro; simpl; try discriminate|simpl]);
    (destruct (in_flags FiberVertexCounts data);
       [destruct nu; simpl; try discriminate|simpl]);
    intros [= <-]; simpl;
    rewrite ?orb_true_r, ?orb_false_r; reflexivity.
Qed.

(** X2.  When [BKE_hair_export_cache_invalidate] returns, the categories
    the cache reports as missing are those that were missing before
    together with the dependency closure of the categories it was asked to
    invalidate. *)
Theorem invalidate_marks_closure_missing (cache cache' : HairExportCache)
    (invalidate : Z) (c : Category) :
  BKE_hair_export_cache_invalidate cache invalidate = Some cache' ->
  in_flags c (hair_export_cache_get_required_updates cache')
  = in_flags c (hair_export_cache_get_required_updates cache)
    || in_flags c (hair_export_cache_get_dependencies invalidate).
Proof.
  intros Hinv. rewrite !in_required_updates. now apply invalidate_absent.
Qed.

(** The statement applies to a complete cache invalidated for the follicle
    binding: the root positions, not missing before, are missing
    afterwards. *)
Lemma invalidate_marks_closure_missing_witness :
  exists cache',
    BKE_hair_export_cache_invalidate Example.complete_cache
      HAIR_EXPORT_FOLLICLE_BINDING = Some cache'
    /\ in_flags FiberRootPositions
         (hair_export_cache_get_required_updates Example.complete_cache) = false
    /\ in_flags FiberRootPositions
         (hair_export_cache_get_required_updates cache')
       = in_flags FiberRootPositions
           (hair_export_cache_get_required_updates Example.complete_cache)
         || in_flags FiberRootPositions
              (hair_export_cache_get_dependencies HAIR_EXPORT_FOLLICLE_BINDING).
Proof.
  eexists. split; [reflexivity|]. split; [reflexivity|].
  apply (invalidate_marks_closure_missing Example.complete_cache).
  reflexivity.
Defined.

(** The condition [BKE_hair_export_cache_update] asserts on the cache it
    is given: the missing categories contain their own dependencies. *)
Definition uncached_closed (cache : HairExportCache) : bool :=
  hair_export_cache_get_required_updates cache
  =? hair_export_cache_get_dependencies
       (hair_export_cache_get_required_updates cache).

Lemma uncached_closed_categories (cache : HairExportCache) :
  uncached_closed cache = true
  <-> forall c,
        in_flags c (hair_export_cache_get_dependencies
                      (hair_export_cache_get_required_updates cache))
        = in_flags c (hair_export_cache_get_required_updates cache).
Proof.
  unfold uncached_closed. split.
  - intros E%Z.eqb_eq c. now rewrite <- E.
  - intros Hc.
    pose proof (Hc FiberCurves) as H1. pose proof (Hc FollicleBinding) as H2.
    pose proof (Hc FiberVertices) as H3. pose proof (Hc FiberRootPositions) as H4.
    pose proof (Hc FiberVertexCounts) as H5. clear Hc.
    unfold hair_export_cache_get_required_updates in *.
    destruct (non_null (fiber_curves cache)), (non_null (fiber_verts cache)),
      (non_null (fiber_normals cache)), (non_null (fiber_tangents cache)),
      (is_None (cache_follicles cache)), (non_null (fiber_root_position cache)),
      (non_null (fiber_numverts cache));
      vm_compute in *; congruence.
Qed.

(** X3.  [BKE_hair_export_cache_invalidate] keeps the condition that the
    update asserts on entry: when the missing categories of a cache contain
    their own dependencies, they still do after any invalidation. *)
Theorem invalidate_keeps_uncached_closed (cache cache' : HairExportCache)
    (invalidate : Z) :
  uncached_closed cache = true ->
  BKE_hair_export_cache_invalidate cache invalidate = Some cache' ->
  uncached_closed cache' = true.
Proof.
  intros Hclosed Hinv.
  apply uncached_closed_categories. intros c.
  pose proof (proj1 (uncached_closed_categories cache) Hclosed) as Hc.
  rewrite in_dependencies.
  assert (Hmiss : forall c',
             in_flags c' (hair_export_cache_get_required_updates cache')
             = in_flags c' (hair_export_cache_get_required_updates cache)
               || (in_flags c' invalidate || pulled_in_by c' invalidate)).
  { intros c'. rewrite <- in_dependencies, !in_required_updates.
    now apply invalidate_absent. }
  pose proof (Hc FiberCurves) as H1. pose proof (Hc FollicleBinding) as H2.
  pose proof (Hc FiberVertices) as H3. pose proof (Hc FiberRootPositions) as H4.
  pose proof (Hc FiberVertexCounts) as H5. clear Hc.
  rewrite in_dependencies in H1, H2, H3, H4, H5.
  destruct c; simpl in *; rewrite !Hmiss; simpl;
    destruct (in_flags FiberCurves _), (in_flags FiberCurves invalidate),
      (in_flags FollicleBinding _), (in_flags FollicleBinding invalidate),
      (in_flags FiberVertices _), (in_flags FiberVertices invalidate),
      (in_flags FiberRootPositions _), (in_flags FiberRootPositions invalidate),
      (in_flags FiberVertexCounts _), (in_flags FiberVertexCounts invalidate);
    simpl in *; congruence.
Qed.

(** The statement applies to a complete cache invalidated for the follicle
    binding. *)
Lemma invalidate_keeps_uncached_closed_witness :
  exists cache',
    BKE_hair_export_cache_invalidate Example.complete_cache
      HAIR_EXPORT_FOLLICLE_BINDING = Some cache'
    /\ uncached_closed cache' = true.
Proof.
  eexists. split; [reflexivity|].
  apply (invalidate_keeps_uncached_closed Example.complete_cache _
           HAIR_EXPORT_FOLLICLE_BINDING); reflexivity.
Defined.

(** ** What an update leaves in the cache *)

(** A block recomputes one category: afterwards that category is present
    (for the follicle binding: present when the pattern has a follicle
    array) and the presence of the others is as before. *)
Definition recomputes (c0 : Category) (present : bool)
    (block : HairExportCache -> option HairExportCache) : Prop :=
  forall cache cache', block cache = Some cache' ->
    forall c, category_absent cache' c
              = if bool_decide (c = c0) then negb present
                else category_absent cache c.

Section UpdateEffect.
Context `{HairServices}.

Lemma update_fiber_curves_recomputes (hsys : HairSystem) (subdiv : Z) :
  recomputes FiberCurves true (update_fiber_curves hsys subdiv).
Proof.
  intros cache cache'. unfold update_fiber_curves.
  destruct (MEM_reallocN _ _ _); simpl; [|discriminate].
  destruct (export_curves _ _ _) as [[cs tot]|]; simpl; [|discriminate].
  intros [= <-] c. destruct c; reflexivity.
Qed.

Lemma update_fiber_vertices_recomputes (hsys : HairSystem) (subdiv : Z)
    (scalp : Mesh) :
  recomputes FiberVertices true (update_fiber_vertices hsys subdiv scalp).
Proof.
  intros cache cache'. unfold update_fiber_vertices.
  destruct (MEM_reallocN (fiber_verts cache) _ _); simpl; [|discriminate].
  destruct (MEM_reallocN (fiber_tangents cache) _ _); simpl; [|discriminate].
  destruct (MEM_reallocN (fiber_normals cache) _ _); simpl; [|discriminate].
  destruct (for_range _ _ _ _) as [[[vs ts] ns]|]; simpl; [|discriminate].
  intros [= <-] c. destruct c; reflexivity.
Qed.

Lemma update_follicle_binding_recomputes (pat : HairPattern) :
  recomputes FollicleBinding (negb (is_None (follicles pat)))
             (update_follicle_binding pat).
Proof.
  intros cache cache'. unfold update_follicle_binding.
  intros [= <-] c. destruct c; simpl; try reflexivity.
  now rewrite negb_involutive.
Qed.

Lemma update_fiber_vertex_counts_recomputes (pat : HairPattern) :
  recomputes FiberVertexCounts true (update_fiber_vertex_counts pat).
Proof.
  intros cache cache'. unfold update_fiber_vertex_counts.
  destruct (MEM_reallocN _ _ _); simpl; [|discriminate].
  destruct (for_range _ _ _ _); simpl; [|discriminate].
  intros [= <-] c. destruct c; reflexivity.
Qed.

Lemma update_fiber_root_positions_recomputes (pat : HairPattern) (scalp : Mesh) :
  recomputes FiberRootPositions true (update_fiber_root_positions pat scalp).
Proof.
  intros cache cache'. unfold update_fiber_root_positions.
  destruct (MEM_reallocN _ _ _); simpl; [|discriminate].
  destruct (for_range _ _ _ _); simpl; [|discriminate].
  intros [= <-] c. destruct c; reflexivity.
Qed.

Lemma run_block_absent (data : Z) (c0 : Category) (present : bool)
    (block : HairExportCache -> option HairExportCache)
    (st st' : HairExportCache * list Category) :
  recomputes c0 present block ->
  run_block data c0 block st = Some st' ->
  forall c, category_absent (fst st') c
            = if in_flags c0 data && bool_decide (c = c0) then negb present
              else category_absent (fst st) c.
Proof.
  intros Hblock. unfold run_block. fold (in_flags c0 data).
  destruct (in_flags c0 data); simpl.
  - destruct (block (fst st)) as [cache'|] eqn:E; simpl; [|discriminate].
    intros [= <-] c. simpl. now apply Hblock.
  - intros [= <-] c. reflexivity.
Qed.

Lemma update_absent (cache cache' : HairExportCache) (hsys : HairSystem)
    (subdiv : Z) (scalp : Mesh) (requested ret : Z) (log : list Category)
    (pat : HairPattern) (fs : list HairFollicle) (c : Category) :
  pattern hsys = Some pat -> follicles pat = Some fs ->
  BKE_hair_export_cache_update cache hsys subdiv scalp requested
    = Some (cache', ret, log) ->
  category_absent cache' c
  = category_absent cache c
    && negb (in_flags c (hair_export_cache_get_dependencies requested)).
Proof.
  intros Hpat Hfs. unfold BKE_hair_export_cache_update.
  fold (update_set cache requested). rewrite Hpat.
  set (data := update_set cache requested).
  destruct (run_block data FiberCurves _ _) as [st1|] eqn:E1; simpl; [|discriminate].
  destruct (run_block data FiberVertices _ _) as [st2|] eqn:E2; simpl; [|discriminate].
  destruct (run_block data FollicleBinding _ _) as [st3|] eqn:E3; simpl; [|discriminate].
  destruct (run_block data FiberVertexCounts _ _) as [st4|] eqn:E4; simpl; [|discriminate].
  destruct (run_block data FiberRootPositions _ _) as [st5|] eqn:E5; simpl; [|discriminate].
  intros [= <- _ _].
  rewrite (run_block_absent _ _ _ _ _ _
             (update_fiber_root_positions_recomputes pat scalp) E5).
  rewrite (run_block_absent _ _ _ _ _ _
             (update_fiber_vertex_counts_recomputes pat) E4).
  rewrite (run_block_absent _ _ _ _ _ _
             (update_follicle_binding_recomputes pat) E3).
  rewrite (run_block_absent _ _ _ _ _ _
             (update_fiber_vertices_recomputes hsys subdiv scalp) E2).
  rewrite (run_block_absent _ _ _ _ _ _
             (update_fiber_curves_recomputes hsys subdiv) E1).
  rewrite Hfs. simpl fst. subst data.
  rewrite !in_update_set, <- !in_dependencies.
  destruct c; simpl;
    repeat match goal with
           | |- context [in_flags ?c' ?d] => destruct (in_flags c' d)
           end; simpl;
    repeat match goal with
           | |- context [negb (non_null ?b)] => destruct (negb (non_null b))
           | |- context [is_None ?b] => destruct (is_None b)
           end; reflexivity.
Qed.

(** X4.  After an update of a hair system whose pattern has a follicle
    array, a category is missing from the cache exactly when it was missing
    before and is not in the dependency closure of the request: every
    requested category and every dependency of it is present, and nothing
    that was present is lost. *)
Theorem update_leaves_requested_present (cache cache' : HairExportCache)
    (hsys : HairSystem) (subdiv : Z) (scalp : Mesh) (requested ret : Z)
    (log : list Category) (pat : HairPattern) (fs : list HairFollicle)
    (c : Category) :
  pattern hsys = Some pat -> follicles pat = Some fs ->
  BKE_hair_export_cache_update cache hsys subdiv scalp requested
    = Some (cache', ret, log) ->
  in_flags c (hair_export_cache_get_required_updates cache')
  = in_flags c (hair_export_cache_get_required_updates cache)
    && negb (in_flags c (hair_export_cache_get_dependencies requested)).
Proof.
  intros Hpat Hfs Hrun. rewrite !in_required_updates.
  eapply update_absent; eassumption.
Qed.

End UpdateEffect.

(** The statement applies to a new cache and the hair system with two
    guide strands and one bound follicle, at level 1, when the curves are
    requested: the vertices, missing before, are present afterwards. *)
Lemma update_leaves_requested_present_witness :
  exists cache',
    @BKE_hair_export_cache_update Example.services BKE_hair_export_cache_new
      (Example.hair_system true
         [Example.bound_follicle (Example.sample_at 0 0 0)] Example.two_strands)
      1 tt HAIR_EXPORT_FIBER_CURVES
    = Some (cache', HAIR_EXPORT_ALL,
            [FiberCurves; FiberVertices; FollicleBinding; FiberVertexCounts;
             FiberRootPositions])
    /\ in_flags FiberVertices (hair_export_cache_get_required_updates cache')
       = in_flags FiberVertices
           (hair_export_cache_get_required_updates BKE_hair_export_cache_new)
         && negb (in_flags FiberVertices
                    (hair_export_cache_get_dependencies HAIR_EXPORT_FIBER_CURVES)).
Proof.
  eexists. split; [vm_compute; reflexivity|].
  eapply (@update_leaves_requested_present Example.services
            BKE_hair_export_cache_new _
            (Example.hair_system true
               [Example.bound_follicle (Example.sample_at 0 0 0)]
               Example.two_strands)
            1 tt HAIR_EXPORT_FIBER_CURVES).
  - reflexivity.
  - reflexivity.
  - vm_compute. reflexivity.
Defined.

(** A word of category flags that holds none of the five categories and
    no other bit is zero. *)
Lemma required_updates_range (cache : HairExportCache) :
  0 <= hair_export_cache_get_required_updates cache < 32.
Proof.
  unfold hair_export_cache_get_required_updates.
  destruct (non_null (fiber_curves cache)), (non_null (fiber_verts cache)),
    (non_null (fiber_normals cache)), (non_null (fiber_tangents cache)),
    (is_None (cache_follicles cache)), (non_null (fiber_root_position cache)),
    (non_null (fiber_numverts cache)); vm_compute; split; congruence.
Qed.

Lemma small_flags_testbit (r n : Z) :
  0 <= r < 32 -> 5 <= n -> Z.testbit r n = false.
Proof.
  intros Hr Hn. destruct (Z.eq_dec r 0) as [->|Hne].
  - apply Z.bits_0.
  - apply Z.bits_above_log2; [lia|].
    assert (Z.log2 r < 5) by (apply Z.log2_lt_pow2; lia). lia.
Qed.

Lemma update_set_empty (cache : HairExportCache) (requested : Z) :
  (forall c, in_flags c (update_set cache requested) = false) ->
  update_set cache requested = 0.
Proof.
  intros Hc. apply Z.bits_inj'. intros n Hn. rewrite Z.bits_0.
  destruct (Z.lt_ge_cases n 5) as [Hlt|Hge].
  - assert (Hn5 : n = 0 \/ n = 1 \/ n = 2 \/ n = 3 \/ n = 4) by lia.
    destruct Hn5 as [-> | [-> | [-> | [-> | ->]]]].
    + now rewrite <- (Hc FiberRootPositions), in_flags_testbit.
    + now rewrite <- (Hc FiberVertexCounts), in_flags_testbit.
    + now rewrite <- (Hc FollicleBinding), in_flags_testbit.
    + now rewrite <- (Hc FiberCurves), in_flags_testbit.
    + now rewrite <- (Hc FiberVertices), in_flags_testbit.
  - unfold update_set. rewrite Z.land_spec.
    rewrite (small_flags_testbit _ n (required_updates_range cache) Hge).
    apply andb_false_r.
Qed.

Section UpdateTwice.
Context `{HairServices}.

(** With nothing to recompute, the update of a hair system with a pattern
    returns the cache as it is. *)
Lemma update_nothing_to_do (cache : HairExportCache) (hsys : HairSystem)
    (subdiv : Z) (scalp : Mesh) (requested : Z) :
  is_Some (pattern hsys) ->
  update_set cache requested = 0 ->
  BKE_hair_export_cache_update cache hsys subdiv scalp requested
  = Some (cache, 0, []).
Proof.
  intros [pat Hpat] Hempty. unfold BKE_hair_export_cache_update.
  fold (update_set cache requested). rewrite Hempty, Hpat.
  reflexivity.
Qed.

(** X5.  The update is idempotent: when an update of a hair system whose
    pattern has a follicle array has returned, the same update on the cache
    it produced recomputes nothing, returns no flag and leaves the cache as
    it is. *)
Theorem update_twice_recomputes_nothing (cache cache' : HairExportCache)
    (hsys : HairSystem) (subdiv : Z) (scalp : Mesh) (requested ret : Z)
    (log : list Category) (pat : HairPattern) (fs : list HairFollicle) :
  pattern hsys = Some pat -> follicles pat = Some fs ->
  BKE_hair_export_cache_update cache hsys subdiv scalp requested
    = Some (cache', ret, log) ->
  BKE_hair_export_cache_update cache' hsys subdiv scalp requested
  = Some (cache', 0, []).
Proof.
  intros Hpat Hfs Hrun. apply update_nothing_to_do; [now rewrite Hpat|].
  apply update_set_empty. intros c.
  unfold update_set. rewrite in_flags_land, in_required_updates.
  rewrite (update_absent _ _ _ _ _ _ _ _ _ _ c Hpat Hfs Hrun).
  destruct (in_flags c _), (category_absent cache c); reflexivity.
Qed.

(** X6.  For a hair system without pattern the update, whatever was
    requested, leaves the cache without follicle data: the follicle array
    and both fibre buffers are null and the fibre count is 0, so the three
    follicle categories are still reported missing afterwards. *)
Theorem update_without_pattern_drops_follicle_data
    (cache cache' : HairExportCache) (hsys : HairSystem) (subdiv : Z)
    (scalp : Mesh) (requested ret : Z) (log : list Category) :
  pattern hsys = None ->
  BKE_hair_export_cache_update cache hsys subdiv scalp requested
    = Some (cache', ret, log) ->
  cache_follicles cache' = None /\ totfibercurves cache' = 0
  /\ fiber_numverts cache' = Null /\ fiber_root_position cache' = Null
  /\ forall c, c = FollicleBinding \/ c = FiberVertexCounts
               \/ c = FiberRootPositions ->
       in_flags c (hair_export_cache_get_required_updates cache') = true.
Proof.
  intros Hpat. unfold BKE_hair_export_cache_update. rewrite Hpat.
  destruct (run_block _ FiberCurves _ _) as [st1|]; simpl; [|discriminate].
  destruct (run_block _ FiberVertices _ _) as [st2|]; simpl; [|discriminate].
  unfold update_without_pattern.
  destruct (free_and_clear (fiber_numverts (fst st2))) as [nv|] eqn:Env;
    simpl; [|discriminate].
  destruct (free_and_clear (fiber_root_position (fst st2))) as [rp|] eqn:Erp;
    simpl; [|discriminate].
  apply free_and_clear_null in Env, Erp. subst nv rp.
  intros [= <- _ _]. simpl. repeat split.
  intros c Hc. rewrite in_required_updates.
  destruct Hc as [-> | [-> | ->]]; reflexivity.
Qed.

End UpdateTwice.

(** The statement applies to a new cache and the hair system with two
    guide strands and one bound follicle, at level 1, when the curves are
    requested. *)
Lemma update_twice_recomputes_nothing_witness :
  exists cache',
    @BKE_hair_export_cache_update Example.services BKE_hair_export_cache_new
      (Example.hair_system true
         [Example.bound_follicle (Example.sample_at 0 0 0)] Example.two_strands)
      1 tt HAIR_EXPORT_FIBER_CURVES
    = Some (cache', HAIR_EXPORT_ALL,
            [FiberCurves; FiberVertices; FollicleBinding; FiberVertexCounts;
             FiberRootPositions])
    /\ @BKE_hair_export_cache_update Example.services cache'
         (Example.hair_system true
            [Example.bound_follicle (Example.sample_at 0 0 0)]
            Example.two_strands)
         1 tt HAIR_EXPORT_FIBER_CURVES
       = Some (cache', 0, []).
Proof.
  eexists. split; [vm_compute; reflexivity|].
  eapply (@update_twice_recomputes_nothing Example.services
            BKE_hair_export_cache_new).
  - reflexivity.
  - reflexivity.
  - vm_compute. reflexivity.
Defined.

(** The statement applies to a complete cache and a hair system with two
    guide strands and no pattern, when nothing is requested. *)
Lemma update_without_pattern_drops_follicle_data_witness :
  exists cache',
    @BKE_hair_export_cache_update Example.services Example.complete_cache
      (mkHairSystem 0 None Example.two_strands) 1 tt 0
    = Some (cache', 0, [])
    /\ cache_follicles Example.complete_cache = Some []
    /\ cache_follicles cache' = None /\ totfibercurves cache' = 0
    /\ fiber_numverts cache' = Null /\ fiber_root_position cache' = Null
    /\ forall c, c = FollicleBinding \/ c = FiberVertexCounts
                 \/ c = FiberRootPositions ->
         in_flags c (hair_export_cache_get_required_updates cache') = true.
Proof.
  eexists. split; [vm_compute; reflexivity|]. split; [reflexivity|].
  eapply (@update_without_pattern_drops_follicle_data Example.services
            Example.complete_cache _
            (mkHairSystem 0 None Example.two_strands) 1 tt 0).
  - reflexivity.
  - vm_compute. reflexivity.
Defined.

(** ** Releasing the cache *)

(** X7.  After [BKE_hair_export_cache_clear] on a cache whose normals are
    allocated, the cache cannot be released or cleared again: the clear has
    freed the normals and kept their pointer, so [BKE_hair_export_cache_free]
    and a second [BKE_hair_export_cache_clear] both free that buffer a second
    time. *)
Theorem clear_then_free_frees_normals_twice (cache cache' : HairExportCache)
    (ns : list vec3) :
  fiber_normals cache = Live ns ->
  BKE_hair_export_cache_clear cache = Some cache' ->
  fiber_normals cache' = Freed
  /\ BKE_hair_export_cache_free cache' = None
  /\ BKE_hair_export_cache_clear cache' = None.
Proof.
  intros Hns. unfold BKE_hair_export_cache_clear, BKE_hair_export_cache_invalidate.
  change (hair_export_cache_get_dependencies HAIR_EXPORT_ALL) with 31.
  change (has_flag 31 HAIR_EXPORT_FIBER_CURVES) with true.
  change (has_flag 31 HAIR_EXPORT_FIBER_VERTICES) with true.
  change (has_flag 31 HAIR_EXPORT_FOLLICLE_BINDING) with true.
  change (has_flag 31 HAIR_EXPORT_FIBER_ROOT_POSITIONS) with true.
  change (has_flag 31 HAIR_EXPORT_FIBER_VERTEX_COUNTS) with true.
  cbv iota. rewrite Hns.
  destruct (free_and_clear (fiber_curves cache)) as [cu|] eqn:Ecu;
    simpl; [|discriminate].
  destruct (free_and_clear (fiber_verts cache)) as [ve|] eqn:Eve;
    simpl; [|discriminate].
  destruct (free_and_clear (fiber_tangents cache)) as [ta|] eqn:Eta;
    simpl; [|discriminate].
  destruct (free_and_clear (fiber_root_position cache)) as [ro|] eqn:Ero;
    simpl; [|discriminate].
  destruct (free_and_clear (fiber_numverts cache)) as [nu|] eqn:Enu;
    simpl; [|discriminate].
  apply free_and_clear_null in Ecu, Eve, Eta, Ero, Enu. subst.
  intros [= <-]. unfold BKE_hair_export_cache_free. simpl.
  repeat split.
Qed.

(** The statement applies to a complete cache. *)
Lemma clear_then_free_frees_normals_twice_witness :
  exists cache',
    BKE_hair_export_cache_clear Example.complete_cache = Some cache'
    /\ fiber_normals cache' = Freed
    /\ BKE_hair_export_cache_free cache' = None
    /\ BKE_hair_export_cache_clear cache' = None.
Proof.
  eexists. split; [reflexivity|].
  apply (clear_then_free_frees_normals_twice Example.complete_cache _ []);
    reflexivity.
Defined.

(** ** The root positions of the fibres *)

Section RootPositions.
Context `{HairServices}.

(** X8.  The "root positions" block of the update is defined when the
    buffer it reallocates has not been freed and the pattern has at least
    [totfibercurves] follicles.  It then leaves a buffer of [totfibercurves]
    positions in which entry [i] is the location [BKE_mesh_sample_eval]
    wrote for the surface sample of follicle [i], whether or not that
    evaluation succeeded, and it changes no other field of the cache. *)
Theorem update_fiber_root_positions_stores_locations (pat : HairPattern)
    (scalp : Mesh) (cache : HairExportCache) :
  fiber_root_position cache <> Freed ->
  0 <= totfibercurves cache <= Z.of_nat (length (pattern_list pat)) ->
  exists buf,
    update_fiber_root_positions pat scalp cache
    = Some (mkHairExportCache (fiber_curves cache) (cache_totcurves cache)
              (fiber_verts cache) (fiber_tangents cache) (fiber_normals cache)
              (cache_totverts cache)
              (cache_follicles cache) (totfibercurves cache)
              (fiber_numverts cache) (Live buf)
              (totfiberverts cache))
    /\ Z.of_nat (length buf) = totfibercurves cache
    /\ forall i f, read_at (pattern_list pat) i = Some f ->
                   i < totfibercurves cache ->
                   read_at buf i
                   = Some (sample_location scalp (follicle_sample f)).
Proof.
  intros Hbuf Hn. unfold update_fiber_root_positions.
  set (n := totfibercurves cache) in *.
  destruct (MEM_reallocN_defined (fiber_root_position cache) n zero_v3 Hbuf)
    as [buf Hre].
  rewrite Hre. cbn [mbind option_bind].
  apply MEM_reallocN_length in Hre.
  match goal with
  | |- context [for_range 0 _ ?body buf] =>
      destruct (for_range_inv
                  (fun (i : Z) b =>
                     length b = length buf
                     /\ forall j f, read_at (pattern_list pat) j = Some f ->
                                    j < i ->
                                    read_at b j
                                    = Some (sample_location scalp
                                              (follicle_sample f)))
                  body 0 n buf) as (buf' & Hrun & Hlen & Hall)
  end.
  - lia.
  - split; [reflexivity|]. intros j f Hf Hj.
    apply read_at_lt in Hf. lia.
  - intros i b Hi [Hlen Hprev].
    destruct (read_at_is_Some (pattern_list pat) i) as [f Hf]; [lia|].
    rewrite Hf. cbn [mbind option_bind].
    unfold sample_location in *.
    destruct (BKE_mesh_sample_eval scalp (follicle_sample f))
      as [[[ok loc] nor] tang] eqn:Eeval.
    rewrite write_at_in_range by lia.
    eexists. split; [reflexivity|]. split; [now rewrite length_insert|].
    intros j f' Hf' Hj. destruct (Z.eq_dec j i) as [->|Hne].
    + rewrite Hf in Hf'. injection Hf' as <-. rewrite Eeval. simpl.
      apply read_at_insert_eq. lia.
    + assert (0 <= j) by (apply read_at_lt in Hf'; lia).
      rewrite read_at_insert_ne by lia. apply Hprev; [assumption|lia].
  - rewrite Hrun. cbn [mbind option_bind].
    exists buf'. split; [reflexivity|]. split; [lia|]. assumption.
Qed.

End RootPositions.

(** The statement applies to the cache that holds the curves of the two
    guide strands and one bound follicle. *)
Lemma update_fiber_root_positions_stores_locations_witness :
  exists buf,
    @update_fiber_root_positions Example.services Example.bound_pattern tt
      Example.curves_only_cache
    = Some (mkHairExportCache
              (fiber_curves Example.curves_only_cache)
              (cache_totcurves Example.curves_only_cache)
              (fiber_verts Example.curves_only_cache)
              (fiber_tangents Example.curves_only_cache)
              (fiber_normals Example.curves_only_cache)
              (cache_totverts Example.curves_only_cache)
              (cache_follicles Example.curves_only_cache)
              (totfibercurves Example.curves_only_cache)
              (fiber_numverts Example.curves_only_cache) (Live buf)
              (totfiberverts Example.curves_only_cache))
    /\ Z.of_nat (length buf) = totfibercurves Example.curves_only_cache
    /\ forall i f, read_at (pattern_list Example.bound_pattern) i = Some f ->
                   i < totfibercurves Example.curves_only_cache ->
                   read_at buf i
                   = Some (@sample_location Example.services tt
                             (follicle_sample f)).
Proof.
  apply (@update_fiber_root_positions_stores_locations Example.services
           Example.bound_pattern tt Example.curves_only_cache).
  - discriminate.
  - simpl. lia.
Defined.

(** * Further properties of the guide curves *)

(** ** Start indices *)

(** Where the loop of [hair_curve_calc_vertstart] is defined, it returns
    the offset plus the sum of the vertex counts and gives every curve the
    sum before it. *)
Lemma calc_vertstart_loop_Some (cs out : list HairFiberCurve) (t tot : Z) :
  calc_vertstart_loop cs t = Some (out, tot) ->
  tot = t + sum_counts (map numverts cs)
  /\ length out = length cs
  /\ forall i : nat,
       out !! i
       = (fun c => mkHairFiberCurve (mesh_sample c) (numverts c)
                     (t + sum_counts (map numverts (take i cs)))
                     (taper_length c) (taper_thickness c)) <$> cs !! i.
Proof.
  revert t out. induction cs as [|c cs IH]; intros t out; simpl.
  - intros [= <- <-]. unfold sum_counts. simpl. split; [lia|]. split; reflexivity.
  - destruct (int_add t (numverts c)) as [t1|] eqn:Et; [|discriminate].
    cbn [mbind option_bind].
    destruct (calc_vertstart_loop cs t1) as [[out' tot']|] eqn:E; [|discriminate].
    cbn [mbind option_bind]. intros [= <- <-].
    apply int_add_Some in Et as [-> _].
    destruct (IH _ _ E) as (Htot & Hlen & Hlook).
    unfold sum_counts in *. cbn [fold_right]. split; [lia|].
    split; [simpl; now rewrite Hlen|].
    intros [|i]; simpl.
    + now rewrite Z.add_0_r.
    + rewrite Hlook. destruct (cs !! i); simpl; [|reflexivity].
      do 2 f_equal. lia.
Qed.

(** The loop is defined when every running total of the vertex counts,
    from the offset on, is an [int]. *)
Lemma calc_vertstart_loop_defined (cs : list HairFiberCurve) (t : Z) :
  (forall i : nat,
     INT_MIN <= t + sum_counts (take i (map numverts cs)) <= INT_MAX) ->
  is_Some (calc_vertstart_loop cs t).
Proof.
  revert t. induction cs as [|c cs IH]; intros t Hint; simpl; [eauto|].
  pose proof (Hint 1%nat) as H1. cbn in H1. rewrite take_0 in H1.
  unfold sum_counts in H1. cbn in H1.
  rewrite int_add_in_range by lia. cbn [mbind option_bind].
  destruct (IH (t + numverts c)) as [[out tot] ->].
  - intros i. specialize (Hint (S i)). cbn in Hint.
    unfold sum_counts in *. cbn [fold_right] in Hint. lia.
  - cbn [mbind option_bind]. eauto.
Qed.

(** X9.  [hair_curve_calc_vertstart] lays the curves out one after the
    other.  The offset is an [int]: when every running total of the vertex
    counts is one, the function returns the sum of the vertex counts of all
    curves, gives curve [i] the sum of the vertex counts of the curves
    before it as start index, and changes nothing else (the other fields of
    each curve, the number of curves, the vertices, the flags and the
    pattern). *)
Theorem calc_vertstart_prefix_sums (hsys : HairSystem) :
  running_totals_are_int (map numverts (curves (curve_data hsys))) ->
  exists hsys',
    hair_curve_calc_vertstart hsys
    = Some (hsys', sum_counts (map numverts (curves (curve_data hsys))))
    /\ length (curves (curve_data hsys')) = length (curves (curve_data hsys))
    /\ (forall (i : nat) (c : HairFiberCurve),
          curves (curve_data hsys) !! i = Some c ->
          curves (curve_data hsys') !! i
          = Some (mkHairFiberCurve (mesh_sample c) (numverts c)
                    (sum_counts
                       (map numverts (take i (curves (curve_data hsys)))))
                    (taper_length c) (taper_thickness c)))
    /\ verts (curve_data hsys') = verts (curve_data hsys)
    /\ hsys_flag hsys' = hsys_flag hsys
    /\ pattern hsys' = pattern hsys.
Proof.
  intros Hint. unfold hair_curve_calc_vertstart.
  set (cs := curves (curve_data hsys)) in *.
  destruct (calc_vertstart_loop_defined cs 0) as [[out tot] E].
  { intros i. rewrite Z.add_0_l. apply Hint. }
  rewrite E. cbn [mbind option_bind].
  destruct (calc_vertstart_loop_Some _ _ _ _ E) as (-> & Hlen & Hlook).
  rewrite Z.add_0_l. eexists. split; [reflexivity|]. cbn.
  split; [assumption|]. split; [|repeat split].
  intros i c Hc. rewrite Hlook, Hc. reflexivity.
Qed.

(** The statement applies to the two guide strands, of two vertices
    each. *)
Lemma calc_vertstart_prefix_sums_witness :
  exists hsys',
    hair_curve_calc_vertstart (mkHairSystem 0 None Example.two_strands)
    = Some (hsys', 4)
    /\ length (curves (curve_data hsys')) = 2%nat.
Proof.
  destruct (calc_vertstart_prefix_sums
              (mkHairSystem 0 None Example.two_strands))
    as (hsys' & Hrun & Hlen & _).
  - intros [|[|[|i]]]; cbn; unfold INT_MIN, INT_MAX; lia.
  - exists hsys'. split; [exact Hrun|exact Hlen].
Defined.

(** Where the "curves" loop is defined, every guide curve has a vertex,
    the total is the number of vertices of the subdivided curves and, when
    there is a curve, the level is a shift an [int] allows and the total is
    an [int]. *)
Lemma export_curves_total (subdiv : Z) (orig cs : list HairFiberCurve)
    (t tot : Z) :
  export_curves subdiv orig t = Some (cs, tot) ->
  Forall (fun o => 1 <= numverts o) orig
  /\ (orig <> [] -> 0 <= subdiv < 32 /\ tot <= INT_MAX)
  /\ (0 <= subdiv ->
      tot = t + (sum_counts (map numverts orig) - Z.of_nat (length orig))
                * 2 ^ subdiv
            + Z.of_nat (length orig)).
Proof.
  revert t cs. induction orig as [|o orig IH]; intros t cs.
  - simpl. intros [= <- <-]. split; [constructor|]. split; [congruence|].
    unfold sum_counts. simpl. lia.
  - cbn [export_curves].
    destruct (hair_get_strand_subdiv_length (numverts o) subdiv) as [n|] eqn:En;
      [|discriminate]. cbn [mbind option_bind].
    destruct (int_add t n) as [t1|] eqn:Et; [|discriminate].
    cbn [mbind option_bind].
    destruct (export_curves subdiv orig t1) as [[out tot']|] eqn:E; [|discriminate].
    cbn [mbind option_bind]. intros [= <- <-].
    apply int_add_Some in Et as [-> Hr].
    apply subdiv_length_Some in En as (Hn & Hs & -> & Hmax).
    destruct (IH _ _ E) as (Hall & Hne & Htot).
    split; [constructor; assumption|]. split.
    + intros _. split; [lia|].
      destruct orig as [|o' orig'].
      * simpl in E. injection E as _ <-. lia.
      * now destruct Hne.
    + intros _. rewrite Htot by lia.
      cbn [map length]. unfold sum_counts. cbn [fold_right].
      fold (sum_counts (map numverts orig)).
      set (P := 2 ^ subdiv). set (S := sum_counts (map numverts orig)).
      rewrite Nat2Z.inj_succ. lia.
Qed.

Lemma export_curves_level_0 (cs out : list HairFiberCurve) (t tot : Z) :
  export_curves 0 cs t = Some (out, tot) ->
  calc_vertstart_loop cs t = Some (out, tot).
Proof.
  revert t out tot. induction cs as [|c cs IH]; intros t out tot; [auto|].
  cbn [export_curves calc_vertstart_loop].
  destruct (hair_get_strand_subdiv_length (numverts c) 0) as [n|] eqn:En;
    [|discriminate]. cbn [mbind option_bind].
  apply subdiv_length_Some in En as (_ & _ & -> & _).
  replace ((numverts c - 1) * 2 ^ 0 + 1) with (numverts c) by lia.
  destruct (int_add t (numverts c)) as [t1|]; [|discriminate].
  cbn [mbind option_bind].
  destruct (export_curves 0 cs t1) as [[out' tot']|] eqn:E; [|discriminate].
  rewrite (IH _ _ _ E). auto.
Qed.

Lemma sum_counts_nonneg (l : list Z) :
  Forall (fun x => 0 <= x) l -> 0 <= sum_counts l.
Proof.
  induction 1 as [|x l Hx _ IH]; unfold sum_counts in *; simpl; lia.
Qed.

Lemma sum_counts_app (l k : list Z) :
  sum_counts (l ++ k) = sum_counts l + sum_counts k.
Proof.
  induction l as [|x l IH]; unfold sum_counts in *; simpl; lia.
Qed.

Lemma sum_counts_take_le (l : list Z) (i : nat) (x : Z) :
  Forall (fun x => 0 <= x) l -> l !! i = Some x ->
  0 <= sum_counts (take i l)
  /\ sum_counts (take i l) + x = sum_counts (take (S i) l)
  /\ sum_counts (take (S i) l) <= sum_counts l.
Proof.
  intros Hl Hx.
  assert (Hpre : Forall (fun x => 0 <= x) (take i l)) by now apply Forall_take.
  assert (Hrest : Forall (fun x => 0 <= x) (drop (S i) l)) by now apply Forall_drop.
  apply sum_counts_nonneg in Hpre, Hrest.
  assert (E : sum_counts l
              = sum_counts (take (S i) l) + sum_counts (drop (S i) l))
    by (now rewrite <- sum_counts_app, take_drop).
  rewrite (take_S_r _ _ _ Hx), sum_counts_snoc in *. lia.
Qed.

Lemma sum_counts_ge_length (cs : list HairFiberCurve) :
  Forall (fun c => 1 <= numverts c) cs ->
  Z.of_nat (length cs) <= sum_counts (map numverts cs).
Proof.
  induction 1 as [|c cs Hc _ IH]; unfold sum_counts in *; simpl; lia.
Qed.

(** With vertex counts that are not negative and an [int] total, the loop
    of [hair_curve_calc_vertstart] is defined. *)
Lemma calc_vertstart_loop_nonneg (cs : list HairFiberCurve) :
  Forall (fun c => 0 <= numverts c) cs ->
  sum_counts (map numverts cs) <= INT_MAX ->
  is_Some (calc_vertstart_loop cs 0).
Proof.
  intros Hnn Hmax. apply calc_vertstart_loop_defined. intros i.
  assert (Hl : Forall (fun x => 0 <= x) (map numverts cs))
    by (apply Forall_map; exact Hnn).
  pose proof (sum_counts_prefix_le _ i Hl). unfold INT_MIN. lia.
Qed.

(** X10.  The "curves" block of the update agrees with the two helpers
    of the source it does not call.  When the block is defined, at a level
    from 0 to 31, [hair_curve_calc_vertstart] is defined on the guide
    curves, and the total number of vertices the block stores is
    [hair_get_strand_subdiv_numverts] of the number of guide curves and of
    the total [hair_curve_calc_vertstart] returns for them, which is defined
    in [int] arithmetic; and at subdivision level 0 the curves it stores are
    the guide curves with the start indices [hair_curve_calc_vertstart]
    gives them. *)
Theorem update_fiber_curves_totals (hsys : HairSystem) (subdiv : Z)
    (cache cache' : HairExportCache) :
  0 <= subdiv < 32 ->
  update_fiber_curves hsys subdiv cache = Some cache' ->
  cache_totcurves cache' = totcurves (curve_data hsys)
  /\ exists hsys1 tot,
       hair_curve_calc_vertstart hsys = Some (hsys1, tot)
       /\ hair_get_strand_subdiv_numverts (totcurves (curve_data hsys)) tot
            subdiv
          = Some (cache_totverts cache')
       /\ (subdiv = 0 ->
           fiber_curves cache' = Live (curves (curve_data hsys1))).
Proof.
  intros Hs. unfold update_fiber_curves, hair_curve_calc_vertstart.
  destruct (MEM_reallocN _ _ _); cbn [mbind option_bind]; [|discriminate].
  set (orig := curves (curve_data hsys)).
  destruct (export_curves subdiv orig 0) as [[cs tot]|] eqn:Eexp;
    cbn [mbind option_bind]; [|discriminate].
  intros [= <-]. cbn [cache_totcurves cache_totverts fiber_curves].
  split; [reflexivity|].
  destruct (export_curves_total _ _ _ _ _ Eexp) as (Hone & Hne & Htot).
  specialize (Htot (proj1 Hs)). rewrite Z.add_0_l in Htot.
  pose proof (sum_counts_ge_length orig Hone) as Hge.
  assert (Hpos : 0 < 2 ^ subdiv) by (apply Z.pow_pos_nonneg; lia).
  set (S := sum_counts (map numverts orig)) in *.
  set (n := Z.of_nat (length orig)) in *.
  assert (Hn0 : 0 <= n) by (unfold n; lia).
  assert (Hmax : tot <= INT_MAX).
  { destruct orig as [|o orig'] eqn:Eo.
    - unfold S, n, sum_counts in Htot. simpl in Htot. unfold INT_MAX. lia.
    - now destruct Hne. }
  assert (Hsum : (S - n) <= (S - n) * 2 ^ subdiv) by nia.
  destruct (calc_vertstart_loop_nonneg orig) as [[out tot0] Ecalc].
  { eapply Forall_impl; [exact Hone|]. intros c Hc. simpl in Hc. lia. }
  { fold S. lia. }
  rewrite Ecalc. cbn [mbind option_bind].
  destruct (calc_vertstart_loop_Some _ _ _ _ Ecalc) as (-> & _ & _).
  rewrite Z.add_0_l. fold S.
  eexists _, S. split; [reflexivity|]. split.
  - unfold hair_get_strand_subdiv_numverts, totcurves. fold orig. fold n.
    rewrite int_sub_in_range by (unfold INT_MIN; lia).
    cbn [mbind option_bind].
    rewrite int_shl_in_range by lia. cbn [mbind option_bind].
    rewrite int_add_in_range by (unfold INT_MIN; lia).
    f_equal. lia.
  - intros ->. cbn [curve_data curves].
    apply export_curves_level_0 in Eexp. rewrite Ecalc in Eexp.
    now injection Eexp as -> _.
Qed.

(** The statement applies to a new cache and the two guide strands, at
    level 1. *)
Lemma update_fiber_curves_totals_witness :
  exists cache',
    update_fiber_curves
      (Example.hair_system true [] Example.two_strands) 1
      BKE_hair_export_cache_new = Some cache'
    /\ cache_totcurves cache' = 2
    /\ cache_totverts cache' = 6
    /\ exists hsys1 tot,
         hair_curve_calc_vertstart
           (Example.hair_system true [] Example.two_strands)
         = Some (hsys1, tot)
         /\ hair_get_strand_subdiv_numverts 2 tot 1
            = Some (cache_totverts cache').
Proof.
  eexists. split; [vm_compute; reflexivity|].
  match goal with
  | |- cache_totcurves ?c = _ /\ _ =>
      destruct (update_fiber_curves_totals
                  (Example.hair_system true [] Example.two_strands) 1
                  BKE_hair_export_cache_new c)
        as (Hn & hsys1 & tot & Hcalc & Htot & _);
      [lia|vm_compute; reflexivity|]
  end.
  split; [exact Hn|]. split; [reflexivity|].
  exists hsys1, tot. split; [exact Hcalc|exact Htot].
Defined.

(** ** Opening and closing an edit of the guide curves *)

Lemma realloc_array_Some {A} (l l' : list A) (n : Z) (fresh : A) :
  realloc_array l n fresh = Some l' ->
  0 <= n /\ Z.of_nat (length l') = n
  /\ forall i x, l !! i = Some x -> Z.of_nat i < n -> l' !! i = Some x.
Proof.
  unfold realloc_array. destruct (Z.ltb_spec n 0); [discriminate|].
  intros [= <-]. split; [assumption|]. split.
  - rewrite length_app, length_take, length_replicate. lia.
  - intros i x Hx Hi. rewrite lookup_app_l.
    + rewrite lookup_take_lt by lia. assumption.
    + apply lookup_lt_Some in Hx. rewrite length_take. lia.
Qed.

(** X11.  [BKE_hair_fiber_curves_end] makes the vertex array fit the
    curves.  When no curve has a negative vertex count and the vertex
    counts add up to an [int], it returns, the vertex array then has as
    many elements as the curves have vertices in total, curve [i] starts
    where the curves before it end, and so every curve lies inside the
    vertex array.  The vertices that were there and still fit are kept, the
    fields of the curves other than the start index are untouched, and the
    flags of the hair system are not changed. *)
Theorem fiber_curves_end_fits_vertices (hsys : HairSystem) :
  Forall (fun c => 0 <= numverts c) (curves (curve_data hsys)) ->
  sum_counts (map numverts (curves (curve_data hsys))) <= INT_MAX ->
  exists hsys',
    BKE_hair_fiber_curves_end hsys = Some hsys'
    /\ totverts (curve_data hsys')
       = sum_counts (map numverts (curves (curve_data hsys)))
    /\ length (curves (curve_data hsys')) = length (curves (curve_data hsys))
    /\ (forall (i : nat) (c : HairFiberCurve),
          curves (curve_data hsys) !! i = Some c ->
          exists c',
            curves (curve_data hsys') !! i = Some c'
            /\ mesh_sample c' = mesh_sample c /\ numverts c' = numverts c
            /\ taper_length c' = taper_length c
            /\ taper_thickness c' = taper_thickness c
            /\ vertstart c'
               = sum_counts (map numverts (take i (curves (curve_data hsys))))
            /\ 0 <= vertstart c'
            /\ vertstart c' + numverts c' <= totverts (curve_data hsys'))
    /\ (forall (i : nat) (v : HairFiberVertex),
          verts (curve_data hsys) !! i = Some v ->
          Z.of_nat i < totverts (curve_data hsys') ->
          verts (curve_data hsys') !! i = Some v)
    /\ hsys_flag hsys' = hsys_flag hsys
    /\ pattern hsys' = pattern hsys.
Proof.
  intros Hnv Hmax. unfold BKE_hair_fiber_curves_end.
  set (cs := curves (curve_data hsys)) in *.
  assert (Hcalc : exists hsys1 tot,
             hair_curve_calc_vertstart hsys = Some (hsys1, tot)
             /\ tot = sum_counts (map numverts cs)
             /\ length (curves (curve_data hsys1)) = length cs
             /\ (forall (i : nat) (c : HairFiberCurve),
                   cs !! i = Some c ->
                   curves (curve_data hsys1) !! i
                   = Some (mkHairFiberCurve (mesh_sample c) (numverts c)
                             (sum_counts (map numverts (take i cs)))
                             (taper_length c) (taper_thickness c)))
             /\ verts (curve_data hsys1) = verts (curve_data hsys)
             /\ hsys_flag hsys1 = hsys_flag hsys
             /\ pattern hsys1 = pattern hsys).
  { unfold hair_curve_calc_vertstart. fold cs.
    destruct (calc_vertstart_loop_nonneg cs Hnv Hmax) as [[out tot] E].
    rewrite E. cbn [mbind option_bind].
    destruct (calc_vertstart_loop_Some _ _ _ _ E) as (Htot & Hlen & Hlook).
    eexists. exists tot. split; [reflexivity|]. cbn.
    split; [lia|]. split; [assumption|]. split; [|repeat split].
    intros i c Hc. rewrite Hlook, Hc. reflexivity. }
  destruct Hcalc as (hsys1 & tot & Hrun & Htot & Hlen & Hcurves & Hverts
                     & Hflag & Hpat).
  rewrite Hrun. cbn [mbind option_bind].
  assert (Hnn : Forall (fun x => 0 <= x) (map numverts cs))
    by (apply Forall_map; exact Hnv).
  assert (Hcurve : forall hsys',
             curves (curve_data hsys') = curves (curve_data hsys1) ->
             totverts (curve_data hsys') = tot ->
             forall (i : nat) (c : HairFiberCurve),
               cs !! i = Some c ->
               exists c',
                 curves (curve_data hsys') !! i = Some c'
                 /\ mesh_sample c' = mesh_sample c /\ numverts c' = numverts c
                 /\ taper_length c' = taper_length c
                 /\ taper_thickness c' = taper_thickness c
                 /\ vertstart c' = sum_counts (map numverts (take i cs))
                 /\ 0 <= vertstart c'
                 /\ vertstart c' + numverts c' <= totverts (curve_data hsys')).
  { intros hsys' Hcs Htv i c Hc. rewrite Hcs, (Hcurves i c Hc), Htv.
    eexists. split; [reflexivity|]. cbn.
    assert (Hi : map numverts cs !! i = Some (numverts c))
      by (rewrite list_lookup_fmap, Hc; reflexivity).
    destruct (sum_counts_take_le _ _ _ Hnn Hi) as (H0 & Hstep & Hle).
    rewrite <- !fmap_take in *.
    change (numverts <$> take i cs) with (map numverts (take i cs)) in *.
    repeat split; try reflexivity; lia. }
  destruct (Z.eqb_spec tot (totverts (curve_data hsys1))) as [Heq|Hne]; simpl.
  - exists hsys1. split; [reflexivity|]. split; [lia|]. split; [assumption|].
    split; [apply Hcurve; [reflexivity|lia]|].
    split; [intros i v Hv _; now rewrite Hverts|]. split; assumption.
  - assert (H0 : 0 <= tot) by (rewrite Htot; now apply sum_counts_nonneg).
    destruct (realloc_array (verts (curve_data hsys1)) tot fresh_vertex)
      as [vs|] eqn:Hre.
    2: { unfold realloc_array in Hre.
         destruct (Z.ltb_spec tot 0); [lia|discriminate]. }
    apply realloc_array_Some in Hre as (_ & Hlen' & Hkeep).
    cbn [mbind option_bind].
    set (hsys2 := mkHairSystem (hsys_flag hsys1) (pattern hsys1)
                    (mkHairCurveData (curves (curve_data hsys1)) vs)).
    assert (Htv : totverts (curve_data hsys2) = tot)
      by (unfold totverts; simpl; lia).
    exists hsys2. split; [reflexivity|]. split; [lia|]. split; [exact Hlen|].
    split; [apply Hcurve; [reflexivity|exact Htv]|].
    split; [|split; assumption].
    intros i v Hv Hi. simpl. apply Hkeep; [now rewrite Hverts|lia].
Qed.

(** The statement applies to the two guide strands before their vertex
    array is allocated. *)
Lemma fiber_curves_end_fits_vertices_witness :
  exists hsys',
    BKE_hair_fiber_curves_end
      (mkHairSystem 0 None (mkHairCurveData (curves Example.two_strands) []))
    = Some hsys'
    /\ totverts (curve_data hsys') = 4.
Proof.
  destruct (fiber_curves_end_fits_vertices
              (mkHairSystem 0 None
                 (mkHairCurveData (curves Example.two_strands) [])))
    as (hsys' & Hrun & Htot & _).
  - repeat constructor; cbn; lia.
  - vm_compute. discriminate.
  - exists hsys'. split; [exact Hrun|exact Htot].
Defined.

Lemma has_flag_lor_same (data : Z) :
  has_flag (Z.lor data HAIR_SYSTEM_UPDATE_FOLLICLE_BINDING)
           HAIR_SYSTEM_UPDATE_FOLLICLE_BINDING = true.
Proof.
  change HAIR_SYSTEM_UPDATE_FOLLICLE_BINDING with (2 ^ 8).
  rewrite has_flag_pow2, Z.lor_spec by lia.
  rewrite Z.pow2_bits_eqb by lia. apply orb_true_r.
Qed.

Lemma has_flag_clear_same (data : Z) :
  has_flag (clear_flag data HAIR_SYSTEM_UPDATE_FOLLICLE_BINDING)
           HAIR_SYSTEM_UPDATE_FOLLICLE_BINDING = false.
Proof.
  unfold clear_flag. change HAIR_SYSTEM_UPDATE_FOLLICLE_BINDING with (2 ^ 8).
  rewrite has_flag_pow2, Z.land_spec, Z.lnot_spec by lia.
  rewrite Z.pow2_bits_eqb by lia. apply andb_false_r.
Qed.

(** X12.  [BKE_hair_fiber_curves_begin] with a count that is not negative
    returns a hair system with that many curves, in which the curves that
    were there and still fit are kept and the vertices and the pattern are
    untouched.  When the count differs from the old one the follicle binding
    is flagged for update; when it is the same the hair system is returned
    as it is, flag included. *)
Theorem fiber_curves_begin_resizes (hsys : HairSystem) (ncurves : Z) :
  0 <= ncurves ->
  exists hsys',
    BKE_hair_fiber_curves_begin hsys ncurves = Some hsys'
    /\ totcurves (curve_data hsys') = ncurves
    /\ (forall (i : nat) (c : HairFiberCurve),
          curves (curve_data hsys) !! i = Some c -> Z.of_nat i < ncurves ->
          curves (curve_data hsys') !! i = Some c)
    /\ verts (curve_data hsys') = verts (curve_data hsys)
    /\ pattern hsys' = pattern hsys
    /\ (ncurves <> totcurves (curve_data hsys) ->
        has_flag (hsys_flag hsys') HAIR_SYSTEM_UPDATE_FOLLICLE_BINDING = true)
    /\ (ncurves = totcurves (curve_data hsys) -> hsys' = hsys).
Proof.
  intros Hn. unfold BKE_hair_fiber_curves_begin.
  destruct (Z.eqb_spec ncurves (totcurves (curve_data hsys))) as [Heq|Hne]; simpl.
  - exists hsys. split; [reflexivity|]. split; [lia|].
    split; [auto|]. split; [reflexivity|]. split; [reflexivity|].
    split; [lia|reflexivity].
  - destruct (realloc_array (curves (curve_data hsys)) ncurves fresh_curve)
      as [cs|] eqn:Hre.
    2: { unfold realloc_array in Hre.
         destruct (Z.ltb_spec ncurves 0); [lia|discriminate]. }
    apply realloc_array_Some in Hre as (_ & Hlen & Hkeep).
    cbn [mbind option_bind]. eexists. split; [reflexivity|].
    unfold totcurves, mark_binding_dirty. cbn.
    split; [exact Hlen|]. split; [exact Hkeep|].
    split; [reflexivity|]. split; [reflexivity|].
    split; [intros _; apply has_flag_lor_same|]. intros Heq. contradiction.
Qed.

(** The statement applies to the hair system with two guide strands
    resized to three. *)
Lemma fiber_curves_begin_resizes_witness :
  exists hsys',
    BKE_hair_fiber_curves_begin
      (Example.hair_system false [] Example.two_strands) 3 = Some hsys'
    /\ totcurves (curve_data hsys') = 3
    /\ has_flag (hsys_flag hsys') HAIR_SYSTEM_UPDATE_FOLLICLE_BINDING = true.
Proof.
  destruct (fiber_curves_begin_resizes
              (Example.hair_system false [] Example.two_strands) 3)
    as (hsys' & Hrun & Htot & _ & _ & _ & Hflag & _); [lia|].
  exists hsys'. split; [exact Hrun|]. split; [exact Htot|].
  apply Hflag. unfold totcurves. simpl. lia.
Defined.

(** ** Binding after an edit *)

Section BindAgain.
Context `{HairServices}.

(** X13.  After [BKE_hair_clear_fiber_curves] the binder does nothing: the
    clear removes the binding flag together with the curves, so
    [BKE_hair_bind_follicles] takes its early exit, returns true and leaves
    every follicle with the parent indices and weights it had, although no
    guide curve is left for them to refer to. *)
Theorem bind_after_clear_keeps_bindings (hsys : HairSystem) (scalp : Mesh) :
  totcurves (curve_data (BKE_hair_clear_fiber_curves hsys)) = 0
  /\ pattern (BKE_hair_clear_fiber_curves hsys) = pattern hsys
  /\ BKE_hair_bind_follicles (BKE_hair_clear_fiber_curves hsys) scalp
     = Some (BKE_hair_clear_fiber_curves hsys, true).
Proof.
  split; [reflexivity|]. split; [reflexivity|].
  unfold BKE_hair_bind_follicles.
  unfold BKE_hair_clear_fiber_curves at 1. cbn [hsys_flag].
  now rewrite has_flag_clear_same.
Qed.

Lemma bind_follicle_sample (scalp : Mesh) (tree : KDTree)
    (strandloc : list vec3) (f f' : HairFollicle) :
  bind_follicle scalp tree strandloc f = Some f' ->
  follicle_sample f' = follicle_sample f.
Proof.
  intros Hbind. apply bind_follicle_evaluated in Hbind.
  destruct (sample_evaluates scalp (follicle_sample f)); [|now subst].
  apply find_closest_strand_slots in Hbind as (g & -> & Hg & _).
  now rewrite sort_weights_sample.
Qed.

(** X14.  Whatever [BKE_hair_bind_follicles] does when it returns, it
    leaves the binding flag clear and every other flag as it was, does not
    touch the guide curves and their vertices, keeps a pattern where there
    was one, and keeps the follicles in number, in order and with their
    surface samples: only parent indices and weights can change. *)
Theorem bind_changes_only_bindings (hsys hsys' : HairSystem) (scalp : Mesh)
    (ret : bool) :
  BKE_hair_bind_follicles hsys scalp = Some (hsys', ret) ->
  has_flag (hsys_flag hsys') HAIR_SYSTEM_UPDATE_FOLLICLE_BINDING = false
  /\ (forall n, 0 <= n -> n <> 8 ->
        Z.testbit (hsys_flag hsys') n = Z.testbit (hsys_flag hsys) n)
  /\ curve_data hsys' = curve_data hsys
  /\ (pattern hsys = None <-> pattern hsys' = None)
  /\ (forall pat pat',
        pattern hsys = Some pat -> pattern hsys' = Some pat' ->
        num_follicles pat' = num_follicles pat
        /\ (follicles pat = None <-> follicles pat' = None)
        /\ map follicle_sample (pattern_list pat')
           = map follicle_sample (pattern_list pat)).
Proof.
  unfold BKE_hair_bind_follicles.
  assert (Hbit : forall n, 0 <= n -> n <> 8 ->
             Z.testbit (clear_flag (hsys_flag hsys)
                          HAIR_SYSTEM_UPDATE_FOLLICLE_BINDING) n
             = Z.testbit (hsys_flag hsys) n).
  { intros n Hn Hne. unfold clear_flag.
    change HAIR_SYSTEM_UPDATE_FOLLICLE_BINDING with (2 ^ 8).
    rewrite Z.land_spec, Z.lnot_spec, Z.pow2_bits_eqb by lia.
    destruct (Z.eqb_spec 8 n); [lia|]. apply andb_true_r. }
  destruct (has_flag (hsys_flag hsys) _) eqn:Hdirty; simpl.
  2: { intros [= <- _]. split; [assumption|]. split; [reflexivity|].
       split; [reflexivity|]. split; [tauto|].
       intros pat pat' Hp Hp'. rewrite Hp in Hp'. injection Hp' as <-.
       repeat split; tauto. }
  destruct (pattern hsys) as [pat|] eqn:Hpat.
  2: { intros [= <- _]. cbn. split; [apply has_flag_clear_same|].
       split; [exact Hbit|]. split; [reflexivity|]. split; [tauto|].
       intros ? ? [=]. }
  destruct (totcurves (curve_data hsys) =? 0).
  { intros [= <- _]. cbn. split; [apply has_flag_clear_same|].
    split; [exact Hbit|]. split; [reflexivity|].
    split; [split; discriminate|].
    intros ? pat' [= <-] [= <-].
    unfold num_follicles, pattern_list. cbn.
    destruct (follicles pat) as [fs|]; cbn.
    - rewrite length_map. split; [reflexivity|]. split; [split; discriminate|].
      rewrite map_map. reflexivity.
    - repeat split; tauto. }
  destruct (follicles pat) as [fs|] eqn:Hfs.
  2: { intros [= <- _]. cbn. split; [apply has_flag_clear_same|].
       split; [exact Hbit|]. split; [reflexivity|].
       split; [split; discriminate|].
       intros ? pat' [= <-] [= <-]. repeat split; tauto. }
  destruct (mapM _ fs) as [fs'|] eqn:Hmap; simpl; [|discriminate].
  intros [= <- _]. cbn. split; [apply has_flag_clear_same|].
  split; [exact Hbit|]. split; [reflexivity|].
  split; [split; discriminate|].
  intros ? pat' [= <-] [= <-].
  apply mapM_Some in Hmap.
  unfold num_follicles, pattern_list. rewrite Hfs. cbn.
  split; [now rewrite (Forall2_length _ _ _ Hmap)|].
  split; [split; discriminate|].
  clear Hfs. induction Hmap as [|f f' l l' Hf _ IH]; [reflexivity|].
  cbn. rewrite IH. f_equal. eapply bind_follicle_sample. exact Hf.
Qed.

(** X15.  Binding is lazy.  When [BKE_hair_bind_follicles] has returned, a
    second call on the hair system it produced changes nothing and returns
    true, also when the first call returned false because there was no
    guide strand. *)
Theorem bind_twice_is_bind_once (hsys hsys' : HairSystem) (scalp : Mesh)
    (ret : bool) :
  BKE_hair_bind_follicles hsys scalp = Some (hsys', ret) ->
  BKE_hair_bind_follicles hsys' scalp = Some (hsys', true).
Proof.
  intros Hbind. apply bind_not_dirty.
  unfold BKE_hair_bind_follicles in Hbind.
  destruct (has_flag (hsys_flag hsys) _) eqn:Hdirty; simpl in Hbind.
  2: { now injection Hbind as <- _. }
  destruct (pattern hsys) as [pat|].
  2: { injection Hbind as <- _. apply has_flag_clear_same. }
  destruct (totcurves (curve_data hsys) =? 0).
  { injection Hbind as <- _. apply has_flag_clear_same. }
  destruct (follicles pat) as [fs|].
  2: { injection Hbind as <- _. apply has_flag_clear_same. }
  destruct (mapM _ fs); simpl in Hbind; [|discriminate].
  injection Hbind as <- _. apply has_flag_clear_same.
Qed.

End BindAgain.

(** The statements apply to the hair system with one bound follicle and
    no guide strand, which the binder resets and answers with false. *)
Lemma bind_changes_only_bindings_witness :
  exists hsys',
    @BKE_hair_bind_follicles Example.services
      (Example.hair_system true
         [Example.bound_follicle (Example.sample_at 0 0 0)] Example.no_strands)
      tt = Some (hsys', false)
    /\ has_flag (hsys_flag hsys') HAIR_SYSTEM_UPDATE_FOLLICLE_BINDING = false
    /\ curve_data hsys' = Example.no_strands.
Proof.
  eexists. split; [vm_compute; reflexivity|].
  destruct (@bind_changes_only_bindings Example.services
              (Example.hair_system true
                 [Example.bound_follicle (Example.sample_at 0 0 0)]
                 Example.no_strands) _ tt false eq_refl)
    as (Hflag & _ & Hcd & _).
  split; [exact Hflag|exact Hcd].
Defined.

Lemma bind_twice_is_bind_once_witness :
  exists hsys',
    @BKE_hair_bind_follicles Example.services
      (Example.hair_system true
         [Example.bound_follicle (Example.sample_at 0 0 0)] Example.no_strands)
      tt = Some (hsys', false)
    /\ @BKE_hair_bind_follicles Example.services hsys' tt = Some (hsys', true).
Proof.
  eexists. split; [vm_compute; reflexivity|].
  apply (@bind_twice_is_bind_once Example.services
           (Example.hair_system true
              [Example.bound_follicle (Example.sample_at 0 0 0)]
              Example.no_strands) _ tt false).
  vm_compute. reflexivity.
Defined.

(** ** The curve setter by index *)

(** X16.  [BKE_hair_set_fiber_curve] by the index it is given.  Above the
    number of curves its assertion stops it.  Below zero or exactly at the
    number of curves it writes outside the array.  Inside the array it
    stores the sample, the vertex count and the taper of the curve, keeps
    the start index the curve had (so the start indices are stale until
    [BKE_hair_fiber_curves_end] recomputes them), leaves every other curve,
    the vertices and the pattern as they were, and flags the follicle
    binding for update. *)
Theorem set_fiber_curve_by_index (hsys : HairSystem) (index : Z)
    (sample : MeshSample) (nverts : Z) (tlength tthickness : float) :
  let result :=
    BKE_hair_set_fiber_curve hsys index sample nverts tlength tthickness in
  (totcurves (curve_data hsys) < index -> result = AssertionFailed)
  /\ (index < 0 \/ index = totcurves (curve_data hsys) -> result = OutOfBounds)
  /\ (0 <= index < totcurves (curve_data hsys) ->
      exists hsys' old,
        read_at (curves (curve_data hsys)) index = Some old
        /\ result = Stored hsys'
        /\ read_at (curves (curve_data hsys')) index
           = Some (mkHairFiberCurve sample nverts (vertstart old)
                     tlength tthickness)
        /\ (forall j, j <> index ->
              read_at (curves (curve_data hsys')) j
              = read_at (curves (curve_data hsys)) j)
        /\ totcurves (curve_data hsys') = totcurves (curve_data hsys)
        /\ verts (curve_data hsys') = verts (curve_data hsys)
        /\ pattern hsys' = pattern hsys
        /\ has_flag (hsys_flag hsys') HAIR_SYSTEM_UPDATE_FOLLICLE_BINDING
           = true).
Proof.
  intros result. subst result. unfold BKE_hair_set_fiber_curve, totcurves.
  set (n := Z.of_nat (length (curves (curve_data hsys)))).
  assert (Hn : n = Z.of_nat (length (curves (curve_data hsys)))) by reflexivity.
  split; [|split].
  - intros Hi. destruct (Z.leb_spec index n); [lia|reflexivity].
  - intros Hi. destruct (Z.leb_spec index n); [|lia].
    destruct Hi as [Hneg|Heq].
    + unfold read_at. destruct (Z.ltb_spec index 0); [reflexivity|lia].
    + rewrite Heq, Hn. now rewrite read_at_past_end.
  - intros Hi. destruct (Z.leb_spec index n); [|lia].
    rewrite Hn in Hi.
    destruct (read_at_is_Some (curves (curve_data hsys)) index Hi) as [old Hold].
    rewrite Hold, write_at_in_range by assumption.
    eexists. exists old. split; [reflexivity|]. split; [reflexivity|].
    unfold mark_binding_dirty. cbn.
    split; [apply read_at_insert_eq; assumption|].
    split; [intros j Hj; apply read_at_insert_ne; lia|].
    split; [now rewrite length_insert|].
    split; [reflexivity|]. split; [reflexivity|]. apply has_flag_lor_same.
Qed.

(** The third part applies to the second of the two guide strands. *)
Lemma set_fiber_curve_by_index_witness :
  exists hsys' old,
    read_at (curves Example.two_strands) 1 = Some old
    /\ BKE_hair_set_fiber_curve
         (Example.hair_system false [] Example.two_strands) 1
         (Example.sample_at 0 1 0) 5 one one = Stored hsys'
    /\ read_at (curves (curve_data hsys')) 1
       = Some (mkHairFiberCurve (Example.sample_at 0 1 0) 5 (vertstart old)
                 one one)
    /\ vertstart old = 2.
Proof.
  destruct (proj2 (proj2 (set_fiber_curve_by_index
                            (Example.hair_system false [] Example.two_strands)
                            1 (Example.sample_at 0 1 0) 5 one one)))
    as (hsys' & old & Hold & Hres & Hnew & _).
  - unfold totcurves. simpl. lia.
  - exists hsys', old. split; [exact Hold|]. split; [exact Hres|].
    split; [exact Hnew|].
    simpl in Hold. injection Hold as <-. reflexivity.
Defined.

(** * Further properties of the strand binder *)

(** ** Sorting the parent slots *)

(** X17.  [hair_fiber_sort_weights] is a sort of the four parent slots by
    weight: it returns the same four (index, weight) pairs in some order,
    so every weight stays with the strand it belongs to, it leaves the
    surface sample alone, and when no weight is a NaN the weights it
    returns are non-increasing from slot 0 to slot 3. *)
Theorem sort_weights_sorts_slots (follicle : HairFollicle) :
  Permutation (follicle_slots (hair_fiber_sort_weights follicle))
              (follicle_slots follicle)
  /\ follicle_sample (hair_fiber_sort_weights follicle)
     = follicle_sample follicle
  /\ (no_nan4 (parent_weight follicle) ->
      weights_sorted (parent_weight (hair_fiber_sort_weights follicle)) = true).
Proof.
  split; [|split].
  - unfold hair_fiber_sort_weights. cbn [seq fold_left].
    etransitivity; [apply sort_step_permutes; lia|].
    etransitivity; [apply sort_step_permutes; lia|].
    apply sort_step_permutes; lia.
  - apply sort_weights_sample.
  - apply sort_weights_sorted.
Qed.

(** The last part applies to a follicle whose second slot carries the
    weight: the sort moves that slot, with its index, to the front. *)
Lemma sort_weights_sorts_slots_witness :
  weights_sorted
    (parent_weight
       (hair_fiber_sort_weights
          (mkHairFollicle (Example.sample_at 0 0 0)
             (mkArray4 3 7 HAIR_STRAND_INDEX_NONE HAIR_STRAND_INDEX_NONE)
             (mkArray4 zero one zero zero)))) = true
  /\ parent_index
       (hair_fiber_sort_weights
          (mkHairFollicle (Example.sample_at 0 0 0)
             (mkArray4 3 7 HAIR_STRAND_INDEX_NONE HAIR_STRAND_INDEX_NONE)
             (mkArray4 zero one zero zero)))
     = mkArray4 7 3 HAIR_STRAND_INDEX_NONE HAIR_STRAND_INDEX_NONE.
Proof.
  split; [|reflexivity].
  apply (proj2 (proj2 (sort_weights_sorts_slots
                         (mkHairFollicle (Example.sample_at 0 0 0)
                            (mkArray4 3 7 HAIR_STRAND_INDEX_NONE
                               HAIR_STRAND_INDEX_NONE)
                            (mkArray4 zero one zero zero))))).
  repeat split.
Defined.

Lemma fge_not_fgt (a b : float) :
  is_nan a = false -> is_nan b = false ->
  fge a b = true -> fgt b a = false.
Proof.
  intros Ha Hb Hge. destruct (fgt b a) eqn:Hgt; [|reflexivity].
  unfold fge in Hge. unfold fgt in Hgt.
  apply fle_key in Hge; [|assumption..].
  apply flt_key in Hgt; [|assumption..].
  unfold key_le, key_lt in *. lia.
Qed.

(** X18.  The sort is stable on sorted input: a follicle whose weights are
    free of NaN and already non-increasing is returned as it is, indices
    included (equal weights are never exchanged); hence sorting twice is
    sorting once. *)
Theorem sort_weights_keeps_sorted (follicle : HairFollicle) :
  no_nan4 (parent_weight follicle) ->
  (weights_sorted (parent_weight follicle) = true ->
   hair_fiber_sort_weights follicle = follicle)
  /\ hair_fiber_sort_weights (hair_fiber_sort_weights follicle)
     = hair_fiber_sort_weights follicle.
Proof.
  assert (Hfix : forall f, no_nan4 (parent_weight f) ->
                   weights_sorted (parent_weight f) = true ->
                   hair_fiber_sort_weights f = f).
  { intros [s idx [w0 w1 w2 w3]] (N0 & N1 & N2 & N3) Hsorted.
    cbn in N0, N1, N2, N3. unfold weights_sorted in Hsorted. cbn in Hsorted.
    apply andb_prop in Hsorted as [Hsorted H23].
    apply andb_prop in Hsorted as [H01 H12].
    assert (H02 : fge w0 w2 = true) by (apply (fge_trans w0 w1 w2); assumption).
    assert (H03 : fge w0 w3 = true) by (apply (fge_trans w0 w2 w3); assumption).
    assert (H13 : fge w1 w3 = true) by (apply (fge_trans w1 w2 w3); assumption).
    apply fge_not_fgt in H01, H02, H03, H12, H13, H23; try assumption.
    unfold hair_fiber_sort_weights. cbn [seq fold_left].
    unfold sort_step at 3. unfold sort_find_max. cbn.
    rewrite H01. cbn. rewrite H02. cbn. rewrite H03. cbn.
    unfold sort_step at 2. unfold sort_find_max. cbn.
    rewrite H12. cbn. rewrite H13. cbn.
    unfold sort_step. unfold sort_find_max. cbn.
    rewrite H23. reflexivity. }
  intros Hnan. split; [now apply Hfix|].
  apply Hfix.
  - apply no_nan4_get. intros j Hj.
    apply (sort_weights_transfer (fun _ w => is_nan w = false)); [|assumption].
    intros j' Hj'. now apply no_nan4_get.
  - now apply sort_weights_sorted.
Qed.

(** The statement applies to a follicle bound to strand 0 with the
    weights (1, 0, 0, 0). *)
Lemma sort_weights_keeps_sorted_witness :
  hair_fiber_sort_weights (Example.bound_follicle (Example.sample_at 0 0 0))
  = Example.bound_follicle (Example.sample_at 0 0 0)
  /\ hair_fiber_sort_weights
       (hair_fiber_sort_weights
          (Example.bound_follicle (Example.sample_at 0 0 0)))
     = hair_fiber_sort_weights
         (Example.bound_follicle (Example.sample_at 0 0 0)).
Proof.
  destruct (sort_weights_keeps_sorted
              (Example.bound_follicle (Example.sample_at 0 0 0)))
    as [Hfix Hidem].
  - repeat split.
  - split; [apply Hfix; reflexivity|exact Hidem].
Defined.

(** * Further properties of the subdivider *)

(** What a loop has established when it returns. *)
Lemma for_loop_post {S} (I : Z -> S -> Prop) (body : Z -> S -> option S)
    (n : nat) (k : Z) (s s' : S) :
  for_loop n k body s = Some s' ->
  I k s ->
  (forall j t t', k <= j < k + Z.of_nat n -> I j t -> body j t = Some t' ->
                  I (j + 1) t') ->
  I (k + Z.of_nat n) s'.
Proof.
  revert k s. induction n as [|n IH]; intros k s Hrun Hk Hstep.
  - simpl in Hrun. injection Hrun as <-. now rewrite Z.add_0_r.
  - simpl in Hrun. destruct (body k s) as [t|] eqn:Hbody; [|discriminate].
    replace (k + Z.of_nat (Datatypes.S n)) with (k + 1 + Z.of_nat n) by lia.
    apply (IH (k + 1) t Hrun).
    + apply (Hstep k s t); [lia|assumption..].
    + intros j u u' Hj. apply Hstep. lia.
Qed.

Lemma for_range_post {S} (I : S -> Prop) (body : Z -> S -> option S)
    (from to : Z) (s s' : S) :
  for_range from to body s = Some s' ->
  I s ->
  (forall j t t', from <= j < to -> I t -> body j t = Some t' -> I t') ->
  I s'.
Proof.
  intros Hrun Hs Hstep.
  apply (for_loop_post (fun _ => I) body _ from s s' Hrun Hs).
  intros j t t' Hj. apply Hstep. lia.
Qed.

Lemma set_co_Some (r r' : list HairFiberVertex) (i : Z) (v : vec3) :
  set_co r i v = Some r' ->
  0 <= i < Z.of_nat (length r)
  /\ length r' = length r
  /\ map flag r' = map flag r
  /\ forall j, j <> i -> read_at r' j = read_at r j.
Proof.
  unfold set_co. destruct (read_at r i) as [old|] eqn:Hold; simpl; [|discriminate].
  intros [Hi ->]%write_at_Some.
  split; [assumption|]. split; [apply length_insert|]. split.
  - apply read_at_Some in Hold as [_ Hold].
    change (flag <$> <[Z.to_nat i:=mkHairFiberVertex (flag old) v]> r = flag <$> r).
    rewrite list_fmap_insert. apply list_insert_id.
    rewrite list_lookup_fmap, Hold. reflexivity.
  - intros j Hj. apply read_at_insert_ne; lia.
Qed.

(** The output array differs from the array given in positions only, and
    only below [N]. *)
Definition only_positions_below (N : Z) (r0 r : list HairFiberVertex) : Prop :=
  length r = length r0
  /\ map flag r = map flag r0
  /\ forall j, N <= j -> read_at r j = read_at r0 j.

Lemma writes_loop_post (from to N : Z) (wr : Z -> Z)
    (body : Z -> list HairFiberVertex -> option (list HairFiberVertex))
    (r0 r r' : list HairFiberVertex) :
  (forall k t t', body k t = Some t' -> exists v, set_co t (wr k) v = Some t') ->
  (forall k, from <= k < to -> wr k < N) ->
  for_range from to body r = Some r' ->
  only_positions_below N r0 r -> only_positions_below N r0 r'.
Proof.
  intros Hbody Hwr Hrun Hr.
  apply (for_range_post (only_positions_below N r0) body from to r r' Hrun Hr).
  intros k t t' Hk (Hlen & Hflag & Hout) Hstep.
  destruct (Hbody k t t' Hstep) as [v Hset].
  apply set_co_Some in Hset as (_ & Hlen' & Hflag' & Hother).
  split; [congruence|]. split; [congruence|].
  intros j Hj. rewrite Hother; [now apply Hout|].
  specialize (Hwr k Hk). lia.
Qed.

Ltac reads_done H :=
  cbv beta in H;
  repeat match type of H with
         | (read_at ?l ?i ≫= _) = Some _ =>
             destruct (read_at l i); simpl in H; [|discriminate]
         end.

Lemma subdivide_level_only_positions (nv subdiv d : Z)
    (r0 r r' : list HairFiberVertex) :
  0 <= d < subdiv ->
  subdivide_level nv subdiv d r = Some r' ->
  only_positions_below ((nv - 1) * 2 ^ subdiv + 1) r0 r ->
  only_positions_below ((nv - 1) * 2 ^ subdiv + 1) r0 r'.
Proof.
  intros Hd. unfold subdivide_level.
  destruct (int_sub nv 1) as [a|] eqn:Ea; [|discriminate].
  cbn [mbind option_bind]. apply int_sub_Some in Ea as [-> _].
  destruct (int_shl (nv - 1) d) as [num_edges'|] eqn:Ee; [|discriminate].
  cbn [mbind option_bind]. apply int_shl_Some in Ee as (_ & _ & -> & _).
  destruct (int_shl 1 (subdiv - d - 1)) as [hstep'|] eqn:Eh; [|discriminate].
  cbn [mbind option_bind]. apply int_shl_Some in Eh as (_ & _ & -> & _).
  destruct (int_shl 1 (subdiv - d)) as [step'|] eqn:Es; [|discriminate].
  cbn [mbind option_bind]. apply int_shl_Some in Es as (_ & _ & -> & _).
  rewrite !Z.mul_1_l.
  set (hstep := 2 ^ (subdiv - d - 1)).
  set (num_edges := (nv - 1) * 2 ^ d).
  assert (Hstep : 2 ^ (subdiv - d) = 2 * hstep).
  { unfold hstep. rewrite <- Z.pow_succ_r by lia. f_equal. lia. }
  rewrite Hstep.
  assert (Hh : 1 <= hstep).
  { unfold hstep.
    assert (0 < 2 ^ (subdiv - d - 1)) by (apply Z.pow_pos_nonneg; lia). lia. }
  assert (HEq : (nv - 1) * 2 ^ subdiv = num_edges * (2 * hstep)).
  { unfold num_edges. rewrite <- Hstep, <- Z.mul_assoc, <- Z.pow_add_r by lia.
    do 2 f_equal. lia. }
  rewrite HEq.
  destruct (subdivide_edge_points _ _ _ r) as [r1|] eqn:H1;
    cbn [mbind option_bind]; [|discriminate].
  intros H2 Hr.
  unfold subdivide_edge_points in H1. unfold subdivide_move_points in H2.
  eapply (writes_loop_post 1 num_edges _ (fun k => k * (2 * hstep)));
    [| |exact H2|].
  - intros k t t' Hbody. reads_done Hbody. eauto.
  - intros k Hk. nia.
  - eapply (writes_loop_post 0 num_edges _ (fun k => k * (2 * hstep) + hstep));
      [| |exact H1|exact Hr].
    + intros k t t' Hbody. reads_done Hbody. eauto.
    + intros k Hk. nia.
Qed.

(** X19.  Whenever [hair_curve_subdivide] returns, it returns
    [((numverts - 1) << subdiv) + 1], and the output array differs from
    the array it was given in the positions of the vertices below that
    index only: the array keeps its length, no vertex flag is written (the
    flags of the guide vertices are not copied), and every element from
    that index on is as it was, so the curves written one after the other
    into one array do not disturb each other. *)
Theorem subdivide_writes_only_its_positions (curve : HairFiberCurve)
    (verts : list HairFiberVertex) (subdiv : Z) (rootpos : vec3)
    (r_verts r : list HairFiberVertex) (n : Z) :
  hair_curve_subdivide curve verts subdiv rootpos r_verts = Some (r, n) ->
  hair_get_strand_subdiv_length (numverts curve) subdiv = Some n
  /\ length r = length r_verts
  /\ map flag r = map flag r_verts
  /\ forall j, n <= j -> read_at r j = read_at r_verts j.
Proof.
  unfold hair_curve_subdivide.
  destruct (int_shl 1 subdiv) as [step|] eqn:Est; [|discriminate].
  cbn [mbind option_bind]. apply int_shl_Some in Est as (_ & Hs & -> & _).
  rewrite Z.mul_1_l.
  destruct (read_at verts 0) as [v0|]; cbn [mbind option_bind]; [|discriminate].
  destruct (subdivide_spread _ _ _ _ _) as [r0|] eqn:Hspread;
    cbn [mbind option_bind]; [|discriminate].
  destruct (for_range 0 subdiv _ r0) as [r1|] eqn:Hlevels;
    cbn [mbind option_bind]; [|discriminate].
  unfold hair_get_strand_subdiv_length.
  destruct (int_sub (numverts curve) 1) as [a|] eqn:Ea; [|discriminate].
  cbn [mbind option_bind].
  destruct (int_shl a subdiv) as [b|] eqn:Eb; [|discriminate].
  cbn [mbind option_bind].
  destruct (int_add b 1) as [n'|] eqn:En; [|discriminate].
  cbn [mbind option_bind].
  intros [= <- <-]. split; [reflexivity|].
  apply int_sub_Some in Ea as [-> _].
  apply int_shl_Some in Eb as (_ & _ & -> & _).
  apply int_add_Some in En as [-> _].
  change (only_positions_below ((numverts curve - 1) * 2 ^ subdiv + 1) r_verts r1).
  eapply (for_range_post _ _ 0 subdiv r0 r1 Hlevels).
  - unfold subdivide_spread in Hspread.
    eapply (writes_loop_post 0 (numverts curve) _ (fun i => i * 2 ^ subdiv));
      [| |exact Hspread|].
    + intros k t t' Hbody. reads_done Hbody. eauto.
    + intros k Hk.
      assert (0 < 2 ^ subdiv) by (apply Z.pow_pos_nonneg; lia). nia.
    + repeat split.
  - intros d t t' Hd Ht Hlevel.
    eapply subdivide_level_only_positions; [|exact Hlevel|exact Ht]. lia.
Qed.

(** The statement applies to the guide curve with a corner, subdivided
    once into an array of seven vertices with the flags 0 to 6. *)
Lemma subdivide_writes_only_its_positions_witness :
  exists r,
    hair_curve_subdivide Example.corner_curve Example.corner_verts 1 zero_v3
      (map (fun k => mkHairFiberVertex k zero_v3) [0; 1; 2; 3; 4; 5; 6])
    = Some (r, 5)
    /\ length r = 7%nat
    /\ map flag r = [0; 1; 2; 3; 4; 5; 6]
    /\ read_at r 5 = Some (mkHairFiberVertex 5 zero_v3).
Proof.
  eexists. split; [vm_compute; reflexivity|].
  destruct (subdivide_writes_only_its_positions
              Example.corner_curve Example.corner_verts 1 zero_v3
              (map (fun k => mkHairFiberVertex k zero_v3) [0; 1; 2; 3; 4; 5; 6])
              _ 5 ltac:(vm_compute; reflexivity))
    as (_ & Hlen & Hflag & Hout).
  split; [exact Hlen|]. split; [exact Hflag|].
  rewrite (Hout 5) by lia. reflexivity.
Defined.

(** * Further properties of the geometry set *)

Section GeometrySetReads.
Variable Data : Type.

(** What a write access leaves behind, in each of its three cases: the
    set refers to the component returned, that component is allocated and
    not shared, it holds what the component of the set held before (nothing
    when there was none), and every other component that was allocated
    still is, with its geometry. *)
Lemma get_component_for_write_result (h h1 : Bke.Heap Data) (set_addr b : nat)
    (t : Bke.GeometryComponentType) :
  Bke.get_component_for_write Data h set_addr t = Some (h1, b) ->
  exists s c1,
    Bke.sets Data h !! set_addr = Some s
    /\ Bke.sets Data h1
       = <[set_addr := Bke.mkGeometrySet (Bke.set_users s)
                         (<[t := b]> (Bke.components_ s))]> (Bke.sets Data h)
    /\ Bke.components Data h1 !! b = Some c1
    /\ Bke.component_users Data c1 <= 1
    /\ (forall a, Bke.components_ s !! t = Some a ->
          exists c, Bke.components Data h !! a = Some c
                    /\ Bke.geometry_ Data c1 = Bke.geometry_ Data c)
    /\ (Bke.components_ s !! t = None -> Bke.geometry_ Data c1 = None)
    /\ (forall a c, a <> b -> Bke.components Data h !! a = Some c ->
          exists c', Bke.components Data h1 !! a = Some c'
                     /\ Bke.geometry_ Data c' = Bke.geometry_ Data c
                     /\ (Bke.components_ s !! t <> Some a -> c' = c))
    /\ (Bke.components_ s !! t <> Some b ->
        Bke.components Data h !! b = None)
    /\ (forall c, Bke.components Data h !! b = Some c ->
                  Bke.component_users Data c <= 1).
Proof.
  unfold Bke.get_component_for_write.
  destruct (Bke.sets Data h !! set_addr) as [s|] eqn:Hs; simpl; [|discriminate].
  destruct (Bke.components_ s !! t) as [a|] eqn:Ht.
  - destruct (Bke.components Data h !! a) as [c|] eqn:Hc; simpl; [|discriminate].
    unfold Bke.component_is_mutable.
    destruct (Z.leb_spec (Bke.component_users Data c) 1) as [Hu|Hu].
    + intros [= <- <-]. exists s, c. rewrite Ht. split; [reflexivity|]. split.
      { rewrite (insert_id (Bke.components_ s)) by assumption.
        destruct s. now rewrite insert_id. }
      split; [assumption|]. split; [assumption|]. split.
      { intros a' Ha'. injection Ha' as <-. eauto. }
      split; [discriminate|]. split; [eauto|]. split; [congruence|].
      intros c' Hc'. rewrite Hc in Hc'. now injection Hc' as <-.
    + set (b' := Bke.new_address (Bke.components Data h)).
      assert (Hfresh : Bke.components Data h !! b' = None)
        by apply new_address_fresh.
      assert (Hne : b' <> a) by congruence.
      unfold Bke.component_user_remove. cbn [Bke.components Bke.sets].
      rewrite lookup_insert_ne by assumption. rewrite Hc.
      destruct (Z.eqb_spec (Bke.component_users Data c - 1) 0); [lia|].
      intros [= <- <-]. exists s, (Bke.copy Data c). rewrite Ht.
      cbn [Bke.components Bke.sets].
      split; [reflexivity|]. split; [reflexivity|]. split.
      { rewrite lookup_insert_ne by congruence. apply lookup_insert_eq. }
      split; [unfold Bke.copy; destruct (Bke.geometry_ Data c); simpl; lia|].
      split.
      { intros a' Ha'. injection Ha' as <-. exists c. split; [assumption|].
        unfold Bke.copy. destruct (Bke.geometry_ Data c); reflexivity. }
      split; [discriminate|]. split; [|split; [intros _; exact Hfresh|]].
      2: { intros c' Hc'. rewrite Hfresh in Hc'. discriminate. }
      intros a' c' Hab Hc'. destruct (decide (a' = a)) as [->|Hna].
      * rewrite lookup_insert_eq. rewrite Hc in Hc'. injection Hc' as <-.
        eexists. split; [reflexivity|]. split; [reflexivity|]. congruence.
      * rewrite !lookup_insert_ne by congruence. eauto.
  - set (b' := Bke.new_address (Bke.components Data h)).
    assert (Hfresh : Bke.components Data h !! b' = None)
      by apply new_address_fresh.
    intros [= <- <-]. exists s, (Bke.create Data t). rewrite Ht.
    cbn [Bke.components Bke.sets].
    split; [reflexivity|]. split; [reflexivity|].
    split; [apply lookup_insert_eq|]. split; [simpl; lia|].
    split; [discriminate|]. split; [reflexivity|].
    split; [|split; [intros _; exact Hfresh|]].
    2: { intros c' Hc'. rewrite Hfresh in Hc'. discriminate. }
    intros a' c' Hab Hc'. rewrite lookup_insert_ne by congruence. eauto.
Qed.

(** What [replace_mesh] and [replace_pointcloud] leave behind: the set
    refers to a component that holds the geometry given, every other
    component that was allocated still is, with its geometry, and the
    component written is a new one unless the set had it for itself. *)
Lemma replace_geometry_result (h h' : Bke.Heap Data) (set_addr : nat)
    (t : Bke.GeometryComponentType) (d : option Data) (own : bool) :
  replace_geometry Data h set_addr t d own = Some h' ->
  exists s b c',
    Bke.sets Data h !! set_addr = Some s
    /\ Bke.sets Data h'
       = <[set_addr := Bke.mkGeometrySet (Bke.set_users s)
                         (<[t := b]> (Bke.components_ s))]> (Bke.sets Data h)
    /\ Bke.components Data h' !! b = Some c'
    /\ Bke.geometry_ Data c' = d
    /\ (forall p cp, p <> b -> Bke.components Data h !! p = Some cp ->
          exists cp', Bke.components Data h' !! p = Some cp'
                      /\ Bke.geometry_ Data cp' = Bke.geometry_ Data cp
                      /\ (Bke.components_ s !! t <> Some p -> cp' = cp))
    /\ (Bke.components_ s !! t <> Some b ->
        Bke.components Data h !! b = None)
    /\ (forall c, Bke.components Data h !! b = Some c ->
                  Bke.component_users Data c <= 1).
Proof.
  rewrite replace_geometry_unfold.
  destruct (Bke.get_component_for_write Data h set_addr t) as [[h1 b]|] eqn:Hget;
    simpl; [|discriminate].
  apply get_component_for_write_result in Hget
    as (s & c1 & Hs & Hsets & Hb & _ & _ & _ & Hframe & Hnew & Hinplace).
  unfold Bke.replace. rewrite Hb. simpl. intros [= <-].
  exists s, b. eexists. cbn [Bke.components Bke.sets].
  split; [exact Hs|]. split; [exact Hsets|].
  split; [apply lookup_insert_eq|]. split; [reflexivity|].
  split; [|split; assumption].
  intros p cp Hpb Hcp. rewrite lookup_insert_ne by congruence. eauto.
Qed.

(** The write access, and with it a replacement, is defined when the set
    is allocated and the component it has of the type, if any, is. *)
Lemma replace_geometry_defined (h : Bke.Heap Data) (set_addr : nat)
    (s : Bke.GeometrySet) (t : Bke.GeometryComponentType) (d : option Data)
    (own : bool) :
  Bke.sets Data h !! set_addr = Some s ->
  (forall q, Bke.components_ s !! t = Some q ->
             is_Some (Bke.components Data h !! q)) ->
  is_Some (replace_geometry Data h set_addr t d own).
Proof.
  intros Hs Halloc. rewrite replace_geometry_unfold.
  unfold Bke.get_component_for_write. rewrite Hs. cbn [mbind option_bind].
  destruct (Bke.components_ s !! t) as [q|] eqn:Ht.
  - destruct (Halloc q eq_refl) as [c Hc]. rewrite Hc. cbn [mbind option_bind].
    destruct (Bke.component_is_mutable Data c); cbn [mbind option_bind fst snd].
    + unfold Bke.replace. rewrite Hc. cbn [mbind option_bind]. eauto.
    + unfold Bke.replace, Bke.component_user_remove.
      cbn [Bke.components Bke.sets].
      assert (Hfresh : Bke.components Data h
                       !! Bke.new_address (Bke.components Data h) = None)
        by apply new_address_fresh.
      assert (Hne : Bke.new_address (Bke.components Data h) <> q) by congruence.
      rewrite lookup_insert_ne by assumption. rewrite Hc.
      destruct (_ =? 0); cbn [Bke.components Bke.sets].
      * rewrite lookup_delete_ne by congruence. rewrite lookup_insert_eq.
        cbn [mbind option_bind]. eauto.
      * rewrite lookup_insert_ne by congruence. rewrite lookup_insert_eq.
        cbn [mbind option_bind]. eauto.
  - cbn [mbind option_bind fst snd]. unfold Bke.replace.
    cbn [Bke.components Bke.sets]. rewrite lookup_insert_eq.
    cbn [mbind option_bind]. eauto.
Qed.

(** Reading through a set is reading the component the set refers to. *)
Lemma get_geometry_for_read_lookup (h : Bke.Heap Data) (set_addr : nat)
    (s : Bke.GeometrySet) (t : Bke.GeometryComponentType) :
  Bke.sets Data h !! set_addr = Some s ->
  Bke.get_geometry_for_read Data h set_addr t
  = match Bke.components_ s !! t with
    | None => Some None
    | Some p => Bke.geometry_ Data <$> Bke.components Data h !! p
    end.
Proof.
  intros Hs. unfold Bke.get_geometry_for_read, Bke.get_component_for_read,
    Bke.get_for_read. rewrite Hs. cbn [mbind option_bind].
  destruct (Bke.components_ s !! t) as [p|]; [|reflexivity].
  destruct (Bke.components Data h !! p); reflexivity.
Qed.

Lemma has_geometry_lookup (h : Bke.Heap Data) (set_addr : nat)
    (s : Bke.GeometrySet) (t : Bke.GeometryComponentType) :
  Bke.sets Data h !! set_addr = Some s ->
  Bke.has_geometry Data h set_addr t
  = match Bke.components_ s !! t with
    | None => Some false
    | Some p =>
        (fun c => match Bke.geometry_ Data c with Some _ => true | None => false end)
          <$> Bke.components Data h !! p
    end.
Proof.
  intros Hs. unfold Bke.has_geometry, Bke.get_component_for_read,
    Bke.component_has_geometry. rewrite Hs. cbn [mbind option_bind].
  destruct (Bke.components_ s !! t) as [p|]; [|reflexivity].
  destruct (Bke.components Data h !! p); reflexivity.
Qed.

(** X20.  Replacing and reading back.  When [replace_mesh] (or
    [replace_pointcloud]) returns, [get_mesh_for_read]
    ([get_pointcloud_for_read]) on the same set returns the geometry that
    was given, and [has_mesh] ([has_pointcloud]) is true exactly when that
    geometry is not null, whether the set had no such component, had one of
    its own or had a shared one. *)
Theorem replace_then_read (h h' : Bke.Heap Data) (set_addr : nat)
    (t : Bke.GeometryComponentType) (d : option Data) (own : bool) :
  replace_geometry Data h set_addr t d own = Some h' ->
  Bke.get_geometry_for_read Data h' set_addr t = Some d
  /\ Bke.has_geometry Data h' set_addr t
     = Some (match d with Some _ => true | None => false end).
Proof.
  intros Hrep.
  apply replace_geometry_result in Hrep
    as (s & b & c' & Hs & Hsets & Hb & Hd & _).
  assert (Hs' : Bke.sets Data h' !! set_addr
                = Some (Bke.mkGeometrySet (Bke.set_users s)
                          (<[t := b]> (Bke.components_ s))))
    by (rewrite Hsets; apply lookup_insert_eq).
  rewrite (get_geometry_for_read_lookup _ _ _ _ Hs').
  rewrite (has_geometry_lookup _ _ _ _ Hs').
  cbn [Bke.components_]. rewrite lookup_insert_eq, Hb. cbn.
  rewrite Hd. split; reflexivity.
Qed.

(** X21.  Replacing one geometry of a set does not disturb the other.
    When the set keeps its mesh and its point cloud in different
    components, [replace_mesh] leaves what [get_pointcloud_for_read]
    returns as it was, and [replace_pointcloud] leaves what
    [get_mesh_for_read] returns as it was. *)
Theorem replace_keeps_other_geometry (h h' : Bke.Heap Data) (set_addr : nat)
    (s : Bke.GeometrySet) (t t' : Bke.GeometryComponentType)
    (d x : option Data) (own : bool) :
  t <> t' ->
  Bke.sets Data h !! set_addr = Some s ->
  (forall a, Bke.components_ s !! t = Some a ->
             Bke.components_ s !! t' <> Some a) ->
  replace_geometry Data h set_addr t d own = Some h' ->
  Bke.get_geometry_for_read Data h set_addr t' = Some x ->
  Bke.get_geometry_for_read Data h' set_addr t' = Some x.
Proof.
  intros Htt Hs Hdistinct Hrep.
  apply replace_geometry_result in Hrep
    as (s0 & b & c' & Hs0 & Hsets & Hb & _ & Hframe & Hnew & _).
  rewrite Hs in Hs0. injection Hs0 as <-.
  assert (Hs' : Bke.sets Data h' !! set_addr
                = Some (Bke.mkGeometrySet (Bke.set_users s)
                          (<[t := b]> (Bke.components_ s))))
    by (rewrite Hsets; apply lookup_insert_eq).
  rewrite (get_geometry_for_read_lookup _ _ _ _ Hs).
  rewrite (get_geometry_for_read_lookup _ _ _ _ Hs').
  cbn [Bke.components_]. rewrite lookup_insert_ne by assumption.
  destruct (Bke.components_ s !! t') as [p|] eqn:Hp; [|auto].
  destruct (Bke.components Data h !! p) as [cp|] eqn:Hcp; simpl; [|discriminate].
  intros [= <-].
  assert (Hpb : p <> b).
  { intros ->. destruct (Bke.components_ s !! t) as [a|] eqn:Ht.
    - destruct (decide (a = b)) as [->|Hab].
      + now apply (Hdistinct b).
      + rewrite Hnew in Hcp by congruence. discriminate.
    - rewrite Hnew in Hcp by congruence. discriminate. }
  destruct (Hframe p cp Hpb Hcp) as (cp' & Hcp' & Hg & _).
  rewrite Hcp'. simpl. now rewrite Hg.
Qed.

End GeometrySetReads.

(** The statements apply to the set whose mesh component has two users,
    when it replaces its mesh. *)
Lemma replace_then_read_witness :
  exists h',
    replace_geometry Z Example.shared_heap 0 Bke.MeshType (Some 9) true = Some h'
    /\ Bke.get_geometry_for_read Z Example.shared_heap 0 Bke.MeshType
       = Some (Some 7)
    /\ Bke.get_geometry_for_read Z h' 0 Bke.MeshType = Some (Some 9)
    /\ Bke.has_geometry Z h' 0 Bke.MeshType = Some true.
Proof.
  eexists. split; [vm_compute; reflexivity|]. split; [reflexivity|].
  apply (replace_then_read Z Example.shared_heap _ 0 Bke.MeshType (Some 9) true).
  vm_compute. reflexivity.
Defined.

Lemma replace_keeps_other_geometry_witness :
  exists h',
    replace_geometry Z Example.shared_heap 0 Bke.PointCloudType (Some 9) true
    = Some h'
    /\ Bke.get_geometry_for_read Z h' 0 Bke.MeshType = Some (Some 7).
Proof.
  eexists. split; [vm_compute; reflexivity|].
  apply (replace_keeps_other_geometry Z Example.shared_heap _ 0 Example.mesh_set
           Bke.PointCloudType Bke.MeshType (Some 9) (Some 7) true).
  - discriminate.
  - reflexivity.
  - intros a Ha. vm_compute in Ha. discriminate.
  - vm_compute. reflexivity.
  - reflexivity.
Defined.

Section GeometrySetSharing.
Variable Data : Type.

(** A heap [h'] keeps the components of [h]: the same addresses are
    allocated, with the same type, geometry and ownership, and no user
    count has gone down. *)
Definition keeps_components (h h' : Bke.Heap Data) : Prop :=
  Bke.sets Data h' = Bke.sets Data h
  /\ (forall a, Bke.components Data h !! a = None ->
                Bke.components Data h' !! a = None)
  /\ forall a c, Bke.components Data h !! a = Some c ->
       exists c', Bke.components Data h' !! a = Some c'
                  /\ Bke.component_type Data c' = Bke.component_type Data c
                  /\ Bke.geometry_ Data c' = Bke.geometry_ Data c
                  /\ Bke.owned_ Data c' = Bke.owned_ Data c
                  /\ Bke.component_users Data c <= Bke.component_users Data c'.

Lemma keeps_components_refl (h : Bke.Heap Data) : keeps_components h h.
Proof.
  split; [reflexivity|]. split; [auto|].
  intros a c Hc. exists c. repeat split; [assumption|lia].
Qed.

Lemma component_user_add_keeps (h h' : Bke.Heap Data) (a : nat) :
  keeps_components h h' ->
  keeps_components h (Bke.component_user_add Data h' a)
  /\ forall c, Bke.components Data h !! a = Some c ->
       exists c', Bke.components Data (Bke.component_user_add Data h' a) !! a
                  = Some c'
                  /\ Bke.component_users Data c + 1
                     <= Bke.component_users Data c'.
Proof.
  intros (Hsets & Hnone & Hsome). unfold Bke.component_user_add.
  destruct (Bke.components Data h' !! a) as [c1|] eqn:Hc1.
  - split; [split; [exact Hsets|split]|].
    + intros a' Ha'. cbn. destruct (decide (a' = a)) as [->|Hne].
      * rewrite (Hnone a Ha') in Hc1. discriminate.
      * rewrite lookup_insert_ne by congruence. auto.
    + intros a' c Hc. cbn. destruct (decide (a' = a)) as [->|Hne].
      * rewrite lookup_insert_eq.
        destruct (Hsome a c Hc) as (c' & Hc' & Ht & Hg & Ho & Hu).
        rewrite Hc1 in Hc'. injection Hc' as <-.
        eexists. split; [reflexivity|]. cbn. repeat split; try assumption. lia.
      * rewrite lookup_insert_ne by congruence. auto.
    + intros c Hc. cbn. rewrite lookup_insert_eq.
      destruct (Hsome a c Hc) as (c' & Hc' & _ & _ & _ & Hu).
      rewrite Hc1 in Hc'. injection Hc' as <-.
      eexists. split; [reflexivity|]. cbn. lia.
  - split; [split; [exact Hsets|split; assumption]|].
    intros c Hc. destruct (Hsome a c Hc) as (c' & Hc' & _).
    rewrite Hc1 in Hc'. discriminate.
Qed.

(** The copy constructor of a set: the components stay where they are,
    and each component the set refers to has gained a user. *)
Lemma copy_set_shares (h : Bke.Heap Data) (s : Bke.GeometrySet) :
  keeps_components h (fst (Bke.copy_set Data h s))
  /\ snd (Bke.copy_set Data h s) = Bke.mkGeometrySet 1 (Bke.components_ s)
  /\ forall t a c,
       Bke.components_ s !! t = Some a ->
       Bke.components Data h !! a = Some c ->
       exists c', Bke.components Data (fst (Bke.copy_set Data h s)) !! a = Some c'
                  /\ Bke.geometry_ Data c' = Bke.geometry_ Data c
                  /\ Bke.component_users Data c + 1
                     <= Bke.component_users Data c'.
Proof.
  unfold Bke.copy_set. cbn [fst snd].
  split; [|split; [reflexivity|]].
  - apply (map_fold_weak_ind (fun h' _ => keeps_components h h')).
    + apply keeps_components_refl.
    + intros t a m h' _ Hh'. now apply component_user_add_keeps.
  - apply (map_fold_weak_ind
             (fun h' m =>
                keeps_components h h'
                /\ forall t a c,
                     m !! t = Some a ->
                     Bke.components Data h !! a = Some c ->
                     exists c', Bke.components Data h' !! a = Some c'
                                /\ Bke.geometry_ Data c' = Bke.geometry_ Data c
                                /\ Bke.component_users Data c + 1
                                   <= Bke.component_users Data c')).
    + split; [apply keeps_components_refl|]. intros t a c Ht.
      rewrite lookup_empty in Ht. discriminate.
    + intros t a m h' Hfresh [Hkeep Hshared].
      destruct (component_user_add_keeps h h' a Hkeep) as [Hkeep' Hadded].
      split; [exact Hkeep'|].
      intros t' a' c Ht' Hc.
      destruct Hkeep' as (_ & _ & Hsome).
      destruct (Hsome a' c Hc) as (c' & Hc' & _ & Hg & _ & Hu).
      exists c'. split; [exact Hc'|]. split; [exact Hg|].
      destruct (decide (t' = t)) as [->|Hne].
      * rewrite lookup_insert_eq in Ht'. injection Ht' as <-.
        destruct (Hadded c Hc) as (c'' & Hc'' & Hu'').
        rewrite Hc' in Hc''. injection Hc'' as <-. exact Hu''.
      * rewrite lookup_insert_ne in Ht' by congruence.
        destruct (Hshared t' a' c Ht' Hc) as (c1 & Hc1 & _ & Hu1).
        destruct Hkeep as (_ & _ & Hsome0).
        unfold Bke.component_user_add in Hc'.
        destruct (Bke.components Data h' !! a) as [ca|] eqn:Hca.
        -- cbn in Hc'. destruct (decide (a' = a)) as [->|Hna].
           ++ rewrite lookup_insert_eq in Hc'. injection Hc' as <-.
              rewrite Hca in Hc1. injection Hc1 as <-. cbn. lia.
           ++ rewrite lookup_insert_ne in Hc' by congruence.
              rewrite Hc1 in Hc'. injection Hc' as <-. exact Hu1.
        -- rewrite Hc1 in Hc'. injection Hc' as <-. exact Hu1.
Qed.

(** The third case of [make_geometry_set_mutable]: a set with more than
    one user. *)
Lemma make_mutable_shared (h : Bke.Heap Data) (a : nat) (s : Bke.GeometrySet) :
  Bke.sets Data h !! a = Some s ->
  1 < Bke.set_users s ->
  exists h' a',
    Bke.make_geometry_set_mutable Data h (Some a) = Some (h', a')
    /\ Bke.sets Data h !! a' = None
    /\ Bke.sets Data h' !! a'
       = Some (Bke.mkGeometrySet 1 (Bke.components_ s))
    /\ Bke.sets Data h' !! a
       = Some (Bke.mkGeometrySet (Bke.set_users s - 1) (Bke.components_ s))
    /\ (forall b, Bke.components Data h !! b = None ->
                  Bke.components Data h' !! b = None)
    /\ (forall b c, Bke.components Data h !! b = Some c ->
          exists c', Bke.components Data h' !! b = Some c'
                     /\ Bke.geometry_ Data c' = Bke.geometry_ Data c)
    /\ forall t b c,
         Bke.components_ s !! t = Some b ->
         Bke.components Data h !! b = Some c ->
         exists c', Bke.components Data h' !! b = Some c'
                    /\ Bke.component_users Data c + 1
                       <= Bke.component_users Data c'.
Proof.
  intros Hs Hu. unfold Bke.make_geometry_set_mutable.
  rewrite Hs. cbn [mbind option_bind]. unfold Bke.set_is_mutable.
  destruct (Z.leb_spec (Bke.set_users s) 1); [lia|].
  destruct (copy_set_shares h s) as ((Hsets & Hnone & Hsome) & Hnew & Hshared).
  destruct (Bke.copy_set Data h s) as [h1 new_set]. cbn [fst snd] in *.
  subst new_set.
  set (b := Bke.new_address (Bke.sets Data h1)).
  assert (Hfresh : Bke.sets Data h1 !! b = None) by apply new_address_fresh.
  assert (Hba : b <> a) by (rewrite Hsets in Hfresh; congruence).
  eexists. exists b. split; [reflexivity|]. cbn [Bke.sets Bke.components].
  split; [now rewrite <- Hsets|]. split; [apply lookup_insert_eq|].
  split; [rewrite lookup_insert_ne by congruence; apply lookup_insert_eq|].
  split; [exact Hnone|]. split.
  - intros b0 c Hc. destruct (Hsome b0 c Hc) as (c' & Hc' & _ & Hg & _). eauto.
  - intros t b0 c Ht Hc. destruct (Hshared t b0 c Ht Hc) as (c' & Hc' & _ & Hu').
    eauto.
Qed.

(** X22.  [make_geometry_set_mutable] leaves the pointer on a set that is
    not shared.  Without a set it allocates an empty one.  A set with at
    most one user is returned as it is, in an unchanged heap.  For a set
    with more users a new set is allocated that has one user and refers to
    the same components; the shared set stays where it is, with the same
    components and one user fewer; no component is added or removed or
    changes its geometry; and every component the set refers to has gained
    a user, so that it is shared between the two sets. *)
Theorem make_mutable_unshares_set (h h' : Bke.Heap Data)
    (geometry_set : option nat) (a' : nat) :
  Bke.make_geometry_set_mutable Data h geometry_set = Some (h', a') ->
  exists s',
    Bke.sets Data h' !! a' = Some s'
    /\ Bke.set_is_mutable s' = true
    /\ (geometry_set = None ->
        Bke.components_ s' = ∅ /\ Bke.sets Data h !! a' = None
        /\ Bke.components Data h' = Bke.components Data h)
    /\ forall a s,
         geometry_set = Some a -> Bke.sets Data h !! a = Some s ->
         Bke.components_ s' = Bke.components_ s
         /\ (Bke.set_users s <= 1 -> a' = a /\ h' = h)
         /\ (1 < Bke.set_users s ->
             Bke.sets Data h !! a' = None
             /\ Bke.set_users s' = 1
             /\ Bke.sets Data h' !! a
                = Some (Bke.mkGeometrySet (Bke.set_users s - 1)
                          (Bke.components_ s))
             /\ (forall b, Bke.components Data h !! b = None ->
                           Bke.components Data h' !! b = None)
             /\ (forall b c, Bke.components Data h !! b = Some c ->
                   exists c', Bke.components Data h' !! b = Some c'
                              /\ Bke.geometry_ Data c' = Bke.geometry_ Data c)
             /\ forall t b c,
                  Bke.components_ s !! t = Some b ->
                  Bke.components Data h !! b = Some c ->
                  exists c', Bke.components Data h' !! b = Some c'
                             /\ Bke.component_users Data c + 1
                                <= Bke.component_users Data c').
Proof.
  destruct geometry_set as [a|].
  - destruct (Bke.sets Data h !! a) as [s|] eqn:Hs.
    2: { unfold Bke.make_geometry_set_mutable. rewrite Hs. discriminate. }
    destruct (Z.le_gt_cases (Bke.set_users s) 1) as [Hu|Hu].
    + unfold Bke.make_geometry_set_mutable. rewrite Hs. cbn [mbind option_bind].
      unfold Bke.set_is_mutable.
      destruct (Z.leb_spec (Bke.set_users s) 1) as [_|]; [|lia].
      intros [= <- <-]. exists s. split; [assumption|].
      split; [now apply Z.leb_le|]. split; [discriminate|].
      intros a0 s0 [= <-] Hs0. rewrite Hs in Hs0. injection Hs0 as <-.
      split; [reflexivity|]. split; [auto|]. lia.
    + destruct (make_mutable_shared h a s Hs) as (h1 & a1 & Hrun & Hshared);
        [lia|].
      rewrite Hrun. intros [= <- <-].
      destruct Hshared as (Hfresh & Hnew & Hold & Hnone & Hsome & Hgain).
      eexists. split; [exact Hnew|]. split; [reflexivity|].
      split; [discriminate|].
      intros a0 s0 [= <-] Hs0. rewrite Hs in Hs0. injection Hs0 as <-.
      split; [reflexivity|]. split; [lia|]. intros _.
      repeat split; assumption.
  - unfold Bke.make_geometry_set_mutable.
    set (b := Bke.new_address (Bke.sets Data h)).
    assert (Hfresh : Bke.sets Data h !! b = None) by apply new_address_fresh.
    intros [= <- <-]. cbn [Bke.sets Bke.components].
    eexists. split; [apply lookup_insert_eq|]. split; [reflexivity|].
    split; [auto|]. discriminate.
Qed.

End GeometrySetSharing.

Section GeometrySetIsolation.
Variable Data : Type.

(** X23.  Copy on write across sets.  When a set with more than one user
    has been made mutable and the holder of the new set replaces a geometry
    in it, the holders of the shared set still read from it whatever they
    read before, for both component types, while the new set reads the
    geometry that was put in.  (The component replaced must have had a user,
    as every component that a set refers to has.) *)
Theorem write_after_make_mutable_isolates (h h1 h2 : Bke.Heap Data)
    (a a' : nat) (s : Bke.GeometrySet) (t : Bke.GeometryComponentType)
    (d : option Data) (own : bool) :
  Bke.sets Data h !! a = Some s ->
  1 < Bke.set_users s ->
  (forall q c, Bke.components_ s !! t = Some q ->
               Bke.components Data h !! q = Some c ->
               1 <= Bke.component_users Data c) ->
  Bke.make_geometry_set_mutable Data h (Some a) = Some (h1, a') ->
  replace_geometry Data h1 a' t d own = Some h2 ->
  a' <> a
  /\ Bke.get_geometry_for_read Data h2 a' t = Some d
  /\ forall t' x,
       Bke.get_geometry_for_read Data h a t' = Some x ->
       Bke.get_geometry_for_read Data h2 a t' = Some x.
Proof.
  intros Hs Hshared Hused Hmut Hrep.
  destruct (make_mutable_shared Data h a s Hs Hshared)
    as (h1' & a1 & Hrun & Hfresh & Hnewset & Hold & Hnone & Hsome & Hgain).
  rewrite Hrun in Hmut. injection Hmut as <- <-.
  assert (Haa : a1 <> a) by congruence.
  pose proof Hrep as Hrep0.
  apply replace_geometry_result in Hrep
    as (s0 & b & c' & Hs0 & Hsets & Hb & Hd & Hframe & Hnew & Hinplace).
  rewrite Hnewset in Hs0. injection Hs0 as <-. cbn [Bke.components_ Bke.set_users] in *.
  assert (Hbfresh : Bke.components Data h1' !! b = None).
  { apply Hnew. intros Hq.
    destruct (Bke.components Data h !! b) as [c|] eqn:Hc.
    - destruct (Hgain t b c Hq Hc) as (c1 & Hc1 & Hu).
      specialize (Hused b c Hq Hc). specialize (Hinplace c1 Hc1). lia.
    - exfalso. rewrite replace_geometry_unfold in Hrep0.
      unfold Bke.get_component_for_write in Hrep0.
      rewrite Hnewset in Hrep0. cbn [mbind option_bind Bke.components_] in Hrep0.
      rewrite Hq, (Hnone b Hc) in Hrep0. discriminate. }
  split; [exact Haa|].
  assert (Hs1 : Bke.sets Data h2 !! a1
                = Some (Bke.mkGeometrySet 1 (<[t := b]> (Bke.components_ s))))
    by (rewrite Hsets; apply lookup_insert_eq).
  assert (Hs2 : Bke.sets Data h2 !! a
                = Some (Bke.mkGeometrySet (Bke.set_users s - 1)
                          (Bke.components_ s)))
    by (rewrite Hsets, lookup_insert_ne by congruence; exact Hold).
  split.
  - rewrite (get_geometry_for_read_lookup _ _ _ _ _ Hs1).
    cbn [Bke.components_]. rewrite lookup_insert_eq, Hb. cbn. now rewrite Hd.
  - intros t' x.
    rewrite (get_geometry_for_read_lookup _ _ _ _ _ Hs).
    rewrite (get_geometry_for_read_lookup _ _ _ _ _ Hs2).
    cbn [Bke.components_].
    destruct (Bke.components_ s !! t') as [p|]; [|auto].
    destruct (Bke.components Data h !! p) as [cp|] eqn:Hcp; simpl; [|discriminate].
    intros [= <-].
    destruct (Hsome p cp Hcp) as (cp1 & Hcp1 & Hg1).
    assert (Hpb : p <> b) by congruence.
    destruct (Hframe p cp1 Hpb Hcp1) as (cp2 & Hcp2 & Hg2 & _).
    rewrite Hcp2. simpl. congruence.
Qed.

(** X24.  [GeometrySet::create_with_mesh] always returns: the set it
    creates is a new one with a single user, [get_mesh_for_read] on it
    returns the mesh given and [has_mesh] is true exactly when that mesh is
    not null, it has no point cloud, and the sets and components that
    existed are untouched. *)
Theorem create_with_mesh_holds_mesh (h : Bke.Heap Data) (mesh : option Data)
    (own : bool) :
  exists h' a s',
    Bke.create_with_mesh Data h mesh own = Some (h', a)
    /\ Bke.sets Data h !! a = None
    /\ Bke.sets Data h' !! a = Some s' /\ Bke.set_users s' = 1
    /\ Bke.get_geometry_for_read Data h' a Bke.MeshType = Some mesh
    /\ Bke.has_geometry Data h' a Bke.MeshType
       = Some (match mesh with Some _ => true | None => false end)
    /\ Bke.get_geometry_for_read Data h' a Bke.PointCloudType = Some None
    /\ (forall b sb, Bke.sets Data h !! b = Some sb ->
                     Bke.sets Data h' !! b = Some sb)
    /\ (forall b c, Bke.components Data h !! b = Some c ->
                    Bke.components Data h' !! b = Some c).
Proof.
  unfold Bke.create_with_mesh.
  set (a := Bke.new_address (Bke.sets Data h)).
  set (b := Bke.new_address (Bke.components Data h)).
  assert (Ha : Bke.sets Data h !! a = None) by apply new_address_fresh.
  assert (Hb : Bke.components Data h !! b = None) by apply new_address_fresh.
  unfold Bke.get_component_for_write. cbn [Bke.sets Bke.components].
  rewrite lookup_insert_eq. cbn [mbind option_bind Bke.components_].
  rewrite lookup_empty. fold b. cbn [mbind option_bind fst snd].
  unfold Bke.replace. cbn [Bke.sets Bke.components].
  rewrite lookup_insert_eq. cbn [mbind option_bind].
  eexists. exists a. eexists. split; [reflexivity|]. split; [exact Ha|].
  cbn [Bke.sets Bke.components].
  split; [apply lookup_insert_eq|]. split; [reflexivity|].
  unfold Bke.get_geometry_for_read, Bke.has_geometry, Bke.get_component_for_read,
    Bke.get_for_read, Bke.component_has_geometry.
  cbn [Bke.sets Bke.components].
  rewrite !lookup_insert_eq. cbn [mbind option_bind Bke.components_].
  rewrite lookup_insert_eq, !lookup_insert_eq.
  rewrite lookup_insert_ne, lookup_empty by discriminate.
  cbn. split; [reflexivity|]. split; [reflexivity|]. split; [reflexivity|].
  split.
  - intros b0 sb Hsb. rewrite !lookup_insert_ne by congruence. exact Hsb.
  - intros b0 c Hc. rewrite !lookup_insert_ne by congruence. exact Hc.
Qed.

End GeometrySetIsolation.

(** The statement applies to a set with two users whose mesh component
    has one user: after the copy the holder of the new set replaces the
    mesh, and the shared set still reads the mesh it had. *)
Lemma write_after_make_mutable_isolates_witness :
  exists h1 a' h2,
    Bke.make_geometry_set_mutable Z Example.shared_set_heap (Some 0%nat)
    = Some (h1, a')
    /\ replace_geometry Z h1 a' Bke.MeshType (Some 9) true = Some h2
    /\ a' <> 0%nat
    /\ Bke.get_geometry_for_read Z h2 a' Bke.MeshType = Some (Some 9)
    /\ Bke.get_geometry_for_read Z h2 0 Bke.MeshType = Some (Some 7).
Proof.
  edestruct (fun h1 a' h2 Hused =>
               write_after_make_mutable_isolates Z Example.shared_set_heap
                 h1 h2 0 a' (Bke.mkGeometrySet 2 {[ Bke.MeshType := 0%nat ]})
                 Bke.MeshType (Some 9) true eq_refl ltac:(simpl; lia) Hused)
    as (Hne & Hnew & Hold).
  - intros q c Hq Hc. vm_compute in Hq. injection Hq as <-.
    vm_compute in Hc. injection Hc as <-. simpl. lia.
  - vm_compute. reflexivity.
  - vm_compute. reflexivity.
  - eexists. eexists. eexists.
    split; [vm_compute; reflexivity|]. split; [vm_compute; reflexivity|].
    split; [exact Hne|]. split; [exact Hnew|].
    apply Hold. reflexivity.
Defined.

(** The statement applies to the set with two users. *)
Lemma make_mutable_unshares_set_witness :
  exists h' a' s',
    Bke.make_geometry_set_mutable Z Example.shared_set_heap (Some 0%nat)
    = Some (h', a')
    /\ Bke.sets Z h' !! a' = Some s'
    /\ Bke.set_is_mutable s' = true
    /\ Bke.components_ s' = {[ Bke.MeshType := 0%nat ]}
    /\ Bke.sets Z h' !! 0%nat
       = Some (Bke.mkGeometrySet 1 {[ Bke.MeshType := 0%nat ]}).
Proof.
  edestruct (fun h' a' =>
               make_mutable_unshares_set Z Example.shared_set_heap h'
                 (Some 0%nat) a')
    as (s' & Hs' & Hmut & _ & Hcase).
  - vm_compute. reflexivity.
  - destruct (Hcase 0%nat (Bke.mkGeometrySet 2 {[ Bke.MeshType := 0%nat ]})
                eq_refl eq_refl) as (Hcomps & _ & Hshared).
    destruct Hshared as (_ & _ & Hold & _); [simpl; lia|].
    eexists. eexists. exists s'.
    split; [vm_compute; reflexivity|]. split; [exact Hs'|].
    split; [exact Hmut|]. split; [exact Hcomps|exact Hold].
Defined.

(** * Further properties of the point distribute node *)

Section ScatterMesh.
Context `{Nodes.PointServices}.

Lemma fmul_nan_r (a : float) : fmul a S754_nan = S754_nan.
Proof. destruct a as [| | |[] ? ?]; reflexivity. Qed.

Lemma scatter_looptri_nan (mesh : Nodes.Mesh) (looptri_index : Z)
    (looptri : Z * Z * Z) :
  Nodes.scatter_looptri mesh S754_nan looptri_index looptri = None.
Proof.
  unfold Nodes.scatter_looptri. destruct looptri as [[l0 l1] l2].
  repeat match goal with
         | |- (read_at ?l ?i ≫= _) = None =>
             destruct (read_at l i); cbn [mbind option_bind]; [|reflexivity]
         end.
  rewrite fmul_nan_r.
  destruct (Nodes.get_float _) as [draw rng']. reflexivity.
Qed.

(** X27.  A density that is not a number is not caught: the node compares
    [density <= 0.0f], which is false for a NaN, and
    [scatter_points_from_mesh] then converts the NaN product of area and
    density to [int], which is undefined, for the first triangle of any mesh
    that has one. *)
Theorem scatter_nan_density_undefined (mesh : Nodes.Mesh)
    (density minimum_radius : float) :
  is_nan density = true ->
  Nodes.looptris mesh <> [] ->
  fle density zero = false
  /\ Nodes.scatter_points_from_mesh mesh density minimum_radius = None.
Proof.
  intros Hnan Htris. destruct density; try discriminate.
  split; [reflexivity|].
  unfold Nodes.scatter_points_from_mesh.
  destruct (Nodes.looptris mesh) as [|tri tris]; [contradiction|].
  cbn [imap mapM fst snd]. rewrite scatter_looptri_nan. reflexivity.
Qed.

(** The number of points of one triangle: [(int)(area * density)], plus
    one when the fractional part of [area * density] exceeds the first
    float of the generator seeded with the hash of the triangle index; the
    sum is an [int]. *)
Definition looptri_amount (area density : float) (looptri_index : Z)
  : option Z :=
  let draw :=
    fst (Nodes.get_float (Nodes.rng_of_seed (Nodes.BLI_hash_int looptri_index))) in
  n ← to_int (fmul area density);
  int_add n (if fgt (fractf (fmul area density)) draw then 1 else 0).

Lemma scatter_looptri_length (mesh : Nodes.Mesh) (density : float)
    (looptri_index : Z) (looptri : Z * Z * Z) (points : list vec3) :
  Nodes.scatter_looptri mesh density looptri_index looptri = Some points ->
  exists v0 v1 v2 n,
    (let '(l0, l1, l2) := looptri in
     (read_at (Nodes.mloop mesh) l0 ≫= read_at (Nodes.mvert mesh)) = Some v0
     /\ (read_at (Nodes.mloop mesh) l1 ≫= read_at (Nodes.mvert mesh)) = Some v1
     /\ (read_at (Nodes.mloop mesh) l2 ≫= read_at (Nodes.mvert mesh)) = Some v2)
    /\ looptri_amount (Nodes.area_tri_v3 v0 v1 v2) density looptri_index
       = Some n
    /\ length points = Z.to_nat n.
Proof.
  unfold Nodes.scatter_looptri. destruct looptri as [[l0 l1] l2].
  destruct (read_at (Nodes.mloop mesh) l0) as [i0|] eqn:E0;
    cbn [mbind option_bind]; [|discriminate].
  destruct (read_at (Nodes.mloop mesh) l1) as [i1|] eqn:E1;
    cbn [mbind option_bind]; [|discriminate].
  destruct (read_at (Nodes.mloop mesh) l2) as [i2|] eqn:E2;
    cbn [mbind option_bind]; [|discriminate].
  destruct (read_at (Nodes.mvert mesh) i0) as [v0|] eqn:V0;
    cbn [mbind option_bind]; [|discriminate].
  destruct (read_at (Nodes.mvert mesh) i1) as [v1|] eqn:V1;
    cbn [mbind option_bind]; [|discriminate].
  destruct (read_at (Nodes.mvert mesh) i2) as [v2|] eqn:V2;
    cbn [mbind option_bind]; [|discriminate].
  unfold looptri_amount.
  destruct (Nodes.get_float _) as [draw rng'] eqn:Ed.
  destruct (to_int _) as [k|] eqn:Hk; cbn [mbind option_bind]; [|discriminate].
  destruct (int_add k _) as [n|] eqn:Hn; cbn [mbind option_bind];
    [|discriminate].
  intros [= <-]. exists v0, v1, v2, n.
  split; [repeat split|]. split; [|apply length_emit_points].
  cbn [fst]. rewrite Hk. cbn [mbind option_bind]. exact Hn.
Qed.

(** The number of points each triangle of the mesh contributes, in the
    order of the triangles, from the triangle with index [i] on. *)
Fixpoint looptri_amounts (mesh : Nodes.Mesh) (density : float) (i : Z)
    (tris : list (Z * Z * Z)) : option (list Z) :=
  match tris with
  | [] => Some []
  | (l0, l1, l2) :: rest =>
      v0 ← read_at (Nodes.mloop mesh) l0 ≫= read_at (Nodes.mvert mesh);
      v1 ← read_at (Nodes.mloop mesh) l1 ≫= read_at (Nodes.mvert mesh);
      v2 ← read_at (Nodes.mloop mesh) l2 ≫= read_at (Nodes.mvert mesh);
      n ← looptri_amount (Nodes.area_tri_v3 v0 v1 v2) density i;
      ns ← looptri_amounts mesh density (i + 1) rest;
      Some (n :: ns)
  end.

Lemma looptri_amounts_length (mesh : Nodes.Mesh) (density : float) (i : Z)
    (tris : list (Z * Z * Z)) (amounts : list Z) :
  looptri_amounts mesh density i tris = Some amounts ->
  length amounts = length tris.
Proof.
  revert i amounts.
  induction tris as [|[[l0 l1] l2] l IH]; intros i ns; cbn [looptri_amounts].
  - now intros [= <-].
  - intros Hrun.
    repeat match type of Hrun with
           | (?x ≫= _) = Some _ =>
               destruct x eqn:?; cbn [mbind option_bind] in Hrun; [|discriminate]
           end.
    injection Hrun as <-. cbn. f_equal. eauto.
Qed.

Lemma scatter_from_length (mesh : Nodes.Mesh) (density : float)
    (tris : list (Z * Z * Z)) (k : nat) (per_tri : list (list vec3)) :
  mapM (fun it => Nodes.scatter_looptri mesh density (Z.of_nat (fst it)) (snd it))
       (imap (fun i tri => (k + i, tri)%nat) tris) = Some per_tri ->
  exists amounts,
    looptri_amounts mesh density (Z.of_nat k) tris = Some amounts
    /\ length (concat per_tri)
       = fold_right (fun n acc => (Z.to_nat n + acc)%nat) 0%nat amounts.
Proof.
  revert k per_tri. induction tris as [|tri tris IH]; intros k per_tri.
  - cbn. intros [= <-]. exists []. split; reflexivity.
  - cbn [imap mapM fst snd]. rewrite Nat.add_0_r.
    destruct (Nodes.scatter_looptri mesh density (Z.of_nat k) tri)
      as [pts|] eqn:Htri; cbn [mbind option_bind]; [|discriminate].
    rewrite (imap_ext _ (fun i tri => (S k + i, tri)%nat)) by (intros; cbn; f_equal; lia).
    destruct (mapM _ _) as [rest|] eqn:Hrest; cbn [mbind option_bind];
      [|discriminate].
    intros [= <-].
    destruct (IH (S k) rest Hrest) as (amounts & Hamounts & Hlen).
    apply scatter_looptri_length in Htri as (v0 & v1 & v2 & n & Hv & Hn & Hpts).
    destruct tri as [[l0 l1] l2]. destruct Hv as (Hv0 & Hv1 & Hv2).
    exists (n :: amounts). split.
    + cbn [looptri_amounts]. rewrite Hv0, Hv1, Hv2. cbn [mbind option_bind].
      rewrite Hn. cbn [mbind option_bind].
      replace (Z.of_nat k + 1) with (Z.of_nat (S k)) by lia.
      rewrite Hamounts. reflexivity.
    + cbn [concat fold_right]. rewrite length_app, Hpts, Hlen. reflexivity.
Qed.

(** X28.  The points of a mesh are the points of its triangles.  Whenever
    [scatter_points_from_mesh] returns, every triangle has its three
    corners in the mesh arrays and an amount [(int)(area * density)] plus
    one when the fractional part exceeds the draw seeded by the index of the
    triangle; the number of points returned is the sum of the amounts, an
    amount below zero counting as none; and a mesh without triangles gives
    no point. *)
Theorem scatter_counts_per_triangle (mesh : Nodes.Mesh)
    (density minimum_radius : float) (points : list vec3) :
  Nodes.scatter_points_from_mesh mesh density minimum_radius = Some points ->
  exists amounts,
    looptri_amounts mesh density 0 (Nodes.looptris mesh) = Some amounts
    /\ length amounts = length (Nodes.looptris mesh)
    /\ length points
       = fold_right (fun n acc => (Z.to_nat n + acc)%nat) 0%nat amounts
    /\ (Nodes.looptris mesh = [] -> points = []).
Proof.
  unfold Nodes.scatter_points_from_mesh.
  destruct (mapM _ _) as [per_tri|] eqn:Hmap; cbn [mbind option_bind];
    [|discriminate].
  intros [= <-].
  destruct (scatter_from_length mesh density (Nodes.looptris mesh) 0 per_tri)
    as (amounts & Hamounts & Hlen).
  { exact Hmap. }
  exists amounts. split; [exact Hamounts|]. split; [|split; [exact Hlen|]].
  - eapply looptri_amounts_length. exact Hamounts.
  - intros Hempty. rewrite Hempty in Hmap. cbn in Hmap.
    now injection Hmap as <-.
Qed.

End ScatterMesh.

(** The statements apply to the single triangle of area 1, with a
    density that is not a number and with the density 10. *)
Lemma scatter_nan_density_undefined_witness :
  fle S754_nan zero = false
  /\ @Nodes.scatter_points_from_mesh Example.point_services
       Example.unit_triangle S754_nan zero = None.
Proof.
  apply (@scatter_nan_density_undefined Example.point_services
           Example.unit_triangle S754_nan zero).
  - reflexivity.
  - discriminate.
Defined.

Lemma scatter_counts_per_triangle_witness :
  exists points amounts,
    @Nodes.scatter_points_from_mesh Example.point_services
      Example.unit_triangle (of_int 10) zero = Some points
    /\ @looptri_amounts Example.point_services Example.unit_triangle
         (of_int 10) 0 (Nodes.looptris Example.unit_triangle) = Some amounts
    /\ length amounts = 1%nat
    /\ length points
       = fold_right (fun n acc => (Z.to_nat n + acc)%nat) 0%nat amounts.
Proof.
  eexists.
  edestruct (@scatter_counts_per_triangle Example.point_services
               Example.unit_triangle (of_int 10) zero)
    as (amounts & Hamounts & Hlen & Hpoints & _).
  - vm_compute. reflexivity.
  - exists amounts. split; [vm_compute; reflexivity|].
    split; [exact Hamounts|]. split; [exact Hlen|exact Hpoints].
Defined.

(** ** Executing the node *)

Section ReplaceBoth.
Variable Data : Type.

(** [replace_mesh] followed by [replace_pointcloud] on one set, as the
    node calls them: both are defined when the components the set has are
    allocated and distinct, the set then reads the two geometries given,
    and a component that has more than one user, or that the set does not
    refer to, keeps its geometry. *)
Lemma replace_mesh_then_pointcloud (h : Bke.Heap Data) (a : nat)
    (s : Bke.GeometrySet) (d1 d2 : option Data) :
  Bke.sets Data h !! a = Some s ->
  (forall q, Bke.components_ s !! Bke.MeshType = Some q ->
             is_Some (Bke.components Data h !! q)) ->
  (forall p, Bke.components_ s !! Bke.PointCloudType = Some p ->
             is_Some (Bke.components Data h !! p)
             /\ Bke.components_ s !! Bke.MeshType <> Some p) ->
  exists h1 h2 s2,
    Bke.replace_mesh Data h a d1 true = Some h1
    /\ Bke.replace_pointcloud Data h1 a d2 true = Some h2
    /\ Bke.sets Data h2 = <[a := s2]> (Bke.sets Data h)
    /\ Bke.set_users s2 = Bke.set_users s
    /\ Bke.get_geometry_for_read Data h2 a Bke.MeshType = Some d1
    /\ Bke.get_geometry_for_read Data h2 a Bke.PointCloudType = Some d2
    /\ forall q cq,
         Bke.components Data h !! q = Some cq ->
         1 < Bke.component_users Data cq
         \/ (Bke.components_ s !! Bke.MeshType <> Some q
             /\ Bke.components_ s !! Bke.PointCloudType <> Some q) ->
         exists cq', Bke.components Data h2 !! q = Some cq'
                     /\ Bke.geometry_ Data cq' = Bke.geometry_ Data cq.
Proof.
  intros Hs Hmesh Hpc.
  destruct (replace_geometry_defined Data h a s Bke.MeshType d1 true Hs Hmesh)
    as [h1 Hrep1].
  pose proof Hrep1 as Hrun1.
  apply replace_geometry_result in Hrep1
    as (s0 & b & c1 & Hs0 & Hsets1 & Hb & Hd1 & Hframe1 & Hnew1 & Hin1).
  rewrite Hs in Hs0. injection Hs0 as <-.
  set (s1 := Bke.mkGeometrySet (Bke.set_users s)
               (<[Bke.MeshType := b]> (Bke.components_ s))) in *.
  assert (Hs1 : Bke.sets Data h1 !! a = Some s1)
    by (rewrite Hsets1; apply lookup_insert_eq).
  assert (Hpc1 : Bke.components_ s1 !! Bke.PointCloudType
                 = Bke.components_ s !! Bke.PointCloudType)
    by (unfold s1; cbn; now rewrite lookup_insert_ne).
  (* the point cloud component is not the component the mesh was written to *)
  assert (Hpb : forall p, Bke.components_ s !! Bke.PointCloudType = Some p ->
                          p <> b).
  { intros p Hp ->. destruct (Hpc b Hp) as [[cb Hcb] Hne].
    rewrite Hnew1 in Hcb by exact Hne. discriminate. }
  destruct (replace_geometry_defined Data h1 a s1 Bke.PointCloudType d2 true Hs1)
    as [h2 Hrep2].
  { intros p Hp. rewrite Hpc1 in Hp. destruct (Hpc p Hp) as [[cp Hcp] _].
    destruct (Hframe1 p cp (Hpb p Hp) Hcp) as (cp' & Hcp' & _). eauto. }
  pose proof Hrep2 as Hrun2.
  apply replace_geometry_result in Hrep2
    as (s1' & b2 & c2 & Hs1' & Hsets2 & Hb2 & Hd2 & Hframe2 & Hnew2 & Hin2).
  rewrite Hs1 in Hs1'. injection Hs1' as <-.
  set (s2 := Bke.mkGeometrySet (Bke.set_users s1)
               (<[Bke.PointCloudType := b2]> (Bke.components_ s1))) in *.
  assert (Hs2 : Bke.sets Data h2 !! a = Some s2)
    by (rewrite Hsets2; apply lookup_insert_eq).
  (* the two components written are different *)
  assert (Hbb : b <> b2).
  { intros <-. destruct (Bke.components_ s !! Bke.PointCloudType) as [p|] eqn:Hp.
    - destruct (decide (p = b)) as [->|Hne]; [now apply (Hpb b)|].
      rewrite Hnew2 in Hb by (rewrite Hpc1; congruence). discriminate.
    - rewrite Hnew2 in Hb by (rewrite Hpc1; congruence). discriminate. }
  exists h1, h2, s2. split; [exact Hrun1|]. split; [exact Hrun2|].
  split; [rewrite Hsets2, Hsets1; apply insert_insert_eq|].
  split; [reflexivity|]. split; [|split].
  - rewrite (get_geometry_for_read_lookup _ _ _ _ _ Hs2).
    unfold s2, s1. cbn [Bke.components_].
    rewrite lookup_insert_ne, lookup_insert_eq by discriminate.
    destruct (Hframe2 b c1 Hbb Hb) as (c1' & Hc1' & Hg & _).
    rewrite Hc1'. cbn. now rewrite Hg, Hd1.
  - rewrite (get_geometry_for_read_lookup _ _ _ _ _ Hs2).
    unfold s2. cbn [Bke.components_]. rewrite lookup_insert_eq, Hb2. cbn.
    now rewrite Hd2.
  - intros q cq Hcq Hkeep.
    assert (Hqb : q <> b).
    { intros ->. specialize (Hin1 cq Hcq).
      destruct Hkeep as [Hu|[Hm _]]; [lia|].
      rewrite Hnew1 in Hcq by exact Hm. discriminate. }
    destruct (Hframe1 q cq Hqb Hcq) as (cq1 & Hcq1 & Hg1 & Hsame1).
    assert (Hqb2 : q <> b2).
    { intros ->. specialize (Hin2 cq1 Hcq1).
      destruct (decide (Bke.components_ s !! Bke.PointCloudType = Some b2))
        as [Hp|Hp].
      - destruct Hkeep as [Hu|[_ Hnp]]; [|contradiction].
        destruct (Hpc b2 Hp) as [_ Hnm].
        rewrite (Hsame1 Hnm) in Hin2. lia.
      - rewrite Hnew2 in Hcq1 by (rewrite Hpc1; exact Hp). discriminate. }
    destruct (Hframe2 q cq1 Hqb2 Hcq1) as (cq2 & Hcq2 & Hg2 & _).
    exists cq2. split; [exact Hcq2|congruence].
Qed.

End ReplaceBoth.

Section NodeExec.
Context `{Nodes.PointServices}.

(** X29.  With a density that is zero or negative the node empties the
    geometry set it was given in place: it does not make the set mutable
    first, so whatever the user count of the set, the set at the address
    given, which every other holder of the set still points to, has
    neither mesh nor point cloud afterwards, and that same pointer goes to
    the output. *)
Theorem exec_nonpositive_density_empties_in_place (h : Bke.Heap Geometry)
    (a : nat) (s : Bke.GeometrySet) (density minimum_radius : float) :
  Bke.sets Geometry h !! a = Some s ->
  Bke.has_geometry Geometry h a Bke.MeshType = Some true ->
  fle density zero = true ->
  (forall p, Bke.components_ s !! Bke.PointCloudType = Some p ->
             is_Some (Bke.components Geometry h !! p)
             /\ Bke.components_ s !! Bke.MeshType <> Some p) ->
  exists h' s',
    geo_point_distribute_exec h (Some a) density minimum_radius
    = Some (h', Some a)
    /\ Bke.sets Geometry h' !! a = Some s'
    /\ Bke.set_users s' = Bke.set_users s
    /\ Bke.has_geometry Geometry h' a Bke.MeshType = Some false
    /\ Bke.has_geometry Geometry h' a Bke.PointCloudType = Some false.
Proof.
  intros Hs Hhas Hle Hpc.
  assert (Hmesh : forall q, Bke.components_ s !! Bke.MeshType = Some q ->
                            is_Some (Bke.components Geometry h !! q)).
  { intros q Hq. rewrite (has_geometry_lookup _ _ _ _ _ Hs), Hq in Hhas.
    destruct (Bke.components Geometry h !! q); [eauto|discriminate]. }
  destruct (replace_mesh_then_pointcloud Geometry h a s None None Hs Hmesh Hpc)
    as (h1 & h2 & s2 & Hrep1 & Hrep2 & Hsets & Husers & Hread_mesh & Hread_pc & _).
  assert (Hs2 : Bke.sets Geometry h2 !! a = Some s2)
    by (rewrite Hsets; apply lookup_insert_eq).
  exists h2, s2. split.
  - unfold geo_point_distribute_exec. rewrite Hhas. cbn [mbind option_bind negb].
    rewrite Hle, Hrep1. cbn [mbind option_bind]. rewrite Hrep2. reflexivity.
  - split; [exact Hs2|]. split; [exact Husers|].
    rewrite (get_geometry_for_read_lookup _ _ _ _ _ Hs2) in Hread_mesh.
    rewrite (get_geometry_for_read_lookup _ _ _ _ _ Hs2) in Hread_pc.
    rewrite (has_geometry_lookup _ _ _ _ Bke.MeshType Hs2).
    rewrite (has_geometry_lookup _ _ _ _ Bke.PointCloudType Hs2).
    split.
    + destruct (Bke.components_ s2 !! Bke.MeshType) as [q|]; [|reflexivity].
      destruct (Bke.components Geometry h2 !! q) as [cq|]; [|discriminate].
      cbn in *. injection Hread_mesh as ->. reflexivity.
    + destruct (Bke.components_ s2 !! Bke.PointCloudType) as [q|]; [|reflexivity].
      destruct (Bke.components Geometry h2 !! q) as [cq|]; [|discriminate].
      cbn in *. injection Hread_pc as ->. reflexivity.
Qed.

(** X30.  With a positive density the node puts the scattered points on
    the output as a point cloud: the output set has no mesh, and its point
    cloud holds exactly the points [scatter_points_from_mesh] returns for
    the mesh of the input, each with the radius [0.05f].  A set that was not
    shared is reused; for a shared set the output is a new set, and the set
    that was given still reads the mesh it had. *)
Theorem exec_scatters_into_pointcloud (h : Bke.Heap Geometry) (a : nat)
    (s : Bke.GeometrySet) (mesh : Nodes.Mesh) (density minimum_radius : float)
    (points : list vec3) :
  Bke.sets Geometry h !! a = Some s ->
  Bke.get_geometry_for_read Geometry h a Bke.MeshType
  = Some (Some (MeshGeometry mesh)) ->
  fle density zero = false ->
  Nodes.scatter_points_from_mesh mesh density minimum_radius = Some points ->
  (forall p, Bke.components_ s !! Bke.PointCloudType = Some p ->
             is_Some (Bke.components Geometry h !! p)
             /\ Bke.components_ s !! Bke.MeshType <> Some p) ->
  (forall q c, Bke.components_ s !! Bke.MeshType = Some q ->
               Bke.components Geometry h !! q = Some c ->
               1 <= Bke.component_users Geometry c) ->
  exists h' a',
    geo_point_distribute_exec h (Some a) density minimum_radius
    = Some (h', Some a')
    /\ Bke.get_geometry_for_read Geometry h' a' Bke.MeshType = Some None
    /\ Bke.get_geometry_for_read Geometry h' a' Bke.PointCloudType
       = Some (Some (pointcloud_of_points points))
    /\ (Bke.set_users s <= 1 -> a' = a)
    /\ (1 < Bke.set_users s ->
        a' <> a
        /\ Bke.get_geometry_for_read Geometry h' a Bke.MeshType
           = Some (Some (MeshGeometry mesh))).
Proof.
  intros Hs Hread Hpos Hscatter Hpc Hused.
  assert (Hex : exists q cq,
             Bke.components_ s !! Bke.MeshType = Some q
             /\ Bke.components Geometry h !! q = Some cq
             /\ Bke.geometry_ Geometry cq = Some (MeshGeometry mesh)).
  { pose proof Hread as Hlook.
    rewrite (get_geometry_for_read_lookup _ _ _ _ _ Hs) in Hlook.
    destruct (Bke.components_ s !! Bke.MeshType) as [q|]; [|discriminate].
    destruct (Bke.components Geometry h !! q) as [cq|] eqn:Hcq; [|discriminate].
    cbn in Hlook. injection Hlook as Hgeo. eauto. }
  destruct Hex as (q & cq & Hq & Hcq & Hgeo).
  assert (Hhas : Bke.has_geometry Geometry h a Bke.MeshType = Some true).
  { rewrite (has_geometry_lookup _ _ _ _ _ Hs), Hq, Hcq. cbn. now rewrite Hgeo. }
  unfold geo_point_distribute_exec. rewrite Hhas. cbn [mbind option_bind negb].
  rewrite Hpos, Hread. cbn [mbind option_bind]. rewrite Hscatter.
  cbn [mbind option_bind].
  destruct (Z.le_gt_cases (Bke.set_users s) 1) as [Hu|Hu].
  - (* the set is not shared: it is reused *)
    assert (Hmut : Bke.make_geometry_set_mutable Geometry h (Some a)
                   = Some (h, a)).
    { unfold Bke.make_geometry_set_mutable. rewrite Hs. cbn [mbind option_bind].
      unfold Bke.set_is_mutable.
      now destruct (Z.leb_spec (Bke.set_users s) 1); [|lia]. }
    rewrite Hmut. cbn [mbind option_bind fst snd].
    destruct (replace_mesh_then_pointcloud Geometry h a s None
                (Some (pointcloud_of_points points)) Hs)
      as (h1 & h2 & s2 & Hrep1 & Hrep2 & _ & _ & Hrm & Hrp & _).
    { intros q' Hq'. rewrite Hq in Hq'. injection Hq' as <-. eauto. }
    { exact Hpc. }
    rewrite Hrep1. cbn [mbind option_bind]. rewrite Hrep2.
    exists h2, a. split; [reflexivity|]. split; [exact Hrm|].
    split; [exact Hrp|]. split; [reflexivity|]. lia.
  - (* the set is shared: the node works on a copy *)
    destruct (make_mutable_shared Geometry h a s Hs Hu)
      as (h0 & a0 & Hmut & Hfresh & Hnewset & Hold & Hnone & Hsome & Hgain).
    rewrite Hmut. cbn [mbind option_bind fst snd].
    assert (Haa : a0 <> a) by congruence.
    destruct (replace_mesh_then_pointcloud Geometry h0 a0
                (Bke.mkGeometrySet 1 (Bke.components_ s)) None
                (Some (pointcloud_of_points points)) Hnewset)
      as (h1 & h2 & s2 & Hrep1 & Hrep2 & Hsets & _ & Hrm & Hrp & Hframe).
    { intros q' Hq'. cbn in Hq'. rewrite Hq in Hq'. injection Hq' as <-.
      destruct (Hsome q cq Hcq) as (c' & Hc' & _). eauto. }
    { intros p Hp. cbn in Hp. destruct (Hpc p Hp) as [[cp Hcp] Hne].
      split; [|exact Hne].
      destruct (Hsome p cp Hcp) as (c' & Hc' & _). eauto. }
    rewrite Hrep1. cbn [mbind option_bind]. rewrite Hrep2.
    exists h2, a0. split; [reflexivity|]. split; [exact Hrm|].
    split; [exact Hrp|]. split; [lia|]. intros _. split; [exact Haa|].
    assert (Hsa : Bke.sets Geometry h2 !! a
                  = Some (Bke.mkGeometrySet (Bke.set_users s - 1)
                            (Bke.components_ s)))
      by (rewrite Hsets, lookup_insert_ne by congruence; exact Hold).
    rewrite (get_geometry_for_read_lookup _ _ _ _ _ Hsa).
    cbn [Bke.components_]. rewrite Hq.
    destruct (Hgain Bke.MeshType q cq Hq Hcq) as (cq0 & Hcq0 & Hu0).
    destruct (Hsome q cq Hcq) as (cq0' & Hcq0' & Hg0).
    rewrite Hcq0 in Hcq0'. injection Hcq0' as <-.
    specialize (Hused q cq Hq Hcq).
    destruct (Hframe q cq0 Hcq0) as (cq2 & Hcq2 & Hg2); [left; lia|].
    rewrite Hcq2. cbn. congruence.
Qed.

End NodeExec.

(** The statements apply to a set that has two users and holds the
    triangle of area 1 as its mesh. *)
Lemma exec_nonpositive_density_empties_in_place_witness :
  exists h' s',
    @geo_point_distribute_exec Example.point_services Example.triangle_heap
      (Some 0%nat) zero zero = Some (h', Some 0%nat)
    /\ Bke.sets Geometry h' !! 0%nat = Some s'
    /\ Bke.set_users s' = 2
    /\ Bke.has_geometry Geometry h' 0 Bke.MeshType = Some false
    /\ Bke.has_geometry Geometry h' 0 Bke.PointCloudType = Some false.
Proof.
  apply (@exec_nonpositive_density_empties_in_place Example.point_services
           Example.triangle_heap 0
           (Bke.mkGeometrySet 2 {[ Bke.MeshType := 0%nat ]}) zero zero).
  - reflexivity.
  - reflexivity.
  - reflexivity.
  - intros p Hp. vm_compute in Hp. discriminate.
Defined.

Lemma exec_scatters_into_pointcloud_witness :
  exists points h' a',
    @Nodes.scatter_points_from_mesh Example.point_services
      Example.unit_triangle (of_int 10) zero = Some points
    /\ @geo_point_distribute_exec Example.point_services Example.triangle_heap
         (Some 0%nat) (of_int 10) zero = Some (h', Some a')
    /\ Bke.get_geometry_for_read Geometry h' a' Bke.MeshType = Some None
    /\ Bke.get_geometry_for_read Geometry h' a' Bke.PointCloudType
       = Some (Some (pointcloud_of_points points))
    /\ a' <> 0%nat
    /\ Bke.get_geometry_for_read Geometry h' 0 Bke.MeshType
       = Some (Some (MeshGeometry Example.unit_triangle)).
Proof.
  eexists.
  edestruct (fun points Hscatter =>
               @exec_scatters_into_pointcloud Example.point_services
                 Example.triangle_heap 0
                 (Bke.mkGeometrySet 2 {[ Bke.MeshType := 0%nat ]})
                 Example.unit_triangle (of_int 10) zero points
                 eq_refl eq_refl eq_refl Hscatter)
    as (h' & a' & Hrun & Hmesh & Hpc & _ & Hshared).
  - vm_compute. reflexivity.
  - intros p Hp. vm_compute in Hp. discriminate.
  - intros q c Hq Hc. vm_compute in Hq. injection Hq as <-.
    vm_compute in Hc. injection Hc as <-. simpl. lia.
  - destruct Hshared as [Hne Hold]; [simpl; lia|].
    exists h', a'. split; [vm_compute; reflexivity|].
    split; [exact Hrun|]. split; [exact Hmesh|]. split; [exact Hpc|].
    split; [exact Hne|exact Hold].
Defined.
